(* ===== verification/_CoqProject ===== *)
-Q . S2P
Prelude.v
CLib.v
Decimal.v
Posix.v
Sys.v
Md5.v
IsoMd5.v
IsoMd5Facts.v
IsoImage.v
IsoCheck.v
Cpio.v
CpioFacts.v
CpioInstall.v
CpioInstallFacts.v
IsysStr.v
Urls.v
Loader.v
Net.v
NetFacts.v
Ftp.v
FtpFacts.v
ModuleInfo.v
ModuleInfoFacts.v
Getparts.v
Lang.v
LangFacts.v
Popt.v
Modules.v
ModulesFacts.v
Kickstart.v
KickstartFacts.v
CmdLine.v
CmdLineFacts.v
Steps.v
StepsFacts.v
Host.v
Imount.v
ImountFacts.v
Misc.v
MiscFacts.v
Transfer.v
Methods.v
MethodsFacts.v
Keymap.v
KeymapFacts.v
Devices.v
DevicesFacts.v
Shutdown.v
ShutdownFacts.v
NetUp.v
NetUpFacts.v
DriverDisk.v
DriverDiskFacts.v
Firmware.v
FirmwareFacts.v
Fetch.v
FetchFacts.v
Telnet.v
TelnetFacts.v
