(* ===== verification/Prelude.v ===== *)
(** * Comodoo installer: verification library

    The installer of Comodoo is a descendant of Anaconda: stage 1 is a loader in
    C (src/installer/stage-1) with a library of system helpers
    (src/installer/isys) and the tools that put check sums into an ISO image and
    verify them (src/installer/isomd5sum).  This library models the parts of that
    C code that compute something: pure functions where the code is pure, state
    passing where it changes buffers, files or structures.

    ** How C is modelled

    [outcome] is the result of running C: [Ret], [Undef] where the C standard
    defines nothing (a read or write outside an object, a null pointer), and
    [NoFuel] for a loop that did not end within the turns the model allows.  A
    buffer is the list of its bytes and a pointer into it an index; integers are
    [Z] with their wrap-around written out ([wrap], [swrap], [w32], [s32]).  Memory
    that was never written is a parameter (junk), and so are the answers of the
    environment: files and descriptors are any instance of [FileOps] (Posix),
    gzip streams of [GzOps] (Cpio), calls on path names of [SysOps] (Sys), the
    option parser of [PoptLib] (Popt).  Posix, Cpio and Sys also have the concrete
    instances the witnesses run on: regular files and sockets, streams in memory,
    and a file system in memory.  CLib has the functions of the C library that
    the code uses, with their lemmas.

    ** Parts, files and theorems

    The checks of the installation media (src/installer/isomd5sum):
    - MD5 (md5.c): Md5.  Module [Spec] is RFC 1321, Module [Code] the C code for
      both byte orders; C1: the digest of a message absorbed in any pieces.
    - Sums in ISO images (libimplantisomd5.c, libcheckisomd5.c, checkisomd5.c):
      IsoMd5 with IsoMd5Facts; IsoImage and IsoCheck.  C2, C3: implanting, and
      that an implanted image passes the check; C4, C5: what a passed check
      means, and that checking ends.

    The helpers under the loader (src/installer/isys and parts of stage-1):
    - cpio archives (uncpio.c, cpio.c): Cpio with CpioFacts (headers and
      filtering, C6, C7), CpioInstall with CpioInstallFacts (unpacking, C8).  An
      abstract archive is a list of entries.
    - telnet (telnet.c, the relay of telnetd.c): Telnet, TelnetFacts; C9 and C10
      measure the code against the automaton [feed].
    - Strings and URLs (isys/str.c, stage-1/urls.c): IsysStr, Urls; C13.
    - Module descriptions and kernel modules (moduleinfo.c, modules.c):
      ModuleInfo, Modules and their Facts; C16, C18.
    - Partitions, devices, BIOS disks (getparts.c, isys/devices.c,
      eddsupport.c): Getparts, Devices, DevicesFacts; C28, C29.
    - Languages and keyboard maps (stage-1/lang.c, isys/lang.c, kbd.c): Lang,
      Keymap and their Facts; C12, C30.
    - Mounting and copying (isys/imount.c, loadermisc.c, copy.c): Host has the
      calls of the environment, Imount and Misc the code; C24 is the order of
      versions, and the lemmas on mount and copyFile carry C25, C26 and C39.
    - The FTP and HTTP client (ftp.c): Decimal, Ftp, FtpFacts; C19 against a
      server of RFC 959, C20 for every status of a response.

    The loader itself (src/installer/stage-1):
    - Its state, network configuration and command line (loader.h, net.c,
      iface.c, parseCmdLineFlags and readNetInfo of loader.c,
      setStage2LocFromCmdline of method.c): Loader, Net, CmdLine and their Facts;
      C14 is what the options with a value leave in the data that Net and
      Kickstart go on with, C15 the plan of writeEnabledNetInfo.
    - Kickstart files (kickstart.c and the handlers in nfsinstall.c,
      cdinstall.c, hdinstall.c, urlinstall.c, net.c, kbd.c, lang.c and
      driverdisk.c): Kickstart, KickstartFacts; C17 reads the file, C11 runs its
      commands.
    - Bringing the network up (net.c): NetUp, NetUpFacts.  C31 follows a static
      configuration from the data of the loader to a connection, C32 is the
      choice of the card, C33 the window of a manual configuration, C34 the wait
      for NetworkManager, C35 a configuration that never ends.
    - doLoaderMain (loader.c): Steps, StepsFacts, a state machine over the steps
      of the loader; C21 is its invariant, C22 the order of the network and the
      mount, C23 an installation without questions.
    - Installation methods (method.c, cdinstall.c, hdinstall.c, nfsinstall.c,
      urlinstall.c): Transfer, Methods, MethodsFacts; C25, C26.
    - Fetching kickstart files and updates (getFileFromUrl, getFileFromNfs,
      loadUpdates): Fetch, FetchFacts puts NetUp, Kickstart, Transfer, Imount and
      Misc together; C39, C40.
    - Driver disks (driverdisk.c): DriverDisk, DriverDiskFacts; C36 is the
      invariant of loadDriverFromMedia by induction on its turns.
    - The firmware loader (fwloader.c): Firmware, FirmwareFacts; C37 reads a
      message of the kernel, C38 is the protocol with sysfs as a relation.
    - Shutting down (undomounts.c, shutdown.c): Shutdown, ShutdownFacts; C27.

    The operations have the names of the C functions.  A loop of the code is a
    Fixpoint of its own, named after the function with _loop or a word for what
    it does; the map of the library gives the lines.

    ** Fuel

    Loops over buffers and files have a bound on their turns as an argument.  The
    theorems take any bound above the length of the input (the archive, the file,
    the string), which every turn shortens, so that the result holds for every
    larger bound.  Loops that go through dialogues have a bound of their own; the
    theorems on them hold for the states after any number of turns (C21, C22,
    C36) or from a number of turns on that they name.  A wait has the bound of
    its timeout (C34, C38).  Where the code does not end (C25, C35) the theorem
    says that no bound is enough.

    ** What is not modelled

    What the windows of newt look like, logging, progress output and most of the
    freeing of memory: a window is a call that gives what was entered
    (windows.c, dirbrowser.c, driverselect.c, mediacheck.c, log.c).  init.c,
    selinux.c and the start of the firmware loader, which are fixed sequences of
    system calls; netlink, ethtool and the detection of a link (iface.c,
    ethtool.c, linkdetect.c), which are calls of libnl and ioctls, and the
    wireless settings of net.c; main of loader.c around its command line and
    doLoaderMain; the Python bindings and the Python of stage 2; and syslinux
    with gpxe, which is third-party code.  The build is the one without
    ENABLE_IPV6, on a little-endian machine where that matters.  What popt,
    modprobe, qsort, fnmatch, D-Bus and the kernel do are parameters with their
    documented behaviour as hypotheses. *)

From stdpp Require Export base option list list_numbers gmap strings numbers.
From Stdlib Require Export ZArith Lia ZifyNat ZifyBool.
#[export] Set Default Goal Selector "!".

Open Scope Z_scope.

(** ** Outcomes of C code

    [Ret a] is a normal return, [Undef] a step whose behaviour the C standard
    leaves undefined (an access outside an object), [NoFuel] a loop that did
    not finish within the iterations the model allows. *)

Inductive outcome (A : Type) : Type :=
  | Ret (a : A)
  | Undef
  | NoFuel.
Arguments Ret {_} _.
Arguments Undef {_}.
Arguments NoFuel {_}.

#[export] Instance outcome_ret : MRet outcome := @Ret.
#[export] Instance outcome_bind : MBind outcome := λ A B f m,
  match m with Ret a => f a | Undef => Undef | NoFuel => NoFuel end.
#[export] Instance outcome_fmap : FMap outcome := λ A B f m,
  match m with Ret a => Ret (f a) | Undef => Undef | NoFuel => NoFuel end.

(** An access that is undefined outside its object. *)
Definition checked {A} (o : option A) : outcome A :=
  match o with Some a => Ret a | None => Undef end.

(** A run-time condition without which the step is undefined. *)
Definition defined_if (b : bool) : outcome unit := if b then Ret () else Undef.

Lemma outcome_bind_ret {A B} (f : A → outcome B) (a : A) : Ret a ≫= f = f a.
Proof. reflexivity. Qed.

Lemma outcome_bind_assoc {A B C} (m : outcome A) (f : A → outcome B) (g : B → outcome C) :
  (m ≫= f) ≫= g = m ≫= (λ a, f a ≫= g).
Proof. by destruct m. Qed.

Lemma outcome_bind_inv {A B} (m : outcome A) (f : A → outcome B) b :
  m ≫= f = Ret b → ∃ a, m = Ret a ∧ f a = Ret b.
Proof. destruct m; naive_solver. Qed.

(** ** Fixed-width integers

    A [w]-bit unsigned object is a [Z] in [0, 2^w); arithmetic is followed by
    the truncation the type makes. *)

Definition wrap (w x : Z) : Z := x mod 2 ^ w.
Definition swrap (w x : Z) : Z := (x + 2 ^ (w - 1)) mod 2 ^ w - 2 ^ (w - 1).
Abbreviation w8 := (wrap 8).
Abbreviation w32 := (wrap 32).
Abbreviation w64 := (wrap 64).
Abbreviation s32 := (swrap 32).
Abbreviation s64 := (swrap 64).

Lemma wrap_range w x : 0 ≤ w → 0 ≤ wrap w x < 2 ^ w.
Proof. intros. apply Z.mod_pos_bound. lia. Qed.

Lemma wrap_small w x : 0 ≤ x < 2 ^ w → wrap w x = x.
Proof. apply Z.mod_small. Qed.

Lemma swrap_small w x : 0 < w → - 2 ^ (w - 1) ≤ x < 2 ^ (w - 1) → swrap w x = x.
Proof.
  intros Hw Hx. unfold swrap. rewrite Z.mod_small; [lia |].
  assert (2 ^ w = 2 * 2 ^ (w - 1)) by (rewrite <- Z.pow_succ_r by lia; f_equal; lia). lia.
Qed.

Lemma wrap_idemp w x : wrap w (wrap w x) = wrap w x.
Proof. apply Zmod_mod. Qed.

Lemma wrap_add_l w x y : wrap w (wrap w x + y) = wrap w (x + y).
Proof. apply Zplus_mod_idemp_l. Qed.

Lemma wrap_add_r w x y : wrap w (x + wrap w y) = wrap w (x + y).
Proof. apply Zplus_mod_idemp_r. Qed.

Lemma wrap_testbit w x i : 0 ≤ w → 0 ≤ i →
  Z.testbit (wrap w x) i = (i <? w) && Z.testbit x i.
Proof.
  intros. unfold wrap. rewrite Z.testbit_mod_pow2 by lia. done.
Qed.

(** Equality of integers bit by bit, for goals over [Z.land], [Z.lor],
    [Z.lxor], [Z.lnot] and truncations. *)
Ltac bitwise :=
  apply Z.bits_inj'; intros ?i ?Hi;
  repeat (rewrite ?wrap_testbit, ?Z.land_spec, ?Z.lor_spec, ?Z.lxor_spec, ?Z.lnot_spec by lia).

(** [lia] on goals with division and remainder. *)
Ltac mlia := zify; Z.to_euclidean_division_equations; lia.

(** ** Bytes and arrays *)

Abbreviation bytes := (list Z).

Definition is_byte (b : Z) : Prop := 0 ≤ b < 256.

#[export] Instance is_byte_dec b : Decision (is_byte b).
Proof. unfold is_byte. apply _. Defined.

(** The bytes of a string literal. *)
Definition str (s : string) : bytes :=
  (λ c, Z.of_N (Ascii.N_of_ascii c)) <$> String.list_ascii_of_string s.

(** [len] bytes of [l] from offset [off]; fewer where [l] ends first. *)
Definition slice {A} (off len : nat) (l : list A) : list A := take len (drop off l).

(** [memcpy (l + off, src, length src)] for a copy inside [l]. *)
Definition splice {A} (off : nat) (src l : list A) : list A :=
  take off l ++ src ++ drop (off + length src) l.

Create HintDb c_model.
Create Rewrite HintDb c_rw.


Lemma length_slice {A} off len (l : list A) :
  length (slice off len l) = (len `min` (length l - off))%nat.
Proof. unfold slice. rewrite length_take, length_drop. done. Qed.

Lemma length_splice {A} off (src l : list A) :
  (off + length src ≤ length l)%nat → length (splice off src l) = length l.
Proof.
  intros. unfold splice. rewrite !length_app, length_take, length_drop. lia.
Qed.

Lemma slice_app_l {A} off len (l k : list A) :
  (off + len ≤ length l)%nat → slice off len (l ++ k) = slice off len l.
Proof.
  intros. unfold slice. rewrite drop_app_le by lia. rewrite take_app_le; [done |].
  rewrite length_drop. lia.
Qed.

Lemma slice_app_r {A} off len (l k : list A) :
  (length l ≤ off)%nat → slice off len (l ++ k) = slice (off - length l) len k.
Proof. intros. unfold slice. by rewrite drop_app_ge by lia. Qed.

Lemma slice_drop {A} off n len (l : list A) : slice off len (drop n l) = slice (n + off) len l.
Proof. unfold slice. by rewrite drop_drop. Qed.

Lemma slice_all {A} (l : list A) n : n = length l → slice 0 n l = l.
Proof. intros ->. unfold slice. by rewrite drop_0, take_ge. Qed.

Lemma slice_slice {A} o1 n1 o2 n2 (l : list A) : (o2 + n2 ≤ n1)%nat →
  slice o2 n2 (slice o1 n1 l) = slice (o1 + o2) n2 l.
Proof.
  intros. unfold slice. rewrite <- drop_drop, skipn_firstn_comm, take_take.
  f_equal. lia.
Qed.

Lemma take_splice {A} off (src l : list A) : (off ≤ length l)%nat →
  take (off + length src) (splice off src l) = take off l ++ src.
Proof.
  intros. unfold splice. rewrite app_assoc. rewrite take_app_length'; [done |].
  rewrite length_app, length_take. lia.
Qed.

Lemma splice_all {A} (src l : list A) : length src = length l → splice 0 src l = src.
Proof. intros. unfold splice. rewrite drop_ge by lia. by rewrite take_0, app_nil_r. Qed.

Lemma splice_app_exact {A} (pre mid post src : list A) : length src = length mid →
  splice (length pre) src (pre ++ mid ++ post) = pre ++ src ++ post.
Proof.
  intros E. unfold splice. rewrite take_app_length.
  rewrite drop_app_ge by lia. rewrite drop_app_ge by lia.
  replace (length pre + length src - length pre - length mid)%nat with 0%nat by lia.
  by rewrite drop_0.
Qed.

Lemma Forall_slice {A} (P : A → Prop) off len l : Forall P l → Forall P (slice off len l).
Proof. intros. by apply Forall_take, Forall_drop. Qed.

Lemma Forall_splice {A} (P : A → Prop) off src l :
  Forall P src → Forall P l → Forall P (splice off src l).
Proof.
  intros. unfold splice. repeat apply Forall_app_2; eauto using Forall_take, Forall_drop.
Qed.

#[export] Hint Resolve Forall_slice Forall_splice Forall_take Forall_drop Forall_app_2 : c_model.
#[export] Hint Rewrite @length_slice @length_app @length_take @length_drop
  @length_replicate @length_fmap : c_rw.

(** ** What follows an index *)

Lemma drop_lookup {A} (l : list A) n x r : drop n l = x :: r → l !! n = Some x.
Proof. intros E. rewrite <- (Nat.add_0_r n), <- lookup_drop, E. done. Qed.

Lemma drop_lookup_app {A} (l : list A) n pre x r : drop n l = pre ++ x :: r → l !! (n + length pre)%nat = Some x.
Proof. intros E. rewrite <- lookup_drop, E. by apply list_lookup_middle. Qed.

Lemma drop_set {A} (l : list A) n pre x y r : drop n l = pre ++ y :: r →
  drop n (<[(n + length pre)%nat := x]> l) = pre ++ x :: r.
Proof.
  intros E. assert (n ≤ length l)%nat.
  { destruct (Nat.le_gt_cases n (length l)); [done |]. rewrite drop_ge in E by lia. by destruct pre. }
  rewrite <- (take_drop n l) at 1. rewrite E.
  replace (n + length pre)%nat with (length (take n l) + length pre)%nat by (rewrite length_take; lia).
  rewrite insert_app_r. replace (length pre) with (length pre + 0)%nat by lia. rewrite insert_app_r. cbn [insert list_insert].
  rewrite drop_app_length'; [done | rewrite length_take; lia].
Qed.

(** Little-endian value of a byte string and its inverse. *)
Fixpoint le_val (bs : bytes) : Z :=
  match bs with [] => 0 | b :: bs => b + 256 * le_val bs end.

Fixpoint le_bytes (n : nat) (z : Z) : bytes :=
  match n with O => [] | S n => z mod 256 :: le_bytes n (z / 256) end.

Lemma length_le_bytes n z : length (le_bytes n z) = n.
Proof. revert z. induction n; simpl; auto. Qed.

Lemma le_bytes_byte n z : Forall is_byte (le_bytes n z).
Proof.
  revert z. induction n; simpl; constructor; [| done].
  apply Z.mod_pos_bound. lia.
Qed.

Lemma le_bytes_val bs : Forall is_byte bs → le_bytes (length bs) (le_val bs) = bs.
Proof.
  unfold is_byte. induction 1 as [| b bs Hb _ IH]; simpl; [done |].
  replace ((b + 256 * le_val bs) mod 256) with b
    by (rewrite Z.mul_comm, Z_mod_plus_full, Z.mod_small; lia).
  replace ((b + 256 * le_val bs) / 256) with (le_val bs)
    by (rewrite Z.mul_comm, Z.div_add, Z.div_small; lia).
  by rewrite IH.
Qed.

Lemma le_val_bytes (n : nat) z : 0 ≤ z < 2 ^ (8 * Z.of_nat n) → le_val (le_bytes n z) = z.
Proof.
  revert z. induction n as [| n IH]; intros z Hz.
  - simpl in *. lia.
  - cbn [le_bytes le_val].
    assert (2 ^ (8 * Z.of_nat (S n)) = 256 * 2 ^ (8 * Z.of_nat n)) as E.
    { replace (8 * Z.of_nat (S n)) with (8 + 8 * Z.of_nat n) by lia. rewrite Z.pow_add_r by lia. done. }
    rewrite IH.
    + pose proof (Z.div_mod z 256). lia.
    + split; [apply Z.div_pos; lia | apply Z.div_lt_upper_bound; lia].
Qed.

Lemma le_val_bound bs : Forall is_byte bs → 0 ≤ le_val bs < 2 ^ (8 * Z.of_nat (length bs)).
Proof.
  unfold is_byte. induction 1 as [| b bs Hb _ IH]; [simpl; lia |].
  cbn [le_val length].
  replace (8 * Z.of_nat (S (length bs))) with (8 + 8 * Z.of_nat (length bs)) by lia.
  rewrite Z.pow_add_r by lia. lia.
Qed.

#[export] Hint Resolve le_bytes_byte length_le_bytes : c_model.

Lemma le_bytes_wrap (n : nat) z : le_bytes n (wrap (8 * Z.of_nat n) z) = le_bytes n z.
Proof.
  unfold wrap. revert z. induction n as [| n IH]; intros z; [done |]. cbn [le_bytes].
  replace (8 * Z.of_nat (S n)) with (8 + 8 * Z.of_nat n) by lia.
  rewrite Z.pow_add_r by lia. change (2 ^ 8) with 256.
  rewrite Z.rem_mul_r by lia. f_equal.
  - by rewrite (Z.mul_comm 256), Z_mod_plus_full, Zmod_mod.
  - rewrite (Z.mul_comm 256), Z.div_add by lia. pose proof (Z.mod_pos_bound z 256).
    rewrite (Z.div_small (z mod 256)), Z.add_0_l by lia. apply IH.
Qed.

Lemma le_bytes_app (n k : nat) z :
  le_bytes (n + k) z = le_bytes n z ++ le_bytes k (z / 2 ^ (8 * Z.of_nat n)).
Proof.
  revert z. induction n as [| n IH]; intros z.
  - change (8 * Z.of_nat 0) with 0. by rewrite Z.pow_0_r, Z.div_1_r.
  - cbn [le_bytes Nat.add app]. rewrite IH, Zdiv_Zdiv by lia. do 4 f_equal.
    replace (8 * Z.of_nat (S n)) with (8 + 8 * Z.of_nat n) by lia.
    by rewrite Z.pow_add_r by lia.
Qed.
