(* ===== verification/CLib.v ===== *)
(** * The parts of the C library the installer's C uses

    Character classes and number conversion in the C locale, string functions
    over byte lists, and the formats of printf the sources print.  A C string
    value is the list of its bytes without the terminating NUL; a buffer is
    the list of all its bytes. *)

From S2P Require Import Prelude.
From stdpp Require Import pretty.
Open Scope Z_scope.

(** ** Characters *)

Definition isspace (c : Z) : bool := (c =? 32) || ((9 <=? c) && (c <=? 13)).
Definition isdigit (c : Z) : bool := (48 <=? c) && (c <=? 57).
Definition tolower (c : Z) : Z := if (65 <=? c) && (c <=? 90) then c + 32 else c.

(** A (signed) char as an int. *)
Definition schar (b : Z) : Z := if b <? 128 then b else b - 256.

(** ** Strings *)

(** The C string a buffer starts with. *)
Fixpoint until_nul (m : bytes) : bytes :=
  match m with [] => [] | b :: m => if b =? 0 then [] else b :: until_nul m end.

(** [strncmp(m, lit, strlen(lit)) == 0] *)
Fixpoint starts_with (lit m : bytes) : bool :=
  match lit, m with
  | [], _ => true
  | c :: lit, b :: m => (c =? b) && starts_with lit m
  | _ :: _, [] => false
  end.

(** [strcmp(a, b) == 0] *)
Definition streq (a b : bytes) : bool := bool_decide (a = b).

(** strchr: the string from the first [c] on. *)
Fixpoint strchr (s : bytes) (c : Z) : option bytes :=
  match s with [] => None | b :: r => if b =? c then Some s else strchr r c end.

(** strrchr: the string from the last [c] on. *)
Fixpoint strrchr (s : bytes) (c : Z) : option bytes :=
  match s with
  | [] => None
  | b :: r =>
      match strrchr r c with Some t => Some t | None => if b =? c then Some s else None end
  end.

(** strstr: the string from the first occurrence of [needle] on. *)
Fixpoint strstr (s needle : bytes) : option bytes :=
  if starts_with needle s then Some s
  else match s with [] => None | _ :: r => strstr r needle end.

(** The part of [s] before the suffix [t] that strchr or strstr returned. *)
Definition before (s t : bytes) : bytes := take (length s - length t) s.

(** ** Numbers *)

Definition digit_val (c : Z) : option Z :=
  if (48 <=? c) && (c <=? 57) then Some (c - 48)
  else if (97 <=? c) && (c <=? 122) then Some (c - 87)
  else if (65 <=? c) && (c <=? 90) then Some (c - 55)
  else None.
Definition base_digit (base c : Z) : option Z :=
  d ← digit_val c; if d <? base then Some d else None.

Fixpoint skip_space (s : bytes) : bytes :=
  match s with b :: r => if isspace b then skip_space r else s | [] => [] end.

(** The value of the longest digit string and what follows it. *)
Fixpoint read_digits (base acc : Z) (s : bytes) : Z * bytes :=
  match s with
  | b :: r => match base_digit base b with
              | Some d => read_digits base (acc * base + d) r
              | None => (acc, s)
              end
  | [] => (acc, [])
  end.

(** strtol and strtoul before the range check: sign, value, and the rest of
    the string; [None] when there is no number at its start. *)
Definition read_number (base : Z) (s : bytes) : option (bool * Z * bytes) :=
  let s := skip_space s in
  let '(neg, s) :=
    match s with
    | b :: r => if b =? 45 then (true, r) else if b =? 43 then (false, r) else (false, s)
    | [] => (false, [])
    end in
  let s :=
    match s with
    | z :: x :: d :: r =>
        if (base =? 16) && (z =? 48) && ((x =? 120) || (x =? 88)) &&
           bool_decide (is_Some (base_digit 16 d)) then d :: r else s
    | _ => s
    end in
  match s with
  | b :: _ => match base_digit base b with
              | Some _ => let '(v, r) := read_digits base 0 s in Some (neg, v, r)
              | None => None
              end
  | [] => None
  end.

(** [strtol(s, &end, base)]: the value and the string at [end]. *)
Definition strtol (base : Z) (s : bytes) : Z * bytes :=
  match read_number base s with
  | None => (0, s)
  | Some (neg, v, r) =>
      (if neg then Z.max (- 2 ^ 63) (- v) else Z.min (2 ^ 63 - 1) v, r)
  end.

(** [strtoul(s, &end, base)] *)
Definition strtoul (base : Z) (s : bytes) : Z * bytes :=
  match read_number base s with
  | None => (0, s)
  | Some (neg, v, r) =>
      (if 2 ^ 64 <=? v then 2 ^ 64 - 1 else if neg then w64 (- v) else v, r)
  end.

(** ** Formats *)

Definition hex_digit (n : Z) : Z := if n <? 10 then 48 + n else 87 + n.

(** ["%02x"] and ["%01x"] of an unsigned char *)
Definition fmt_02x (b : Z) : bytes := [hex_digit (b / 16); hex_digit (b mod 16)].
Definition fmt_01x (b : Z) : bytes :=
  if b <? 16 then [hex_digit b] else [hex_digit (b / 16); hex_digit (b mod 16)].

(** ["%d"] *)
Definition fmt_d (z : Z) : bytes := str (pretty z).

(** [snprintf(buf, n, ...)] keeps the first [n - 1] bytes. *)
Definition snprintf_ (n : nat) (out : bytes) : bytes := take (n - 1) out.

(** ["%8.8lx"]: at least eight hexadecimal digits. *)
Fixpoint hex_width (n : nat) (z : Z) : bytes :=
  match n with O => [] | S n => hex_width n (z / 16) ++ [hex_digit (z mod 16)] end.

(** ** Facts *)

Lemma until_nul_no_nul s : Forall (λ b, b ≠ 0) s → until_nul s = s.
Proof.
  induction 1 as [| b s Hb _ IH]; [done |]. cbn. destruct (Z.eqb_spec b 0); [done |].
  by rewrite IH.
Qed.

Lemma until_nul_app_nul s r : Forall (λ b, b ≠ 0) s → until_nul (s ++ 0 :: r) = s.
Proof.
  induction 1 as [| b s Hb _ IH]; [done |]. cbn. destruct (Z.eqb_spec b 0); [done |].
  by rewrite IH.
Qed.

Lemma hex_digit_range n : 0 ≤ n < 16 → 48 ≤ hex_digit n ≤ 102.
Proof. intros. unfold hex_digit. destruct (Z.ltb_spec n 10); lia. Qed.

Lemma hex_digit_value n : 0 ≤ n < 16 → base_digit 16 (hex_digit n) = Some n.
Proof.
  intros Hn. assert (Forall (λ n, base_digit 16 (hex_digit n) = Some n) (seqZ 0 16)) as HF
    by repeat constructor.
  rewrite Forall_forall in HF. apply HF, elem_of_seqZ. lia.
Qed.

Lemma strchr_suffix s c t : strchr s c = Some t → s = before s t ++ t ∧ head t = Some c.
Proof.
  unfold before. revert t. induction s as [| b s IH]; intros t; cbn; [done |].
  destruct (Z.eqb_spec b c) as [-> |]; intros E.
  - injection E as <-. by rewrite Nat.sub_diag.
  - destruct (IH t E) as [Hs Ht]. split; [| done].
    assert (length t ≤ length s)%nat.
    { apply (f_equal length) in Hs. rewrite length_app in Hs. lia. }
    rewrite Nat.sub_succ_l by done. cbn. by rewrite <- Hs.
Qed.

Lemma strchr_before_not s c t : strchr s c = Some t → Forall (λ b, b ≠ c) (before s t).
Proof.
  unfold before. revert t. induction s as [| b s IH]; intros t; cbn; [done |].
  destruct (Z.eqb_spec b c) as [-> |]; intros E.
  - injection E as <-. by rewrite Nat.sub_diag.
  - assert (length t ≤ length s)%nat.
    { destruct (strchr_suffix s c t E) as [Hs _].
      apply (f_equal length) in Hs. rewrite length_app in Hs. lia. }
    rewrite Nat.sub_succ_l by done. cbn. constructor; auto.
Qed.

Lemma strchr_none s c : strchr s c = None ↔ Forall (λ b, b ≠ c) s.
Proof.
  induction s as [| b s IH]; cbn; [naive_solver |].
  rewrite list.Forall_cons. destruct (Z.eqb_spec b c); naive_solver.
Qed.

(** The string up to the first [c] and the string from it on. *)
Lemma strchr_app s c r : Forall (λ b, b ≠ c) s → strchr (s ++ c :: r) c = Some (c :: r).
Proof.
  induction 1 as [| b s Hb _ IH]; cbn.
  - by rewrite Z.eqb_refl.
  - destruct (Z.eqb_spec b c); [done | exact IH].
Qed.

Lemma before_app s t : before (s ++ t) t = s.
Proof.
  unfold before. rewrite length_app. replace (length s + length t - length t)%nat with (length s) by lia.
  apply take_app_length.
Qed.

Lemma starts_with_app lit m : starts_with lit (lit ++ m) = true.
Proof. induction lit as [| c lit IH]; cbn; [done |]. by rewrite Z.eqb_refl, IH. Qed.

Lemma starts_with_spec lit m : starts_with lit m = true ↔ ∃ r, m = lit ++ r.
Proof.
  revert m. induction lit as [| c lit IH]; intros m; cbn; [naive_solver |].
  destruct m as [| b m]; [naive_solver |].
  rewrite andb_true_iff, IH, Z.eqb_eq. split.
  - intros (-> & r & ->). by exists r.
  - intros (r & [= -> ->]). eauto.
Qed.

Lemma streq_spec a b : streq a b = true ↔ a = b.
Proof. unfold streq. apply bool_decide_eq_true. Qed.

(** ** Comparison and binary search *)

(** strcmp, on unsigned characters *)
Fixpoint strcmp (a b : bytes) : comparison :=
  match a, b with
  | [], [] => Eq
  | [], _ :: _ => Lt
  | _ :: _, [] => Gt
  | x :: a, y :: b => match x ?= y with Eq => strcmp a b | c => c end
  end.

(** bsearch(3): [cmp] compares the key with an element; halving, the lower
    middle first. *)
Fixpoint bsearch_loop {A} (fuel : nat) (cmp : A → comparison) (l : list A) (lo hi : nat) : option A :=
  match fuel with
  | O => None
  | S fuel =>
      if (lo <? hi)%nat then
        let mid := ((lo + hi) / 2)%nat in
        match l !! mid with
        | None => None
        | Some x =>
            match cmp x with
            | Eq => Some x
            | Lt => bsearch_loop fuel cmp l lo mid
            | Gt => bsearch_loop fuel cmp l (S mid) hi
            end
        end
      else None
  end.
Definition bsearch_by {A} (cmp : A → comparison) (l : list A) : option A :=
  bsearch_loop (S (length l)) cmp l 0 (length l).
(** With a string key. *)
Definition bsearch {A} (key : bytes) (elt_key : A → bytes) (l : list A) : option A :=
  bsearch_by (λ x, strcmp key (elt_key x)) l.

Lemma strcmp_refl a : strcmp a a = Eq.
Proof. induction a as [| x a IH]; cbn; [done |]. by rewrite Z.compare_refl. Qed.

Lemma strcmp_eq a b : strcmp a b = Eq ↔ a = b.
Proof.
  split; [| intros ->; apply strcmp_refl].
  revert b. induction a as [| x a IH]; intros [| y b]; cbn; try done.
  destruct (Z.compare_spec x y) as [-> | |]; try done. intros E. by rewrite (IH b E).
Qed.

Lemma strcmp_trans a b c : strcmp a b = Lt → strcmp b c = Lt → strcmp a c = Lt.
Proof.
  revert b c. induction a as [| x a IH]; intros [| y b] [| z c]; cbn; try done.
  destruct (x ?= y) eqn:E1; destruct (y ?= z) eqn:E2; try done; intros H1 H2;
    rewrite ?Z.compare_eq_iff, ?Z.compare_lt_iff in *; subst.
  - rewrite Z.compare_refl. eauto.
  - rewrite (proj2 (Z.compare_lt_iff _ _)) by lia. done.
  - rewrite (proj2 (Z.compare_lt_iff _ _)) by lia. done.
  - rewrite (proj2 (Z.compare_lt_iff _ _)) by lia. done.
Qed.

Lemma strcmp_antisym a b : strcmp b a = CompOpp (strcmp a b).
Proof.
  revert b. induction a as [| x a IH]; intros [| y b]; cbn; try done.
  rewrite (Z.compare_antisym x y). by destruct (x ?= y); cbn.
Qed.

(** On a sorted array bsearch finds an element that equals the key, if there is
    one. *)
Section bsearch_by_facts.
Context {A : Type} (cmp : A → comparison) (l : list A).
Context (Hsorted : ∀ i j x y, (i < j)%nat → l !! i = Some x → l !! j = Some y →
  (cmp x = Eq → cmp y ≠ Gt) ∧ (cmp y = Eq → cmp x ≠ Lt)).

Lemma bsearch_loop_found fuel lo hi x : bsearch_loop fuel cmp l lo hi = Some x → x ∈ l ∧ cmp x = Eq.
Proof.
  revert lo hi. induction fuel as [| fuel IH]; intros lo hi; cbn [bsearch_loop]; [done |].
  destruct (lo <? hi)%nat; [| done]. destruct (l !! _) as [y |] eqn:Hy; [| done].
  destruct (cmp y) eqn:Hc; [| by apply IH ..].
  intros [= ->]. split; [by eapply list_elem_of_lookup_2 | done].
Qed.

Lemma bsearch_loop_complete fuel lo hi k x : l !! k = Some x → cmp x = Eq →
  (lo ≤ k < hi)%nat → (hi ≤ length l)%nat → (hi - lo < fuel)%nat →
  is_Some (bsearch_loop fuel cmp l lo hi).
Proof.
  intros Hk Hx. revert lo hi. induction fuel as [| fuel IH]; intros lo hi Hr Hl Hf; [lia |].
  cbn [bsearch_loop]. destruct (Nat.ltb_spec lo hi); [| lia].
  pose proof (Nat.div_mod (lo + hi) 2 ltac:(done)). pose proof (Nat.mod_upper_bound (lo + hi) 2 ltac:(done)).
  set (mid := ((lo + hi) / 2)%nat) in *.
  destruct (l !! mid) as [y |] eqn:Hy; [| apply lookup_ge_None in Hy; lia].
  destruct (cmp y) eqn:Hc; [done | |].
  - apply IH; [| lia | lia]. assert (k ≠ mid) by congruence.
    destruct (Nat.lt_ge_cases mid k) as [Hlt |]; [| lia]. by destruct (Hsorted mid k y x Hlt Hy Hk) as [_ []].
  - apply IH; [| lia | lia]. assert (k ≠ mid) by congruence.
    destruct (Nat.lt_ge_cases k mid) as [Hlt |]; [| lia]. by destruct (Hsorted k mid x y Hlt Hk Hy) as [[] _].
Qed.

Lemma bsearch_by_some x : bsearch_by cmp l = Some x → x ∈ l ∧ cmp x = Eq.
Proof. apply bsearch_loop_found. Qed.

Lemma bsearch_by_finds x : x ∈ l → cmp x = Eq → ∃ y, bsearch_by cmp l = Some y ∧ y ∈ l ∧ cmp y = Eq.
Proof.
  intros [k Hk]%list_elem_of_lookup_1 Hx. pose proof (lookup_lt_Some _ _ _ Hk).
  destruct (bsearch_loop_complete (S (length l)) 0 (length l) k x) as [y Hy]; try done || lia.
  exists y. split; [done |]. by apply bsearch_by_some.
Qed.
End bsearch_by_facts.

Section bsearch_facts.
Context {A : Type} (key : bytes) (elt_key : A → bytes) (l : list A).
Context (Hsorted : ∀ i j x y, (i < j)%nat → l !! i = Some x → l !! j = Some y →
  strcmp (elt_key x) (elt_key y) = Lt).

Lemma strcmp_sorted i j x y : (i < j)%nat → l !! i = Some x → l !! j = Some y →
  (strcmp key (elt_key x) = Eq → strcmp key (elt_key y) ≠ Gt) ∧
  (strcmp key (elt_key y) = Eq → strcmp key (elt_key x) ≠ Lt).
Proof.
  intros Hij Hx Hy. pose proof (Hsorted i j x y Hij Hx Hy) as H. split; intros E%strcmp_eq; rewrite E.
  - by rewrite H.
  - by rewrite strcmp_antisym, H.
Qed.

Lemma bsearch_some x : bsearch key elt_key l = Some x → x ∈ l ∧ elt_key x = key.
Proof. intros [Hx E%strcmp_eq]%bsearch_by_some. done. Qed.

Lemma bsearch_finds x : x ∈ l → elt_key x = key → bsearch key elt_key l = Some x.
Proof.
  intros Hx Hk. destruct (bsearch_by_finds _ l strcmp_sorted x Hx) as (y & Ey & Hy & E%strcmp_eq); [by apply strcmp_eq |].
  unfold bsearch. rewrite Ey. f_equal.
  apply list_elem_of_lookup_1 in Hx as [i Hi], Hy as [j Hj].
  destruct (Nat.lt_trichotomy i j) as [Hij | [-> | Hij]]; [| congruence |].
  - pose proof (Hsorted i j x y Hij Hi Hj) as H. by rewrite Hk, E, strcmp_refl in H.
  - pose proof (Hsorted j i y x Hij Hj Hi) as H. by rewrite Hk, E, strcmp_refl in H.
Qed.

Lemma bsearch_none : bsearch key elt_key l = None ↔ Forall (λ x, elt_key x ≠ key) l.
Proof.
  rewrite list.Forall_forall. split.
  - intros Hn x Hx Hk. by rewrite (bsearch_finds x Hx Hk) in Hn.
  - intros Hn. destruct (bsearch key elt_key l) as [x |] eqn:E; [| done].
    destruct (bsearch_some x E) as [Hx Hk]. by destruct (Hn x Hx).
Qed.
End bsearch_facts.

(** ** Lines of a file *)

(** fgets: up to a newline, and at most [n] - 1 characters. *)
Fixpoint fgets_take (n : nat) (s : bytes) : bytes * bytes :=
  match n, s with
  | S n, b :: r => if b =? 10 then ([b], r) else let '(l, r) := fgets_take n r in (b :: l, r)
  | _, _ => ([], s)
  end.
Definition fgets (n : nat) (s : bytes) : option (bytes * bytes) :=
  match s with [] => None | _ => Some (fgets_take (n - 1) s) end.

(** ** Internet addresses

    A [struct in_addr] is its 32-bit [s_addr] on a little-endian machine: the
    first byte of the address is the low one. *)

Fixpoint split_on (c : Z) (s : bytes) : list bytes :=
  match s with
  | [] => [[]]
  | b :: r =>
      if b =? c then [] :: split_on c r
      else match split_on c r with t :: ts => (b :: t) :: ts | [] => [[b]] end
  end.

(** One part of a dotted address: no leading zero, at most 255. *)
Definition octet (s : bytes) : option Z :=
  match s with
  | [] => None
  | c :: r =>
      if (c =? 48) && negb (bool_decide (r = [])) then None
      else
        let '(v, rest) := read_digits 10 0 s in
        if bool_decide (rest = []) && (v <=? 255) then Some v else None
  end.

(** inet_pton(AF_INET, ...) *)
Definition inet_pton4 (s : bytes) : option Z :=
  match mapM octet (split_on 46 s) with
  | Some [a; b; c; d] => Some (le_val [a; b; c; d])
  | _ => None
  end.
(** inet_ntop(AF_INET, ...) *)
Definition inet_ntop4 (a : Z) : bytes :=
  match fmt_d <$> le_bytes 4 a with
  | [w; x; y; z] => w ++ [46] ++ x ++ [46] ++ y ++ [46] ++ z
  | _ => []
  end.

Lemma split_on_app c s r : Forall (λ b, b ≠ c) s → split_on c (s ++ c :: r) = s :: split_on c r.
Proof.
  induction 1 as [| b s Hb _ IH]; cbn [split_on app]; [by rewrite Z.eqb_refl |].
  destruct (Z.eqb_spec b c); [done |]. by rewrite IH.
Qed.

Lemma split_on_none c s : Forall (λ b, b ≠ c) s → split_on c s = [s].
Proof.
  induction 1 as [| b s Hb _ IH]; cbn [split_on]; [done |]. destruct (Z.eqb_spec b c); [done |]. by rewrite IH.
Qed.

Definition octet_ok (n : Z) : bool :=
  bool_decide (octet (fmt_d n) = Some n) && bool_decide (Forall (λ b, b ≠ 46) (fmt_d n)).

Lemma octets_ok : forallb octet_ok (Z.of_nat <$> seq 0 256) = true.
Proof. vm_compute. reflexivity. Qed.

Lemma octet_fmt_d n : is_byte n → octet (fmt_d n) = Some n ∧ Forall (λ b, b ≠ 46) (fmt_d n).
Proof.
  unfold is_byte. intros Hn. pose proof octets_ok as H. rewrite forallb_forall in H.
  specialize (H n). assert (Hin : In n (Z.of_nat <$> seq 0 256)).
  { apply list_elem_of_In, list_elem_of_fmap. exists (Z.to_nat n). split; [lia |]. apply elem_of_seq. lia. }
  apply H in Hin. unfold octet_ok in Hin. apply andb_true_iff in Hin as [H1%bool_decide_eq_true_1 H2%bool_decide_eq_true_1].
  done.
Qed.

(** An address printed is read back. *)
Lemma inet_pton_ntop a : 0 ≤ a < 2 ^ 32 → inet_pton4 (inet_ntop4 a) = Some a.
Proof.
  intros Ha. pose proof (le_val_bytes 4 a Ha) as Hv. pose proof (le_bytes_byte 4 a) as Hb.
  unfold inet_ntop4, inet_pton4.
  destruct (le_bytes 4 a) as [| w [| x [| y [| z []]]]] eqn:E; try (by apply (f_equal length) in E; rewrite length_le_bytes in E).
  cbn [fmap list_fmap].
  apply list.Forall_cons in Hb as [[Ow Dw]%octet_fmt_d Hb], Hb as [[Ox Dx]%octet_fmt_d Hb], Hb as [[Oy Dy]%octet_fmt_d Hb],
    Hb as [[Oz Dz]%octet_fmt_d _].
  cbn [app]. rewrite !split_on_app, split_on_none by done. cbn [mapM]. rewrite Ow, Ox, Oy, Oz. cbn. by rewrite <- Hv.
Qed.
