(* ===== verification/Decimal.v ===== *)
(** * Decimal numbers printed and read back

    What ["%d"] prints for a number that is not negative is digits, and strtol
    and sscanf read the number back. *)

From S2P Require Import Prelude CLib.
From stdpp Require Import pretty.
Open Scope Z_scope.

Lemma str_cons c s : str (String c s) = Z.of_N (Ascii.N_of_ascii c) :: str s.
Proof. reflexivity. Qed.

Lemma pretty_char_digit x : (x < 10)%N → Z.of_N (Ascii.N_of_ascii (pretty_N_char x)) = 48 + Z.of_N x.
Proof.
  intros Hx. assert (x = 0 ∨ x = 1 ∨ x = 2 ∨ x = 3 ∨ x = 4 ∨ x = 5 ∨ x = 6 ∨ x = 7 ∨ x = 8 ∨ x = 9)%N as Hc by lia.
  destruct_or! Hc; by subst.
Qed.

Lemma base_digit_10 c : isdigit c = true ↔ base_digit 10 c = Some (c - 48).
Proof.
  unfold isdigit, base_digit, digit_val.
  destruct (Z.leb_spec 48 c), (Z.leb_spec c 57), (Z.leb_spec 97 c), (Z.leb_spec c 122), (Z.leb_spec 65 c), (Z.leb_spec c 90);
    try lia; cbn; repeat match goal with |- context [?a <? 10] => destruct (Z.ltb_spec a 10); try lia end; naive_solver lia.
Qed.

Lemma base_digit_10_none c : isdigit c = false ↔ base_digit 10 c = None.
Proof.
  pose proof (base_digit_10 c) as H. destruct (isdigit c); split; try done.
  - intros E. by rewrite (proj1 H eq_refl) in E.
  - intros _. unfold base_digit, digit_val in *.
    destruct (Z.leb_spec 48 c), (Z.leb_spec c 57), (Z.leb_spec 97 c), (Z.leb_spec c 122), (Z.leb_spec 65 c), (Z.leb_spec c 90);
      try lia; cbn in *; repeat match goal with |- context [?a <? 10] => destruct (Z.ltb_spec a 10); try lia end; try done.
    all: exfalso; destruct H as [_ H]; repeat match type of H with context [?a <? 10] => destruct (Z.ltb_spec a 10); try lia end; by specialize (H eq_refl).
Qed.

(** The digits of a number, with what they do to a reader. *)
Record digits_of (ds : bytes) (n : Z) : Prop := {
  digits_all : Forall (λ b, isdigit b = true) ds;
  digits_read acc r : read_digits 10 acc (ds ++ r) = read_digits 10 (acc * 10 ^ Z.of_nat (length ds) + n) r }.

Lemma digits_snoc ds n d : digits_of ds n → 0 ≤ d < 10 → digits_of (ds ++ [48 + d]) (10 * n + d).
Proof.
  intros [Hd Hr] Hd'. assert (isdigit (48 + d) = true) as Hc by (unfold isdigit; lia). split.
  - apply Forall_app. auto.
  - intros acc r. rewrite <- app_assoc, Hr. cbn [app read_digits].
    rewrite (proj1 (base_digit_10 _) Hc). f_equal.
    rewrite length_app. cbn [length]. rewrite Nat2Z.inj_add, Z.pow_add_r by lia. lia.
Qed.

Lemma pretty_N_go_digits x : ∀ s, ∃ ds, str (pretty_N_go x s) = ds ++ str s ∧ digits_of ds (Z.of_N x) ∧ ((0 < x)%N → ds ≠ []).
Proof.
  induction (N.lt_wf_0 x) as [x _ IH]; intros s.
  assert (x = 0 ∨ 0 < x)%N as [-> | Hx] by lia.
  - exists []. split_and!; [done | | lia]. split; [done |]. intros. cbn [length app]. f_equal. lia.
  - rewrite pretty_N_go_step by done.
    destruct (IH (x / 10)%N ltac:(by apply N.div_lt) (String (pretty_N_char (x mod 10)) s)) as (ds & E & Hds & _).
    exists (ds ++ [48 + Z.of_N (x mod 10)]). split_and!.
    + rewrite E, str_cons, pretty_char_digit by (by apply N.mod_lt). by rewrite <- app_assoc.
    + replace (Z.of_N x) with (10 * Z.of_N (x / 10) + Z.of_N (x mod 10)) by (pose proof (N.div_mod x 10); lia).
      apply digits_snoc; [done |]. pose proof (N.mod_lt x 10). lia.
    + by destruct ds.
Qed.

Lemma fmt_d_digits n : 0 ≤ n → digits_of (fmt_d n) n ∧ fmt_d n ≠ [].
Proof.
  intros Hn. unfold fmt_d. destruct n as [| p | p]; [| | lia].
  - split; [| done]. split; [by repeat constructor |]. done.
  - cbn [pretty pretty_Z]. unfold pretty, pretty_positive, pretty, pretty_N. rewrite decide_False by done.
    destruct (pretty_N_go_digits (N.pos p) "") as (ds & E & Hds & Hne). rewrite E. change (str "") with (@nil Z).
    rewrite app_nil_r. split; [done | apply Hne; lia].
Qed.

Lemma digit_not_space c : isdigit c = true → isspace c = false ∧ c ≠ 45 ∧ c ≠ 43 ∧ 48 ≤ c ≤ 57.
Proof. unfold isdigit, isspace. lia. Qed.

(** A run of characters that are no digits, in front. *)
Definition no_digit (r : bytes) : Prop := ∀ c, head r = Some c → isdigit c = false.

Lemma read_digits_stop acc r : no_digit r → read_digits 10 acc r = (acc, r).
Proof. destruct r as [| c r]; [done |]. intros Hc. cbn. by rewrite (proj1 (base_digit_10_none c) (Hc c eq_refl)). Qed.

(** White space, and a number behind it. *)
Lemma read_number_fmt_d sp n r : Forall (λ b, isspace b = true) sp → 0 ≤ n → no_digit r →
  read_number 10 (sp ++ fmt_d n ++ r) = Some (false, n, r).
Proof.
  intros Hsp Hn Hr. destruct (fmt_d_digits n Hn) as [[Hall Hread] Hne].
  unfold read_number.
  assert (skip_space (sp ++ fmt_d n ++ r) = fmt_d n ++ r) as ->.
  { induction Hsp as [| b sp Hb _ IH]; cbn; [| by rewrite Hb].
    destruct (fmt_d n) as [| c ds]; [done |]. apply list.Forall_cons in Hall as [(Hc & _)%digit_not_space _].
    cbn. by rewrite Hc. }
  specialize (Hread 0 r). destruct (fmt_d n) as [| c ds]; [done |].
  apply list.Forall_cons in Hall as [Hc _]. destruct (digit_not_space c Hc) as (_ & H45 & H43 & _).
  cbn [app]. destruct (Z.eqb_spec c 45), (Z.eqb_spec c 43); [done .. |].
  cbn [app] in Hread. rewrite Z.mul_0_l, Z.add_0_l, (read_digits_stop _ r) in Hread by done.
  destruct (ds ++ r) as [| x [| d l]]; change (10 =? 16) with false; cbv beta iota; cbn [andb];
    rewrite (proj1 (base_digit_10 c) Hc), Hread; done.
Qed.

Lemma strtol_fmt_d n r : 0 ≤ n < 2 ^ 63 → no_digit r → strtol 10 (fmt_d n ++ r) = (n, r).
Proof.
  intros Hn Hr. unfold strtol. change (fmt_d n ++ r) with ([] ++ fmt_d n ++ r). rewrite read_number_fmt_d by (done || lia). f_equal. lia.
Qed.

(** Digits are none of the characters texts are taken apart at. *)
Lemma fmt_d_not c n : isdigit c = false → 0 ≤ n → Forall (λ b, b ≠ c) (fmt_d n).
Proof.
  intros Hc Hn. destruct (fmt_d_digits n Hn) as [[Hall _] _]. eapply Forall_impl; [exact Hall |].
  intros b Hb ->. by rewrite Hc in Hb.
Qed.
