(* ===== verification/Posix.v ===== *)
(** * Open files

    The operations of an open file descriptor the sources use, as an
    interface ([FileOps], with the documented contract [FileLaws]), and the
    regular file as its instance. *)

From S2P Require Import Prelude.

(** [f_lseek f off]: lseek(fd, off, SEEK_SET).  [f_read f n]: the result of
    read(fd, buf, n) and the bytes it stored at the start of [buf].
    [f_write f d]: write(fd, d, length d). *)
Class FileOps (F : Type) := {
  f_lseek : F → Z → Z * F;
  f_read : F → Z → Z * bytes * F;
  f_write : F → bytes → Z * F
}.

(** What read(2) promises of every descriptor. *)
Class FileLaws (F : Type) `{FileOps F} := {
  f_read_result f n r d f' : 0 ≤ n → f_read f n = (r, d, f') →
    (r = -1 ∧ d = []) ∨ (r = Z.of_nat (length d) ∧ r ≤ n ∧ Forall is_byte d)
}.

(** A regular file: its bytes and the file offset. *)
Record regfile := mkFile { contents : bytes; fpos : nat }.

Definition reg_lseek (f : regfile) (off : Z) : Z * regfile :=
  if off <? 0 then (-1, f) else (off, mkFile (contents f) (Z.to_nat off)).

Definition reg_read (f : regfile) (n : Z) : Z * bytes * regfile :=
  let d := slice (fpos f) (Z.to_nat n) (contents f) in
  (Z.of_nat (length d), d, mkFile (contents f) (fpos f + length d)).

(** A write past the end fills the gap with zeros. *)
Definition reg_write (f : regfile) (d : bytes) : Z * regfile :=
  let c := contents f ++ replicate (fpos f - length (contents f)) 0 in
  (Z.of_nat (length d), mkFile (splice (fpos f) d c) (fpos f + length d)).

#[export] Instance regfile_ops : FileOps regfile :=
  {| f_lseek := reg_lseek; f_read := reg_read; f_write := reg_write |}.

(** A regular file whose contents are bytes obeys the contract; the subset
    keeps that invariant. *)
Lemma reg_read_result f n r d f' : Forall is_byte (contents f) → 0 ≤ n →
  f_read f n = (r, d, f') →
  (r = -1 ∧ d = []) ∨ (r = Z.of_nat (length d) ∧ r ≤ n ∧ Forall is_byte d).
Proof.
  cbn. unfold reg_read. intros Hb Hn [= <- <- <-]. right. split_and!; [done | |].
  - rewrite length_slice. lia.
  - auto with c_model.
Qed.

Lemma reg_read_all f n : (fpos f + Z.to_nat n ≤ length (contents f))%nat →
  f_read f n = (Z.of_nat (Z.to_nat n), slice (fpos f) (Z.to_nat n) (contents f),
                mkFile (contents f) (fpos f + Z.to_nat n)).
Proof.
  intros. cbn. unfold reg_read. rewrite length_slice.
  by replace (Z.to_nat n `min` (length (contents f) - fpos f))%nat with (Z.to_nat n) by lia.
Qed.

Lemma reg_lseek_pos f off : 0 ≤ off → f_lseek f off = (off, mkFile (contents f) (Z.to_nat off)).
Proof. intros. cbn. unfold reg_lseek. destruct (Z.ltb_spec off 0); [lia | done]. Qed.

(** Overwriting inside the file. *)
Lemma reg_write_inside f d : (fpos f + length d ≤ length (contents f))%nat →
  f_write f d = (Z.of_nat (length d), mkFile (splice (fpos f) d (contents f)) (fpos f + length d)).
Proof.
  intros. cbn. unfold reg_write.
  replace (fpos f - length (contents f))%nat with 0%nat by lia. by rewrite app_nil_r.
Qed.

#[export] Hint Rewrite reg_lseek_pos reg_read_all reg_write_inside using lia : c_rw.

(** A connected socket: what the peer has sent and will send before it closes,
    and what was written. *)
Record sock := mkSock { sk_in : bytes; sk_out : bytes }.

Definition sk_read (f : sock) (n : Z) : Z * bytes * sock :=
  let d := take (Z.to_nat n) (sk_in f) in
  (Z.of_nat (length d), d, mkSock (drop (Z.to_nat n) (sk_in f)) (sk_out f)).
Definition sk_write (f : sock) (d : bytes) : Z * sock :=
  (Z.of_nat (length d), mkSock (sk_in f) (sk_out f ++ d)).

#[export] Instance sock_ops : FileOps sock :=
  {| f_lseek f _ := (-1, f); f_read := sk_read; f_write := sk_write |}.
