(* ===== verification/Sys.v ===== *)
(** * System calls on path names

    The calls on file names the sources make, as an interface ([SysOps]): every
    call returns 0 or the errno it fails with, and the next state of the
    system.  [memfs] is an instance: names with inodes, hard links included; a
    name is created only in an existing directory, and symbolic links are
    followed at the end of a name only. *)

From S2P Require Import Prelude CLib.

(** Types of files in [st_mode]. *)
Definition S_IFMT : Z := 0xf000.
Definition S_IFSOCK : Z := 0xc000.
Definition S_IFLNK : Z := 0xa000.
Definition S_IFREG : Z := 0x8000.
Definition S_IFBLK : Z := 0x6000.
Definition S_IFDIR : Z := 0x4000.
Definition S_IFCHR : Z := 0x2000.
Definition S_IFIFO : Z := 0x1000.
Definition S_IS (fmt mode : Z) : bool := Z.land mode S_IFMT =? fmt.

Definition ENOENT : Z := 2.
Definition EEXIST : Z := 17.
Definition ENOTDIR : Z := 20.
Definition EISDIR : Z := 21.

Record stat := mkStat { st_mode : Z; st_rdev : Z }.

Class SysOps (S : Type) := {
  s_lstat : S → bytes → Z + stat;
  s_stat : S → bytes → Z + stat;
  s_unlink : S → bytes → Z * S;
  s_mkdir : S → bytes → Z → Z * S;
  s_chmod : S → bytes → Z → Z * S;
  s_chown : S → bytes → Z → Z → Z * S;
  s_lchown : S → bytes → Z → Z → Z * S;
  s_utime : S → bytes → Z → Z * S;
  s_getuid : S → Z;
  (* open(path, O_CREAT | O_WRONLY, mode): the descriptor, or errno *)
  s_creat : S → bytes → Z → (Z + nat) * S;
  (* write(2): bytes written or -1 *)
  s_write : S → nat → bytes → Z * S;
  s_close : S → nat → S;
  s_readlink : S → bytes → Z → option bytes;
  s_symlink : S → bytes → bytes → Z * S;
  s_mkfifo : S → bytes → Z → Z * S;
  s_mknod : S → bytes → Z → Z → Z * S;
  s_link : S → bytes → bytes → Z * S;
  (* access(path, R_OK) *)
  s_access : S → bytes → Z
}.

(** ** A file system in memory *)

Inductive kind := KReg (data : bytes) | KDir | KLnk (target : bytes) | KFifo | KDev (fmt rdev : Z).
Record fsnode := mkInode { i_kind : kind; i_perm : Z; i_uid : Z; i_gid : Z; i_mtime : Z }.
Record memfs := mkFs {
  fs_names : gmap bytes nat;
  fs_inodes : gmap nat fsnode;
  fs_fds : gmap nat (nat * nat);   (* descriptor: inode and offset *)
  fs_next : nat;
  fs_uid : Z;
  fs_full : bool                   (* no room for data *)
}.

Definition set_names v fs := mkFs v (fs_inodes fs) (fs_fds fs) (fs_next fs) (fs_uid fs) (fs_full fs).
Definition set_inodes v fs := mkFs (fs_names fs) v (fs_fds fs) (fs_next fs) (fs_uid fs) (fs_full fs).
Definition set_fds v fs := mkFs (fs_names fs) (fs_inodes fs) v (fs_next fs) (fs_uid fs) (fs_full fs).

Definition fs_lookup (fs : memfs) (p : bytes) : option (nat * fsnode) :=
  n ← fs_names fs !! p; i ← fs_inodes fs !! n; Some (n, i).

Definition fmt_of (k : kind) : Z :=
  match k with
  | KReg _ => S_IFREG | KDir => S_IFDIR | KLnk _ => S_IFLNK | KFifo => S_IFIFO | KDev f _ => f
  end.
Definition stat_of (i : fsnode) : stat :=
  mkStat (Z.lor (fmt_of (i_kind i)) (i_perm i)) (match i_kind i with KDev _ r => r | _ => 0 end).

(** The directory part of a name; [None] for the root or the current
    directory. *)
Definition dirname (p : bytes) : option bytes :=
  match strrchr p 47 with
  | None => None
  | Some t => match before p t with [] => None | d => Some d end
  end.
Definition parent_ok (fs : memfs) (p : bytes) : bool :=
  match dirname p with
  | None => true
  | Some d => match fs_lookup fs d with Some (_, i) => match i_kind i with KDir => true | _ => false end | None => false end
  end.

Definition fs_lstat (fs : memfs) (p : bytes) : Z + stat :=
  match fs_lookup fs p with Some (_, i) => inr (stat_of i) | None => inl ENOENT end.
Definition fs_stat (fs : memfs) (p : bytes) : Z + stat :=
  match fs_lookup fs p with
  | Some (_, i) => match i_kind i with KLnk t => fs_lstat fs t | _ => inr (stat_of i) end
  | None => inl ENOENT
  end.
Definition fs_create (fs : memfs) (p : bytes) (k : kind) (perm : Z) : Z * memfs :=
  if bool_decide (is_Some (fs_lookup fs p)) then (EEXIST, fs)
  else if negb (parent_ok fs p) then (ENOENT, fs)
  else
    let n := fs_next fs in
    (0, mkFs (<[p := n]> (fs_names fs)) (<[n := mkInode k perm 0 0 0]> (fs_inodes fs)) (fs_fds fs)
          (S n) (fs_uid fs) (fs_full fs)).
Definition fs_unlink (fs : memfs) (p : bytes) : Z * memfs :=
  match fs_lookup fs p with
  | None => (ENOENT, fs)
  | Some (_, i) => match i_kind i with KDir => (EISDIR, fs) | _ => (0, set_names (delete p (fs_names fs)) fs) end
  end.
(** Change the inode a name has. *)
Definition fs_change (f : fsnode → fsnode) (fs : memfs) (p : bytes) : Z * memfs :=
  match fs_lookup fs p with
  | None => (ENOENT, fs)
  | Some (n, i) => (0, set_inodes (<[n := f i]> (fs_inodes fs)) fs)
  end.
Definition fs_creat (fs : memfs) (p : bytes) (perm : Z) : (Z + nat) * memfs :=
  let open fs :=
    match fs_lookup fs p with
    | Some (n, i) =>
        match i_kind i with
        | KDir => (inl EISDIR, fs)
        | _ => (inr (fs_next fs), mkFs (fs_names fs) (fs_inodes fs) (<[fs_next fs := (n, 0%nat)]> (fs_fds fs))
                                    (S (fs_next fs)) (fs_uid fs) (fs_full fs))
        end
    | None => (inl ENOENT, fs)
    end in
  if bool_decide (is_Some (fs_lookup fs p)) then open fs
  else let '(e, fs) := fs_create fs p (KReg []) perm in if e =? 0 then open fs else (inl e, fs).
Definition fs_write (fs : memfs) (fd : nat) (d : bytes) : Z * memfs :=
  if fs_full fs then (-1, fs)
  else
    match fs_fds fs !! fd with
    | None => (-1, fs)
    | Some (n, off) =>
        match fs_inodes fs !! n with
        | Some i =>
            match i_kind i with
            | KReg c =>
                let c := splice off d (c ++ replicate (off - length c) 0) in
                (Z.of_nat (length d),
                 set_fds (<[fd := (n, (off + length d)%nat)]> (fs_fds fs))
                   (set_inodes (<[n := mkInode (KReg c) (i_perm i) (i_uid i) (i_gid i) (i_mtime i)]> (fs_inodes fs)) fs))
            | _ => (-1, fs)
            end
        | None => (-1, fs)
        end
    end.
Definition fs_readlink (fs : memfs) (p : bytes) (n : Z) : option bytes :=
  match fs_lookup fs p with
  | Some (_, i) => match i_kind i with KLnk t => Some (take (Z.to_nat n) t) | _ => None end
  | None => None
  end.
Definition fs_link (fs : memfs) (from to : bytes) : Z * memfs :=
  match fs_lookup fs from with
  | None => (ENOENT, fs)
  | Some (n, _) =>
      if bool_decide (is_Some (fs_lookup fs to)) then (EEXIST, fs)
      else if negb (parent_ok fs to) then (ENOENT, fs)
      else (0, set_names (<[to := n]> (fs_names fs)) fs)
  end.

#[export] Instance memfs_ops : SysOps memfs := {|
  s_lstat := fs_lstat;
  s_stat := fs_stat;
  s_unlink := fs_unlink;
  s_mkdir fs p m := fs_create fs p KDir m;
  s_chmod fs p m := fs_change (λ i, mkInode (i_kind i) m (i_uid i) (i_gid i) (i_mtime i)) fs p;
  s_chown fs p u g := fs_change (λ i, mkInode (i_kind i) (i_perm i) u g (i_mtime i)) fs p;
  s_lchown fs p u g := fs_change (λ i, mkInode (i_kind i) (i_perm i) u g (i_mtime i)) fs p;
  s_utime fs p t := fs_change (λ i, mkInode (i_kind i) (i_perm i) (i_uid i) (i_gid i) t) fs p;
  s_getuid := fs_uid;
  s_creat := fs_creat;
  s_write := fs_write;
  s_close fs fd := set_fds (delete fd (fs_fds fs)) fs;
  s_readlink := fs_readlink;
  s_symlink fs t p := fs_create fs p (KLnk t) 0x1ff;
  s_mkfifo fs p m := fs_create fs p KFifo m;
  s_mknod fs p m r := fs_create fs p (KDev (Z.land m S_IFMT) r) (Z.land m 0xfff);
  s_link := fs_link;
  s_access fs p := match fs_lookup fs p with Some _ => 0 | None => ENOENT end
|}.

Definition empty_fs : memfs := mkFs ∅ ∅ ∅ 1 0 false.
