(* ===== verification/Md5.v ===== *)
(** * MD5 (isomd5sum/md5.c, isomd5sum/md5.h)

    [Spec] is RFC 1321 written independently of the code: the padded message,
    the sixty-four operations by their index formulas, and the table computed
    from the sine.  [Code] is the C of md5.c over [MD5Context], for a host of
    either byte order.  The theorems show that a context which absorbed a
    message in any number of pieces yields the digest of the RFC. *)

From S2P Require Import Prelude.

(** ** RFC 1321 *)

Module Spec.

Definition not32 (x : Z) : Z := w32 (Z.lnot x).
Definition rotl (x s : Z) : Z := Z.lor (w32 (Z.shiftl x s)) (Z.shiftr x (32 - s)).

(** The four auxiliary functions of section 3.4. *)
Definition F X Y Z_ := Z.lor (Z.land X Y) (Z.land (not32 X) Z_).
Definition G X Y Z_ := Z.lor (Z.land X Z_) (Z.land Y (not32 Z_)).
Definition H X Y Z_ := Z.lxor (Z.lxor X Y) Z_.
Definition I X Y Z_ := Z.lxor Y (Z.lor X (not32 Z_)).

(** Sine in fixed point with 256 fractional bits, by its power series: the
    first [n] terms, for an argument in radians. *)
Definition sin_bits : Z := 256.
Fixpoint sin_terms (n : nat) (x2 term k acc : Z) : Z :=
  match n with
  | O => acc
  | S n =>
      sin_terms n x2 (- (term * x2) / ((k + 1) * (k + 2))) (k + 2) (acc + term)
  end.
Definition sin_fixed (x : Z) : Z := sin_terms 160 (x * x) (x * 2 ^ sin_bits) 1 0.

(** T[i] = floor (2^32 * |sin i|), i from 1 to 64. *)
Definition T (i : Z) : Z := Z.abs (sin_fixed i) / 2 ^ (sin_bits - 32).

(** Operation [i] of 0..63: its function, message word and rotation. *)
Definition fn (i : nat) : Z → Z → Z → Z :=
  match (i / 16)%nat with 0%nat => F | 1%nat => G | 2%nat => H | _ => I end.
Definition word_ix (i : nat) : nat :=
  match (i / 16)%nat with
  | 0%nat => i
  | 1%nat => (5 * i + 1) mod 16
  | 2%nat => (3 * i + 5) mod 16
  | _ => (7 * i) mod 16
  end%nat.
Definition rot (i : nat) : Z :=
  nth (i mod 4)
    (nth (i / 16) [[7; 12; 17; 22]; [5; 9; 14; 20]; [4; 11; 16; 23]; [6; 10; 15; 21]] []) 0.

Definition state : Type := Z * Z * Z * Z.

(** [a = b + ((a + f(b,c,d) + X[k] + T[i+1]) <<< s)], then the registers are
    renamed for the next operation. *)
Definition op (X : list Z) (st : state) (i : nat) : state :=
  let '(a, b, c, d) := st in
  let a' := w32 (b + rotl (w32 (a + fn i b c d + nth (word_ix i) X 0 + T (Z.of_nat i + 1))) (rot i)) in
  (d, a', b, c).

Definition add4 (s t : state) : state :=
  let '(a, b, c, d) := s in let '(a', b', c', d') := t in
  (w32 (a + a'), w32 (b + b'), w32 (c + c'), w32 (d + d')).

(** The sixteen words of a 64-byte block. *)
Definition block_words (blk : bytes) : list Z :=
  (λ i, le_val (slice (4 * i) 4 blk)) <$> seq 0 16.

Definition compress (st : state) (blk : bytes) : state :=
  add4 st (foldl (op (block_words blk)) st (seq 0 64)).

Definition iv : state := (0x67452301, 0xefcdab89, 0x98badcfe, 0x10325476).

(** The chaining value after the first [n] blocks of [m]. *)
Definition absorb (m : bytes) (n : nat) : state :=
  foldl (λ st i, compress st (slice (64 * i) 64 m)) iv (seq 0 n).

(** Section 3.1 and 3.2: a one bit, zeros up to 56 mod 64, and the bit length
    as 64 bits, low-order byte first. *)
Definition pad (m : bytes) : bytes :=
  m ++ [0x80] ++ replicate (Z.to_nat ((55 - Z.of_nat (length m)) mod 64)) 0
    ++ le_bytes 8 (w64 (8 * Z.of_nat (length m))).

Definition digest_of (st : state) : bytes :=
  let '(a, b, c, d) := st in le_bytes 4 a ++ le_bytes 4 b ++ le_bytes 4 c ++ le_bytes 4 d.

Definition md5 (m : bytes) : bytes :=
  digest_of (absorb (pad m) (length (pad m) / 64)).

End Spec.

(** ** md5.c *)

Module Code.

(** struct MD5Context *)
Record MD5Context := mkContext {
  buf : list Z;           (* uint32 buf[4] *)
  bits0 : Z;              (* uint32 bits[2] *)
  bits1 : Z;
  in_ : bytes;            (* unsigned char in[64] *)
  doByteReverse : bool
}.

Definition set_buf v c := mkContext v (bits0 c) (bits1 c) (in_ c) (doByteReverse c).
Definition set_bits v0 v1 c := mkContext (buf c) v0 v1 (in_ c) (doByteReverse c).
Definition set_in v c := mkContext (buf c) (bits0 c) (bits1 c) v (doByteReverse c).

(** Four registers of MD5_Transform. *)
Inductive reg := Ra | Rb | Rc | Rd.
Record regs := mkRegs { ra : Z; rb : Z; rc : Z; rd : Z }.
Definition get (r : reg) (ρ : regs) : Z :=
  match r with Ra => ra ρ | Rb => rb ρ | Rc => rc ρ | Rd => rd ρ end.
Definition set (r : reg) (v : Z) (ρ : regs) : regs :=
  match r with
  | Ra => mkRegs v (rb ρ) (rc ρ) (rd ρ)
  | Rb => mkRegs (ra ρ) v (rc ρ) (rd ρ)
  | Rc => mkRegs (ra ρ) (rb ρ) v (rd ρ)
  | Rd => mkRegs (ra ρ) (rb ρ) (rc ρ) v
  end.

Definition not32 (x : Z) : Z := w32 (Z.lnot x).

(** The macros F1 to F4, with their arguments in the order of the code. *)
Definition F1 (x y z : Z) : Z := Z.lxor z (Z.land x (Z.lxor y z)).
Definition F2 (x y z : Z) : Z := F1 z x y.
Definition F3 (x y z : Z) : Z := Z.lxor (Z.lxor x y) z.
Definition F4 (x y z : Z) : Z := Z.lxor y (Z.lor x (not32 z)).

Inductive core := CF1 | CF2 | CF3 | CF4.
Definition core_fn (f : core) : Z → Z → Z → Z :=
  match f with CF1 => F1 | CF2 => F2 | CF3 => F3 | CF4 => F4 end.

(** MD5STEP(f, w, x, y, z, data, s) as an update of the registers. *)
Definition MD5STEP (f : core) (w x y z : reg) (data s : Z) (ρ : regs) : regs :=
  let w1 := w32 (get w ρ + w32 (core_fn f (get x ρ) (get y ρ) (get z ρ) + data)) in
  let w2 := Z.lor (w32 (Z.shiftl w1 s)) (Z.shiftr w1 (32 - s)) in
  let w3 := w32 (w2 + get x ρ) in
  set w w3 ρ.

(** The sixty-four statements of MD5_Transform: f, w, x, y, z, the index of
    the message word, the constant added to it, and s. *)
Definition transform_steps : list (core * reg * reg * reg * reg * nat * Z * Z) :=
  [ (CF1, Ra, Rb, Rc, Rd,  0%nat, 0xd76aa478, 7);
    (CF1, Rd, Ra, Rb, Rc,  1%nat, 0xe8c7b756, 12);
    (CF1, Rc, Rd, Ra, Rb,  2%nat, 0x242070db, 17);
    (CF1, Rb, Rc, Rd, Ra,  3%nat, 0xc1bdceee, 22);
    (CF1, Ra, Rb, Rc, Rd,  4%nat, 0xf57c0faf, 7);
    (CF1, Rd, Ra, Rb, Rc,  5%nat, 0x4787c62a, 12);
    (CF1, Rc, Rd, Ra, Rb,  6%nat, 0xa8304613, 17);
    (CF1, Rb, Rc, Rd, Ra,  7%nat, 0xfd469501, 22);
    (CF1, Ra, Rb, Rc, Rd,  8%nat, 0x698098d8, 7);
    (CF1, Rd, Ra, Rb, Rc,  9%nat, 0x8b44f7af, 12);
    (CF1, Rc, Rd, Ra, Rb, 10%nat, 0xffff5bb1, 17);
    (CF1, Rb, Rc, Rd, Ra, 11%nat, 0x895cd7be, 22);
    (CF1, Ra, Rb, Rc, Rd, 12%nat, 0x6b901122, 7);
    (CF1, Rd, Ra, Rb, Rc, 13%nat, 0xfd987193, 12);
    (CF1, Rc, Rd, Ra, Rb, 14%nat, 0xa679438e, 17);
    (CF1, Rb, Rc, Rd, Ra, 15%nat, 0x49b40821, 22);

    (CF2, Ra, Rb, Rc, Rd,  1%nat, 0xf61e2562, 5);
    (CF2, Rd, Ra, Rb, Rc,  6%nat, 0xc040b340, 9);
    (CF2, Rc, Rd, Ra, Rb, 11%nat, 0x265e5a51, 14);
    (CF2, Rb, Rc, Rd, Ra,  0%nat, 0xe9b6c7aa, 20);
    (CF2, Ra, Rb, Rc, Rd,  5%nat, 0xd62f105d, 5);
    (CF2, Rd, Ra, Rb, Rc, 10%nat, 0x02441453, 9);
    (CF2, Rc, Rd, Ra, Rb, 15%nat, 0xd8a1e681, 14);
    (CF2, Rb, Rc, Rd, Ra,  4%nat, 0xe7d3fbc8, 20);
    (CF2, Ra, Rb, Rc, Rd,  9%nat, 0x21e1cde6, 5);
    (CF2, Rd, Ra, Rb, Rc, 14%nat, 0xc33707d6, 9);
    (CF2, Rc, Rd, Ra, Rb,  3%nat, 0xf4d50d87, 14);
    (CF2, Rb, Rc, Rd, Ra,  8%nat, 0x455a14ed, 20);
    (CF2, Ra, Rb, Rc, Rd, 13%nat, 0xa9e3e905, 5);
    (CF2, Rd, Ra, Rb, Rc,  2%nat, 0xfcefa3f8, 9);
    (CF2, Rc, Rd, Ra, Rb,  7%nat, 0x676f02d9, 14);
    (CF2, Rb, Rc, Rd, Ra, 12%nat, 0x8d2a4c8a, 20);

    (CF3, Ra, Rb, Rc, Rd,  5%nat, 0xfffa3942, 4);
    (CF3, Rd, Ra, Rb, Rc,  8%nat, 0x8771f681, 11);
    (CF3, Rc, Rd, Ra, Rb, 11%nat, 0x6d9d6122, 16);
    (CF3, Rb, Rc, Rd, Ra, 14%nat, 0xfde5380c, 23);
    (CF3, Ra, Rb, Rc, Rd,  1%nat, 0xa4beea44, 4);
    (CF3, Rd, Ra, Rb, Rc,  4%nat, 0x4bdecfa9, 11);
    (CF3, Rc, Rd, Ra, Rb,  7%nat, 0xf6bb4b60, 16);
    (CF3, Rb, Rc, Rd, Ra, 10%nat, 0xbebfbc70, 23);
    (CF3, Ra, Rb, Rc, Rd, 13%nat, 0x289b7ec6, 4);
    (CF3, Rd, Ra, Rb, Rc,  0%nat, 0xeaa127fa, 11);
    (CF3, Rc, Rd, Ra, Rb,  3%nat, 0xd4ef3085, 16);
    (CF3, Rb, Rc, Rd, Ra,  6%nat, 0x04881d05, 23);
    (CF3, Ra, Rb, Rc, Rd,  9%nat, 0xd9d4d039, 4);
    (CF3, Rd, Ra, Rb, Rc, 12%nat, 0xe6db99e5, 11);
    (CF3, Rc, Rd, Ra, Rb, 15%nat, 0x1fa27cf8, 16);
    (CF3, Rb, Rc, Rd, Ra,  2%nat, 0xc4ac5665, 23);

    (CF4, Ra, Rb, Rc, Rd,  0%nat, 0xf4292244, 6);
    (CF4, Rd, Ra, Rb, Rc,  7%nat, 0x432aff97, 10);
    (CF4, Rc, Rd, Ra, Rb, 14%nat, 0xab9423a7, 15);
    (CF4, Rb, Rc, Rd, Ra,  5%nat, 0xfc93a039, 21);
    (CF4, Ra, Rb, Rc, Rd, 12%nat, 0x655b59c3, 6);
    (CF4, Rd, Ra, Rb, Rc,  3%nat, 0x8f0ccc92, 10);
    (CF4, Rc, Rd, Ra, Rb, 10%nat, 0xffeff47d, 15);
    (CF4, Rb, Rc, Rd, Ra,  1%nat, 0x85845dd1, 21);
    (CF4, Ra, Rb, Rc, Rd,  8%nat, 0x6fa87e4f, 6);
    (CF4, Rd, Ra, Rb, Rc, 15%nat, 0xfe2ce6e0, 10);
    (CF4, Rc, Rd, Ra, Rb,  6%nat, 0xa3014314, 15);
    (CF4, Rb, Rc, Rd, Ra, 13%nat, 0x4e0811a1, 21);
    (CF4, Ra, Rb, Rc, Rd,  4%nat, 0xf7537e82, 6);
    (CF4, Rd, Ra, Rb, Rc, 11%nat, 0xbd3af235, 10);
    (CF4, Rc, Rd, Ra, Rb,  2%nat, 0x2ad7d2bb, 15);
    (CF4, Rb, Rc, Rd, Ra,  9%nat, 0xeb86d391, 21) ].

Definition run_step (inp : list Z) (ρ : regs)
    (st : core * reg * reg * reg * reg * nat * Z * Z) : regs :=
  let '(f, w, x, y, z, k, t, s) := st in
  MD5STEP f w x y z (w32 (nth k inp 0 + t)) s ρ.

(** MD5_Transform(buf, in): [inp] holds the sixteen words of [in]. *)
Definition MD5_Transform (b : list Z) (inp : list Z) : list Z :=
  let ρ0 := mkRegs (nth 0 b 0) (nth 1 b 0) (nth 2 b 0) (nth 3 b 0) in
  let ρ := foldl (run_step inp) ρ0 transform_steps in
  [ w32 (nth 0 b 0 + ra ρ); w32 (nth 1 b 0 + rb ρ);
    w32 (nth 2 b 0 + rc ρ); w32 (nth 3 b 0 + rd ρ) ].

Section host.
(** [__BYTE_ORDER == __BIG_ENDIAN] on the host *)
Context (big_endian : bool).

(** A uint32 object in memory, and memory read as uint32 objects. *)
Definition store32 (w : Z) : bytes :=
  if big_endian then rev (le_bytes 4 w) else le_bytes 4 w.
Definition load32 (m : bytes) : Z :=
  if big_endian then le_val (rev m) else le_val m.
Definition words (n : nat) (m : bytes) : list Z :=
  (λ i, load32 (slice (4 * i) 4 m)) <$> seq 0 n.

(** byteReverse(buf, longs): each of the first [longs] groups of four bytes is
    rewritten as the host's uint32 with the group's little-endian value.  (The
    code calls it with 16, 14 and 4; its do loop needs [longs] > 0.) *)
Fixpoint byteReverse (m : bytes) (longs : nat) : bytes :=
  match longs with
  | O => m
  | S longs =>
      let t := Z.lor
        (Z.shiftl (Z.lor (Z.shiftl (nth 3 m 0) 8) (nth 2 m 0)) 16)
        (Z.lor (Z.shiftl (nth 1 m 0) 8) (nth 0 m 0)) in
      store32 (w32 t) ++ byteReverse (drop 4 m) longs
  end.

(** [if (ctx->doByteReverse) byteReverse(ctx->in, n)] *)
Definition reverse_in (n : nat) (c : MD5Context) : MD5Context :=
  if doByteReverse c then set_in (byteReverse (in_ c) n) c else c.

(** [MD5_Transform(ctx->buf, (uint32 * ) ctx->in)] *)
Definition transform (c : MD5Context) : MD5Context :=
  set_buf (MD5_Transform (buf c) (words 16 (in_ c))) c.

Definition MD5_Init (ctx : MD5Context) : MD5Context :=
  mkContext [0x67452301; 0xefcdab89; 0x98badcfe; 0x10325476] 0 0 (in_ ctx) big_endian.

(** [while (len >= 64)], with the bytes still to read. *)
Fixpoint update_loop (fuel : nat) (ctx : MD5Context) (b : bytes) (len : Z) :
    MD5Context * bytes * Z :=
  match fuel with
  | O => (ctx, b, len)
  | S fuel =>
      if 64 <=? len then
        let ctx := set_in (splice 0 (take 64 b) (in_ ctx)) ctx in
        let ctx := transform (reverse_in 16 ctx) in
        update_loop fuel ctx (drop 64 b) (len - 64)
      else (ctx, b, len)
  end.

Definition MD5_Update (ctx : MD5Context) (b : bytes) (len : Z) : MD5Context :=
  let t := bits0 ctx in
  let nbits0 := w32 (t + w32 (Z.shiftl len 3)) in
  let carry := if nbits0 <? t then 1 else 0 in
  let nbits1 := w32 (w32 (bits1 ctx + carry) + Z.shiftr len 29) in
  let ctx := set_bits nbits0 nbits1 ctx in
  let t := Z.land (Z.shiftr t 3) 0x3f in
  let finish ctx b len :=
    let '(ctx, b, len) := update_loop (S (Z.to_nat (len / 64))) ctx b len in
    set_in (splice 0 (take (Z.to_nat len) b) (in_ ctx)) ctx in
  if negb (t =? 0) then
    let p := Z.to_nat t in
    let t := 64 - t in
    if len <? t then
      set_in (splice p (take (Z.to_nat len) b) (in_ ctx)) ctx
    else
      let ctx := set_in (splice p (take (Z.to_nat t) b) (in_ ctx)) ctx in
      let ctx := transform (reverse_in 16 ctx) in
      finish ctx (drop (Z.to_nat t) b) (len - t)
  else finish ctx b len.

(** MD5_Final: the digest and the context, which is cleared. *)
Definition MD5_Final (ctx : MD5Context) : bytes * MD5Context :=
  let count := Z.to_nat (Z.land (Z.shiftr (bits0 ctx) 3) 0x3F) in
  let ctx := set_in (splice count [0x80] (in_ ctx)) ctx in
  let p := S count in
  let count := (64 - 1 - count)%nat in
  let ctx :=
    if (count <? 8)%nat then
      let ctx := set_in (splice p (replicate count 0) (in_ ctx)) ctx in
      let ctx := transform (reverse_in 16 ctx) in
      set_in (splice 0 (replicate 56 0) (in_ ctx)) ctx
    else set_in (splice p (replicate (count - 8) 0) (in_ ctx)) ctx in
  let ctx := reverse_in 14 ctx in
  let ctx := set_in (splice 56 (store32 (bits0 ctx) ++ store32 (bits1 ctx)) (in_ ctx)) ctx in
  let ctx := transform ctx in
  let mem := buf ctx ≫= store32 in
  let mem := if doByteReverse ctx then byteReverse mem 4 else mem in
  (mem, mkContext (replicate 4 0) 0 0 (replicate 64 0) false).

End host.
End Code.

(** ** The compression function *)

Import Code.

Lemma F1_F x y z : w32 (F1 x y z) = w32 (Spec.F x y z).
Proof.
  unfold F1, Spec.F, Spec.not32. bitwise.
  destruct (i <? 32), (Z.testbit x i), (Z.testbit y i), (Z.testbit z i); done.
Qed.

Lemma F2_G x y z : w32 (F2 x y z) = w32 (Spec.G x y z).
Proof.
  unfold F2, F1, Spec.G, Spec.not32. bitwise.
  destruct (i <? 32), (Z.testbit x i), (Z.testbit y i), (Z.testbit z i); done.
Qed.

(** The statement of MD5_Transform that operation [i] of the RFC asks for. *)
Definition core_of (i : nat) : core :=
  match (i / 16)%nat with 0%nat => CF1 | 1%nat => CF2 | 2%nat => CF3 | _ => CF4 end.
Definition roles (i : nat) : reg * reg * reg * reg :=
  match (i mod 4)%nat with
  | 0%nat => (Ra, Rb, Rc, Rd)
  | 1%nat => (Rd, Ra, Rb, Rc)
  | 2%nat => (Rc, Rd, Ra, Rb)
  | _ => (Rb, Rc, Rd, Ra)
  end.
Definition rfc_step (i : nat) : core * reg * reg * reg * reg * nat * Z * Z :=
  let '(w, x, y, z) := roles i in
  (core_of i, w, x, y, z, Spec.word_ix i, Spec.T (Z.of_nat i + 1), Spec.rot i).

Lemma core_of_fn i x y z : w32 (core_fn (core_of i) x y z) = w32 (Spec.fn i x y z).
Proof.
  unfold core_of, Spec.fn.
  destruct (i / 16)%nat as [| [| []]]; auto using F1_F, F2_G.
Qed.

Lemma transform_steps_rfc : transform_steps = rfc_step <$> seq 0 64.
Proof. vm_compute. reflexivity. Qed.

(** The registers as the RFC names them before operation [i]. *)
Definition view (i : nat) (ρ : regs) : Spec.state :=
  let '(w, x, y, z) := roles i in (get w ρ, get x ρ, get y ρ, get z ρ).

Lemma mod4_cases i :
  ((i mod 4 = 0 ∧ S i mod 4 = 1) ∨ (i mod 4 = 1 ∧ S i mod 4 = 2) ∨
   (i mod 4 = 2 ∧ S i mod 4 = 3) ∨ (i mod 4 = 3 ∧ S i mod 4 = 0))%nat.
Proof.
  pose proof (Nat.div_mod_eq i 4). pose proof (Nat.div_mod_eq (S i) 4).
  pose proof (Nat.mod_upper_bound i 4). pose proof (Nat.mod_upper_bound (S i) 4). lia.
Qed.

Lemma step_data f g k t w :
  w32 f = w32 g → w32 (w + w32 (f + w32 (k + t))) = w32 (w + g + k + t).
Proof.
  intros E. rewrite wrap_add_r. rewrite (Z.add_comm f), Z.add_assoc, <- wrap_add_r, E.
  rewrite wrap_add_r. rewrite (Z.add_comm w), <- Z.add_assoc, wrap_add_l. f_equal. lia.
Qed.

Lemma op_step X ρ i : Spec.op X (view i ρ) i = view (S i) (run_step X ρ (rfc_step i)).
Proof.
  unfold view, rfc_step, run_step, roles.
  destruct (mod4_cases i) as [[-> ->] | [[-> ->] | [[-> ->] | [-> ->]]]];
    cbn; rewrite (step_data _ (Spec.fn i _ _ _)) by apply core_of_fn;
    unfold Spec.rotl; by rewrite (Z.add_comm (Z.lor _ _)).
Qed.

Lemma ops_steps X n j ρ :
  foldl (Spec.op X) (view j ρ) (seq j n) =
  view (j + n) (foldl (run_step X) ρ (rfc_step <$> seq j n)).
Proof.
  revert j ρ. induction n as [| n IH]; intros j ρ; cbn [seq foldl fmap list_fmap].
  { by rewrite Nat.add_0_r. }
  rewrite op_step, IH. f_equal. lia.
Qed.

Definition state_list (st : Spec.state) : list Z :=
  let '(a, b, c, d) := st in [a; b; c; d].

Lemma view_0 a b c d : view 0 (mkRegs a b c d) = (a, b, c, d).
Proof. reflexivity. Qed.

Lemma view_64 ρ : view 64 ρ = (ra ρ, rb ρ, rc ρ, rd ρ).
Proof. reflexivity. Qed.

Lemma transform_regs X a b c d :
  foldl (Spec.op X) (a, b, c, d) (seq 0 64) =
  view 64 (foldl (run_step X) (mkRegs a b c d) transform_steps).
Proof. by rewrite <- view_0, transform_steps_rfc, ops_steps. Qed.

Lemma MD5_Transform_compress st blk :
  MD5_Transform (state_list st) (Spec.block_words blk) = state_list (Spec.compress st blk).
Proof.
  destruct st as [[[a b] c] d]. unfold MD5_Transform, Spec.compress.
  rewrite transform_regs, view_64. cbn [nth state_list].
  generalize (foldl (run_step (Spec.block_words blk)) (mkRegs a b c d) transform_steps).
  intros ρ. reflexivity.
Qed.

(** ** Words in memory *)

Section host_facts.
Context (big_endian : bool).
Local Abbreviation store32 := (store32 big_endian).
Local Abbreviation load32 := (load32 big_endian).
Local Abbreviation words := (words big_endian).
Local Abbreviation byteReverse := (byteReverse big_endian).

Lemma length_store32 w : length (store32 w) = 4%nat.
Proof. unfold Code.store32. destruct big_endian; by rewrite ?length_rev. Qed.

Lemma store32_byte w : Forall is_byte (store32 w).
Proof.
  unfold Code.store32. destruct big_endian; [apply Forall_rev |]; auto with c_model.
Qed.

Lemma load_store32 w : 0 ≤ w < 2 ^ 32 → load32 (store32 w) = w.
Proof.
  intros. unfold Code.load32, Code.store32.
  destruct big_endian; rewrite ?rev_involutive; by apply le_val_bytes.
Qed.

Lemma lor_shiftl_add a b n : 0 ≤ n → 0 ≤ b < 2 ^ n → Z.lor (Z.shiftl a n) b = a * 2 ^ n + b.
Proof.
  intros Hn Hb. rewrite <- Z.shiftl_mul_pow2 by done.
  assert (Z.land (Z.shiftl a n) b = 0) as E.
  { bitwise. rewrite Z.bits_0. destruct (Z.lt_ge_cases i n).
    - by rewrite Z.shiftl_spec_low.
    - rewrite <- (Z.mod_small b (2 ^ n)) by done.
      by rewrite Z.mod_pow2_bits_high, andb_false_r by lia. }
  by rewrite <- Z.lxor_lor, <- Z.add_nocarry_lxor.
Qed.

(** Memory as little-endian words, the view the RFC takes. *)
Definition le_words (n : nat) (m : bytes) : list Z :=
  (λ i, le_val (slice (4 * i) 4 m)) <$> seq 0 n.

Lemma words_step {B} (f : bytes → B) n (m : bytes) :
  ((λ i, f (slice (4 * i) 4 m)) <$> seq 0 (S n)) =
  f (take 4 m) :: ((λ i, f (slice (4 * i) 4 (drop 4 m))) <$> seq 0 n).
Proof.
  cbn [seq fmap list_fmap]. f_equal. rewrite <- fmap_S_seq, <- list_fmap_compose.
  apply list_fmap_ext. intros i x _. unfold compose. rewrite slice_drop. do 2 f_equal. lia.
Qed.

Lemma words_S n m : words (S n) m = load32 (take 4 m) :: words n (drop 4 m).
Proof. apply words_step. Qed.

Lemma le_words_S n m : le_words (S n) m = le_val (take 4 m) :: le_words n (drop 4 m).
Proof. apply words_step. Qed.

Lemma byteReverse_value m : (4 ≤ length m)%nat → Forall is_byte m →
  w32 (Z.lor (Z.shiftl (Z.lor (Z.shiftl (nth 3 m 0) 8) (nth 2 m 0)) 16)
             (Z.lor (Z.shiftl (nth 1 m 0) 8) (nth 0 m 0))) = le_val (take 4 m).
Proof.
  intros Hl Hb. destruct m as [| b0 [| b1 [| b2 [| b3 m]]]]; simpl in Hl; try lia.
  rewrite !list.Forall_cons in Hb. unfold is_byte in Hb. destruct Hb as (? & ? & ? & ? & _).
  cbn [nth]. rewrite (lor_shiftl_add b1 b0 8), (lor_shiftl_add b3 b2 8) by lia. rewrite lor_shiftl_add by lia.
  cbn [firstn le_val]. change (2 ^ 16) with 65536. change (2 ^ 8) with 256.
  rewrite wrap_small by (change (2 ^ 32) with 4294967296; lia).
  rewrite take_0. cbn [le_val]. lia.
Qed.

Lemma length_byteReverse m n : (4 * n ≤ length m)%nat → length (byteReverse m n) = length m.
Proof.
  revert m. induction n as [| n IH]; intros m Hl; [done |]. cbn [Code.byteReverse].
  rewrite length_app, length_store32, IH; rewrite length_drop; lia.
Qed.

Lemma byteReverse_byte m n : Forall is_byte m → Forall is_byte (byteReverse m n).
Proof.
  revert m. induction n as [| n IH]; intros m Hm; [done |]. cbn [Code.byteReverse].
  apply Forall_app_2; [apply store32_byte | auto with c_model].
Qed.

Lemma drop_byteReverse m n : (4 * n ≤ length m)%nat →
  drop (4 * n) (byteReverse m n) = drop (4 * n) m.
Proof.
  revert m. induction n as [| n IH]; intros m Hl; [done |]. cbn [Code.byteReverse].
  rewrite drop_app_ge by (rewrite length_store32; lia). rewrite length_store32.
  replace (4 * S n - 4)%nat with (4 * n)%nat by lia.
  rewrite IH by (rewrite length_drop; lia). rewrite drop_drop. f_equal. lia.
Qed.

(** After byteReverse the host reads the little-endian words. *)
Lemma words_byteReverse m n : (4 * n ≤ length m)%nat → Forall is_byte m →
  words n (byteReverse m n) = le_words n m.
Proof.
  revert m. induction n as [| n IH]; intros m Hl Hm; [done |].
  rewrite words_S, le_words_S. cbn [Code.byteReverse].
  rewrite byteReverse_value by (done || lia).
  rewrite take_app_le by (rewrite length_store32; lia).
  rewrite drop_app_ge by (rewrite length_store32; lia).
  rewrite length_store32, drop_0. rewrite take_ge by (rewrite length_store32; lia).
  rewrite IH by (rewrite ?length_drop; auto with c_model; lia). f_equal.
  apply load_store32.
  pose proof (le_val_bound (take 4 m)) as Hv. rewrite length_take in Hv.
  replace (4 `min` length m)%nat with 4%nat in Hv by lia. auto with c_model.
Qed.

(** A context whose block buffer is whole and whose flag fits the host. *)
Record ok (c : MD5Context) : Prop := {
  ok_len : length (in_ c) = 64%nat;
  ok_byte : Forall is_byte (in_ c);
  ok_flag : doByteReverse c = big_endian
}.

Lemma words_reverse_in c n : ok c → (n ≤ 16)%nat →
  words n (in_ (reverse_in big_endian n c)) = le_words n (in_ c).
Proof.
  intros [Hl Hb Hf] Hn. unfold Code.reverse_in. rewrite Hf.
  destruct big_endian eqn:E; cbn [in_ set_in].
  - rewrite <- E. apply words_byteReverse; [lia | done].
  - done.
Qed.

Lemma ok_set_in v c : length v = 64%nat → Forall is_byte v → ok c → ok (set_in v c).
Proof. intros ? ? []. by constructor. Qed.

Lemma ok_reverse_in n c : (n ≤ 16)%nat → ok c → ok (reverse_in big_endian n c).
Proof.
  intros ? Hok. unfold Code.reverse_in. destruct (doByteReverse c); [| done].
  destruct Hok. apply ok_set_in; [| by apply byteReverse_byte | by constructor].
  rewrite length_byteReverse; lia.
Qed.

(** The transform the C performs on a whole buffer is the RFC's. *)
Lemma transform_block c st : ok c → buf c = state_list st →
  let c' := transform big_endian (reverse_in big_endian 16 c) in
  ok c' ∧ buf c' = state_list (Spec.compress st (in_ c)) ∧
  bits0 c' = bits0 c ∧ bits1 c' = bits1 c.
Proof.
  intros Hok Hst. cbn zeta. unfold Code.transform. split_and!.
  - destruct (ok_reverse_in 16 c ltac:(lia) Hok). by constructor.
  - cbn [buf set_buf]. rewrite words_reverse_in by (done || lia).
    unfold Code.reverse_in.
    destruct (doByteReverse c); cbn [buf set_in]; rewrite Hst;
      apply MD5_Transform_compress.
  - unfold Code.reverse_in. by destruct (doByteReverse c).
  - unfold Code.reverse_in. by destruct (doByteReverse c).
Qed.

(** ** Absorbing a message *)

Lemma absorb_S m n :
  Spec.absorb m (S n) = Spec.compress (Spec.absorb m n) (slice (64 * n) 64 m).
Proof. unfold Spec.absorb. by rewrite seq_S, foldl_app. Qed.

Lemma absorb_app m d n : (64 * n ≤ length m)%nat → Spec.absorb (m ++ d) n = Spec.absorb m n.
Proof.
  induction n as [| n IH]; intros Hn; [done |].
  rewrite !absorb_S, IH, slice_app_l by lia. done.
Qed.

(** The context after [c] absorbed exactly [m]. *)
Record absorbed (c : MD5Context) (m : bytes) : Prop := {
  ab_bytes : Forall is_byte m;
  ab_ok : ok c;
  ab_buf : buf c = state_list (Spec.absorb m (length m / 64));
  ab_bits0 : bits0 c = w32 (8 * Z.of_nat (length m));
  ab_bits1 : bits1 c = w32 (8 * Z.of_nat (length m) / 2 ^ 32);
  ab_tail : take (length m mod 64) (in_ c) = drop (64 * (length m / 64)) m
}.

Lemma tail_length (m : bytes) : length (drop (64 * (length m / 64)) m) = (length m mod 64)%nat.
Proof. rewrite length_drop. mlia. Qed.

Lemma update_loop_absorb msg : Forall is_byte msg → ∀ fuel n c b len,
  ok c → buf c = state_list (Spec.absorb msg n) →
  (64 * n ≤ length msg)%nat → len = Z.of_nat (length msg) - 64 * Z.of_nat n →
  take (Z.to_nat len) b = drop (64 * n) msg → (Z.to_nat (len / 64) < fuel)%nat →
  ∃ c' b', update_loop big_endian fuel c b len = (c', b', Z.of_nat (length msg mod 64)) ∧
    ok c' ∧ buf c' = state_list (Spec.absorb msg (length msg / 64)) ∧
    bits0 c' = bits0 c ∧ bits1 c' = bits1 c ∧
    take (length msg mod 64) b' = drop (64 * (length msg / 64)) msg.
Proof.
  intros Hmsg. induction fuel as [| fuel IH]; intros n c b len Hok Hbuf Hn Hlen Htake Hf; [lia |].
  cbn [update_loop]. destruct (Z.leb_spec 64 len) as [H64 | H64].
  - assert (take 64 b = slice (64 * n) 64 msg) as Hblk.
    { unfold slice. rewrite <- Htake, take_take. f_equal. lia. }
    assert (length (take 64 b) = 64%nat) as Hl64.
    { rewrite Hblk, length_slice. lia. }
    set (c0 := set_in (splice 0 (take 64 b) (in_ c)) c).
    assert (ok c0 ∧ in_ c0 = slice (64 * n) 64 msg) as [Hok0 Hin0].
    { unfold c0. rewrite splice_all by (rewrite Hl64; symmetry; apply Hok).
      rewrite Hblk. split; [| done]. apply ok_set_in; auto with c_model.
      by rewrite <- Hblk. }
    assert (buf c0 = buf c ∧ bits0 c0 = bits0 c ∧ bits1 c0 = bits1 c) as (Eb & E00 & E10) by done.
    clearbody c0. rewrite <- Eb in Hbuf.
    destruct (transform_block c0 (Spec.absorb msg n) Hok0 Hbuf) as (Hok1 & Hb1 & Hb01 & Hb11).
    destruct (IH (S n) (transform big_endian (reverse_in big_endian 16 c0)) (drop 64 b) (len - 64))
      as (c' & b' & E & ? & ? & E0 & E1 & ?); try done.
    + rewrite Hb1, absorb_S, Hin0. reflexivity.
    + lia.
    + lia.
    + replace (64 * S n)%nat with (64 * n + 64)%nat by lia.
      rewrite <- drop_drop, <- Htake, skipn_firstn_comm. f_equal. lia.
    + mlia.
    + exists c', b'. rewrite E0, E1, Hb01, Hb11, E00, E10. done.
  - assert (n = length msg / 64)%nat as -> by mlia.
    exists c, b. split_and!; try done.
    + do 2 f_equal. mlia.
    + rewrite <- Htake. f_equal. mlia.
Qed.

(** The end of MD5_Update: whole blocks, then the remaining bytes. *)
Lemma update_finish msg n c b len fuel : Forall is_byte msg →
  ok c → buf c = state_list (Spec.absorb msg n) →
  bits0 c = w32 (8 * Z.of_nat (length msg)) → bits1 c = w32 (8 * Z.of_nat (length msg) / 2 ^ 32) →
  (64 * n ≤ length msg)%nat → len = Z.of_nat (length msg) - 64 * Z.of_nat n →
  take (Z.to_nat len) b = drop (64 * n) msg → (Z.to_nat (len / 64) < fuel)%nat →
  absorbed (let '(c, b, len) := update_loop big_endian fuel c b len in
            set_in (splice 0 (take (Z.to_nat len) b) (in_ c)) c) msg.
Proof.
  intros Hmsg Hok Hbuf H0 H1 Hn Hlen Htake Hf.
  destruct (update_loop_absorb msg Hmsg fuel n c b len) as (c' & b' & -> & Hok' & Hb & E0 & E1 & Ht);
    try done.
  rewrite Nat2Z.id. set (k := (length msg mod 64)%nat) in *.
  assert (length (take k b') = k) as Hk by (rewrite Ht; apply tail_length).
  assert (k < 64)%nat by (unfold k; mlia).
  destruct Hok' as [Hl' Hb' Hf']. constructor; cbn [buf bits0 bits1 in_ set_in]; try congruence.
  - apply ok_set_in; [by rewrite length_splice; lia | | by constructor].
    rewrite Ht. auto with c_model.
  - fold k. rewrite <- Ht. pose proof (take_splice 0 (take k b') (in_ c')) as E.
    rewrite Hk, Nat.add_0_l, take_0 in E. apply E. lia.
Qed.

#[local] Opaque Spec.absorb Spec.compress.

(** The bit counter of MD5_Update: two words with a carry detected by
    wrap-around hold the bit count modulo 2^64. *)
Lemma bit_count_low T len : w32 (w32 T + w32 (Z.shiftl len 3)) = w32 (T + 8 * len).
Proof.
  rewrite wrap_add_l, wrap_add_r, Z.shiftl_mul_pow2 by lia. f_equal. lia.
Qed.

Lemma bit_count_high T len : 0 ≤ T → 0 ≤ len < 2 ^ 32 →
  w32 (w32 (w32 (T / 2 ^ 32) +
            (if w32 (w32 T + w32 (Z.shiftl len 3)) <? w32 T then 1 else 0)) + Z.shiftr len 29)
  = w32 ((T + 8 * len) / 2 ^ 32).
Proof.
  intros HT Hlen. rewrite bit_count_low, Z.shiftr_div_pow2 by lia.
  rewrite !wrap_add_l, <- Z.add_assoc, wrap_add_l. f_equal. unfold wrap.
  change (2 ^ 32) with 4294967296 in *. change (2 ^ 29) with 536870912.
  destruct (Z.ltb_spec ((T + 8 * len) mod 4294967296) (T mod 4294967296)); mlia.
Qed.

Lemma bytes_in_block L : 0 ≤ L → Z.land (Z.shiftr (w32 (8 * L)) 3) 0x3f = L mod 64.
Proof.
  intros. change 0x3f with (Z.ones 6). rewrite Z.land_ones, Z.shiftr_div_pow2 by lia.
  unfold wrap. change (2 ^ 32) with 4294967296. change (2 ^ 3) with 8. change (2 ^ 6) with 64.
  mlia.
Qed.

Lemma MD5_Init_absorbed c : length (in_ c) = 64%nat → Forall is_byte (in_ c) →
  absorbed (MD5_Init big_endian c) [].
Proof. intros. constructor; try done. Qed.

Section update.
Context (c : MD5Context) (m b : bytes) (len : Z).
Context (Hm : absorbed c m) (Hb : Forall is_byte b).
Context (Hlen : 0 ≤ len) (Hle : len ≤ Z.of_nat (length b)).
Let msg := m ++ take (Z.to_nat len) b.
Let k := (length m mod 64)%nat.

Lemma update_msg_bytes : Forall is_byte msg.
Proof. unfold msg. destruct Hm. auto with c_model. Qed.

Lemma update_msg_length : Z.of_nat (length msg) = Z.of_nat (length m) + len.
Proof. unfold msg. rewrite length_app, length_take. lia. Qed.

(** The first bytes only fill the block buffer further. *)
Lemma update_partial c0 : in_ c0 = in_ c → buf c0 = buf c → ok c0 →
  bits0 c0 = w32 (8 * Z.of_nat (length msg)) →
  bits1 c0 = w32 (8 * Z.of_nat (length msg) / 2 ^ 32) →
  len < 64 - Z.of_nat k →
  absorbed (set_in (splice k (take (Z.to_nat len) b) (in_ c0)) c0) msg.
Proof.
  intros Ein Ebuf Hok E0 E1 Hsmall. rewrite Ein.
  pose proof update_msg_length. pose proof update_msg_bytes.
  assert (length msg / 64 = length m / 64 ∧ length msg mod 64 = k + Z.to_nat len)%nat
    as [Hq Hr] by (unfold k in *; mlia).
  assert (length (take (Z.to_nat len) b) = Z.to_nat len) as Hld by (rewrite length_take; lia).
  destruct Hm as [_ [Hl Hbt _] Hbuf _ _ Htail].
  constructor; cbn [buf bits0 bits1 in_ set_in]; auto.
  - apply ok_set_in; auto with c_model. rewrite length_splice; rewrite ?Hld; lia.
  - rewrite Hq, Ebuf, Hbuf. unfold msg. by rewrite absorb_app by mlia.
  - rewrite Hq, Hr. pose proof (take_splice k (take (Z.to_nat len) b) (in_ c)) as E.
    rewrite Hld in E. rewrite E by lia. fold k in Htail. rewrite Htail. unfold msg.
    by rewrite drop_app_le by mlia.
Qed.

(** The first bytes complete the block that [m] left unfinished. *)
Lemma update_fill : Z.of_nat k ≠ 0 → 64 - Z.of_nat k ≤ len →
  splice k (take (64 - k) b) (in_ c) = slice (64 * (length m / 64)) 64 msg.
Proof.
  intros Hk Hbig. destruct Hm as [_ [Hl _ _] _ _ _ Htail]. fold k in Htail.
  assert (k < 64)%nat by (unfold k; mlia).
  assert (length (take (64 - k) b) = (64 - k)%nat) as Hld by (rewrite length_take; lia).
  unfold splice. rewrite Hld, (drop_ge (in_ c)), app_nil_r, Htail by lia.
  unfold slice, msg. rewrite drop_app_le by mlia.
  rewrite take_app_ge by (rewrite tail_length; fold k; lia). rewrite tail_length. fold k.
  rewrite take_take. do 2 f_equal. lia.
Qed.
End update.

Lemma MD5_Update_absorb c m b len :
  absorbed c m → Forall is_byte b → 0 ≤ len < 2 ^ 32 → len ≤ Z.of_nat (length b) →
  absorbed (MD5_Update big_endian c b len) (m ++ take (Z.to_nat len) b).
Proof.
  intros Hm Hb [Hlen0 Hlen1] Hle.
  pose proof (update_msg_bytes c m b len Hm Hb) as Hmsg.
  pose proof (update_msg_length m b len Hlen0 Hle) as Hmlen.
  pose proof (update_partial c m b len Hm Hb Hlen0 Hle) as Hpart.
  pose proof (update_fill c m b len Hm Hle) as Hfill.
  set (msg := m ++ take (Z.to_nat len) b) in *.
  pose proof Hm as [_ Hok Hbuf H0 H1 Htail]. rewrite <- (absorb_app m (take (Z.to_nat len) b)) in Hbuf by mlia.
  unfold MD5_Update. rewrite H0, H1, bit_count_high, bit_count_low by lia.
  replace (8 * Z.of_nat (length m) + 8 * len) with (8 * Z.of_nat (length msg)) by lia.
  rewrite bytes_in_block by lia.
  set (k := (length m mod 64)%nat) in *.
  replace (Z.of_nat (length m) mod 64) with (Z.of_nat k) by (unfold k; mlia).
  set (c0 := set_bits _ _ c).
  assert (Hok0 : ok c0) by (destruct Hok; by constructor).
  destruct (Z.eqb_spec (Z.of_nat k) 0) as [Hz | Hz]; cbn [negb].
  { apply (update_finish msg (length m / 64)); auto; unfold k in Hz; try mlia.
    unfold msg. rewrite drop_app_ge by mlia.
    by replace (64 * (length m / 64) - length m)%nat with 0%nat by mlia. }
  rewrite Nat2Z.id. destruct (Z.ltb_spec len (64 - Z.of_nat k)) as [Hsmall | Hbig];
    [by apply Hpart |].
  replace (Z.to_nat (64 - Z.of_nat k)) with (64 - k)%nat by lia.
  set (c1 := set_in _ c0).
  assert (ok c1 ∧ in_ c1 = slice (64 * (length m / 64)) 64 msg) as (Hok1 & Hin1).
  { unfold c1. cbn [in_ c0 set_bits]. rewrite Hfill by done. split; [| done].
    apply ok_set_in; auto with c_model. rewrite length_slice. unfold k in *. mlia. }
  assert (Eb1 : buf c1 = state_list (Spec.absorb msg (length m / 64))) by exact Hbuf.
  assert (bits0 c1 = w32 (8 * Z.of_nat (length msg)) ∧
          bits1 c1 = w32 (8 * Z.of_nat (length msg) / 2 ^ 32)) as [E00 E10] by done.
  clearbody c1.
  destruct (transform_block c1 _ Hok1 Eb1) as (Hok2 & Hb2 & E02 & E12).
  apply (update_finish msg (S (length m / 64))); auto; try (unfold k in *; mlia).
  - rewrite Hb2. rewrite absorb_S. rewrite Hin1. reflexivity.
  - replace (64 * S (length m / 64))%nat with (length m + (64 - k))%nat by (unfold k in *; mlia).
    unfold msg. rewrite drop_app_add'; [| done].
    rewrite skipn_firstn_comm. f_equal. lia.
Qed.

(** ** MD5_Final *)

Lemma slices_app {B} (f : bytes → B) n1 n2 (l k : bytes) : length l = (4 * n1)%nat →
  ((λ i, f (slice (4 * i) 4 (l ++ k))) <$> seq 0 (n1 + n2)) =
  ((λ i, f (slice (4 * i) 4 l)) <$> seq 0 n1) ++ ((λ i, f (slice (4 * i) 4 k)) <$> seq 0 n2).
Proof.
  intros Hl. rewrite seq_app, fmap_app. f_equal.
  - apply list_fmap_ext. intros i x [-> ?]%lookup_seq. by rewrite slice_app_l by lia.
  - rewrite Nat.add_0_l, <- (Nat.add_0_r n1) at 1. rewrite <- fmap_add_seq, <- list_fmap_compose.
    apply list_fmap_ext. intros i x [-> ?]%lookup_seq. unfold compose.
    rewrite slice_app_r by lia. do 2 f_equal. lia.
Qed.

Lemma words_app n1 n2 l k : length l = (4 * n1)%nat →
  words (n1 + n2) (l ++ k) = words n1 l ++ words n2 k.
Proof. apply slices_app. Qed.

Lemma le_words_app n1 n2 l k : length l = (4 * n1)%nat →
  le_words (n1 + n2) (l ++ k) = le_words n1 l ++ le_words n2 k.
Proof. apply slices_app. Qed.

Lemma words_take n m : (4 * n ≤ length m)%nat → words n (take (4 * n) m) = words n m.
Proof.
  intros. rewrite <- (take_drop (4 * n) m) at 2. rewrite <- (Nat.add_0_r n) at 3.
  rewrite words_app by (rewrite length_take; lia). by rewrite app_nil_r.
Qed.

Lemma le_words_take n m : (4 * n ≤ length m)%nat → le_words n (take (4 * n) m) = le_words n m.
Proof.
  intros. rewrite <- (take_drop (4 * n) m) at 2. rewrite <- (Nat.add_0_r n) at 3.
  rewrite le_words_app by (rewrite length_take; lia). by rewrite app_nil_r.
Qed.

Lemma load32_le w : 0 ≤ w < 2 ^ 32 → words 1 (store32 w) = [w].
Proof.
  intros. rewrite words_S. rewrite take_ge by (rewrite length_store32; lia).
  by rewrite load_store32.
Qed.

(** The last block: 56 bytes of the buffer, and the length words the C copies
    in host order after byteReverse went over the first fourteen words. *)
Lemma final_block c st p56 : ok c → buf c = state_list st → take 56 (in_ c) = p56 →
  0 ≤ bits0 c < 2 ^ 32 → 0 ≤ bits1 c < 2 ^ 32 →
  let c1 := reverse_in big_endian 14 c in
  let c2 := set_in (splice 56 (store32 (bits0 c1) ++ store32 (bits1 c1)) (in_ c1)) c1 in
  buf (transform big_endian c2) =
  state_list (Spec.compress st (p56 ++ le_bytes 4 (bits0 c) ++ le_bytes 4 (bits1 c))).
Proof.
  intros Hok Hst <- H0 H1. cbn zeta.
  pose proof (ok_reverse_in 14 c ltac:(lia) Hok) as [Hl1 _ _].
  pose proof (words_reverse_in c 14 Hok ltac:(lia)) as Hw.
  assert (bits0 (reverse_in big_endian 14 c) = bits0 c ∧ bits1 (reverse_in big_endian 14 c) = bits1 c
          ∧ buf (reverse_in big_endian 14 c) = buf c) as (E0 & E1 & Eb).
  { unfold Code.reverse_in. by destruct (doByteReverse c). }
  destruct Hok as [Hl _ _].
  unfold Code.transform. cbn [buf set_buf set_in in_]. rewrite E0, E1, Eb, Hst.
  rewrite <- MD5_Transform_compress. apply (f_equal (MD5_Transform _)).
  unfold splice. rewrite drop_ge by (rewrite length_app, !length_store32; lia).
  rewrite app_nil_r.
  change 16%nat with (14 + (1 + 1))%nat. change (Spec.block_words ?m) with (le_words 16 m).
  change 16%nat with (14 + (1 + 1))%nat.
  rewrite words_app, le_words_app by (rewrite length_take; lia).
  rewrite words_app by apply length_store32. rewrite le_words_app by apply length_le_bytes.
  rewrite !load32_le by done. change 56%nat with (4 * 14)%nat.
  rewrite words_take, le_words_take, Hw by lia. f_equal.
  cbn [le_words fmap list_fmap seq app]. rewrite !slice_all by done.
  by rewrite !le_val_bytes.
Qed.

Lemma length_bits X :
  le_bytes 8 (w64 X) = le_bytes 4 (w32 X) ++ le_bytes 4 (w32 (X / 2 ^ 32)).
Proof.
  rewrite (le_bytes_wrap 8). change 8%nat with (4 + 4)%nat. rewrite le_bytes_app.
  by rewrite (le_bytes_wrap 4), (le_bytes_wrap 4).
Qed.

Section padding.
Context (m : bytes).
Let q := (length m / 64)%nat.
Let k := (length m mod 64)%nat.
Let tail := drop (64 * q) m.
Let len8 := le_bytes 8 (w64 (8 * Z.of_nat (length m))).

Lemma pad_blocks : length (Spec.pad m) = (64 * (if decide (k < 56) then S q else S (S q)))%nat.
Proof.
  unfold Spec.pad. rewrite !length_app, length_replicate, length_le_bytes.
  cbn [length]. unfold k, q. case_decide; mlia.
Qed.

Lemma pad_slice i : (i = q ∨ i = S q) →
  slice (64 * i) 64 (Spec.pad m) = slice (64 * (i - q)) 64
    (tail ++ [0x80] ++ replicate (Z.to_nat ((55 - Z.of_nat (length m)) mod 64)) 0 ++ len8).
Proof.
  intros Hi. unfold Spec.pad, slice. fold len8. f_equal.
  replace (64 * i)%nat with (64 * q + 64 * (i - q))%nat by lia.
  rewrite <- drop_drop. f_equal. unfold tail. rewrite drop_app_le; [done |]. unfold q. mlia.
Qed.

Lemma pad_absorb_q : Spec.absorb (Spec.pad m) q = Spec.absorb m q.
Proof. unfold Spec.pad. rewrite absorb_app; [done |]. unfold q. mlia. Qed.

Lemma pad_one : (k < 56)%nat →
  Spec.absorb (Spec.pad m) (length (Spec.pad m) / 64) =
  Spec.compress (Spec.absorb m q) ((tail ++ [0x80] ++ replicate (55 - k) 0) ++ len8).
Proof.
  intros Hk. rewrite pad_blocks, decide_True by done.
  replace (64 * S q / 64)%nat with (S q) by mlia.
  rewrite absorb_S, pad_absorb_q, pad_slice by auto. apply (f_equal (Spec.compress _)).
  replace (Z.to_nat ((55 - Z.of_nat (length m)) mod 64)) with (55 - k)%nat
    by (unfold k in *; mlia).
  replace (64 * (q - q))%nat with 0%nat by lia. rewrite <- !(assoc_L (++)).
  apply slice_all. unfold len8, tail, q.
  rewrite !length_app, length_replicate, length_le_bytes, tail_length. fold k. cbn [length]. lia.
Qed.

Lemma pad_two : (56 ≤ k)%nat →
  Spec.absorb (Spec.pad m) (length (Spec.pad m) / 64) =
  Spec.compress (Spec.compress (Spec.absorb m q) (tail ++ [0x80] ++ replicate (63 - k) 0))
    (replicate 56 0 ++ len8).
Proof.
  intros Hk. assert (k < 64)%nat by (unfold k; mlia).
  rewrite pad_blocks, decide_False by lia.
  replace (64 * S (S q) / 64)%nat with (S (S q)) by mlia.
  rewrite !absorb_S, pad_absorb_q, !pad_slice by auto.
  replace (64 * (q - q))%nat with 0%nat by lia.
  replace (64 * (S q - q))%nat with 64%nat by lia.
  replace (Z.to_nat ((55 - Z.of_nat (length m)) mod 64)) with (63 - k + 56)%nat
    by (unfold k in *; mlia).
  rewrite replicate_add.
  assert (length (tail ++ [0x80] ++ replicate (63 - k) 0) = 64%nat) as Hl.
  { rewrite !length_app, length_replicate. unfold tail, q. rewrite tail_length. fold k.
    cbn [length]. lia. }
  replace (tail ++ [0x80] ++ (replicate (63 - k) 0 ++ replicate 56 0) ++ len8)
    with ((tail ++ [0x80] ++ replicate (63 - k) 0) ++ (replicate 56 0 ++ len8))
    by (by rewrite <- !(assoc_L (++))).
  rewrite (slice_app_l 0), (slice_app_r 64), Hl by lia.
  rewrite (slice_all (tail ++ _)), slice_all; [reflexivity | | done].
  unfold len8. by rewrite length_app, length_replicate, length_le_bytes.
Qed.
End padding.

Lemma byteReverse_app n x l : length x = 4%nat → Forall is_byte (x ++ l) →
  Code.byteReverse true (x ++ l) (S n) = rev x ++ Code.byteReverse true l n.
Proof.
  intros Hl Hx. cbn [Code.byteReverse].
  rewrite byteReverse_value by (rewrite ?length_app; done || lia).
  rewrite take_app_length', drop_app_length' by done. f_equal.
  apply Forall_app in Hx as [Hx _].
  unfold Code.store32. rewrite <- Hl. by rewrite le_bytes_val.
Qed.

(** The digest leaves the context as little-endian words. *)
Lemma digest_bytes st :
  (let mem := state_list st ≫= store32 in
   if big_endian then byteReverse mem 4 else mem) = Spec.digest_of st.
Proof.
  destruct st as [[[a b] c] d]. unfold Spec.digest_of, state_list.
  cbn [mbind list_bind]. unfold Code.store32. destruct big_endian eqn:E.
  - rewrite app_nil_r, <- (app_nil_r (rev (le_bytes 4 d))).
    assert (∀ w l, Forall is_byte l → Forall is_byte (rev (le_bytes 4 w) ++ l)) as Hr.
    { intros. apply Forall_app_2; [apply Forall_rev, le_bytes_byte | done]. }
    rewrite !byteReverse_app by (rewrite ?length_rev; auto 10).
    cbn [Code.byteReverse]. by rewrite !rev_involutive, app_nil_r.
  - by rewrite app_nil_r.
Qed.

Lemma flag_reverse_in n c : doByteReverse (reverse_in big_endian n c) = doByteReverse c.
Proof. unfold Code.reverse_in. by destruct (doByteReverse c) eqn:E. Qed.

Lemma final_tail c st p56 : ok c → buf c = state_list st → take 56 (in_ c) = p56 →
  0 ≤ bits0 c < 2 ^ 32 → 0 ≤ bits1 c < 2 ^ 32 →
  (let c1 := reverse_in big_endian 14 c in
   let c2 := set_in (splice 56 (store32 (bits0 c1) ++ store32 (bits1 c1)) (in_ c1)) c1 in
   let c3 := transform big_endian c2 in
   let mem := buf c3 ≫= store32 in
   if doByteReverse c3 then byteReverse mem 4 else mem) =
  Spec.digest_of (Spec.compress st (p56 ++ le_bytes 4 (bits0 c) ++ le_bytes 4 (bits1 c))).
Proof.
  intros Hok Hst Hp H0 H1. pose proof (final_block c st p56 Hok Hst Hp H0 H1) as E.
  cbn zeta in *. rewrite E, <- digest_bytes.
  change (doByteReverse (transform _ (set_in _ ?c1))) with (doByteReverse c1).
  by rewrite flag_reverse_in, (ok_flag c Hok).
Qed.

(** The padding byte and zeros behind the message's tail. *)
Lemma pad_buffer c m n : absorbed c m → let k := (length m mod 64)%nat in
  (k + 1 + n ≤ 64)%nat →
  let i1 := splice k [0x80] (in_ c) in
  let i2 := splice (S k) (replicate n 0) i1 in
  ok (set_in i2 (set_in i1 c)) ∧
  take (S k + n) i2 = drop (64 * (length m / 64)) m ++ [0x80] ++ replicate n 0.
Proof.
  intros [_ [Hl Hb Hf] _ _ _ Htail] k Hn i1 i2. fold k in Htail.
  assert (length i1 = 64%nat) as Hl1 by (unfold i1; rewrite length_splice; simpl; lia).
  assert (Forall is_byte i1) as Hb1.
  { apply Forall_splice; [| done]. by repeat constructor. }
  split.
  - constructor; cbn [in_ set_in doByteReverse]; [| | done]; unfold i2.
    + rewrite length_splice; rewrite ?length_replicate; lia.
    + apply Forall_splice; [by apply Forall_replicate | done].
  - rewrite <- (length_replicate n 0) at 1. unfold i2. rewrite take_splice by lia.
    rewrite (assoc_L (++)). f_equal. unfold i1.
    rewrite <- Htail. replace (S k) with (k + length [0x80%Z])%nat by (simpl; lia).
    rewrite take_splice by lia. done.
Qed.

(** The first padded block, when the length needs a second one. *)
Lemma pad_transform c m : absorbed c m → let k := (length m mod 64)%nat in (56 ≤ k)%nat →
  let i1 := splice k [0x80] (in_ c) in
  let c1 := set_in (splice (S k) (replicate (63 - k) 0) i1) (set_in i1 c) in
  let c2 := transform big_endian (reverse_in big_endian 16 c1) in
  let c3 := set_in (splice 0 (replicate 56 0) (in_ c2)) c2 in
  ok c3 ∧ take 56 (in_ c3) = replicate 56 0 ∧ bits0 c3 = bits0 c ∧ bits1 c3 = bits1 c ∧
  buf c3 = state_list (Spec.compress (Spec.absorb m (length m / 64))
    (drop (64 * (length m / 64)) m ++ [0x80] ++ replicate (63 - k) 0)).
Proof.
  intros Hm k Hk i1 c1. assert (k < 64)%nat by (unfold k; mlia).
  destruct (pad_buffer c m (63 - k) Hm ltac:(lia)) as [Hok1 Ht]. fold k i1 c1 in Hok1.
  assert (Hbuf : buf c1 = state_list (Spec.absorb m (length m / 64))) by apply Hm.
  assert (E : bits0 c1 = bits0 c ∧ bits1 c1 = bits1 c) by done.
  assert (Hin : in_ c1 = drop (64 * (length m / 64)) m ++ [0x80] ++ replicate (63 - k) 0).
  { rewrite <- Ht. fold k. rewrite take_ge; [done |]. fold i1.
    replace (length _) with 64%nat by (symmetry; apply Hok1). lia. }
  clearbody c1. cbn zeta.
  destruct (transform_block c1 _ Hok1 Hbuf) as (Hok2 & Hb2 & E02 & E12).
  rewrite Hin in Hb2. destruct E as [E0 E1]. rewrite E0 in E02. rewrite E1 in E12.
  generalize dependent (transform big_endian (reverse_in big_endian 16 c1)). intros c2 Hok2.
  destruct Hok2 as [Hl2 Hbt2 Hf2]. intros. split_and!; try done.
  apply ok_set_in; [by rewrite length_splice; rewrite ?length_replicate; lia | | by constructor].
  apply Forall_splice; [by apply Forall_replicate | done].
Qed.

Lemma MD5_Final_spec c m : absorbed c m → fst (MD5_Final big_endian c) = Spec.md5 m.
Proof.
  intros Hm. pose proof Hm as [Hmb Hok Hbuf H0 H1 Htail]. unfold MD5_Final, Spec.md5.
  rewrite H0, bytes_in_block by lia.
  replace (Z.to_nat (Z.of_nat (length m) mod 64)) with (length m mod 64)%nat by mlia.
  set (k := (length m mod 64)%nat) in *. assert (k < 64)%nat by (unfold k; mlia).
  replace (64 - 1 - k)%nat with (63 - k)%nat by lia.
  pose proof (wrap_range 32 (8 * Z.of_nat (length m)) ltac:(lia)) as R0.
  pose proof (wrap_range 32 (8 * Z.of_nat (length m) / 2 ^ 32) ltac:(lia)) as R1.
  destruct (Nat.ltb_spec (63 - k) 8) as [Hc | Hc].
  - rewrite pad_two, length_bits by (fold k; lia).
    destruct (pad_transform c m Hm ltac:(fold k; lia)) as (Hok3 & Ht3 & E0 & E1 & Hb3).
    rewrite H0 in E0. rewrite H1 in E1.
    refine (eq_trans (final_tail _ _ _ Hok3 Hb3 Ht3 _ _) _); rewrite ?E0, ?E1; done.
  - rewrite pad_one, length_bits by (fold k; lia).
    destruct (pad_buffer c m (55 - k) Hm ltac:(fold k; lia)) as [Hok1 Ht1]. fold k in Ht1, Hok1.
    replace (S k + (55 - k))%nat with 56%nat in Ht1 by lia.
    replace (63 - k - 8)%nat with (55 - k)%nat by lia.
    refine (eq_trans (final_tail _ _ _ Hok1 Hbuf Ht1 _ _) _); cbn [bits0 bits1 set_in];
      rewrite ?H0, ?H1; done.
Qed.
End host_facts.

(** ** Digests of streams *)

(** What every caller does: MD5_Init, MD5_Update on each buffer read, MD5_Final. *)
Definition update_all (be : bool) (c : MD5Context) (pieces : list bytes) : MD5Context :=
  foldl (λ c p, MD5_Update be c p (Z.of_nat (length p))) c pieces.
Definition digest_pieces (be : bool) (mem : MD5Context) (pieces : list bytes) : bytes :=
  fst (MD5_Final be (update_all be (MD5_Init be mem) pieces)).

Definition piece_ok (p : bytes) : Prop := Forall is_byte p ∧ Z.of_nat (length p) < 2 ^ 32.

Lemma update_all_absorbed be pieces c m :
  absorbed be c m → Forall piece_ok pieces →
  absorbed be (update_all be c pieces) (m ++ mjoin pieces).
Proof.
  intros Hc Hp. revert c m Hc. induction Hp as [| p ps [Hb Hl] _ IH]; intros c m Hc; cbn.
  { by rewrite app_nil_r. }
  rewrite (assoc_L (++)). apply IH.
  pose proof (MD5_Update_absorb be c m p (Z.of_nat (length p)) Hc Hb ltac:(lia) ltac:(lia)) as Hu.
  rewrite Nat2Z.id, take_ge in Hu by lia. done.
Qed.

(** Reading an unused context: only its block buffer is an object of the C. *)
Definition context_memory (mem : MD5Context) : Prop :=
  length (in_ mem) = 64%nat ∧ Forall is_byte (in_ mem).

Lemma digest_pieces_spec be mem pieces : context_memory mem → Forall piece_ok pieces →
  digest_pieces be mem pieces = Spec.md5 (mjoin pieces).
Proof.
  intros [Hl Hb] Hp. apply MD5_Final_spec.
  apply (update_all_absorbed be pieces (MD5_Init be mem) []); [| done].
  by apply MD5_Init_absorbed.
Qed.

(** C1: the digest md5.c computes is the one of RFC 1321 for the concatenation
    of the buffers passed to MD5_Update, however the message is cut into
    buffers, whatever the context held before MD5_Init, and on hosts of either
    byte order. *)
Theorem md5_pieces_rfc1321 (be : bool) (mem : MD5Context) (pieces : list bytes)
    (Hmem : context_memory mem) (Hp : Forall piece_ok pieces) :
  digest_pieces be mem pieces = Spec.md5 (mjoin pieces).
Proof. by apply digest_pieces_spec. Qed.

Definition sample_context : MD5Context := mkContext [] 7 9 (replicate 64 0xAA) false.

Lemma md5_pieces_rfc1321_witness :
  digest_pieces true sample_context [str "ab"; []; str "c"] = Spec.md5 (str "abc") ∧
  Spec.md5 (str "abc") =
    [0x90; 0x01; 0x50; 0x98; 0x3c; 0xd2; 0x4f; 0xb0; 0xd6; 0x96; 0x3f; 0x7d; 0x28; 0xe1; 0x7f; 0x72].
Proof.
  split; [| vm_compute; reflexivity].
  apply (md5_pieces_rfc1321 true sample_context [str "ab"; []; str "c"]).
  - split; [reflexivity | apply Forall_replicate; vm_compute; split; congruence].
  - repeat constructor; vm_compute; congruence.
Defined.

(** MD5_Transform, the sixty-four unrolled statements of the code with its
    rewritten auxiliary functions, is the RFC's compression of the block in
    the context, on hosts of either byte order once byteReverse ran. *)
Theorem MD5_Transform_rfc1321 (be : bool) (c : MD5Context) (st : Spec.state)
    (Hok : ok be c) (Hst : buf c = state_list st) :
  buf (transform be (reverse_in be 16 c)) = state_list (Spec.compress st (in_ c)).
Proof. by apply transform_block. Qed.

Lemma MD5_Transform_rfc1321_witness :
  let c := MD5_Init true sample_context in
  buf (transform true (reverse_in true 16 c)) = state_list (Spec.compress Spec.iv (in_ c)).
Proof.
  apply (MD5_Transform_rfc1321 true (MD5_Init true sample_context) Spec.iv); [| reflexivity].
  constructor; [reflexivity | | reflexivity].
  apply Forall_replicate. vm_compute. split; congruence.
Defined.

(** the two counter words of the context hold eight times the number of
    bytes absorbed modulo 2^64, carries between the words included. *)
Theorem md5_bit_count (be : bool) (mem : MD5Context) (pieces : list bytes)
    (Hmem : context_memory mem) (Hp : Forall piece_ok pieces) :
  let c := update_all be (MD5_Init be mem) pieces in
  bits0 c + 2 ^ 32 * bits1 c = w64 (8 * Z.of_nat (length (mjoin pieces))) ∧
  0 ≤ bits0 c < 2 ^ 32 ∧ 0 ≤ bits1 c < 2 ^ 32.
Proof.
  destruct Hmem as [Hl Hb]. cbn zeta.
  destruct (update_all_absorbed be pieces (MD5_Init be mem) []) as [_ _ _ -> -> _];
    [by apply MD5_Init_absorbed | done |].
  rewrite app_nil_l. unfold wrap. change (2 ^ 64) with (2 ^ 32 * 2 ^ 32).
  change (2 ^ 32) with 4294967296. mlia.
Qed.

Lemma md5_bit_count_witness :
  let c := update_all false (MD5_Init false sample_context) [str "ab"; str "c"] in
  (bits0 c + 2 ^ 32 * bits1 c = w64 (8 * 3) ∧ 0 ≤ bits0 c < 2 ^ 32 ∧ 0 ≤ bits1 c < 2 ^ 32).
Proof.
  apply (md5_bit_count false sample_context [str "ab"; str "c"]).
  - split; [reflexivity | apply Forall_replicate; vm_compute; split; congruence].
  - repeat constructor; vm_compute; congruence.
Defined.
