(* ===== verification/IsoMd5.v ===== *)
(** * Checksums in an ISO image (isomd5sum/)

    [libimplantisomd5.c] writes the MD5 sum of an image, and twenty partial
    sums, into the application data of its primary volume descriptor;
    [libcheckisomd5.c] reads them back and verifies the medium.  Both are
    modelled here for any open file ([FileOps]); their theorems are in
    [IsoMd5Facts].

    Stack objects that the C does not initialise are parameters ([garbage]
    names), as is the memory above a buffer where the C reads past its end.
    Signed overflow and accesses outside an object are [Undef]. *)

From S2P Require Import Prelude CLib Posix Md5.
Import Md5.Code.

Definition APPDATA_OFFSET : Z := 883.
Definition SIZE_OFFSET : nat := 84.
Definition FRAGMENT_SUM_LENGTH : Z := 60.
Definition FRAGMENT_COUNT : Z := 20.
Definition SKIPSECTORS : Z := 15.

(** An [int] or [long long] expression: overflow is undefined. *)
Definition int_val (x : Z) : outcome Z :=
  if (- 2 ^ 31 <=? x) && (x <? 2 ^ 31) then Ret x else Undef.
Definition ll_val (x : Z) : outcome Z :=
  if (- 2 ^ 63 <=? x) && (x <? 2 ^ 63) then Ret x else Undef.

(** [a / b] of C *)
Definition cdiv (a b : Z) : outcome Z := if b =? 0 then Undef else Ret (Z.quot a b).

(** [memset(m + off, v, len)] inside [m] *)
Definition memset_ (m : bytes) (off : Z) (v : Z) (len : Z) : outcome bytes :=
  if (0 <=? off) && (off + len <=? Z.of_nat (length m)) then
    Ret (splice (Z.to_nat off) (replicate (Z.to_nat len) v) m)
  else Undef.

(** [m[i] = v] *)
Definition store (m : bytes) (i v : Z) : outcome bytes :=
  if (0 <=? i) && (i <? Z.of_nat (length m)) then Ret (<[Z.to_nat i := v]> m) else Undef.
(** [m[i]] *)
Definition fetch (m : bytes) (i : Z) : outcome Z :=
  if 0 <=? i then checked (m !! Z.to_nat i) else Undef.

(** The size of the volume in bytes: a big-endian sector count, computed in
    [int]. *)
Definition volume_size (buf : bytes) : outcome Z :=
  let b i := nth (SIZE_OFFSET + i) buf 0 in
  h ← int_val (b 0%nat * 0x1000000);
  s ← int_val (h + b 1%nat * 0x10000 + b 2%nat * 0x100 + b 3%nat);
  Ret (s * 2048).

Section iso.
Context {F : Type} `{FileOps F} (be : bool).

(** ** libcheckisomd5.c *)

Inductive scan_result := Found (offset : Z) | NotFound.

(** The descriptor loop of parsepvd: sectors from 16 on are read into [buf]
    until one of type 1 or 255. *)
Fixpoint check_find (fuel : nat) (f : F) (buf : bytes) (offset : Z) :
    outcome (scan_result * bytes * F) :=
  match fuel with
  | O => NoFuel
  | S fuel =>
      let '(n, d, f) := f_read f 2048 in
      if n <=? 0 then Ret (NotFound, buf, f)
      else
        let buf := splice 0 d buf in
        let b0 := nth 0 buf 0 in
        if b0 =? 1 then Ret (Found offset, buf, f)
        else if b0 =? 255 then Ret (NotFound, buf, f)
        else check_find fuel f buf (offset + 2048)
  end.

(** The objects parsepvd fills through its pointers. *)
Record pvd_out := mkPvd {
  mediasum : bytes;
  skipsectors : Z;
  supported : Z;
  fragmentsums : bytes;
  fragmentcount : Z
}.
Definition set_mediasum v o :=
  mkPvd v (skipsectors o) (supported o) (fragmentsums o) (fragmentcount o).
Definition set_skipsectors v o :=
  mkPvd (mediasum o) v (supported o) (fragmentsums o) (fragmentcount o).
Definition set_supported v o :=
  mkPvd (mediasum o) (skipsectors o) v (fragmentsums o) (fragmentcount o).
Definition set_fragmentsums v o :=
  mkPvd (mediasum o) (skipsectors o) (supported o) v (fragmentcount o).
Definition set_fragmentcount v o :=
  mkPvd (mediasum o) (skipsectors o) (supported o) (fragmentsums o) v.

Record found_flags := mkFlags {
  skipfnd : bool; md5fnd : bool; supportedfnd : bool; fragsumfnd : bool; fragcntfnd : bool
}.
Definition all_found (g : found_flags) : bool :=
  skipfnd g && md5fnd g && fragsumfnd g && fragcntfnd g && supportedfnd g.

(** [for (p = buf2 + loc; *p != ';' && loc < 512; p++, loc++);] where [m] is
    the memory from [buf2] on; [*p] is read before [loc] is compared, so a byte
    must be there at 512 too; the bytes passed over are collected, as the
    copying variant of the loop stores them in [tmpbuf]. *)
Fixpoint to_semicolon (fuel : nat) (m : bytes) (loc : nat) (acc : bytes) : outcome (nat * bytes) :=
  match fuel with
  | O => NoFuel
  | S fuel =>
      b ← checked (m !! loc);
      if (loc <? 512)%nat && negb (b =? 59) then to_semicolon fuel m (S loc) (acc ++ [b])
      else Ret (loc, acc)
  end.
Definition skip_to_semicolon (m : bytes) (loc : nat) : outcome nat :=
  fst <$> to_semicolon 600 m loc [].

Inductive scan_step := Next (loc : nat) (g : found_flags) (o : pvd_out) | Fail (o : pvd_out).

(** A number between [loc] and the next semicolon, read by strtol; [None] when
    text follows it. *)
Definition number_field (m : bytes) (loc : nat) : outcome (nat * option Z) :=
  '(loc, tmp) ← to_semicolon 600 m loc [];
  let '(v, rest) := strtol 10 (until_nul (tmp ++ [0])) in
  Ret (loc, if bool_decide (rest = []) then Some v else None).

(** The body of [while (loc < 512)]. *)
Definition scan_body (m : bytes) (loc : nat) (g : found_flags) (o : pvd_out) : outcome scan_step :=
  let here := drop loc m in
  if starts_with (str "ISO MD5SUM = ") here then
    if (511 <? loc + 32 + 13)%nat then Ret (Fail o)
    else
      let o := set_mediasum (slice (loc + 13) 32 m) o in
      loc ← skip_to_semicolon m (loc + 45);
      Ret (Next loc (mkFlags (skipfnd g) true (supportedfnd g) (fragsumfnd g) (fragcntfnd g)) o)
  else if starts_with (str "SKIPSECTORS = ") here then
    if (511 <? loc + 14)%nat then Ret (Fail o)
    else
      '(loc, v) ← number_field m (loc + 14);
      match v with
      | None => Ret (Fail o)
      | Some v =>
          let o := set_skipsectors (s32 v) o in
          loc ← skip_to_semicolon m loc;
          Ret (Next loc (mkFlags true (md5fnd g) (supportedfnd g) (fragsumfnd g) (fragcntfnd g)) o)
      end
  else if starts_with (str "RHLISOSTATUS=1") here then
    let o := set_supported 1 o in
    loc ← skip_to_semicolon m loc;
    Ret (Next loc (mkFlags (skipfnd g) (md5fnd g) true (fragsumfnd g) (fragcntfnd g)) o)
  else if starts_with (str "RHLISOSTATUS=0") here then
    let o := set_supported 0 o in
    loc ← skip_to_semicolon m loc;
    Ret (Next loc (mkFlags (skipfnd g) (md5fnd g) true (fragsumfnd g) (fragcntfnd g)) o)
  else if starts_with (str "FRAGMENT SUMS = ") here then
    if (511 <? loc + 60)%nat then Ret (Fail o)
    else
      let sums := slice (loc + 16) 60 m in
      _ ← defined_if (length sums =? 60)%nat;
      let o := set_fragmentsums (sums ++ [0]) o in
      loc ← skip_to_semicolon m (loc + 60 + 16);
      Ret (Next loc (mkFlags (skipfnd g) (md5fnd g) (supportedfnd g) true (fragcntfnd g)) o)
  else if starts_with (str "FRAGMENT COUNT = ") here then
    if (511 <? loc + 17)%nat then Ret (Fail o)
    else
      '(loc, v) ← number_field m (loc + 17);
      match v with
      | None => Ret (Fail o)
      | Some v =>
          let o := set_fragmentcount v o in
          loc ← skip_to_semicolon m loc;
          Ret (Next loc (mkFlags (skipfnd g) (md5fnd g) (supportedfnd g) (fragsumfnd g) true) o)
      end
  else Ret (Next (S loc) g o).

(** [while (loc < 512) { ...; if (all found) break; }] *)
Fixpoint scan_appdata (fuel : nat) (m : bytes) (loc : nat) (g : found_flags) (o : pvd_out) :
    outcome (option found_flags * pvd_out) :=
  match fuel with
  | O => NoFuel
  | S fuel =>
      if (loc <? 512)%nat then
        st ← scan_body m loc g o;
        match st with
        | Fail o => Ret (None, o)
        | Next loc g o =>
            if all_found g then Ret (Some g, o) else scan_appdata fuel m loc g o
        end
      else Ret (Some g, o)
  end.

(** Uninitialised stack of the checker, and the memory above [buf2]. *)
Record stack := mkStack {
  g_pvd : bytes;          (* unsigned char buf[2048] *)
  g_out : pvd_out;        (* the pointed-to objects before the call *)
  g_above : bytes;        (* what follows char buf2[512] *)
  g_isosize : Z;          (* long long isosize, before it is set *)
  g_buf : bytes;          (* malloc(32768) *)
  g_thisfragsum : bytes;  (* char thisfragsum[61] *)
  g_ctx : MD5Context
}.

(** parsepvd: the return value, the objects it fills, and isosize.  Every
    caller sets fragmentcount to 0 before the call. *)
Definition parsepvd (fuel : nat) (g : stack) (f : F) : outcome (Z * pvd_out * Z * F) :=
  let o := set_fragmentcount 0 (g_out g) in
  let '(r, f) := f_lseek f (16 * 2048) in
  if r =? -1 then Ret (-1, o, g_isosize g, f)
  else
    '(found, buf, f) ← check_find fuel f (g_pvd g) (16 * 2048);
    match found with
    | NotFound => Ret (-1, o, g_isosize g, f)
    | Found offset =>
        let buf2 := <[511%nat := 0]> (slice 883 512 buf) in
        let o := set_supported 0 o in
        '(g', o) ← scan_appdata 513 (buf2 ++ g_above g) 0 (mkFlags false false false false false) o;
        match g' with
        | None => Ret (-1, o, g_isosize g, f)
        | Some g' =>
            if negb (skipfnd g' && md5fnd g') then Ret (-1, o, g_isosize g, f)
            else
              isosize ← volume_size buf;
              Ret (s32 offset, o, isosize, f)
        end
    end.

(** Results of the check. *)
Definition ISOMD5SUM_CHECK_PASSED : Z := 1.
Definition ISOMD5SUM_CHECK_FAILED : Z := 0.
Definition ISOMD5SUM_CHECK_ABORTED : Z := 2.
Definition ISOMD5SUM_CHECK_NOT_FOUND : Z := -1.
Definition ISOMD5SUM_FILE_NOT_FOUND : Z := -2.

(** Replace the implanted data by spaces in the chunk read at [offset]. *)
Definition blank_chunk (apoff offset nread : Z) (buf : bytes) : outcome bytes :=
  if (offset <? apoff) && (apoff <=? offset + nread) then
    let start := apoff - offset in
    let end_ := Z.min (start + Z.min nread 512) (offset + nread - apoff) in
    memset_ buf start 32 (w32 (end_ - start))
  else if (apoff <=? offset) && (offset + nread <? apoff + 512) then
    memset_ buf 0 32 (w32 nread)
  else if (offset <? apoff + 512) && (apoff + 512 <=? offset + nread) then
    memset_ buf 0 32 (w32 (apoff + 512 - offset))
  else Ret buf.

(** [for (i = 0; i < FRAGMENT_SUM_LENGTH/fragmentcount; i++)]: the computed
    digits and thisfragsum. *)
Fixpoint fragment_digits (fuel : nat) (i j count : Z) (sum sums this computed : bytes) :
    outcome (Z * bytes * bytes) :=
  match fuel with
  | O => NoFuel
  | S fuel =>
      if i <? count then
        b ← fetch sum i;
        let computed := computed ++ snprintf_ 2 (fmt_01x b) in
        _ ← defined_if (length computed <? 33)%nat;
        c ← fetch sums j;
        this ← store this i c;
        fragment_digits fuel (i + 1) (j + 1) count sum sums this computed
      else Ret (j, this, computed)
  end.

(** Variables of the loop of checkmd5sum. *)
Record check_state := mkCheck {
  ck_file : F;
  ck_offset : Z;
  ck_buf : bytes;
  ck_ctx : MD5Context;
  ck_prev : Z;
  ck_this : bytes
}.

Inductive check_step (C : Type) := Stop (rc : Z) (cbs : C) | Break (s : check_state) (cbs : C)
  | Go (s : check_state) (cbs : C).
Arguments Stop {_} _ _.
Arguments Break {_} _ _.
Arguments Go {_} _ _.

(** Compare the sum of the fragments read so far with the implanted one. *)
Definition check_fragment (o : pvd_out) (limit offset : Z) (s : check_state) :
    outcome (bool * Z * bytes) :=
  if fragmentcount o =? 0 then Ret (true, ck_prev s, ck_this s)
  else
    c1 ← ll_val (fragmentcount o + 1);
    p ← ll_val (offset * c1);
    q ← cdiv p limit;
    let current := s32 q in
    if negb (current =? ck_prev s) then
      let sum := fst (MD5_Final be (ck_ctx s)) in
      c0 ← int_val (current - 1);
      jj ← int_val (c0 * FRAGMENT_SUM_LENGTH);
      jq ← cdiv jj (fragmentcount o);
      count ← cdiv FRAGMENT_SUM_LENGTH (fragmentcount o);
      '(j, this, computed) ←
        fragment_digits 62 0 (s32 jq) count sum (fragmentsums o) (ck_this s) [];
      this ← store this j 0;
      Ret (streq (until_nul this) computed, current, this)
    else Ret (true, ck_prev s, ck_this s).

(** One iteration of [while (offset < isosize - skipsectors * 2048)]. *)
Definition check_body {C : Type} (cb : option (C → Z → Z → Z * C)) (o : pvd_out)
    (apoff limit : Z) (s : check_state) (cbs : C) : outcome (check_step C) :=
  let offset := ck_offset s in
  let nattempt := Z.min (limit - offset) 32768 in
  let '(nread, d, f) := f_read (ck_file s) nattempt in
  if nread <=? 0 then
    Ret (Break (mkCheck f offset (ck_buf s) (ck_ctx s) (ck_prev s) (ck_this s)) cbs)
  else
    let '(nread, f) :=
      if nattempt <? nread then (nattempt, snd (f_lseek f (offset + nattempt))) else (nread, f) in
    buf ← blank_chunk apoff offset nread (splice 0 d (ck_buf s));
    let ctx := MD5_Update be (ck_ctx s) buf nread in
    let s := mkCheck f offset buf ctx (ck_prev s) (ck_this s) in
    '(good, prev, this) ← check_fragment o limit offset s;
    if negb good then Ret (Stop ISOMD5SUM_CHECK_FAILED cbs)
    else
      let offset := offset + nread in
      let s := mkCheck f offset buf ctx prev this in
      match cb with
      | Some cb =>
          let '(stop, cbs) := cb cbs offset limit in
          if negb (stop =? 0) then Ret (Stop ISOMD5SUM_CHECK_ABORTED cbs) else Ret (Go s cbs)
      | None => Ret (Go s cbs)
      end.

Fixpoint check_loop {C : Type} (fuel : nat) (cb : option (C → Z → Z → Z * C)) (o : pvd_out)
    (apoff limit : Z) (s : check_state) (cbs : C) : outcome (check_step C) :=
  match fuel with
  | O => NoFuel
  | S fuel =>
      if ck_offset s <? limit then
        st ← check_body cb o apoff limit s cbs;
        match st with
        | Go s cbs => check_loop fuel cb o apoff limit s cbs
        | st => Ret st
        end
      else Ret (Break s cbs)
  end.

(** The sixteen bytes in hexadecimal. *)
Definition hex_digest (sum : bytes) : bytes := sum ≫= λ b, take 2 (snprintf_ 4 (fmt_02x b)).

Definition call_cb {C : Type} (cb : option (C → Z → Z → Z * C)) (cbs : C) (x y : Z) : C :=
  match cb with Some cb => snd (cb cbs x y) | None => cbs end.

Definition checkmd5sum {C : Type} (fuel : nat) (g : stack) (f : F)
    (cb : option (C → Z → Z → Z * C)) (cbs : C) : outcome (Z * F * C) :=
  '(pvd_offset, o, isosize, f) ← parsepvd fuel g f;
  if pvd_offset <? 0 then Ret (ISOMD5SUM_CHECK_NOT_FOUND, f, cbs)
  else
    let f := snd (f_lseek f 0) in
    let ctx := MD5_Init be (g_ctx g) in
    let apoff := pvd_offset + APPDATA_OFFSET in
    skip ← int_val (skipsectors o * 2048);
    let limit := isosize - skip in
    let cbs := call_cb cb cbs 0 limit in
    st ← check_loop fuel cb o apoff limit
           (mkCheck f 0 (g_buf g) ctx 0 (g_thisfragsum g)) cbs;
    match st with
    | Stop rc cbs => Ret (rc, f, cbs)
    | Break s cbs | Go s cbs =>
        let cbs := call_cb cb cbs isosize limit in
        let computed := hex_digest (fst (MD5_Final be (ck_ctx s))) in
        if streq (until_nul (mediasum o)) computed
        then Ret (ISOMD5SUM_CHECK_PASSED, ck_file s, cbs)
        else Ret (ISOMD5SUM_CHECK_FAILED, ck_file s, cbs)
    end.

(** [g1] and [g2]: the stack of the two calls of parsepvd. *)
Definition doMediaCheck {C : Type} (fuel : nat) (g1 g2 : stack) (f : F)
    (cb : option (C → Z → Z → Z * C)) (cbs : C) : outcome (Z * F * C) :=
  '(r, _, _, f) ← parsepvd fuel g1 f;
  if r <? 0 then Ret (ISOMD5SUM_CHECK_NOT_FOUND, f, cbs)
  else checkmd5sum fuel g2 f cb cbs.

(** [isofd] is what open(2) gave: [None] when it failed. *)
Definition mediaCheckFile {C : Type} (fuel : nat) (g1 g2 : stack) (isofd : option F)
    (cb : option (C → Z → Z → Z * C)) (cbs : C) : outcome (Z * C) :=
  match isofd with
  | None => Ret (ISOMD5SUM_FILE_NOT_FOUND, cbs)
  | Some f => '(rc, _, cbs) ← doMediaCheck fuel g1 g2 f cb cbs; Ret (rc, cbs)
  end.

(** printMD5SUM: the return value and the lines printed. *)
Definition printMD5SUM (fuel : nat) (g : stack) (file : bytes) (isofd : option F) :
    outcome (Z * list bytes) :=
  match isofd with
  | None => Ret (ISOMD5SUM_FILE_NOT_FOUND, [])
  | Some f =>
      '(r, o, _, _) ← parsepvd fuel g f;
      if r <? 0 then Ret (ISOMD5SUM_CHECK_NOT_FOUND, [])
      else
        let sums := until_nul (fragmentsums o) in
        let l1 := file ++ str ":   " ++ until_nul (mediasum o) ++ [10] in
        if (0 <? Z.of_nat (length sums)) && (0 <? fragmentcount o) then
          Ret (0, [l1; str "Fragment sums: " ++ sums ++ [10];
                   str "Fragment count: " ++ fmt_d (fragmentcount o) ++ [10]])
        else Ret (0, [l1])
  end.

(** checkisomd5.c: the exit status for a result. *)
Definition processExitStatus (rc : Z) : Z :=
  if rc =? ISOMD5SUM_CHECK_FAILED then 1
  else if rc =? ISOMD5SUM_CHECK_ABORTED then 2
  else if rc =? ISOMD5SUM_CHECK_NOT_FOUND then 1
  else if rc =? ISOMD5SUM_FILE_NOT_FOUND then 1
  else if rc =? ISOMD5SUM_CHECK_PASSED then 0
  else 1.

(** ** libimplantisomd5.c *)

(** The descriptor loop of this file's parsepvd: a read of nothing is not an
    error, and leaves [buf] as it was. *)
Fixpoint implant_find (fuel : nat) (f : F) (buf : bytes) (offset : Z) :
    outcome (scan_result * bytes * F) :=
  match fuel with
  | O => NoFuel
  | S fuel =>
      let '(n, d, f) := f_read f 2048 in
      if n =? -1 then Ret (NotFound, buf, f)
      else
        let buf := splice 0 d buf in
        let b0 := nth 0 buf 0 in
        if b0 =? 1 then Ret (Found offset, buf, f)
        else if b0 =? 255 then Ret (NotFound, buf, f)
        else implant_find fuel f buf (offset + 2048)
  end.

Definition implant_parsepvd (fuel : nat) (gbuf : bytes) (f : F) : outcome (Z * Z * F) :=
  let '(r, f) := f_lseek f (16 * 2048) in
  if r =? -1 then Ret (-1, 0, f)
  else
    '(found, buf, f) ← implant_find fuel f gbuf (16 * 2048);
    match found with
    | NotFound => Ret (-1, 0, f)
    | Found offset => isosize ← volume_size buf; Ret (s32 offset, isosize, f)
    end.

(** writeAppData: [None] where the program exits. *)
Definition writeAppData (appdata valstr : bytes) (loc : nat) : option (bytes * nat) :=
  if (511 <? loc + length valstr)%nat then None
  else Some (splice loc valstr appdata, loc + length valstr)%nat.

(** The successive calls of writeAppData. *)
Fixpoint writeAll (appdata : bytes) (vals : list bytes) (loc : nat) : option (bytes * nat) :=
  match vals with
  | [] => Some (appdata, loc)
  | v :: vals => '(appdata, loc) ← writeAppData appdata v loc; writeAll appdata vals loc
  end.

Definition appdata_fields (supported : bool) (md5str fragstr : bytes) : list bytes :=
  [ str "ISO MD5SUM = "; md5str; str ";";
    snprintf_ 512 (str "SKIPSECTORS = " ++ fmt_d SKIPSECTORS); str ";";
    (if supported then str "RHLISOSTATUS=1" else str "RHLISOSTATUS=0"); str ";";
    str "FRAGMENT SUMS = "; fragstr; str ";";
    snprintf_ 512 (str "FRAGMENT COUNT = " ++ fmt_d FRAGMENT_COUNT); str ";";
    str "THIS IS NOT THE SAME AS RUNNING MD5SUM ON THIS ISO!!" ].

Record implant_state := mkImplant {
  im_file : F;
  im_total : Z;
  im_ctx : MD5Context;
  im_prev : Z;
  im_fragstr : bytes
}.

(** The digits of one fragment sum, appended to fragstr (61 bytes). *)
Definition append_digits (fragstr sum : bytes) (n : nat) : outcome bytes :=
  let fragstr := fragstr ++ (take n sum ≫= λ b, snprintf_ 2 (fmt_01x b)) in
  _ ← defined_if (length fragstr <? 61)%nat;
  Ret fragstr.

(** [while (total < isosize - SKIPSECTORS * 2048)] *)
Fixpoint implant_loop (fuel : nat) (limit : Z) (s : implant_state) : outcome implant_state :=
  match fuel with
  | O => NoFuel
  | S fuel =>
      if im_total s <? limit then
        let nattempt := Z.min (limit - im_total s) 32768 in
        let '(nread, d, f) := f_read (im_file s) nattempt in
        if nread <=? 0 then Ret (mkImplant f (im_total s) (im_ctx s) (im_prev s) (im_fragstr s))
        else
          let ctx := MD5_Update be (im_ctx s) d nread in
          q ← cdiv (im_total s * (FRAGMENT_COUNT + 1)) limit;
          let current := s32 q in
          fragstr ←
            (if negb (current =? im_prev s) then
               append_digits (im_fragstr s) (fst (MD5_Final be ctx))
                 (Z.to_nat (FRAGMENT_SUM_LENGTH / FRAGMENT_COUNT))
             else Ret (im_fragstr s));
          implant_loop fuel limit (mkImplant f (im_total s + nread) ctx current fragstr)
      else Ret s
  end.

Inductive implant_result :=
  | Implanted (f : F)              (* returns 0 *)
  | Refused (msg : bytes) (f : F)  (* returns -1 with *errstr *)
  | NoFile
  | Exited.                        (* exit(-1) in writeAppData *)

Definition blanks : bytes := replicate 512 32.

(** The application data before implanting, or the reason to refuse; with
    [forceit] it is erased. *)
Definition prepare_appdata (forceit : bool) (gapp : bytes) (f : F) (pvd_offset : Z) :
    option F :=
  let f := snd (f_lseek f (pvd_offset + APPDATA_OFFSET)) in
  let '(_, d, f) := f_read f 512 in
  let orig := splice 0 d gapp in
  if negb forceit then
    if existsb (λ b, negb (b =? 32)) orig then None else Some f
  else
    let f := snd (f_lseek f (pvd_offset + APPDATA_OFFSET)) in
    Some (snd (f_write f blanks)).

Definition implantISOFile (fuel : nat) (gbuf gapp : bytes) (gctx : MD5Context)
    (isofd : option F) (supported forceit : bool) : outcome implant_result :=
  match isofd with
  | None => Ret NoFile
  | Some f =>
      '(pvd_offset, isosize, f) ← implant_parsepvd fuel gbuf f;
      if pvd_offset <? 0 then Ret (Refused (str "Could not find primary volumne!" ++ [10; 10]) f)
      else
        match prepare_appdata forceit gapp f pvd_offset with
        | None =>
            Ret (Refused (str "Application data has been used - not implanting md5sum!" ++ [10]) f)
        | Some f =>
            let f := snd (f_lseek f 0) in
            let limit := isosize - SKIPSECTORS * 2048 in
            s ← implant_loop fuel limit (mkImplant f 0 (MD5_Init be gctx) 0 []);
            let md5str := hex_digest (fst (MD5_Final be (im_ctx s))) in
            match writeAll blanks (appdata_fields supported md5str (im_fragstr s)) 0 with
            | None => Ret Exited
            | Some (new_appdata, _) =>
                let f := snd (f_lseek (im_file s) (pvd_offset + APPDATA_OFFSET)) in
                Ret (Implanted (snd (f_write f new_appdata)))
            end
        end
  end.

End iso.

Arguments check_state : clear implicits.
Arguments implant_state : clear implicits.
Arguments implant_result : clear implicits.
Arguments Stop {F C} _ _.
Arguments Break {F C} _ _.
Arguments Go {F C} _ _.
