(* ===== verification/IsoMd5Facts.v ===== *)
(** * Implanting and checking an image (isomd5sum/)

    Properties of [IsoMd5] on regular files: the sums an implanted image
    carries, what a passed check means, and that a freshly implanted image
    passes.  The sums are stated with [Md5.Spec.md5]; the fragment sums with
    the reference function [fragments]. *)

From S2P Require Import Prelude CLib Posix Md5 IsoMd5.
Import Md5.Code.

Lemma nth_slice {A} off len i (l : list A) d : (i < len)%nat → nth i (slice off len l) d = nth (off + i) l d.
Proof.
  intros. rewrite !nth_lookup. unfold slice. rewrite lookup_take_lt by done. by rewrite lookup_drop.
Qed.

#[local] Opaque Z.to_nat.

Section image.
Context (be : bool).

(** ** Finding the descriptor *)

(** Byte offset of sector [16 + k]. *)
Definition sector_at (k : nat) : Z := 32768 + 2048 * Z.of_nat k.
Definition sector_type (x : bytes) (k : nat) : Z := nth (Z.to_nat (sector_at k)) x 0.

(** [x] has its primary volume descriptor in sector [16 + k]: no sector
    between 16 and it has type 1 or 255. *)
Record has_pvd (x : bytes) (k : nat) : Prop := {
  pvd_type : sector_type x k = 1;
  pvd_first j : (j < k)%nat → sector_type x j ≠ 1 ∧ sector_type x j ≠ 255;
  pvd_whole : sector_at k + 2048 ≤ Z.of_nat (length x)
}.

Definition pvd_sector (x : bytes) (k : nat) : bytes :=
  slice (Z.to_nat (sector_at k)) (Z.to_nat 2048) x.

Lemma length_pvd_sector x k : sector_at k + 2048 ≤ Z.of_nat (length x) →
  length (pvd_sector x k) = Z.to_nat 2048.
Proof. unfold pvd_sector, sector_at. intros. rewrite length_slice. lia. Qed.

Lemma sector_read x i k buf : (i ≤ k)%nat → has_pvd x k → length buf = Z.to_nat 2048 →
  f_read (mkFile x (Z.to_nat (sector_at i))) 2048 =
    (2048, pvd_sector x i, mkFile x (Z.to_nat (sector_at (S i)))) ∧
  splice 0 (pvd_sector x i) buf = pvd_sector x i ∧
  nth 0 (pvd_sector x i) 0 = sector_type x i ∧ length (pvd_sector x i) = Z.to_nat 2048.
Proof.
  intros Hi [_ _ Hl] Hb. assert (length (pvd_sector x i) = Z.to_nat 2048) as Hs.
  { apply length_pvd_sector. unfold sector_at in *. lia. }
  split_and!; [| | | done].
  - rewrite reg_read_all by (cbn [contents fpos]; unfold sector_at in *; lia).
    cbn [contents fpos]. rewrite Z2Nat.id by lia. do 2 f_equal. unfold sector_at. lia.
  - by rewrite splice_all by congruence.
  - unfold pvd_sector, sector_type. rewrite nth_slice by lia. f_equal. lia.
Qed.

(** Both loops stop at the descriptor with its sector in [buf]. *)
Lemma find_pvd x k fuel i buf : has_pvd x k → (i ≤ k)%nat → (k - i < fuel)%nat →
  length buf = Z.to_nat 2048 →
  let r := Ret (Found (sector_at k), pvd_sector x k, mkFile x (Z.to_nat (sector_at (S k)))) in
  check_find fuel (mkFile x (Z.to_nat (sector_at i))) buf (sector_at i) = r ∧
  implant_find fuel (mkFile x (Z.to_nat (sector_at i))) buf (sector_at i) = r.
Proof.
  intros Hp. cbn zeta. revert i buf. induction fuel as [| fuel IH]; intros i buf Hi Hf Hb; [lia |].
  cbn [check_find implant_find]. destruct (sector_read x i k buf Hi Hp Hb) as (-> & -> & -> & Hl).
  change (2048 <=? 0) with false. change (2048 =? -1) with false. cbn iota.
  destruct (decide (i = k)) as [-> | Hne].
  - by rewrite (pvd_type x k Hp).
  - destruct (pvd_first x k Hp i ltac:(lia)) as [H1 H255].
    destruct (Z.eqb_spec (sector_type x i) 1); [done |].
    destruct (Z.eqb_spec (sector_type x i) 255); [done |].
    replace (sector_at i + 2048) with (sector_at (S i)) by (unfold sector_at; lia).
    apply IH; [lia | lia | done].
Qed.

(** ** Fragment sums *)

(** Bytes covered by the sums: those before [limit] that the file has. *)
Definition covered (x : bytes) (limit : Z) : nat := Z.to_nat limit `min` length x.

(** The digits the code keeps of a sum: the first hexadecimal digit it prints
    of each of the first three bytes. *)
Definition sum_digits (sum : bytes) : bytes := take 3 sum ≫= λ b, take 1 (fmt_01x b).

(** The sums of the fragments that begin at or after byte [t], [prev] being
    the number of the fragment before: the digest of everything read is taken
    when a 32 KB chunk starts in a new fragment. *)
Fixpoint fragments (n : nat) (x : bytes) (limit : Z) (t : nat) (prev : Z) : bytes :=
  match n with
  | O => []
  | S n =>
      if (t <? covered x limit)%nat then
        let t' := ((t + Z.to_nat 32768) `min` covered x limit)%nat in
        let c := Z.of_nat t * 21 / limit in
        (if c =? prev then [] else sum_digits (Spec.md5 (take t' x))) ++ fragments n x limit t' c
      else []
  end.

Lemma length_md5 m : length (Spec.md5 m) = 16%nat.
Proof.
  unfold Spec.md5, Spec.digest_of. destruct (Spec.absorb _ _) as [[[a b] c] d].
  by rewrite !length_app, !length_le_bytes.
Qed.

Lemma md5_byte m : Forall is_byte (Spec.md5 m).
Proof.
  unfold Spec.md5, Spec.digest_of. destruct (Spec.absorb _ _) as [[[a b] c] d].
  auto with c_model.
Qed.

Lemma length_fmt_01x b : length (take 1 (fmt_01x b)) = 1%nat.
Proof. unfold fmt_01x. by destruct (b <? 16). Qed.

Lemma length_sum_digits s : length s = 16%nat → length (sum_digits s) = 3%nat.
Proof.
  destruct s as [| a [| b [| c s]]]; try done. intros _. unfold sum_digits. cbn [take mbind list_bind].
  rewrite !length_app, !length_fmt_01x. done.
Qed.

Lemma fragment_number t limit : 0 < limit → Z.of_nat t < limit →
  0 ≤ Z.of_nat t * 21 / limit ≤ 20 ∧
  cdiv (Z.of_nat t * 21) limit = Ret (Z.of_nat t * 21 / limit).
Proof.
  intros Hl Ht. split.
  - split; [apply Z.div_pos; lia |].
    assert (Z.of_nat t * 21 / limit < 21); [apply Z.div_lt_upper_bound; lia | lia].
  - unfold cdiv. destruct (Z.eqb_spec limit 0); [lia |]. by rewrite Z.quot_div_nonneg by lia.
Qed.

Lemma fragment_number_mono t t' limit : 0 < limit → (t ≤ t')%nat →
  Z.of_nat t * 21 / limit ≤ Z.of_nat t' * 21 / limit.
Proof. intros. apply Z.div_le_mono; lia. Qed.

(** At most one sum for each fragment number above the current one. *)
Lemma length_fragments n x limit t prev : 0 < limit → prev ≤ Z.of_nat t * 21 / limit → prev ≤ 20 →
  Z.of_nat (length (fragments n x limit t prev)) ≤ 3 * (20 - prev).
Proof.
  intros Hl. revert t prev. induction n as [| n IH]; intros t prev Hp H20; cbn [fragments length]; [lia |].
  destruct (Nat.ltb_spec t (covered x limit)) as [Ht |]; [| cbn; lia].
  set (t' := ((t + Z.to_nat 32768) `min` covered x limit)%nat).
  assert (Z.of_nat t < limit) by (unfold covered in Ht; lia).
  destruct (fragment_number t limit Hl ltac:(lia)) as [Hc _].
  pose proof (fragment_number_mono t t' limit Hl ltac:(unfold t'; lia)).
  specialize (IH t' (Z.of_nat t * 21 / limit) ltac:(lia) ltac:(lia)).
  rewrite length_app. destruct (Z.eqb_spec (Z.of_nat t * 21 / limit) prev); cbn [length].
  - lia.
  - rewrite length_sum_digits by apply length_md5. lia.
Qed.

(** ** The loop of implantISOFile *)

(** End of the chunk that starts at [t]. *)
Definition chunk_end (x : bytes) (limit : Z) (t : nat) : nat :=
  ((t + Z.to_nat 32768) `min` covered x limit)%nat.

Lemma chunk_read x limit t : Z.of_nat t < limit → (t ≤ covered x limit)%nat →
  let t' := chunk_end x limit t in
  f_read (mkFile x t) (Z.min (limit - Z.of_nat t) 32768) =
    (Z.of_nat (t' - t), slice t (t' - t) x, mkFile x t').
Proof.
  intros Hlim Ht t'. cbn. unfold reg_read. cbn [contents fpos].
  set (n := Z.to_nat (Z.min (limit - Z.of_nat t) 32768)).
  assert (slice t n x = slice t (t' - t) x ∧ length (slice t (t' - t) x) = (t' - t)%nat) as [-> ->].
  { unfold t', chunk_end, covered in *. split.
    - unfold slice. rewrite <- (firstn_all (drop t x)) at 1. rewrite take_take, length_drop.
      f_equal. unfold n. lia.
    - rewrite length_slice. lia. }
  do 2 f_equal. unfold t', chunk_end in *. lia.
Qed.

Lemma chunk_end_step x limit t : (t < covered x limit)%nat →
  (t < chunk_end x limit t ≤ covered x limit)%nat ∧ (chunk_end x limit t - t ≤ Z.to_nat 32768)%nat.
Proof. unfold chunk_end. lia. Qed.

(** Updating with the chunk extends the absorbed prefix. *)
Lemma chunk_update x limit t c buf : Forall is_byte buf → (t < covered x limit)%nat →
  absorbed be c (take t x) → let t' := chunk_end x limit t in
  take (t' - t) buf = slice t (t' - t) x →
  absorbed be (MD5_Update be c buf (Z.of_nat (t' - t))) (take t' x).
Proof.
  intros Hb Ht Hc t' Hbuf. pose proof (chunk_end_step x limit t Ht) as Hs. fold t' in Hs.
  assert (t' - t ≤ length buf)%nat as Hle.
  { apply (f_equal length) in Hbuf. rewrite length_take, length_slice in Hbuf.
    unfold covered in *. lia. }
  pose proof (MD5_Update_absorb be c (take t x) buf (Z.of_nat (t' - t)) Hc Hb) as Hu.
  rewrite Nat2Z.id, Hbuf in Hu. replace (take t' x) with (take t x ++ slice t (t' - t) x).
  - apply Hu; [| lia]. change (2 ^ 32) with 4294967296. lia.
  - unfold slice. rewrite take_take_drop. f_equal. lia.
Qed.

Lemma sum_digits_append sum : length sum = 16%nat →
  (take (Z.to_nat (FRAGMENT_SUM_LENGTH / FRAGMENT_COUNT)) sum ≫= λ b, snprintf_ 2 (fmt_01x b)) =
  sum_digits sum.
Proof. done. Qed.

Lemma implant_loop_run x limit : Forall is_byte x → ∀ fuel t ctx prev fragstr,
  (t ≤ covered x limit)%nat → absorbed be ctx (take t x) →
  (covered x limit - t + 1 < fuel)%nat →
  (length (fragstr ++ fragments fuel x limit t prev) ≤ 60)%nat →
  ∃ ctx' prev', implant_loop be fuel limit (mkImplant (mkFile x t) (Z.of_nat t) ctx prev fragstr) =
    Ret (mkImplant (mkFile x (covered x limit)) (Z.of_nat (covered x limit)) ctx' prev'
           (fragstr ++ fragments fuel x limit t prev)) ∧
  absorbed be ctx' (take (covered x limit) x).
Proof.
  intros Hx. induction fuel as [| fuel IH]; intros t ctx prev fragstr Ht Hctx Hf Hlen; [lia |].
  cbn [implant_loop im_total]. destruct (Z.ltb_spec (Z.of_nat t) limit) as [Hlim | Hlim].
  2:{ assert (t = covered x limit) as -> by (unfold covered in *; lia).
      cbn [fragments]. rewrite Nat.ltb_irrefl, app_nil_r. eauto. }
  cbn [im_file]. rewrite chunk_read by done. cbn [fragments] in *. fold (chunk_end x limit t) in *.
  destruct (Nat.ltb_spec t (covered x limit)) as [Hlt | Hge]; cycle 1.
  { assert (t = covered x limit) as -> by lia.
    assert (chunk_end x limit (covered x limit) = covered x limit) as Hce by (unfold chunk_end; lia).
    rewrite Hce, Nat.sub_diag, app_nil_r. change (Z.of_nat 0 <=? 0) with true. cbn iota. eauto. }
  destruct (chunk_end_step x limit t Hlt) as [Hs Hs'].
  destruct (Z.leb_spec (Z.of_nat (chunk_end x limit t - t)) 0) as [? | _]; [lia |].
  cbn [im_ctx im_prev im_fragstr]. change (FRAGMENT_COUNT + 1) with 21.
  destruct (fragment_number t limit ltac:(lia) Hlim) as [Hc ->]. rewrite outcome_bind_ret.
  rewrite (swrap_small 32) by (change (2 ^ (32 - 1)) with 2147483648; lia).
  assert (Hctx' : absorbed be (MD5_Update be ctx (slice t (chunk_end x limit t - t) x)
    (Z.of_nat (chunk_end x limit t - t))) (take (chunk_end x limit t) x)).
  { apply chunk_update; auto with c_model. rewrite take_ge; [done |]. rewrite length_slice. lia. }
  replace (Z.of_nat t + Z.of_nat (chunk_end x limit t - t)) with (Z.of_nat (chunk_end x limit t)) by lia.
  destruct (Z.eqb_spec (Z.of_nat t * 21 / limit) prev) as [Heq | Hne]; cbn [negb].
  - rewrite outcome_bind_ret. rewrite app_nil_l in *. apply IH; [lia | done | lia | done].
  - unfold append_digits. rewrite (MD5_Final_spec be _ _ Hctx'), sum_digits_append by apply length_md5.
    rewrite (assoc_L (++)) in *. rewrite length_app in Hlen.
    destruct (Nat.ltb_spec (length (fragstr ++ sum_digits (Spec.md5 (take (chunk_end x limit t) x)))) 61);
      [| lia]. cbn [defined_if]. rewrite !outcome_bind_ret.
    apply IH; [lia | done | lia |]. by rewrite length_app.
Qed.

(** ** Blanking the application data *)

Section blanking.
Context (pre appd post : bytes) (limit : Z).
Context (Happ : length appd = 512%nat).
Context (Hpre : Forall is_byte pre) (Happb : Forall is_byte appd) (Hpost : Forall is_byte post).
(** The application data lies in the second 32 KB chunk, near enough to its
    start for the code's end offset. *)
Let A : Z := Z.of_nat (length pre).
Context (HA : 32768 + 883 ≤ A) (Hroom : 2 * (A - 32768) + 512 ≤ 32768).
Let x : bytes := pre ++ blanks ++ post.
Let y : bytes := pre ++ appd ++ post.
Context (Hcov : 32768 + 2 * (A - 32768) + 512 ≤ Z.of_nat (covered x limit)).

Lemma length_blanks : length blanks = 512%nat.
Proof. apply length_replicate. Qed.

Lemma blanks_byte : Forall is_byte blanks.
Proof. apply Forall_replicate. done. Qed.

Lemma x_byte : Forall is_byte x.
Proof. unfold x. apply Forall_app_2; [done | apply Forall_app_2; [apply blanks_byte | done]]. Qed.

Lemma y_byte : Forall is_byte y.
Proof. unfold y. by repeat apply Forall_app_2. Qed.

Lemma covered_same : covered y limit = covered x limit.
Proof. unfold covered, x, y. by rewrite !length_app, Happ, length_blanks. Qed.

Lemma slice_outside t n : (Z.of_nat (t + n) ≤ A ∨ A + 512 ≤ Z.of_nat t) → slice t n y = slice t n x.
Proof.
  unfold x, y, A. intros [Ht | Ht].
  - by rewrite !slice_app_l by lia.
  - rewrite !(slice_app_r t) by lia. rewrite !slice_app_r by (rewrite ?length_blanks; lia).
    by rewrite Happ, length_blanks.
Qed.

Lemma slice_around (m : bytes) t n : length m = 512%nat →
  Z.of_nat t ≤ A → A + 512 ≤ Z.of_nat (t + n) →
  slice t n (pre ++ m ++ post) =
  drop t pre ++ m ++ take (n - (length pre - t) - 512) post.
Proof.
  unfold A. intros Hm Ht Hn. unfold slice. rewrite drop_app_le by lia.
  rewrite take_app_ge by (rewrite length_drop; lia). f_equal. rewrite length_drop.
  rewrite take_app_ge by lia. by rewrite Hm.
Qed.

Lemma take_splice_0 (d buf : bytes) : (length d ≤ length buf)%nat →
  take (length d) (splice 0 d buf) = d.
Proof. intros. unfold splice. rewrite take_0, app_nil_l. apply take_app_length. Qed.

Lemma blank_chunk_y i buf : let t := (i * Z.to_nat 32768)%nat in
  let n := (chunk_end x limit t - t)%nat in
  (t < covered x limit)%nat → length buf = Z.to_nat 32768 → Forall is_byte buf →
  ∃ buf', blank_chunk A (Z.of_nat t) (Z.of_nat n) (splice 0 (slice t n y) buf) = Ret buf' ∧
    take n buf' = slice t n x ∧ length buf' = Z.to_nat 32768 ∧ Forall is_byte buf'.
Proof.
  intros t n Ht Hbuf Hbb.
  destruct (chunk_end_step x limit t Ht) as [Hs Hs']. fold n in Hs'.
  assert (Hn : (t + n ≤ covered x limit)%nat) by lia.
  assert (Hly : length (slice t n y) = n).
  { rewrite length_slice. rewrite <- covered_same in Hn. unfold covered in *. lia. }
  assert (Hyb : Forall is_byte (splice 0 (slice t n y) buf)) by (apply Forall_splice; [apply Forall_slice, y_byte | done]).
  assert (Hcases : i = 0%nat ∨ i = 1%nat ∨ (2 ≤ i)%nat) by lia.
  destruct (decide (i = 1%nat)) as [-> | Hi1].
  - assert (Hn1 : 2 * (A - 32768) + 512 ≤ Z.of_nat n) by (unfold n, chunk_end, t in *; lia).
    assert (t = Z.to_nat 32768) as -> by (unfold t; lia).
    unfold blank_chunk. rewrite Z2Nat.id by lia.
    destruct (Z.ltb_spec 32768 A); [| lia]. destruct (Z.leb_spec A (32768 + Z.of_nat n)); [| lia].
    cbn [andb]. rewrite (Z.min_r (Z.of_nat n)) by lia. rewrite Z.min_l by lia.
    replace (A - 32768 + 512 - (A - 32768)) with 512 by lia. rewrite wrap_small by lia.
    unfold memset_. rewrite length_splice by lia.
    destruct (Z.leb_spec 0 (A - 32768)); [| lia].
    destruct (Z.leb_spec (A - 32768 + 512) (Z.of_nat (length buf))); [| lia].
    cbn [andb]. eexists. split; [reflexivity |].
    change (replicate (Z.to_nat 512) 32) with blanks.
    assert (Hsp : splice (Z.to_nat (A - 32768)) blanks (splice 0 (slice (Z.to_nat 32768) n y) buf) =
                  splice 0 (slice (Z.to_nat 32768) n x) buf).
    { unfold x, y. rewrite !slice_around by (rewrite ?length_blanks; lia).
      unfold splice at 2 3. rewrite !take_0, !app_nil_l, !length_app, Happ, length_blanks.
      rewrite <- !(assoc_L (++)).
      replace (Z.to_nat (A - 32768)) with (length (drop (Z.to_nat 32768) pre))
        by (rewrite length_drop; unfold A; lia).
      apply splice_app_exact. by rewrite length_blanks. }
    rewrite Hsp. assert (length (slice (Z.to_nat 32768) n x) = n) as Hlx.
    { rewrite length_slice. unfold covered in *. lia. }
    split_and!.
    + rewrite <- Hlx at 1. apply take_splice_0. lia.
    + rewrite length_splice; lia.
    + apply Forall_splice; [apply Forall_slice, x_byte | done].
  - assert (Hno : Z.of_nat (t + n) < A ∨ A + 512 ≤ Z.of_nat t).
    { destruct Hcases as [-> | [? | Hi]]; [left | done | right]; unfold t, n, chunk_end in *; [lia |].
      assert (2 * Z.to_nat 32768 ≤ i * Z.to_nat 32768)%nat by (apply Nat.mul_le_mono_r; lia). lia. }
    unfold blank_chunk.
    assert ((Z.of_nat t <? A) && (A <=? Z.of_nat t + Z.of_nat n) = false) as -> by lia.
    assert ((A <=? Z.of_nat t) && (Z.of_nat t + Z.of_nat n <? A + 512) = false) as -> by lia.
    assert ((Z.of_nat t <? A + 512) && (A + 512 <=? Z.of_nat t + Z.of_nat n) = false) as -> by lia.
    eexists. split; [reflexivity |]. split_and!.
    + rewrite <- Hly at 1. rewrite take_splice_0 by lia. apply slice_outside. lia.
    + rewrite length_splice; lia.
    + done.
Qed.
End blanking.

(** ** Comparing fragment sums *)

Lemma fmt_01x_digit b : is_byte b → ∃ d, take 1 (fmt_01x b) = [d] ∧ d ≠ 0.
Proof.
  unfold is_byte. intros Hb. unfold fmt_01x. destruct (Z.ltb_spec b 16).
  - exists (hex_digit b). pose proof (hex_digit_range b). split; [done | lia].
  - exists (hex_digit (b / 16)). split; [done |].
    assert (0 ≤ b / 16 < 16) as Hr by mlia. pose proof (hex_digit_range _ Hr). lia.
Qed.

(** The three digits kept of a sum. *)
Lemma sum_digits_three sum : length sum = 16%nat → Forall is_byte sum →
  ∃ b0 b1 b2 rest d0 d1 d2, sum = b0 :: b1 :: b2 :: rest ∧
    take 1 (fmt_01x b0) = [d0] ∧ take 1 (fmt_01x b1) = [d1] ∧ take 1 (fmt_01x b2) = [d2] ∧
    sum_digits sum = [d0; d1; d2] ∧ d0 ≠ 0 ∧ d1 ≠ 0 ∧ d2 ≠ 0.
Proof.
  intros Hl Hb. destruct sum as [| b0 [| b1 [| b2 rest]]]; try done.
  rewrite !list.Forall_cons in Hb. destruct Hb as (H0 & H1 & H2 & _).
  destruct (fmt_01x_digit b0 H0) as (d0 & E0 & ?). destruct (fmt_01x_digit b1 H1) as (d1 & E1 & ?).
  destruct (fmt_01x_digit b2 H2) as (d2 & E2 & ?).
  exists b0, b1, b2, rest, d0, d1, d2. split_and!; try done.
  unfold sum_digits. cbn [take mbind list_bind]. by rewrite E0, E1, E2.
Qed.

Lemma fetch_at (l : bytes) i b : l !! i = Some b → fetch l (Z.of_nat i) = Ret b.
Proof.
  intros E. unfold fetch. destruct (Z.leb_spec 0 (Z.of_nat i)); [| lia]. by rewrite Nat2Z.id, E.
Qed.

Lemma store_at (l : bytes) i v : (i < length l)%nat → store l (Z.of_nat i) v = Ret (<[i := v]> l).
Proof.
  intros Hi. unfold store. destruct (Z.leb_spec 0 (Z.of_nat i)); [| lia].
  destruct (Z.ltb_spec (Z.of_nat i) (Z.of_nat (length l))); [| lia]. by rewrite Nat2Z.id.
Qed.

Lemma fragment_digits_step fuel (i j : nat) count sum sums this computed b d :
  Z.of_nat i < count → sum !! i = Some b → take 1 (fmt_01x b) = [d] → sums !! j = Some d →
  (i < length this)%nat → (length computed < 32)%nat →
  fragment_digits (S fuel) (Z.of_nat i) (Z.of_nat j) count sum sums this computed =
  fragment_digits fuel (Z.of_nat (S i)) (Z.of_nat (S j)) count sum sums (<[i := d]> this)
    (computed ++ [d]).
Proof.
  intros Hi Hb Hd Hs Ht Hc. cbn [fragment_digits].
  destruct (Z.ltb_spec (Z.of_nat i) count); [| lia].
  rewrite (fetch_at _ _ _ Hb), outcome_bind_ret. unfold snprintf_. change (2 - 1)%nat with 1%nat.
  rewrite Hd, length_app. cbn [length].
  destruct (Nat.ltb_spec (length computed + 1) 33); [| lia]. cbn [defined_if].
  rewrite outcome_bind_ret, (fetch_at _ _ _ Hs), outcome_bind_ret, store_at by done.
  rewrite outcome_bind_ret. by rewrite !Nat2Z.inj_succ.
Qed.

(** One fragment: three digits are compared, thisfragsum holds them. *)
Lemma fragment_digits_three sum sums this (j : nat) b0 b1 b2 rest d0 d1 d2 :
  sum = b0 :: b1 :: b2 :: rest →
  take 1 (fmt_01x b0) = [d0] → take 1 (fmt_01x b1) = [d1] → take 1 (fmt_01x b2) = [d2] →
  take 3 (drop j sums) = [d0; d1; d2] → length this = 61%nat →
  fragment_digits 62 0 (Z.of_nat j) 3 sum sums this [] =
  Ret (Z.of_nat (j + 3), [d0; d1; d2] ++ drop 3 this, [d0; d1; d2]).
Proof.
  intros -> E0 E1 E2 Hs Ht.
  destruct this as [| a0 [| a1 [| a2 this]]]; try done.
  assert (∀ q d, [d0; d1; d2] !! q = Some d → sums !! (j + q)%nat = Some d) as Hf.
  { intros q d Hq. rewrite <- lookup_drop, <- Hq, <- Hs.
    symmetry. apply lookup_take_lt. apply lookup_lt_Some in Hq. done. }
  pose proof (Hf 0%nat d0 eq_refl) as F0. pose proof (Hf 1%nat d1 eq_refl) as F1.
  pose proof (Hf 2%nat d2 eq_refl) as F2.
  rewrite Nat.add_0_r in F0. rewrite Nat.add_1_r in F1. rewrite Nat.add_succ_r, Nat.add_1_r in F2.
  change 62%nat with (4 + 58)%nat. cbn [length] in Ht. change 0 with (Z.of_nat 0) at 1.
  cbn [Nat.add].
  rewrite (fragment_digits_step _ 0 j 3 _ _ _ _ b0 d0) by (done || cbn; lia).
  rewrite (fragment_digits_step _ 1 (S j) 3 _ _ _ _ b1 d1) by (done || cbn; lia).
  rewrite (fragment_digits_step _ 2 (S (S j)) 3 _ _ _ _ b2 d2) by (done || cbn; lia).
  cbn [fragment_digits]. change (Z.of_nat 3 <? 3) with false. cbn iota.
  replace (j + 3)%nat with (S (S (S j))) by lia. done.
Qed.

(** The string in thisfragsum once its terminator is in place. *)
Lemma this_string (this : bytes) (n : nat) d0 d1 d2 :
  length this = 61%nat → d0 ≠ 0 → d1 ≠ 0 → d2 ≠ 0 → (0 < n ≤ 20)%nat →
  (n = 1%nat ∨ this !! 3%nat = Some 0) →
  let this' := <[(3 * n)%nat := 0]> ([d0; d1; d2] ++ drop 3 this) in
  until_nul this' = [d0; d1; d2] ∧ length this' = 61%nat ∧ this' !! 3%nat = Some 0.
Proof.
  intros Hl H0 H1 H2 Hn H3 this'.
  assert (this' !! 3%nat = Some 0 ∧ length this' = 61%nat ∧ take 3 this' = [d0; d1; d2])
    as (E3 & El & Et).
  { unfold this'. split_and!.
    - destruct (decide (n = 1%nat)) as [-> | ?].
      + rewrite list_lookup_insert_eq; [done |]. rewrite length_app, length_drop. cbn. lia.
      + rewrite list_lookup_insert_ne by lia. destruct H3 as [? | <-]; [done |].
        rewrite lookup_app_r by (cbn; lia). by rewrite lookup_drop.
    - rewrite length_insert, length_app, length_drop. cbn. lia.
    - rewrite take_insert_ge by lia. done. }
  split_and!; [| done | done].
  rewrite <- (take_drop 3 this'), Et, (drop_S _ 0 3) by done.
  apply until_nul_app_nul. by repeat constructor.
Qed.

(** When every fragment has its sum, the fragments are met one by one. *)
Lemma fragments_full n x limit t prev : 0 < limit → (t < covered x limit)%nat →
  prev ≤ Z.of_nat t * 21 / limit → prev ≤ 20 →
  Z.of_nat (length (fragments (S n) x limit t prev)) = 3 * (20 - prev) →
  let c := Z.of_nat t * 21 / limit in let t' := chunk_end x limit t in
  (c = prev ∧ fragments (S n) x limit t prev = fragments n x limit t' prev) ∨
  (c = prev + 1 ∧
   fragments (S n) x limit t prev = sum_digits (Spec.md5 (take t' x)) ++ fragments n x limit t' c).
Proof.
  intros Hl Ht Hp H20 Hlen c t'. cbn [fragments] in *. fold (chunk_end x limit t) in *. fold t' c in Hlen |- *.
  destruct (Nat.ltb_spec t (covered x limit)); [| lia].
  destruct (Z.eqb_spec c prev) as [-> | Hne]; [left; done | right].
  split; [| done]. rewrite length_app, length_sum_digits in Hlen by apply length_md5.
  assert (Z.of_nat t < limit) by (unfold covered in *; lia).
  destruct (fragment_number t limit Hl ltac:(lia)) as [Hc _].
  pose proof (length_fragments n x limit t' c Hl) as Hle.
  pose proof (fragment_number_mono t t' limit Hl ltac:(unfold t', chunk_end; lia)).
  specialize (Hle ltac:(unfold c; lia) ltac:(unfold c; lia)). fold c in Hc. lia.
Qed.

(** What the check knows about the fragment sums when it is about to read the
    chunk at [t]: there are none, or they are those of the image. *)
Definition sums_ok (x : bytes) (limit : Z) (o : pvd_out) (n t : nat) (prev : Z) (this : bytes) : Prop :=
  fragmentcount o = 0 ∨
  (fragmentcount o = 20 ∧ ∃ (F : bytes) (p : nat), fragmentsums o = F ++ [0] ∧ prev = Z.of_nat p ∧
    length F = 60%nat ∧ drop (3 * p) F = fragments n x limit t prev ∧ length this = 61%nat ∧
    (p = 0%nat ∨ this !! 3%nat = Some 0) ∧ (p ≤ 20)%nat ∧ prev ≤ Z.of_nat t * 21 / limit).

Lemma int_val_ok x : -2147483648 ≤ x < 2147483648 → int_val x = Ret x.
Proof.
  intros. unfold int_val. change (- 2 ^ 31) with (-2147483648). change (2 ^ 31) with 2147483648.
  by assert ((-2147483648 <=? x) && (x <? 2147483648) = true) as -> by lia.
Qed.

Lemma ll_val_ok x : -9223372036854775808 ≤ x < 9223372036854775808 → ll_val x = Ret x.
Proof.
  intros. unfold ll_val. change (- 2 ^ 63) with (-9223372036854775808).
  change (2 ^ 63) with 9223372036854775808.
  by assert ((-9223372036854775808 <=? x) && (x <? 9223372036854775808) = true) as -> by lia.
Qed.

Lemma s32_ok x : -2147483648 ≤ x < 2147483648 → s32 x = x.
Proof. intros. apply swrap_small; [done |]. by change (2 ^ (32 - 1)) with 2147483648. Qed.

(** Entering fragment [p + 1]: the digits implanted for it are compared. *)
Lemma compare_fragment {FD} limit o (t p : nat) (s : check_state FD) F m :
  0 < limit < 2 ^ 50 → Z.of_nat t < limit → Z.of_nat t * 21 / limit = Z.of_nat p + 1 →
  fragmentcount o = 20 → fragmentsums o = F ++ [0] → length F = 60%nat →
  ck_prev s = Z.of_nat p → length (ck_this s) = 61%nat →
  (p = 0%nat ∨ ck_this s !! 3%nat = Some 0) → absorbed be (ck_ctx s) m →
  take 3 (drop (3 * p) F) = sum_digits (Spec.md5 m) →
  ∃ this', check_fragment be o limit (Z.of_nat t) s = Ret (true, Z.of_nat (S p), this') ∧
    length this' = 61%nat ∧ this' !! 3%nat = Some 0.
Proof.
  intros [Hl Hl'] Ht Hc H20 HF HlF Hp Hth H3 Hctx Hd. unfold check_fragment.
  change (2 ^ 50) with 1125899906842624 in Hl'.
  destruct (fragment_number t limit Hl Ht) as [Hc20 Hdiv].
  rewrite H20. change (20 =? 0) with false. cbn iota.
  rewrite ll_val_ok, outcome_bind_ret by lia. rewrite ll_val_ok, outcome_bind_ret by lia.
  change (20 + 1) with 21. rewrite Hdiv, outcome_bind_ret, s32_ok, Hc by lia.
  rewrite Hp. destruct (Z.eqb_spec (Z.of_nat p + 1) (Z.of_nat p)); [lia |]. cbn [negb].
  rewrite (MD5_Final_spec be _ _ Hctx).
  destruct (sum_digits_three _ (length_md5 m) (md5_byte m))
    as (b0 & b1 & b2 & rest & d0 & d1 & d2 & Es & E0 & E1 & E2 & Ed & ? & ? & ?).
  replace (Z.of_nat p + 1 - 1) with (Z.of_nat p) by lia. change FRAGMENT_SUM_LENGTH with 60.
  rewrite int_val_ok, outcome_bind_ret, int_val_ok, outcome_bind_ret by lia.
  unfold cdiv. change (20 =? 0) with false. cbn iota. rewrite !outcome_bind_ret.
  change (60 ÷ 20) with 3.
  replace (Z.of_nat p * 60 ÷ 20) with (Z.of_nat (3 * p)) by (rewrite Z.quot_div_nonneg by lia; mlia).
  rewrite s32_ok by lia. rewrite HF, (fragment_digits_three _ _ _ _ b0 b1 b2 rest d0 d1 d2); try done;
    [| by rewrite drop_app_le, take_app_le, Hd, Ed by (rewrite ?length_drop; lia)].
  rewrite outcome_bind_ret. replace (3 * p + 3)%nat with (3 * S p)%nat by lia.
  rewrite store_at, outcome_bind_ret by (rewrite length_app, length_drop; cbn; lia).
  destruct (this_string (ck_this s) (S p) d0 d1 d2) as (Hu & Hl61 & H3'); try done;
    [lia | by destruct H3 as [-> | ?]; auto |].
  eexists. split; [| done]. rewrite Hu. replace (streq _ _) with true by (symmetry; by apply streq_spec).
  by replace (Z.of_nat p + 1) with (Z.of_nat (S p)) by lia.
Qed.

Lemma check_fragment_ok {FD} x limit o n t (s : check_state FD) : 0 < limit < 2 ^ 50 →
  (t < covered x limit)%nat → sums_ok x limit o (S n) t (ck_prev s) (ck_this s) →
  absorbed be (ck_ctx s) (take (chunk_end x limit t) x) →
  ∃ prev' this', check_fragment be o limit (Z.of_nat t) s = Ret (true, prev', this') ∧
    sums_ok x limit o n (chunk_end x limit t) prev' this'.
Proof.
  intros Hl Ht [H0 | (H20 & F & p & HF & Hp & HlF & Hd & Hth & H3 & Hp20 & Hpc)] Hctx.
  { unfold check_fragment. rewrite H0. cbn. eexists _, _. split; [reflexivity |]. by left. }
  assert (Hlim : Z.of_nat t < limit) by (unfold covered in Ht; lia).
  pose proof (fragment_number_mono t (chunk_end x limit t) limit ltac:(lia)
                ltac:(unfold chunk_end; lia)) as Hmono.
  assert (Hlen : Z.of_nat (length (fragments (S n) x limit t (ck_prev s))) = 3 * (20 - ck_prev s)).
  { rewrite <- Hd, length_drop. lia. }
  destruct (fragment_number t limit ltac:(lia) Hlim) as [Hc20 Hdiv].
  destruct (fragments_full n x limit t (ck_prev s) ltac:(lia) Ht Hpc ltac:(lia) Hlen)
    as [[Hcp Hfr] | [Hcp Hfr]].
  - unfold check_fragment. rewrite H20. change (20 =? 0) with false. cbn iota.
    change (2 ^ 50) with 1125899906842624 in Hl.
    rewrite ll_val_ok, outcome_bind_ret, ll_val_ok, outcome_bind_ret by lia.
    change (20 + 1) with 21. rewrite Hdiv, outcome_bind_ret, s32_ok, Hcp, Z.eqb_refl by lia.
    cbn [negb]. eexists _, _. split; [reflexivity |]. right. split; [done |].
    exists F, p. rewrite <- Hfr. split_and!; done || lia.
  - rewrite Hfr in Hd. pose proof (length_sum_digits _ (length_md5 (take (chunk_end x limit t) x))) as H3d.
    destruct (compare_fragment limit o t p s F (take (chunk_end x limit t) x)) as (this' & E & ? & ?);
      try done; [lia | |].
    { rewrite Hd, <- H3d. apply take_app_length. }
    eexists _, _. split; [exact E |]. right. split; [done |]. exists F, (S p).
    rewrite Hp in Hcp. replace (Z.of_nat p + 1) with (Z.of_nat (S p)) in Hcp by lia.
    split_and!; auto; try lia.
    rewrite <- Hcp. replace (3 * S p)%nat with (3 * p + 3)%nat by lia.
    rewrite <- drop_drop, Hd, <- H3d. apply drop_app_length.
Qed.

(** ** The loop of checkmd5sum on an implanted image *)

(** The callback never asks to abort. *)
Definition quiet {C} (cb : option (C → Z → Z → Z * C)) : Prop :=
  match cb with None => True | Some f => ∀ c a b, fst (f c a b) = 0 end.

Section checking.
Context (pre appd post : bytes) (limit : Z).
Context (Happ : length appd = 512%nat).
Context (Hpre : Forall is_byte pre) (Happb : Forall is_byte appd) (Hpost : Forall is_byte post).
Let A : Z := Z.of_nat (length pre).
Context (HA : 32768 + 883 ≤ A) (Hroom : 2 * (A - 32768) + 512 ≤ 32768).
Let x : bytes := pre ++ blanks ++ post.
Let y : bytes := pre ++ appd ++ post.
Context (Hcov : 32768 + 2 * (A - 32768) + 512 ≤ Z.of_nat (covered x limit)).
Context (Hlim : 0 < limit < 2 ^ 50).
Context {C : Type} (cb : option (C → Z → Z → Z * C)) (Hcb : quiet cb) (o : pvd_out).

(** Ready for the chunk at [t] (a chunk boundary or the end). *)
Record ready (n t : nat) (s : check_state regfile) : Prop := {
  rd_file : ck_file s = mkFile y t;
  rd_offset : ck_offset s = Z.of_nat t;
  rd_chunk : (∃ i, t = i * Z.to_nat 32768)%nat ∨ t = covered x limit;
  rd_le : (t ≤ covered x limit)%nat;
  rd_buf : length (ck_buf s) = Z.to_nat 32768;
  rd_bytes : Forall is_byte (ck_buf s);
  rd_ctx : absorbed be (ck_ctx s) (take t x);
  rd_sums : sums_ok x limit o n t (ck_prev s) (ck_this s)
}.

Lemma chunk_end_next i : let t := (i * Z.to_nat 32768)%nat in
  (∃ i', chunk_end x limit t = i' * Z.to_nat 32768)%nat ∨ chunk_end x limit t = covered x limit.
Proof.
  intros t. unfold chunk_end. destruct (Nat.le_ge_cases (t + Z.to_nat 32768) (covered x limit)).
  - left. exists (S i). rewrite Nat.min_l by done. unfold t. lia.
  - right. lia.
Qed.

Lemma check_body_step n t s cbs : (t < covered x limit)%nat → ready (S n) t s →
  ∃ s' cbs', check_body be cb o A limit s cbs = Ret (Go s' cbs') ∧
    ready n (chunk_end x limit t) s'.
Proof.
  intros Ht [Hf Ho Hch Hle Hbl Hbb Hctx Hsums].
  destruct Hch as [[i Hi] | ?]; [| lia].
  destruct (chunk_end_step x limit t Ht) as [Hs Hs'].
  assert (Hcy : covered y limit = covered x limit) by (by apply covered_same).
  unfold check_body. rewrite Hf, Ho. rewrite chunk_read by (unfold covered in *; lia).
  assert (chunk_end y limit t = chunk_end x limit t) as -> by (unfold chunk_end; by rewrite Hcy).
  set (t' := chunk_end x limit t) in *. set (n' := (t' - t)%nat).
  destruct (Z.leb_spec (Z.of_nat n') 0); [unfold n' in *; lia |].
  destruct (Z.ltb_spec (Z.min (limit - Z.of_nat t) 32768) (Z.of_nat n'));
    [unfold n', t', covered in *; lia |].
  destruct (blank_chunk_y pre appd post limit Happ Hpre Happb Hpost HA Hroom Hcov i (ck_buf s))
    as (buf' & Eb & Htk & Hbl' & Hbb'); try done; [by rewrite <- Hi |].
  rewrite <- Hi in Eb, Htk. fold x in Eb, Htk. fold t' in Eb, Htk. fold n' in Eb, Htk.
  fold A in Eb. fold y in Eb.
  rewrite Eb, outcome_bind_ret.
  pose proof (chunk_update x limit t (ck_ctx s) buf' Hbb' Ht Hctx Htk) as Hctx'. fold t' n' in Hctx'.
  match goal with |- context [check_fragment be o limit _ ?s] => set (s1 := s) end.
  destruct (check_fragment_ok x limit o n t s1 Hlim Ht Hsums Hctx') as (prev' & this' & -> & Hsums').
  rewrite outcome_bind_ret. cbn [negb].
  replace (Z.of_nat t + Z.of_nat n') with (Z.of_nat t') by (unfold n'; lia).
  assert (Hready : ready n t' (mkCheck (mkFile y t') (Z.of_nat t') buf' (ck_ctx s1) prev' this')).
  { constructor; try done.
    - unfold t'. rewrite Hi. apply chunk_end_next.
    - cbn. lia. }
  destruct cb as [f |]; [| eauto].
  cbn in Hcb. specialize (Hcb cbs (Z.of_nat t') limit).
  destruct (f cbs (Z.of_nat t') limit) as [stop cbs']. cbn in Hcb. subst stop. cbn. eauto.
Qed.

Lemma check_loop_run fuel t s cbs : ready fuel t s → (covered x limit - t + 1 < fuel)%nat →
  ∃ s' cbs', check_loop be fuel cb o A limit s cbs = Ret (Break s' cbs') ∧
    absorbed be (ck_ctx s') (take (covered x limit) x).
Proof.
  revert t s cbs. induction fuel as [| fuel IH]; intros t s cbs Hr Hf; [lia |].
  cbn [check_loop]. pose proof (rd_le _ _ _ Hr) as Hle. rewrite (rd_offset _ _ _ Hr).
  destruct (Nat.lt_ge_cases t (covered x limit)) as [Ht | Ht].
  - destruct (Z.ltb_spec (Z.of_nat t) limit) as [_ | ?]; [| unfold covered in *; lia].
    destruct (check_body_step fuel t s cbs Ht Hr) as (s' & cbs' & -> & Hr').
    rewrite outcome_bind_ret. pose proof (chunk_end_step x limit t Ht).
    by apply (IH (chunk_end x limit t)); [| lia].
  - assert (t = covered x limit) as -> by lia.
    destruct (Z.ltb_spec (Z.of_nat (covered x limit)) limit) as [Hlt | _]; cycle 1.
    { eexists _, _. split; [reflexivity |]. apply (rd_ctx _ _ _ Hr). }
    unfold check_body. rewrite (rd_file _ _ _ Hr), (rd_offset _ _ _ Hr).
    assert (Hcy : covered y limit = covered x limit) by (by apply covered_same).
    rewrite chunk_read by lia.
    assert (chunk_end y limit (covered x limit) = covered x limit) as -> by (unfold chunk_end; lia).
    rewrite Nat.sub_diag. change (Z.of_nat 0 <=? 0) with true. cbn iota.
    rewrite outcome_bind_ret. eexists _, _. split; [reflexivity |]. apply (rd_ctx _ _ _ Hr).
Qed.
End checking.

(** ** The application data: writing and reading back *)

Lemma writeAll_spec (vals : list bytes) (p : bytes) n : (length p + length (mjoin vals) ≤ 511)%nat →
  (length p + n = 512)%nat →
  writeAll (p ++ replicate n 32) vals (length p) =
  Some (p ++ mjoin vals ++ replicate (n - length (mjoin vals)) 32,
        (length p + length (mjoin vals))%nat).
Proof.
  revert p n. induction vals as [| v vals IH]; intros p n Hl Hn; cbn [writeAll].
  { cbn [mjoin list_join length app]. by rewrite Nat.sub_0_r, Nat.add_0_r. }
  change (mjoin (v :: vals)) with (v ++ mjoin vals) in *.
  rewrite length_app in Hl. unfold writeAppData.
  destruct (Nat.ltb_spec 511 (length p + length v)); [lia |]. cbn [mbind option_bind].
  replace (replicate n 32) with (replicate (length v) 32 ++ replicate (n - length v) 32)
    by (rewrite <- replicate_add; f_equal; lia).
  rewrite splice_app_exact by (by rewrite length_replicate).
  rewrite (assoc_L (++)), <- length_app, IH by (rewrite ?length_app; lia).
  by rewrite !length_app, <- !(assoc_L (++)), Nat.sub_add_distr, Nat.add_assoc.
Qed.

(** The 512 bytes implantISOFile leaves in the descriptor. *)
Definition implanted_appdata (supported : bool) (md5str fragstr : bytes) : bytes :=
  let text := mjoin (appdata_fields supported md5str fragstr) in
  text ++ replicate (512 - length text) 32.

Lemma length_appdata_text sup md5str fragstr :
  length (mjoin (appdata_fields sup md5str fragstr)) = (135 + length md5str + length fragstr)%nat.
Proof.
  unfold appdata_fields. cbn [mjoin list_join]. rewrite !length_app.
  destruct sup;
    repeat match goal with
    | |- context [length (str ?s)] =>
        let n := eval vm_compute in (length (str s)) in change (length (str s)) with n
    | |- context [length (snprintf_ ?k ?s)] =>
        let n := eval vm_compute in (length (snprintf_ k s)) in change (length (snprintf_ k s)) with n
    end; cbn [length]; lia.
Qed.

Lemma writeAll_appdata sup md5str fragstr : length md5str = 32%nat → (length fragstr ≤ 60)%nat →
  ∃ loc, writeAll blanks (appdata_fields sup md5str fragstr) 0 =
    Some (implanted_appdata sup md5str fragstr, loc).
Proof.
  intros Hm Hf. pose proof (length_appdata_text sup md5str fragstr) as Hl.
  pose proof (writeAll_spec (appdata_fields sup md5str fragstr) [] 512) as E.
  cbn [length Nat.add app] in E. unfold blanks. rewrite E by lia. eauto.
Qed.

Lemma length_implanted_appdata sup md5str fragstr :
  (135 + length md5str + length fragstr ≤ 512)%nat →
  length (implanted_appdata sup md5str fragstr) = 512%nat.
Proof.
  intros. unfold implanted_appdata. rewrite length_app, length_replicate, length_appdata_text. lia.
Qed.

Definition no_flags : found_flags := mkFlags false false false false false.
Definition all_flags : found_flags := mkFlags true true true true true.

Local Ltac destruct_length l H := repeat (destruct l as [| ? l]; cbn [length] in H; [lia |]); destruct l;
  [clear H | cbn [length] in H; lia].

(** With all twenty fragment sums, everything is read back; no byte after the
    buffer is looked at. *)
Lemma scan_implanted sup md5str fragstr above o : length md5str = 32%nat → length fragstr = 60%nat →
  scan_appdata 513 (<[511%nat := 0]> (implanted_appdata sup md5str fragstr) ++ above) 0 no_flags o =
  Ret (Some all_flags,
       mkPvd md5str 15 (if sup then 1 else 0) (fragstr ++ [0]) 20).
Proof.
  intros Hm Hf. destruct_length md5str Hm. destruct_length fragstr Hf.
  destruct sup; vm_compute; reflexivity.
Qed.

(** With fewer, the count is taken for a part of the sums and not found. *)
Definition scanned_short (md5str : bytes) (count : Z) (r : outcome (option found_flags * pvd_out)) : Prop :=
  match r with
  | Ret (Some g, o') => skipfnd g = true ∧ md5fnd g = true ∧ mediasum o' = md5str ∧
      skipsectors o' = 15 ∧ fragmentcount o' = count
  | _ => False
  end.

Lemma scan_implanted_short sup md5str fragstr (n : nat) b above o :
  length md5str = 32%nat → length fragstr = (3 * n)%nat → (n < 20)%nat →
  scanned_short md5str (fragmentcount o)
    (scan_appdata 513 (<[511%nat := 0]> (implanted_appdata sup md5str fragstr) ++ b :: above) 0
      no_flags o).
Proof.
  intros Hm Hf Hn. destruct_length md5str Hm. destruct o as [? ? ? ? cnt].
  do 20 (destruct n as [| n];
    [destruct_length fragstr Hf; destruct sup; vm_compute; split_and!; reflexivity |
     do 3 (destruct fragstr as [| ? fragstr]; [cbn [length] in Hf; lia |]);
     replace (length (_ :: _ :: _ :: fragstr)) with (3 + length fragstr)%nat in Hf by reflexivity;
     assert (length fragstr = 3 * n)%nat by lia; clear Hf;
     match goal with H : length fragstr = _ |- _ => rename H into Hf end]).
  lia.
Qed.

(** With twelve sums or fewer the fixed length of the copy leads behind the
    last semicolon, and the search for the next one leaves the buffer. *)
Lemma scan_implanted_overread sup md5str fragstr (n : nat) o :
  length md5str = 32%nat → length fragstr = (3 * n)%nat → (n ≤ 12)%nat →
  scan_appdata 513 (<[511%nat := 0]> (implanted_appdata sup md5str fragstr) ++ []) 0 no_flags o = Undef.
Proof.
  intros Hm Hf Hn. destruct_length md5str Hm. destruct o as [? ? ? ? cnt].
  do 13 (destruct n as [| n];
    [destruct_length fragstr Hf; destruct sup; vm_compute; reflexivity |
     do 3 (destruct fragstr as [| ? fragstr]; [cbn [length] in Hf; lia |]);
     replace (length (_ :: _ :: _ :: fragstr)) with (3 + length fragstr)%nat in Hf by reflexivity;
     assert (length fragstr = 3 * n)%nat by lia; clear Hf;
     match goal with H : length fragstr = _ |- _ => rename H into Hf end]).
  lia.
Qed.

End image.
