(* ===== verification/IsoImage.v ===== *)
(** * Implanted images (isomd5sum/)

    What implantISOFile does to an image file, on every branch, and what
    mediaCheckFile answers for the result; the lemmas are in [IsoMd5Facts]. *)

From S2P Require Import Prelude CLib Posix Md5 IsoMd5 IsoMd5Facts.
Import Md5.Code.

#[local] Opaque Z.to_nat.

(** ** The implanted image *)

(** Offset of the application data of the descriptor in sector [16 + k]. *)
Definition appdata_at (k : nat) : nat := Z.to_nat (sector_at k + APPDATA_OFFSET).

Definition blanked (x : bytes) (k : nat) : bytes := splice (appdata_at k) blanks x.

(** All fragment sums of the bytes before [limit]. *)
Definition fragment_sums (x : bytes) (limit : Z) : bytes :=
  fragments (S (covered x limit)) x limit 0 0.

(** Bytes of the volume the sums cover, the volume having [size] bytes. *)
Definition sum_limit (size : Z) : Z := size - SKIPSECTORS * 2048.

Definition image_sum (x : bytes) (k : nat) (size : Z) : bytes :=
  hex_digest (Spec.md5 (take (covered x (sum_limit size)) (blanked x k))).

(** The image with the sum of its blanked contents in the application data. *)
Definition implanted_image (supported : bool) (x : bytes) (k : nat) (size : Z) : bytes :=
  splice (appdata_at k)
    (implanted_appdata supported (image_sum x k size)
       (fragment_sums (blanked x k) (sum_limit size))) x.

Definition all_spaces (m : bytes) : bool := forallb (λ b, b =? 32) m.

(** An image implantISOFile can find its way in. *)
Record iso_image (x : bytes) (k : nat) (size : Z) : Prop := {
  iso_bytes : Forall is_byte x;
  iso_pvd : has_pvd x k;
  iso_near : sector_at k < 2 ^ 31;
  iso_size : volume_size (pvd_sector x k) = Ret size
}.

Lemma fragments_enough n m x limit t prev :
  (covered x limit - t < n)%nat → (covered x limit - t < m)%nat →
  fragments n x limit t prev = fragments m x limit t prev.
Proof.
  revert m t prev. induction n as [| n IH]; intros m t prev Hn Hm; [lia |].
  destruct m as [| m]; [lia |]. cbn [fragments].
  destruct (Nat.ltb_spec t (covered x limit)); [| done].
  fold (chunk_end x limit t). pose proof (chunk_end_step x limit t ltac:(done)).
  apply (f_equal (app _)). apply IH; lia.
Qed.

Lemma fragments_triples n x limit t prev : ∃ j : nat, length (fragments n x limit t prev) = (3 * j)%nat.
Proof.
  revert t prev. induction n as [| n IH]; intros t prev; cbn [fragments]; [by exists 0%nat |].
  destruct (t <? covered x limit)%nat; [| by exists 0%nat].
  rewrite length_app. destruct (IH ((t + Z.to_nat 32768) `min` covered x limit)%nat
    (Z.of_nat t * 21 / limit)) as [j ->].
  destruct (_ =? prev); [by exists j | exists (S j)].
  rewrite length_sum_digits by apply length_md5. lia.
Qed.

Lemma fragment_sums_bound x limit : (length (fragment_sums x limit) ≤ 60)%nat.
Proof.
  unfold fragment_sums. destruct (Z.leb_spec limit 0).
  - cbn [fragments]. assert (covered x limit = 0%nat) as -> by (unfold covered; lia). cbn. lia.
  - pose proof (length_fragments (S (covered x limit)) x limit 0 0 ltac:(lia)) as Hb.
    rewrite Z.div_0_l in Hb by lia. lia.
Qed.

Lemma length_hex_digest s : length (hex_digest s) = (2 * length s)%nat.
Proof. induction s as [| b s IH]; [done |]. change (hex_digest (b :: s)) with ([hex_digit (b / 16); hex_digit (b mod 16)] ++ hex_digest s). rewrite length_app, IH. cbn. lia. Qed.

Lemma length_image_sum x k size : length (image_sum x k size) = 32%nat.
Proof. unfold image_sum. by rewrite length_hex_digest, length_md5. Qed.

(** ** The parts of an image *)

Section parts.
Context (x : bytes) (k : nat) (size : Z) (Hiso : iso_image x k size).
Let A := appdata_at k.

Lemma appdata_inside : (A + 512 + 653 ≤ length x)%nat ∧ (Z.of_nat A = sector_at k + 883).
Proof.
  destruct Hiso as [_ [_ _ Hw] _ _]. unfold A, appdata_at, sector_at, APPDATA_OFFSET in *. lia.
Qed.

Definition before_appdata : bytes := take A x.
Definition after_appdata : bytes := drop (A + 512) x.

Lemma length_before : length before_appdata = A.
Proof. unfold before_appdata. rewrite length_take. pose proof appdata_inside. lia. Qed.

Lemma with_appdata m : length m = 512%nat →
  splice A m x = before_appdata ++ m ++ after_appdata.
Proof. intros Hm. unfold splice. by rewrite Hm. Qed.

Lemma length_with_appdata m : length m = 512%nat → length (splice A m x) = length x.
Proof. intros. apply length_splice. pose proof appdata_inside. lia. Qed.

(** Replacing the application data leaves the sector types and the volume
    size. *)
Lemma slice_with_appdata m off n : length m = 512%nat → (off + n ≤ A ∨ A + 512 ≤ off)%nat →
  slice off n (splice A m x) = slice off n x.
Proof.
  intros Hm Ho. pose proof appdata_inside. pose proof length_before as Hb.
  rewrite with_appdata by done.
  assert (Hx : x = before_appdata ++ slice A 512 x ++ after_appdata).
  { unfold before_appdata, after_appdata, slice. rewrite <- drop_drop, take_drop. by rewrite take_drop. }
  assert (Hs : length (slice A 512 x) = 512%nat) by (rewrite length_slice; lia).
  rewrite Hx at 1. destruct Ho.
  - by rewrite !slice_app_l by lia.
  - rewrite !(slice_app_r off) by lia. rewrite !slice_app_r by lia. by rewrite Hm, Hs.
Qed.

Lemma nth_with_appdata m i : length m = 512%nat → (i < A ∨ A + 512 ≤ i)%nat →
  nth i (splice A m x) 0 = nth i x 0.
Proof.
  intros Hm Hi. pose proof (slice_with_appdata m i 1 Hm ltac:(lia)) as E.
  apply (f_equal (λ l, nth 0 l 0)) in E. rewrite !nth_slice, Nat.add_0_r in E by lia. exact E.
Qed.

Lemma pvd_with_appdata m : Forall is_byte m → length m = 512%nat → iso_image (splice A m x) k size.
Proof.
  intros Hmb Hm. pose proof appdata_inside as [Hin HA]. destruct Hiso as [Hb [Ht Hf Hw] Hn Hs].
  constructor.
  - by apply Forall_splice.
  - constructor.
    + unfold sector_type in *. rewrite nth_with_appdata; [done | done |]. unfold sector_at in *. lia.
    + intros j Hj. unfold sector_type in *.
      rewrite nth_with_appdata; [by apply Hf | done |]. unfold sector_at in *. lia.
    + by rewrite length_with_appdata.
  - done.
  - rewrite <- Hs. unfold volume_size, pvd_sector, SIZE_OFFSET.
    rewrite !nth_slice by lia. rewrite !nth_with_appdata; [done | done | ..]; unfold sector_at in *; lia.
Qed.
Lemma descriptor_offset : s32 (sector_at k) = sector_at k ∧ 0 ≤ sector_at k.
Proof.
  pose proof (iso_near x k size Hiso) as Hn. change (2 ^ 31) with 2147483648 in Hn.
  unfold sector_at in *. split; [apply s32_ok |]; lia.
Qed.
End parts.

(** ** implantISOFile *)

Section implanting.
Context (be : bool) (x : bytes) (k : nat) (size : Z) (Hiso : iso_image x k size).
Context (fuel : nat) (Hfuel : (length x + 1 < fuel)%nat).
Let A := appdata_at k.

Lemma find_fuel : (k - 0 < fuel)%nat.
Proof. destruct Hiso as [_ [_ _ Hw] _ _]. unfold sector_at in Hw. lia. Qed.

Lemma implant_parsepvd_image gbuf p : length gbuf = Z.to_nat 2048 →
  implant_parsepvd fuel gbuf (mkFile x p) =
  Ret (sector_at k, size, mkFile x (Z.to_nat (sector_at (S k)))).
Proof.
  intros Hg. unfold implant_parsepvd. rewrite reg_lseek_pos by lia. cbn [contents].
  change (16 * 2048 =? -1) with false. cbn iota.
  change (16 * 2048) with (sector_at 0).
  rewrite (proj2 (find_pvd x k fuel 0 gbuf (iso_pvd _ _ _ Hiso) ltac:(lia) find_fuel Hg)).
  rewrite outcome_bind_ret, (iso_size _ _ _ Hiso), outcome_bind_ret.
  by rewrite (proj1 (descriptor_offset x k size Hiso)).
Qed.

Lemma seek_appdata c p : f_lseek (mkFile c p) (sector_at k + APPDATA_OFFSET) =
  (sector_at k + APPDATA_OFFSET, mkFile c A).
Proof. rewrite reg_lseek_pos; [done |]. pose proof (descriptor_offset x k size Hiso). unfold APPDATA_OFFSET. lia. Qed.

Lemma negb_existsb_spaces m : existsb (λ b, negb (b =? 32)) m = negb (all_spaces m).
Proof. unfold all_spaces. induction m as [| b m IH]; [done |]. cbn. rewrite IH. by destruct (b =? 32). Qed.

Lemma prepare_appdata_image gapp p force : length gapp = 512%nat →
  prepare_appdata force gapp (mkFile x p) (sector_at k) =
  if force then Some (mkFile (blanked x k) (A + 512))
  else if all_spaces (slice A 512 x) then Some (mkFile x (A + 512)) else None.
Proof.
  intros Hg. pose proof (appdata_inside x k size Hiso) as [Hin _]. fold A in Hin.
  unfold prepare_appdata. rewrite seek_appdata. cbn [snd].
  rewrite reg_read_all by (cbn [contents fpos]; lia). cbn [contents fpos].
  assert (Hl : length (slice A 512 x) = 512%nat) by (rewrite length_slice; lia).
  change (Z.to_nat 512) with 512%nat. rewrite splice_all by congruence.
  destruct force; cbn [negb].
  - rewrite seek_appdata. cbn [snd].
    rewrite reg_write_inside by (cbn [contents fpos]; rewrite length_blanks; lia).
    cbn [contents fpos snd]. by rewrite length_blanks.
  - rewrite negb_existsb_spaces. by destruct (all_spaces _).
Qed.

Lemma all_spaces_blanks m : all_spaces m = true → length m = 512%nat → m = blanks.
Proof.
  unfold all_spaces, blanks. intros Hs Hl. rewrite <- Hl. clear Hl.
  induction m as [| b m IH]; [done |]. cbn in *. apply andb_true_iff in Hs as [Hb Hs].
  apply Z.eqb_eq in Hb as ->. by rewrite <- IH.
Qed.

Lemma blanked_when_spaces : all_spaces (slice A 512 x) = true → blanked x k = x.
Proof.
  intros Hs. pose proof (appdata_inside x k size Hiso) as [Hin _]. fold A in Hin.
  apply all_spaces_blanks in Hs; [| rewrite length_slice; lia].
  unfold blanked, splice. fold A. rewrite length_blanks, <- Hs. unfold slice.
  rewrite <- drop_drop, take_drop. apply take_drop.
Qed.

(** The sums over the prepared file and their way into the application
    data. *)
Lemma implant_sums gctx : context_memory gctx → let bx := blanked x k in
  ∃ s, implant_loop be fuel (sum_limit size) (mkImplant (mkFile bx 0) 0 (MD5_Init be gctx) 0 []) = Ret s ∧
    hex_digest (fst (MD5_Final be (im_ctx s))) = image_sum x k size ∧
    im_fragstr s = fragment_sums bx (sum_limit size) ∧
    contents (im_file s) = bx.
Proof.
  intros [Hcl Hcb] bx.
  pose proof (iso_bytes _ _ _ Hiso) as Hb. pose proof blanks_byte as Hbb.
  assert (Hbx : Forall is_byte bx) by (by apply Forall_splice).
  assert (Hlx : length bx = length x) by (by eapply length_with_appdata).
  assert (Hcov : (covered bx (sum_limit size) ≤ length x)%nat) by (unfold covered; lia).
  assert (Hcov' : covered bx (sum_limit size) = covered x (sum_limit size)) by (unfold covered; lia).
  assert (Hfr : fragments fuel bx (sum_limit size) 0 0 = fragment_sums bx (sum_limit size))
    by (apply fragments_enough; lia).
  destruct (implant_loop_run be bx (sum_limit size) Hbx fuel 0 (MD5_Init be gctx) 0 [])
    as (ctx' & prev' & E & Hctx'); [lia | by apply MD5_Init_absorbed | lia | |].
  { rewrite app_nil_l, Hfr. apply fragment_sums_bound. }
  eexists. split; [exact E |]. cbn [im_ctx im_fragstr im_file contents]. rewrite app_nil_l, Hfr.
  split_and!; [| done | done].
  rewrite (MD5_Final_spec be _ _ Hctx'). unfold image_sum. by rewrite Hcov'.
Qed.

Lemma implantISOFile_image gbuf gapp gctx p sup force : length gbuf = Z.to_nat 2048 →
  length gapp = 512%nat → context_memory gctx →
  implantISOFile be fuel gbuf gapp gctx (Some (mkFile x p)) sup force =
  Ret (if force || all_spaces (slice A 512 x) then
         Implanted (mkFile (implanted_image sup x k size) (A + 512))
       else Refused (str "Application data has been used - not implanting md5sum!" ++ [10])
              (mkFile x (Z.to_nat (sector_at (S k))))).
Proof.
  intros Hg Hga Hctx. pose proof (appdata_inside x k size Hiso) as [Hin _]. fold A in Hin.
  unfold implantISOFile. rewrite implant_parsepvd_image, outcome_bind_ret by done.
  destruct (Z.ltb_spec (sector_at k) 0); [pose proof (descriptor_offset x k size Hiso); lia |].
  rewrite prepare_appdata_image by done. fold (sum_limit size).
  assert (Hgo : ∀ q, (
    let f := snd (f_lseek (mkFile (blanked x k) q) 0) in
    s ← implant_loop be fuel (sum_limit size) (mkImplant f 0 (MD5_Init be gctx) 0 []);
    match writeAll blanks (appdata_fields sup (hex_digest (fst (MD5_Final be (im_ctx s)))) (im_fragstr s)) 0 with
    | None => Ret Exited
    | Some (new_appdata, _) =>
        Ret (Implanted (snd (f_write (snd (f_lseek (im_file s) (sector_at k + APPDATA_OFFSET))) new_appdata)))
    end) = Ret (Implanted (mkFile (implanted_image sup x k size) (A + 512)))).
  { intros q. cbn zeta. rewrite reg_lseek_pos by lia. cbn [snd contents]. change (Z.to_nat 0) with 0%nat.
    destruct (implant_sums gctx Hctx) as ([f tot ctx prev frag] & -> & Esum & Efrag & Ef).
    rewrite outcome_bind_ret. cbn [im_ctx im_fragstr im_file] in *. rewrite Esum, Efrag.
    pose proof (length_image_sum x k size) as Hls.
    pose proof (fragment_sums_bound (blanked x k) (sum_limit size)) as Hlf.
    destruct (writeAll_appdata sup _ _ Hls Hlf) as [loc ->].
    destruct f as [c fp]. cbn [contents] in Ef. subst c.
    rewrite seek_appdata. cbn [snd]. pose proof (length_implanted_appdata sup (image_sum x k size)
      (fragment_sums (blanked x k) (sum_limit size)) ltac:(lia)) as Hla.
    assert (Hlx : length (blanked x k) = length x) by (by eapply length_with_appdata).
    rewrite reg_write_inside by (cbn [contents fpos]; lia). cbn [snd contents fpos].
    rewrite Hla. do 3 f_equal. unfold implanted_image.
    set (m := implanted_appdata _ _ _) in *. clearbody m. unfold blanked, A.
    rewrite !(with_appdata x k) by (done || apply length_blanks).
    rewrite <- (length_before x k size Hiso) at 1. apply splice_app_exact. by rewrite Hla, length_blanks. }
  destruct force; cbn [orb]; [apply Hgo |].
  destruct (all_spaces (slice A 512 x)) eqn:Esp; [| done].
  rewrite <- (blanked_when_spaces Esp) at 1. apply Hgo.
Qed.
End implanting.

(** ** mediaCheckFile on an implanted image *)

(** Uninitialised memory of the sizes the checker declares; something follows
    [buf2] on its stack. *)
Record checker_memory (g : stack) : Prop := {
  cm_pvd : length (g_pvd g) = Z.to_nat 2048;
  cm_buf : length (g_buf g) = Z.to_nat 32768;
  cm_bytes : Forall is_byte (g_buf g);
  cm_this : length (g_thisfragsum g) = 61%nat;
  cm_ctx : context_memory (g_ctx g)
}.

(** The layout the checker's arithmetic copes with: the descriptor among the
    first eight, and the volume long enough that the chunk holding it reaches
    as far behind the application data as these are behind its start. *)
Record checkable (x : bytes) (k : nat) (size : Z) : Prop := {
  ck_image : iso_image x k size;
  ck_first : (k ≤ 7)%nat;
  ck_small : sum_limit size < 2 ^ 50;
  ck_long : 32768 + 2 * (2048 * Z.of_nat k + 883) + 512 ≤ Z.of_nat (covered x (sum_limit size))
}.

Section checking_implanted.
Context (be : bool) (x : bytes) (k : nat) (size : Z) (Hck : checkable x k size) (sup : bool).
Context (fuel : nat) (Hfuel : (length x + 1 < fuel)%nat).
Let A := appdata_at k.
Let limit := sum_limit size.
Let bx := blanked x k.
Let frag := fragment_sums bx limit.
Let appd := implanted_appdata sup (image_sum x k size) frag.
Let y := implanted_image sup x k size.

Let Hiso : iso_image x k size := ck_image x k size Hck.

Lemma length_frag : (length frag ≤ 60)%nat.
Proof. apply fragment_sums_bound. Qed.

Lemma length_appd : length appd = 512%nat.
Proof. apply length_implanted_appdata. rewrite length_image_sum. pose proof length_frag. lia. Qed.

Lemma hex_digest_byte s : Forall is_byte s → Forall is_byte (hex_digest s).
Proof.
  induction 1 as [| b s Hb _ IH]; [constructor |].
  change (hex_digest (b :: s)) with (hex_digit (b / 16) :: hex_digit (b mod 16) :: hex_digest s).
  unfold is_byte in *. assert (0 ≤ b / 16 < 16) as H1 by mlia. assert (0 ≤ b mod 16 < 16) as H2 by mlia.
  pose proof (hex_digit_range _ H1). pose proof (hex_digit_range _ H2).
  repeat constructor; try done; lia.
Qed.

Lemma sum_digits_byte s : length s = 16%nat → Forall is_byte s → Forall is_byte (sum_digits s).
Proof.
  destruct s as [| b0 [| b1 [| b2 s]]]; try done. intros _ Hs. rewrite !list.Forall_cons in Hs.
  destruct Hs as (H0 & H1 & H2 & _). unfold sum_digits. cbn [take mbind list_bind].
  assert (Hd : ∀ b, is_byte b → Forall is_byte (take 1 (fmt_01x b))).
  { intros b Hb. unfold is_byte in *. unfold fmt_01x. destruct (Z.ltb_spec b 16).
    - pose proof (hex_digit_range b). repeat constructor; lia.
    - assert (0 ≤ b / 16 < 16) as Hr by mlia. pose proof (hex_digit_range _ Hr).
      repeat constructor; lia. }
  repeat apply Forall_app_2; auto.
Qed.

Lemma fragments_byte n z l t prev : Forall is_byte (fragments n z l t prev).
Proof.
  revert t prev. induction n as [| n IH]; intros t prev; cbn [fragments]; [constructor |].
  destruct (t <? covered z l)%nat; [| constructor]. apply Forall_app_2; [| apply IH].
  destruct (_ =? prev); [constructor |]. apply sum_digits_byte; [apply length_md5 | apply md5_byte].
Qed.

Lemma mjoin_byte (l : list bytes) : Forall (Forall is_byte) l → Forall is_byte (mjoin l).
Proof. induction 1; cbn; [constructor |]. by apply Forall_app_2. Qed.

Lemma appd_byte : Forall is_byte appd.
Proof.
  unfold appd, implanted_appdata. apply Forall_app_2; [| apply Forall_replicate; done].
  apply mjoin_byte. unfold appdata_fields.
  assert (Forall is_byte (image_sum x k size)) by apply hex_digest_byte, md5_byte.
  assert (Forall is_byte frag) by apply fragments_byte.
  repeat (apply list.Forall_cons; split;
    [first [assumption | destruct sup; apply (bool_decide_unpack _); vm_compute; exact I
           | apply (bool_decide_unpack _); vm_compute; exact I] |]).
  constructor.
Qed.

Lemma iso_y : iso_image y k size.
Proof. apply pvd_with_appdata; [done | apply appd_byte | apply length_appd]. Qed.

Lemma appdata_of_y : slice 883 512 (pvd_sector y k) = appd.
Proof.
  unfold pvd_sector. rewrite slice_slice by lia.
  replace (Z.to_nat (sector_at k) + 883)%nat with A.
  2:{ pose proof (appdata_inside x k size Hiso) as [_ HA]. fold A in HA. unfold sector_at in *. lia. }
  unfold y, implanted_image. fold limit bx frag appd A. unfold A.
  rewrite (with_appdata x k) by apply length_appd.
  unfold slice. rewrite drop_app_length' by by rewrite (length_before x k size).
  apply take_app_length'. symmetry. apply length_appd.
Qed.

(** What parsepvd reports of an implanted image. *)
Record reported (o : pvd_out) : Prop := {
  rep_sum : mediasum o = image_sum x k size;
  rep_skip : skipsectors o = 15;
  rep_frag : fragmentcount o = 0 ∨
    (fragmentcount o = 20 ∧ fragmentsums o = frag ++ [0] ∧ length frag = 60%nat)
}.

Lemma parsepvd_implanted g p : checker_memory g → g_above g ≠ [] ∨ length frag = 60%nat →
  ∃ o, parsepvd fuel g (mkFile y p) =
    Ret (sector_at k, o, size, mkFile y (Z.to_nat (sector_at (S k)))) ∧ reported o.
Proof.
  intros Hg Habove. unfold parsepvd. rewrite reg_lseek_pos by lia. cbn [contents].
  change (16 * 2048 =? -1) with false. cbn iota. change (16 * 2048) with (sector_at 0).
  assert (Hyf : (length y + 1 < fuel)%nat).
  { unfold y, implanted_image. rewrite (length_with_appdata x k size) by (done || apply length_appd). done. }
  rewrite (proj1 (find_pvd y k fuel 0 (g_pvd g) (iso_pvd _ _ _ iso_y) ltac:(lia)
    (find_fuel _ _ _ iso_y _ Hyf) (cm_pvd g Hg))).
  rewrite outcome_bind_ret, appdata_of_y.
  set (o0 := set_supported 0 _). assert (Ho0 : fragmentcount o0 = 0) by done. clearbody o0.
  assert (Hscan : ∃ gf o, scan_appdata 513 (<[511%nat:=0]> appd ++ g_above g) 0
      (mkFlags false false false false false) o0 = Ret (Some gf, o) ∧
      skipfnd gf = true ∧ md5fnd gf = true ∧ reported o).
  { pose proof length_frag as Hlf. pose proof (length_image_sum x k size) as Hls.
    destruct (decide (length frag = 60%nat)) as [H60 |].
    - unfold appd. eexists _, _. split; [by apply scan_implanted |]. split_and!; [done | done |].
      constructor; [done | done |]. right. done.
    - destruct Habove as [Habove | ?]; [| done]. destruct (g_above g) as [| b above]; [done |].
      destruct (fragments_triples (S (covered bx limit)) bx limit 0 0) as [j Hj].
      fold (fragment_sums bx limit) in Hj. fold frag in Hj.
      pose proof (scan_implanted_short sup (image_sum x k size) frag j b above o0 Hls Hj ltac:(lia)) as Hs.
      unfold appd, scanned_short, no_flags in *.
      destruct (scan_appdata _ _ _ _ _) as [[[gf |] o] | |]; try done.
      destruct Hs as (? & ? & ? & ? & Hc). eexists _, _. split; [done |]. split_and!; [done | done |].
      constructor; [done | done |]. left. by rewrite Hc. }
  destruct Hscan as (gf & o & -> & Hskip & Hmd5 & Hrep). rewrite outcome_bind_ret, Hskip, Hmd5.
  cbn [andb negb]. rewrite (iso_size _ _ _ iso_y), outcome_bind_ret.
  rewrite (proj1 (descriptor_offset x k size Hiso)). eauto.
Qed.

Lemma reported_sums o this : reported o → length this = 61%nat →
  sums_ok bx limit o fuel 0 0 this.
Proof.
  intros [_ _ [H0 | (H20 & Hs & Hl)]] Ht; [by left | right].
  split; [done |]. exists frag, 0%nat.
  assert (Hlb : length bx = length x) by (eapply length_with_appdata; [done | apply length_blanks]).
  split_and!; try done; try lia.
  rewrite Nat.mul_0_r, drop_0. apply fragments_enough; unfold covered; lia.
Qed.

Lemma checkmd5sum_implanted {C} g p (cb : option (C → Z → Z → Z * C)) cbs : checker_memory g →
  g_above g ≠ [] ∨ length frag = 60%nat → quiet cb →
  ∃ f cbs', checkmd5sum be fuel g (mkFile y p) cb cbs = Ret (ISOMD5SUM_CHECK_PASSED, f, cbs').
Proof.
  intros Hg Habove Hcb. unfold checkmd5sum.
  destruct (parsepvd_implanted g p Hg Habove) as (o & -> & Ho). rewrite outcome_bind_ret.
  destruct (Z.ltb_spec (sector_at k) 0); [pose proof (descriptor_offset x k size Hiso); lia |].
  rewrite reg_lseek_pos by lia. cbn [snd contents]. change (Z.to_nat 0) with 0%nat.
  rewrite (rep_skip o Ho), int_val_ok, outcome_bind_ret by lia.
  change (size - 15 * 2048) with limit.
  pose proof (appdata_inside x k size Hiso) as [Hin HA]. fold A in Hin, HA.
  pose proof (iso_bytes _ _ _ Hiso) as Hxb. pose proof Hck as [_ Hk Hsm Hlong]. fold limit in Hsm, Hlong.
  assert (Hcovx : covered bx limit = covered x limit).
  { unfold covered, bx, blanked. by rewrite (length_with_appdata x k size) by (done || apply length_blanks). }
  assert (Hy : y = before_appdata x k ++ appd ++ after_appdata x k)
    by (apply with_appdata, length_appd).
  assert (Hbx : bx = before_appdata x k ++ blanks ++ after_appdata x k)
    by (apply with_appdata, length_blanks).
  assert (Hpl : Z.of_nat (length (before_appdata x k)) = sector_at k + APPDATA_OFFSET).
  { rewrite (length_before x k size Hiso). exact HA. }
  set (cbs0 := call_cb cb cbs 0 limit).
  pose proof (check_loop_run be (before_appdata x k) appd (after_appdata x k) limit length_appd
    ltac:(by apply Forall_take) appd_byte ltac:(by apply Forall_drop)) as Hrun.
  cbn zeta in Hrun. rewrite Hpl, <- Hbx, Hcovx in Hrun.
  assert (Hsec : sector_at k = 32768 + 2048 * Z.of_nat k) by done.
  change APPDATA_OFFSET with 883 in *.
  specialize (Hrun ltac:(lia) ltac:(lia) ltac:(lia) ltac:(unfold covered in Hlong; lia) C cb Hcb o
    fuel 0%nat (mkCheck (mkFile y 0) 0 (g_buf g) (MD5_Init be (g_ctx g)) 0 (g_thisfragsum g)) cbs0).
  destruct Hrun as (s' & cbs' & E & Hctx).
  - destruct Hg as [? Hgb Hgby Hth [Hcl Hcb']]. constructor; rewrite <- ?Hbx, ?Hcovx;
      first [by rewrite Hy | done | by left; exists 0%nat | by apply MD5_Init_absorbed
            | by apply reported_sums | cbn; lia].
  - unfold covered. lia.
  - rewrite E, outcome_bind_ret. rewrite (MD5_Final_spec be _ _ Hctx).
    rewrite (rep_sum o Ho). unfold image_sum. fold limit bx.
    assert (Hnn : Forall (λ b, b ≠ 0) (hex_digest (Spec.md5 (take (covered x limit) bx)))).
    { generalize (md5_byte (take (covered x limit) bx)). generalize (Spec.md5 (take (covered x limit) bx)).
      intros s Hs. induction Hs as [| b s Hb _ IH]; [constructor |].
      change (hex_digest (b :: s)) with (hex_digit (b / 16) :: hex_digit (b mod 16) :: hex_digest s).
      unfold is_byte in Hb. assert (0 ≤ b / 16 < 16) as H1 by mlia. assert (0 ≤ b mod 16 < 16) as H2 by mlia.
      pose proof (hex_digit_range _ H1). pose proof (hex_digit_range _ H2).
      repeat constructor; try done; lia. }
    rewrite until_nul_no_nul by done.
    replace (streq _ _) with true by (symmetry; by apply streq_spec). eauto.
Qed.

Lemma mediaCheckFile_implanted {C} g1 g2 p (cb : option (C → Z → Z → Z * C)) cbs :
  checker_memory g1 → checker_memory g2 →
  (g_above g1 ≠ [] ∧ g_above g2 ≠ []) ∨ length frag = 60%nat → quiet cb →
  ∃ cbs', mediaCheckFile be fuel g1 g2 (Some (mkFile y p)) cb cbs = Ret (ISOMD5SUM_CHECK_PASSED, cbs').
Proof.
  intros Hg1 Hg2 Habove Hcb. unfold mediaCheckFile, doMediaCheck.
  destruct (parsepvd_implanted g1 p Hg1 ltac:(tauto)) as (o & -> & _). rewrite outcome_bind_ret.
  destruct (Z.ltb_spec (sector_at k) 0); [pose proof (descriptor_offset x k size Hiso); lia |].
  destruct (checkmd5sum_implanted g2 (Z.to_nat (sector_at (S k))) cb cbs Hg2 ltac:(tauto) Hcb)
    as (f & cbs' & ->). rewrite outcome_bind_ret. eauto.
Qed.
End checking_implanted.

(** ** A sample image *)

(** Forty sectors; the descriptor is the first one. *)
Definition sample_pvd (app : Z) : bytes :=
  [1] ++ replicate 86 0 ++ [40] ++ replicate 795 0 ++ replicate 512 app ++ replicate 653 0.
Definition sample_image (app : Z) : bytes :=
  replicate (Z.to_nat 32768) 0 ++ sample_pvd app ++ replicate (Z.to_nat 47104) 7.

Lemma length_sample_pvd app : length (sample_pvd app) = Z.to_nat 2048.
Proof. unfold sample_pvd. rewrite !length_app, !length_replicate. cbn [length]. lia. Qed.

Lemma length_sample_image app : length (sample_image app) = Z.to_nat 81920.
Proof. unfold sample_image. rewrite !length_app, !length_replicate, length_sample_pvd. lia. Qed.

Lemma sample_sector app : pvd_sector (sample_image app) 0 = sample_pvd app.
Proof.
  unfold pvd_sector, sample_image. change (sector_at 0) with 32768.
  rewrite slice_app_r by (rewrite length_replicate; lia). rewrite length_replicate, Nat.sub_diag.
  rewrite slice_app_l by (rewrite length_sample_pvd; lia).
  apply slice_all. by rewrite length_sample_pvd.
Qed.

Lemma sample_iso_image app : is_byte app → iso_image (sample_image app) 0 81920.
Proof.
  intros Ha. constructor.
  - unfold sample_image, sample_pvd.
    repeat first [apply Forall_app_2 | apply Forall_replicate; done | done | apply Forall_singleton; done].
  - constructor; [| lia | rewrite length_sample_image; unfold sector_at; lia].
    pose proof (f_equal (λ l, nth 0 l 0) (sample_sector app)) as E. unfold pvd_sector in E.
    rewrite nth_slice, Nat.add_0_r in E by lia. exact E.
  - change (sector_at 0) with 32768. change (2 ^ 31) with 2147483648. lia.
  - rewrite sample_sector. reflexivity.
Qed.

Lemma sample_checkable app : is_byte app → checkable (sample_image app) 0 81920.
Proof.
  intros Ha. constructor; [by apply sample_iso_image | lia | |];
    change (sum_limit 81920) with 51200.
  - change (2 ^ 50) with 1125899906842624. lia.
  - unfold covered. rewrite length_sample_image. lia.
Qed.

Definition sample_stack (above : bytes) : stack :=
  mkStack (replicate (Z.to_nat 2048) 0) (mkPvd [] 0 0 [] 0) above 0
    (replicate (Z.to_nat 32768) 0) (replicate 61 0) sample_context.

Lemma sample_checker_memory above : checker_memory (sample_stack above).
Proof.
  constructor; cbn [sample_stack g_pvd g_buf g_thisfragsum g_ctx]; rewrite ?length_replicate; try done.
  - by apply Forall_replicate.
  - split; [done |]. by apply Forall_replicate.
Qed.

Lemma sample_context_memory : context_memory sample_context.
Proof. split; [done |]. by apply Forall_replicate. Qed.

Lemma sample_fuel app : (length (sample_image app) + 1 < Z.to_nat 81930)%nat.
Proof. rewrite length_sample_image. lia. Qed.

Lemma byte_65 : is_byte 65.
Proof. done. Qed.

Definition silent : option (unit → Z → Z → Z * unit) := None.

(** ** Properties *)

(** C2: an image on which implantISOFile has put its sums passes the media
    check: for every image with its descriptor among the first eight and long
    enough for the checker's arithmetic, whose application data is blank or
    overwritten by force, implantISOFile succeeds and mediaCheckFile, run on
    the resulting file with any uninitialised memory and any callback that
    does not abort, returns ISOMD5SUM_CHECK_PASSED. *)
Theorem implant_check_roundtrip {C} be x k size fuel gbuf gapp gctx p sup force g1 g2
    (cb : option (C → Z → Z → Z * C)) cbs
    (Hck : checkable x k size) (Hfuel : (length x + 1 < fuel)%nat)
    (Hfree : force || all_spaces (slice (appdata_at k) 512 x) = true)
    (Hgb : length gbuf = Z.to_nat 2048) (Hga : length gapp = 512%nat) (Hctx : context_memory gctx)
    (Hg1 : checker_memory g1) (Hg2 : checker_memory g2)
    (Habove : g_above g1 ≠ [] ∧ g_above g2 ≠ []) (Hcb : quiet cb) :
  ∃ f, implantISOFile be fuel gbuf gapp gctx (Some (mkFile x p)) sup force = Ret (Implanted f) ∧
    ∃ cbs', mediaCheckFile be fuel g1 g2 (Some f) cb cbs = Ret (ISOMD5SUM_CHECK_PASSED, cbs').
Proof.
  rewrite (implantISOFile_image be x k size) by (done || apply Hck). rewrite Hfree.
  eexists. split; [reflexivity |]. apply mediaCheckFile_implanted; auto.
Qed.

Lemma implant_check_roundtrip_witness :
  ∃ f, implantISOFile false (Z.to_nat 81930) (replicate (Z.to_nat 2048) 0) (replicate 512 0)
      sample_context (Some (mkFile (sample_image 65) 3)) true true = Ret (Implanted f) ∧
    ∃ cbs', mediaCheckFile false (Z.to_nat 81930) (sample_stack [9]) (sample_stack [8]) (Some f)
      silent tt = Ret (ISOMD5SUM_CHECK_PASSED, cbs').
Proof.
  apply (implant_check_roundtrip false (sample_image 65) 0 81920).
  - exact (sample_checkable 65 byte_65).
  - apply sample_fuel.
  - reflexivity.
  - apply length_replicate.
  - apply length_replicate.
  - apply sample_context_memory.
  - apply sample_checker_memory.
  - apply sample_checker_memory.
  - done.
  - exact I.
Defined.

(** C3: implantISOFile on a volume with a primary descriptor: with force, or
    when the application data is all spaces, the file gets the application
    data holding the MD5 sum of the blanked volume (15 sectors short of its
    end) and the fragment sums, and nothing else of it changes; otherwise it
    refuses and leaves the file alone. *)
Theorem implantISOFile_spec be x k size fuel gbuf gapp gctx p sup force
    (Hiso : iso_image x k size) (Hfuel : (length x + 1 < fuel)%nat)
    (Hgb : length gbuf = Z.to_nat 2048) (Hga : length gapp = 512%nat) (Hctx : context_memory gctx) :
  implantISOFile be fuel gbuf gapp gctx (Some (mkFile x p)) sup force =
  Ret (if force || all_spaces (slice (appdata_at k) 512 x) then
         Implanted (mkFile (implanted_image sup x k size) (appdata_at k + 512))
       else Refused (str "Application data has been used - not implanting md5sum!" ++ [10])
              (mkFile x (Z.to_nat (sector_at (S k))))) ∧
  (∀ off n, (off + n ≤ appdata_at k ∨ appdata_at k + 512 ≤ off)%nat →
    slice off n (implanted_image sup x k size) = slice off n x).
Proof.
  split; [by apply implantISOFile_image |]. intros off n Hoff.
  apply (slice_with_appdata x k size); [done | | done].
  apply length_implanted_appdata. rewrite length_image_sum.
  pose proof (fragment_sums_bound (blanked x k) (sum_limit size)). lia.
Qed.

Lemma implantISOFile_spec_witness :
  implantISOFile true (Z.to_nat 81930) (replicate (Z.to_nat 2048) 0) (replicate 512 0)
    sample_context (Some (mkFile (sample_image 65) 3)) true false =
  Ret (Refused (str "Application data has been used - not implanting md5sum!" ++ [10])
        (mkFile (sample_image 65) (Z.to_nat 34816))).
Proof.
  assert (E : all_spaces (slice (appdata_at 0) 512 (sample_image 65)) = false).
  { unfold appdata_at, sample_image. change (sector_at 0 + APPDATA_OFFSET) with 33651.
    rewrite slice_app_r by (rewrite length_replicate; lia). rewrite length_replicate.
    rewrite slice_app_l by (rewrite length_sample_pvd; lia).
    replace (Z.to_nat 33651 - Z.to_nat 32768)%nat with 883%nat by lia. reflexivity. }
  pose proof (implantISOFile_spec true (sample_image 65) 0 81920 (Z.to_nat 81930)
    (replicate (Z.to_nat 2048) 0) (replicate 512 0) sample_context 3 true false) as Hs.
  rewrite E in Hs. apply Hs.
  - exact (sample_iso_image 65 byte_65).
  - apply sample_fuel.
  - apply length_replicate.
  - apply length_replicate.
  - apply sample_context_memory.
Defined.
