(* ===== verification/IsoCheck.v ===== *)
(** * What the media check tells (isomd5sum/libcheckisomd5.c)

    Properties of mediaCheckFile on arbitrary image files: what a passed check
    means, that the check ends, where its scan of the application data leaves
    its buffer, and how the two searches for the descriptor differ. *)

From S2P Require Import Prelude CLib Posix Md5 IsoMd5 IsoMd5Facts IsoImage.
Import Md5.Code.

#[local] Opaque Z.to_nat.

(** ** The scan of the application data *)

(** The sum is copied from behind its tag. *)
Definition sum_at (m : bytes) (sum : bytes) : Prop :=
  ∃ loc, (loc + 45 ≤ 511)%nat ∧ starts_with (str "ISO MD5SUM = ") (drop loc m) = true ∧
    sum = slice (loc + 13) 32 m.

Lemma to_semicolon_bound fuel m loc acc loc' acc' :
  to_semicolon fuel m loc acc = Ret (loc', acc') → (loc ≤ loc')%nat.
Proof.
  revert loc acc. induction fuel as [| fuel IH]; intros loc acc; cbn [to_semicolon]; [done |].
  intros (b & _ & E)%outcome_bind_inv. destruct (_ && _).
  - apply IH in E. lia.
  - by injection E as <- <-.
Qed.

Lemma scan_body_sum m loc g o r : scan_body m loc g o = Ret r →
  (md5fnd g = true → sum_at m (mediasum o)) →
  match r with
  | Next _ g' o' => md5fnd g' = true → sum_at m (mediasum o')
  | Fail _ => True
  end.
Proof.
  unfold scan_body. intros E Hg. destruct (starts_with (str "ISO MD5SUM = ") _) eqn:Hs.
  - destruct (Nat.ltb_spec 511 (loc + 32 + 13)); [by injection E as <- |].
    apply outcome_bind_inv in E as (loc' & _ & [= <-]). intros _. exists loc. split; [lia | done].
  - repeat match goal with
    | E : (if ?b then _ else _) = Ret _ |- _ => destruct b
    | E : (_ ≫= _) = Ret _ |- _ => apply outcome_bind_inv in E as (? & _ & E)
    | E : (let '(_, _) := ?p in _) = Ret _ |- _ => destruct p
    | E : match ?v with Some _ => _ | None => _ end = Ret _ |- _ => destruct v
    | E : Ret _ = Ret _ |- _ => injection E as <-
    end; try done; cbn [md5fnd mediasum set_skipsectors set_supported set_fragmentsums
                        set_fragmentcount]; done.
Qed.

Lemma scan_appdata_sum fuel m loc g o g' o' :
  scan_appdata fuel m loc g o = Ret (Some g', o') →
  (md5fnd g = true → sum_at m (mediasum o)) → md5fnd g' = true → sum_at m (mediasum o').
Proof.
  revert loc g o. induction fuel as [| fuel IH]; intros loc g o; cbn [scan_appdata]; [done |].
  destruct (loc <? 512)%nat; [| by intros [= -> ->]].
  intros (st & Hst & E)%outcome_bind_inv Hg. pose proof (scan_body_sum _ _ _ _ _ Hst Hg) as Hg1.
  destruct st as [loc1 g1 o1 |]; [| done].
  destruct (all_found g1); [by injection E as -> -> | by eapply IH].
Qed.

(** ** parsepvd on an image with a descriptor *)

Section passing.
Context (y : bytes) (k : nat) (size : Z) (Hiso : iso_image y k size).
Let A := appdata_at k.
Let appd := slice A 512 y.

Lemma length_own_appdata : length appd = 512%nat.
Proof. unfold appd. rewrite length_slice. pose proof (appdata_inside y k size Hiso). lia. Qed.

Lemma own_appdata : slice 883 512 (pvd_sector y k) = appd.
Proof.
  unfold pvd_sector. rewrite slice_slice by lia. f_equal.
  pose proof (appdata_inside y k size Hiso) as [_ HA]. fold A in HA. unfold sector_at in *. lia.
Qed.

Lemma own_parts : y = before_appdata y k ++ appd ++ after_appdata y k.
Proof.
  unfold before_appdata, after_appdata, appd, slice. rewrite <- drop_drop, take_drop.
  by rewrite take_drop.
Qed.

Lemma sum_at_appdata above sum : sum_at (<[511%nat := 0]> appd ++ above) sum →
  ∃ loc, (loc + 45 ≤ 511)%nat ∧ starts_with (str "ISO MD5SUM = ") (drop loc appd) = true ∧
    sum = slice (loc + 13) 32 appd.
Proof.
  intros (loc & Hloc & Hs & ->). exists loc. pose proof length_own_appdata as Hl.
  assert (Hi : length (<[511%nat := 0]> appd) = 512%nat) by (by rewrite length_insert).
  assert (Hsl : ∀ off n, (off + n ≤ 511)%nat →
    slice off n (<[511%nat := 0]> appd ++ above) = slice off n appd).
  { intros off n Hn. rewrite slice_app_l by lia. unfold slice.
    rewrite drop_insert_ge by lia. rewrite take_insert_ge by lia. done. }
  split_and!; [lia | | apply Hsl; lia].
  apply starts_with_spec in Hs as [r Hr]. apply starts_with_spec.
  exists (drop (loc + 13) appd). rewrite <- (take_drop 13 (drop loc appd)), drop_drop. f_equal.
  change (take 13 (drop loc appd)) with (slice loc 13 appd). rewrite <- Hsl by lia.
  unfold slice. rewrite Hr. reflexivity.
Qed.

Context (fuel : nat) (Hfuel : (length y + 1 < fuel)%nat).

Lemma parsepvd_inv g p r o sz f : length (g_pvd g) = Z.to_nat 2048 →
  parsepvd fuel g (mkFile y p) = Ret (r, o, sz, f) → 0 ≤ r →
  r = sector_at k ∧ sz = size ∧ contents f = y ∧
  ∃ loc, (loc + 45 ≤ 511)%nat ∧ starts_with (str "ISO MD5SUM = ") (drop loc appd) = true ∧
    mediasum o = slice (loc + 13) 32 appd.
Proof.
  intros Hg. unfold parsepvd. rewrite reg_lseek_pos by lia. cbn [contents].
  change (16 * 2048 =? -1) with false. cbn iota. change (16 * 2048) with (sector_at 0).
  rewrite (proj1 (find_pvd y k fuel 0 (g_pvd g) (iso_pvd _ _ _ Hiso) ltac:(lia)
    (find_fuel _ _ _ Hiso _ Hfuel) Hg)).
  rewrite outcome_bind_ret, own_appdata.
  intros ([g' o'] & Hs & E)%outcome_bind_inv Hr.
  destruct g' as [g' |]; [| injection E as <- _ _ _; lia].
  destruct (skipfnd g'); cbn [andb negb] in E; [| injection E as <- _ _ _; lia].
  destruct (md5fnd g') eqn:Hm; cbn [negb] in E; [| injection E as <- _ _ _; lia].
  rewrite (iso_size _ _ _ Hiso), outcome_bind_ret in E. injection E as <- <- <- <-.
  rewrite (proj1 (descriptor_offset y k size Hiso)). split_and!; try done.
  eapply sum_at_appdata, scan_appdata_sum; [exact Hs | done | done].
Qed.
End passing.

(** ** The loop of checkmd5sum on any image *)

Section loop.
Context (be : bool) (y : bytes) (k : nat) (size : Z) (Hiso : iso_image y k size) (Hk : (k ≤ 7)%nat).
Context (o : pvd_out) (limit : Z).
Context (Hlong : 32768 + 2 * (2048 * Z.of_nat k + 883) + 512 ≤ Z.of_nat (covered y limit)).
Context {C : Type} (cb : option (C → Z → Z → Z * C)).
Let by_ := blanked y k.

Lemma blanked_covered : covered by_ limit = covered y limit.
Proof.
  unfold covered, by_, blanked.
  by rewrite (length_with_appdata y k size) by (done || apply length_blanks).
Qed.

(** About to read the chunk at [t], the context holding everything before. *)
Record holding (t : nat) (s : check_state regfile) : Prop := {
  hd_file : ck_file s = mkFile y t;
  hd_offset : ck_offset s = Z.of_nat t;
  hd_chunk : (∃ i, t = i * Z.to_nat 32768)%nat ∨ t = covered y limit;
  hd_le : (t ≤ covered y limit)%nat;
  hd_buf : length (ck_buf s) = Z.to_nat 32768;
  hd_bytes : Forall is_byte (ck_buf s);
  hd_ctx : absorbed be (ck_ctx s) (take t by_)
}.

Lemma blank_own i buf : let t := (i * Z.to_nat 32768)%nat in
  let n := (chunk_end y limit t - t)%nat in
  (t < covered y limit)%nat → length buf = Z.to_nat 32768 → Forall is_byte buf →
  ∃ buf', blank_chunk (sector_at k + 883) (Z.of_nat t) (Z.of_nat n) (splice 0 (slice t n y) buf) =
      Ret buf' ∧
    take n buf' = slice t n by_ ∧ length buf' = Z.to_nat 32768 ∧ Forall is_byte buf'.
Proof.
  intros t n Ht Hl Hb. pose proof (iso_bytes _ _ _ Hiso) as Hyb.
  pose proof (appdata_inside y k size Hiso) as [Hin HA].
  assert (Hbx : by_ = before_appdata y k ++ blanks ++ after_appdata y k)
    by apply with_appdata, length_blanks.
  assert (Hpl : Z.of_nat (length (before_appdata y k)) = sector_at k + 883)
    by (by rewrite (length_before y k size Hiso)).
  pose proof (blank_chunk_y (before_appdata y k) (slice (appdata_at k) 512 y) (after_appdata y k) limit
    (length_own_appdata y k size Hiso)
    ltac:(by apply Forall_take) ltac:(by apply Forall_slice) ltac:(by apply Forall_drop)) as Hblank.
  cbn zeta in Hblank. rewrite Hpl, <- Hbx, <- (own_parts y k) in Hblank.
  assert (Hsec : sector_at k = 32768 + 2048 * Z.of_nat k) by done.
  assert (Hce : chunk_end by_ limit t = chunk_end y limit t)
    by (unfold chunk_end; by rewrite blanked_covered).
  specialize (Hblank ltac:(lia) ltac:(lia) ltac:(rewrite blanked_covered; lia) i buf).
  fold t in Hblank. rewrite Hce, blanked_covered in Hblank. by apply Hblank.
Qed.

Lemma holding_body t s cbs st : (t < covered y limit)%nat → holding t s →
  check_body be cb o (sector_at k + 883) limit s cbs = Ret st →
  match st with
  | Go s' _ => holding (chunk_end y limit t) s'
  | Break _ _ => False
  | Stop rc _ => rc ≠ ISOMD5SUM_CHECK_PASSED
  end.
Proof.
  intros Ht [Hf Ho Hch Hle Hbl Hbb Hctx]. destruct Hch as [[i Hi] | ?]; [| lia].
  destruct (chunk_end_step y limit t Ht) as [Hs Hs'].
  unfold check_body. rewrite Hf, Ho, chunk_read by (unfold covered in *; lia).
  set (t' := chunk_end y limit t) in *. set (n' := (t' - t)%nat).
  destruct (Z.leb_spec (Z.of_nat n') 0); [unfold n' in *; lia |].
  destruct (Z.ltb_spec (Z.min (limit - Z.of_nat t) 32768) (Z.of_nat n'));
    [unfold n', t', covered in *; lia |].
  destruct (blank_own i (ck_buf s)) as (buf' & Eb & Htk & Hbl' & Hbb'); try done; [by rewrite <- Hi |].
  rewrite <- Hi in Eb, Htk. fold t' n' in Eb, Htk. rewrite Eb, outcome_bind_ret.
  assert (Hce : chunk_end by_ limit t = t') by (unfold t', chunk_end; by rewrite blanked_covered).
  pose proof (chunk_update be by_ limit t) as Hupd. cbn zeta in Hupd. rewrite Hce in Hupd.
  specialize (Hupd (ck_ctx s) buf' Hbb' ltac:(by rewrite blanked_covered) Hctx Htk).
  intros ([[good prev] this] & _ & E)%outcome_bind_inv.
  destruct good; cbn [negb] in E; [| injection E as <-; done].
  replace (Z.of_nat t + Z.of_nat n') with (Z.of_nat t') in E by (unfold n'; lia).
  assert (Hh : holding t' (mkCheck (mkFile y t') (Z.of_nat t') buf'
    (MD5_Update be (ck_ctx s) buf' (Z.of_nat n')) prev this)).
  { constructor; try done.
    - unfold t'. rewrite Hi. unfold chunk_end.
      destruct (Nat.le_ge_cases (i * Z.to_nat 32768 + Z.to_nat 32768) (covered y limit)).
      + left. exists (S i). rewrite Nat.min_l by done. lia.
      + right. lia.
    - cbn. lia. }
  destruct cb as [f |]; [| injection E as <-; exact Hh].
  destruct (f cbs (Z.of_nat t') limit) as [stop cbs'].
  destruct (negb (stop =? 0)); injection E as <-; [done | exact Hh].
Qed.

Lemma holding_loop fuel t s cbs st : holding t s →
  check_loop be fuel cb o (sector_at k + 883) limit s cbs = Ret st →
  match st with
  | Go s' _ | Break s' _ => absorbed be (ck_ctx s') (take (covered y limit) by_)
  | Stop rc _ => rc ≠ ISOMD5SUM_CHECK_PASSED
  end.
Proof.
  revert t s cbs. induction fuel as [| fuel IH]; intros t s cbs Hh; cbn [check_loop]; [done |].
  rewrite (hd_offset _ _ Hh). pose proof (hd_le _ _ Hh) as Hle.
  destruct (Nat.lt_ge_cases t (covered y limit)) as [Ht | Ht].
  - destruct (Z.ltb_spec (Z.of_nat t) limit) as [_ |]; [| unfold covered in *; lia].
    intros (st' & Hst & E)%outcome_bind_inv. pose proof (holding_body _ _ _ _ Ht Hh Hst) as Hb.
    destruct st' as [rc cbs' | s' cbs' | s' cbs']; [injection E as <-; done | done | by eapply IH].
  - assert (t = covered y limit) as -> by lia. pose proof (hd_ctx _ _ Hh) as Hctx.
    destruct (Z.ltb_spec (Z.of_nat (covered y limit)) limit); [| intros [= <-]; done].
    unfold check_body. rewrite (hd_file _ _ Hh), (hd_offset _ _ Hh), chunk_read by lia.
    assert (chunk_end y limit (covered y limit) = covered y limit) as -> by (unfold chunk_end; lia).
    rewrite Nat.sub_diag. change (Z.of_nat 0 <=? 0) with true. cbn iota. rewrite outcome_bind_ret.
    intros [= <-]. done.
Qed.
End loop.

Lemma length_digest_no_nul s : Forall is_byte s → Forall (λ b, b ≠ 0) (hex_digest s).
Proof.
  induction 1 as [| b s Hb _ IH]; [constructor |].
  change (hex_digest (b :: s)) with (hex_digit (b / 16) :: hex_digit (b mod 16) :: hex_digest s).
  unfold is_byte in Hb. assert (0 ≤ b / 16 < 16) as H1 by mlia. assert (0 ≤ b mod 16 < 16) as H2 by mlia.
  pose proof (hex_digit_range _ H1). pose proof (hex_digit_range _ H2).
  repeat constructor; try done; lia.
Qed.

Lemma exit_status_passed rc : processExitStatus rc = 0 → rc = ISOMD5SUM_CHECK_PASSED.
Proof.
  unfold processExitStatus. destruct (rc =? ISOMD5SUM_CHECK_FAILED); [discriminate |].
  destruct (rc =? ISOMD5SUM_CHECK_ABORTED); [discriminate |].
  destruct (rc =? ISOMD5SUM_CHECK_NOT_FOUND); [discriminate |].
  destruct (rc =? ISOMD5SUM_FILE_NOT_FOUND); [discriminate |].
  destruct (Z.eqb_spec rc ISOMD5SUM_CHECK_PASSED); [done | discriminate].
Qed.

(** C4: a passed media check vouches for the medium: when checkisomd5 exits
    with 0, on what mediaCheckFile returns for an image of the layout its arithmetic copes with, the
    32 characters behind "ISO MD5SUM = " in the application data are the MD5
    sum, in hexadecimal, of the volume up to the skipped sectors with the
    application data blanked. *)
Theorem passed_means_sum {C} be y k size fuel g1 g2 p o f
    (cb : option (C → Z → Z → Z * C)) cbs cbs' rc
    (Hiso : iso_image y k size) (Hk : (k ≤ 7)%nat) (Hfuel : (length y + 1 < fuel)%nat)
    (Hg1 : checker_memory g1) (Hg2 : checker_memory g2)
    (Hpvd : parsepvd fuel g2 (mkFile y p) = Ret (sector_at k, o, size, f))
    (Hlong : 32768 + 2 * (2048 * Z.of_nat k + 883) + 512 ≤
      Z.of_nat (covered y (size - skipsectors o * 2048)))
    (Hpass : mediaCheckFile be fuel g1 g2 (Some (mkFile y p)) cb cbs = Ret (rc, cbs'))
    (Hexit : processExitStatus rc = 0) :
  until_nul (mediasum o) =
    hex_digest (Spec.md5 (take (covered y (size - skipsectors o * 2048)) (blanked y k))) ∧
  ∃ loc, (loc + 45 ≤ 511)%nat ∧
    starts_with (str "ISO MD5SUM = ") (drop loc (slice (appdata_at k) 512 y)) = true ∧
    mediasum o = slice (loc + 13) 32 (slice (appdata_at k) 512 y).
Proof.
  pose proof (descriptor_offset y k size Hiso) as [_ Hpos].
  destruct (parsepvd_inv y k size Hiso fuel Hfuel g2 p _ _ _ _ (cm_pvd g2 Hg2) Hpvd Hpos)
    as (_ & _ & _ & Hloc). split; [| exact Hloc]. clear Hloc.
  apply exit_status_passed in Hexit as ->. unfold mediaCheckFile, doMediaCheck in Hpass.
  apply outcome_bind_inv in Hpass as ([[rc f'] cbs1] & E & [= -> ->]).
  apply outcome_bind_inv in E as ([[[r1 o1] sz1] f1] & E1 & E).
  destruct (Z.ltb_spec r1 0); [done |].
  destruct (parsepvd_inv y k size Hiso fuel Hfuel g1 p _ _ _ _ (cm_pvd g1 Hg1) E1 ltac:(lia))
    as (_ & _ & Hc1 & _). destruct f1 as [c1 p1]. cbn [contents] in Hc1. subst c1.
  unfold checkmd5sum in E.
  change (parsepvd fuel g2 (mkFile y p1)) with (parsepvd fuel g2 (mkFile y p)) in E.
  rewrite Hpvd, outcome_bind_ret in E.
  destruct (Z.ltb_spec (sector_at k) 0); [lia |].
  apply outcome_bind_inv in E as (skip & Hskip & E). unfold int_val in Hskip.
  destruct (_ && _); [injection Hskip as <- | done].
  apply outcome_bind_inv in E as (st & Hloop & E).
  destruct (parsepvd_inv y k size Hiso fuel Hfuel g2 p _ _ _ _ (cm_pvd g2 Hg2) Hpvd Hpos)
    as (_ & _ & Hf & _). destruct f as [c fp]. cbn [contents] in Hf. subst c.
  rewrite reg_lseek_pos in Hloop by lia. cbn [snd contents] in Hloop.
  change (Z.to_nat 0) with 0%nat in Hloop. change APPDATA_OFFSET with 883 in Hloop.
  set (limit := size - skipsectors o * 2048) in *.
  match type of Hloop with check_loop _ _ _ _ _ _ ?s _ = _ =>
    assert (Hh : holding be y k limit 0 s) end.
  { destruct Hg2 as [? Hgb Hgby Hth [Hcl Hcb]]. constructor;
      first [done | by left; exists 0%nat | by apply MD5_Init_absorbed | cbn; lia]. }
  specialize (holding_loop be y k size Hiso Hk o limit Hlong cb fuel 0 _ _ st Hh Hloop) as Hd.
  destruct st as [rc cbs2 | s cbs2 | s cbs2]; [injection E as -> _ _; done | |];
    (rewrite (MD5_Final_spec be _ _ Hd) in E;
     destruct (streq _ _) eqn:Heq; [| done]; apply streq_spec in Heq; exact Heq).
Qed.

(** The sample image with its sum implanted. *)
Definition sample_implanted : bytes := implanted_image true (sample_image 65) 0 81920.

Lemma sample_implanted_image : iso_image sample_implanted 0 81920.
Proof.
  exact (iso_y (sample_image 65) 0 81920 (sample_checkable 65 byte_65) true
    (Z.to_nat 81930) (sample_fuel 65)).
Qed.

Lemma length_sample_implanted : length sample_implanted = Z.to_nat 81920.
Proof.
  unfold sample_implanted, implanted_image.
  rewrite (length_with_appdata (sample_image 65) 0 81920 (sample_iso_image 65 byte_65)).
  - apply length_sample_image.
  - exact (length_appd (sample_image 65) 0 81920 true (Z.to_nat 81930) (sample_fuel 65)).
Qed.

Lemma sample_above b : g_above (sample_stack [b]) ≠ [].
Proof. discriminate. Qed.

Lemma quiet_silent : quiet silent.
Proof. exact I. Qed.

Lemma sample_passes : ∃ cbs', mediaCheckFile false (Z.to_nat 81930) (sample_stack [9]) (sample_stack [8])
  (Some (mkFile sample_implanted 3)) silent tt = Ret (ISOMD5SUM_CHECK_PASSED, cbs').
Proof.
  apply (mediaCheckFile_implanted false (sample_image 65) 0 81920 (sample_checkable 65 byte_65) true
    (Z.to_nat 81930) (sample_fuel 65)).
  - apply sample_checker_memory.
  - apply sample_checker_memory.
  - left. split; apply sample_above.
  - apply quiet_silent.
Qed.

Lemma passed_means_sum_witness :
  ∃ o, until_nul (mediasum o) = hex_digest (Spec.md5 (take (Z.to_nat 51200)
    (blanked sample_implanted 0))) ∧ skipsectors o = 15.
Proof.
  destruct (parsepvd_implanted (sample_image 65) 0 81920 (sample_checkable 65 byte_65) true
    (Z.to_nat 81930) (sample_fuel 65) (sample_stack [8]) 3 (sample_checker_memory [8])
    (or_introl (sample_above 8))) as (o & Hp & Ho).
  destruct sample_passes as (cbs' & Hpass).
  pose proof (rep_skip _ _ _ _ Ho) as Hskip. exists o. split; [| exact Hskip].
  assert (Hcov : covered sample_implanted (81920 - skipsectors o * 2048) = Z.to_nat 51200).
  { rewrite Hskip. unfold covered. rewrite length_sample_implanted. lia. }
  rewrite <- Hcov.
  refine (proj1 (passed_means_sum false sample_implanted 0 81920 (Z.to_nat 81930) _ _ 3 o _ silent tt
    cbs' _ sample_implanted_image _ _ (sample_checker_memory [9]) (sample_checker_memory [8]) Hp _ Hpass
    eq_refl)).
  - lia.
  - rewrite length_sample_implanted. lia.
  - rewrite Hcov. lia.
Defined.

(** ** The check ends *)

Lemma bind_ends {A B} (m : outcome A) (f : A → outcome B) :
  m ≠ NoFuel → (∀ a, m = Ret a → f a ≠ NoFuel) → m ≫= f ≠ NoFuel.
Proof. destruct m; naive_solver. Qed.

Lemma checked_ends {A} (o : option A) : checked o ≠ NoFuel.
Proof. by destruct o. Qed.

Lemma defined_if_ends b : defined_if b ≠ NoFuel.
Proof. by destruct b. Qed.

Lemma int_val_ends z : int_val z ≠ NoFuel.
Proof. unfold int_val. by destruct (_ && _). Qed.

Lemma ll_val_ends z : ll_val z ≠ NoFuel.
Proof. unfold ll_val. by destruct (_ && _). Qed.

Lemma cdiv_ends a b : cdiv a b ≠ NoFuel.
Proof. unfold cdiv. by destruct (_ =? _). Qed.

Lemma memset_ends m o v n : memset_ m o v n ≠ NoFuel.
Proof. unfold memset_. by destruct (_ && _). Qed.

Lemma store_ends m i v : store m i v ≠ NoFuel.
Proof. unfold store. by destruct (_ && _). Qed.

Lemma fetch_ends m i : fetch m i ≠ NoFuel.
Proof. unfold fetch. destruct (0 <=? i); [apply checked_ends | done]. Qed.

Create HintDb ends.
#[local] Hint Resolve checked_ends defined_if_ends int_val_ends ll_val_ends cdiv_ends memset_ends
  store_ends fetch_ends : ends.

(** Split a sequence of steps into its steps. *)
Ltac ends :=
  repeat match goal with
  | |- Ret _ ≠ NoFuel => discriminate
  | |- Undef ≠ NoFuel => discriminate
  | |- _ ≫= _ ≠ NoFuel => apply bind_ends; [solve [eauto with ends] || idtac | intros]
  | |- (if ?b then _ else _) ≠ NoFuel => destruct b eqn:?
  | |- (let '(_, _) := ?p in _) ≠ NoFuel => destruct p
  | |- match ?o with Some _ => _ | None => _ end ≠ NoFuel => destruct o
  end.

Lemma volume_size_ends buf : volume_size buf ≠ NoFuel.
Proof. unfold volume_size. ends. Qed.

Lemma blank_chunk_ends a o n b : blank_chunk a o n b ≠ NoFuel.
Proof. unfold blank_chunk. ends; apply memset_ends. Qed.

Lemma to_semicolon_ends fuel m loc acc : (512 - loc < fuel)%nat → to_semicolon fuel m loc acc ≠ NoFuel.
Proof.
  revert loc acc. induction fuel as [| fuel IH]; intros loc acc Hf; cbn [to_semicolon]; [lia |].
  ends. apply IH. lia.
Qed.

Lemma skip_ends m loc : skip_to_semicolon m loc ≠ NoFuel.
Proof.
  unfold skip_to_semicolon. pose proof (to_semicolon_ends 600 m loc [] ltac:(lia)).
  by destruct (to_semicolon 600 m loc []).
Qed.

Lemma number_field_ends m loc : number_field m loc ≠ NoFuel.
Proof. unfold number_field. ends; by apply to_semicolon_ends; lia. Qed.
#[local] Hint Resolve skip_ends number_field_ends volume_size_ends blank_chunk_ends : ends.

Lemma scan_body_ends m loc g o : scan_body m loc g o ≠ NoFuel.
Proof. unfold scan_body. ends. Qed.

Lemma to_semicolon_strict fuel m loc acc loc' acc' lit : (loc < 512)%nat →
  starts_with lit (drop loc m) = true → head lit = Some 82 →
  to_semicolon fuel m loc acc = Ret (loc', acc') → (loc < loc')%nat.
Proof.
  intros Hl Hs Hh. destruct lit as [| c lit]; [done |]. injection Hh as ->.
  destruct fuel as [| fuel]; [done |]. cbn [to_semicolon].
  apply starts_with_spec in Hs as [r Hr]. cbn [app] in Hr.
  assert (Hm : m !! loc = Some 82) by (by rewrite <- (Nat.add_0_r loc), <- lookup_drop, Hr).
  rewrite Hm. cbn [checked]. rewrite outcome_bind_ret.
  destruct (Nat.ltb_spec loc 512); [| lia]. cbn [andb negb].
  change (82 =? 59) with false. cbn [negb]. intros E%to_semicolon_bound. lia.
Qed.

Lemma skip_bound m loc loc' : skip_to_semicolon m loc = Ret loc' → (loc ≤ loc')%nat.
Proof.
  unfold skip_to_semicolon. destruct (to_semicolon 600 m loc []) as [[l a] | |] eqn:E; try done.
  intros [= <-]. by eapply to_semicolon_bound.
Qed.

Lemma skip_strict m loc loc' lit : (loc < 512)%nat → starts_with lit (drop loc m) = true →
  head lit = Some 82 → skip_to_semicolon m loc = Ret loc' → (loc < loc')%nat.
Proof.
  unfold skip_to_semicolon. destruct (to_semicolon 600 m loc []) as [[l a] | |] eqn:E; try done.
  intros ? ? ? [= <-]. by eapply to_semicolon_strict.
Qed.

Lemma number_bound m loc loc' v : number_field m loc = Ret (loc', v) → (loc ≤ loc')%nat.
Proof.
  unfold number_field. intros ([l a] & E & E2)%outcome_bind_inv.
  destruct (strtol _ _). injection E2 as <- _. by eapply to_semicolon_bound.
Qed.

(** Every turn of the scan advances. *)
Lemma scan_body_advances m loc g o loc' g' o' : (loc < 512)%nat →
  scan_body m loc g o = Ret (Next loc' g' o') → (loc < loc')%nat.
Proof.
  intros Hl. unfold scan_body.
  repeat match goal with
  | |- (if starts_with ?l ?m then _ else _) = _ → _ => destruct (starts_with l m) eqn:?
  | |- (if ?b then _ else _) = _ → _ => destruct b
  | |- (_ ≫= _) = _ → _ => intros (? & ? & E)%outcome_bind_inv; revert E
  | |- (let '(_, _) := ?p in _) = _ → _ => destruct p
  | |- match ?v with Some _ => _ | None => _ end = _ → _ => destruct v
  | |- Ret _ = Ret _ → _ => intros [=]; subst
  end; try lia;
  repeat match goal with
  | H : number_field _ _ = Ret _ |- _ => apply number_bound in H
  | Hs : starts_with _ (drop ?l ?m) = true, H : skip_to_semicolon ?m ?l = Ret _ |- _ =>
      apply (skip_strict _ _ _ _ Hl Hs eq_refl) in H
  | H : skip_to_semicolon _ _ = Ret _ |- _ => apply skip_bound in H
  end; lia.
Qed.

Lemma scan_appdata_ends fuel m loc g o : (512 - loc < fuel)%nat → scan_appdata fuel m loc g o ≠ NoFuel.
Proof.
  revert loc g o. induction fuel as [| fuel IH]; intros loc g o Hf; cbn [scan_appdata]; [lia |].
  destruct (Nat.ltb_spec loc 512); [| done].
  apply bind_ends; [apply scan_body_ends |]. intros [loc' g' o' |] Hb; [| done].
  destruct (all_found g'); [done |]. apply IH.
  apply scan_body_advances in Hb; lia.
Qed.

Lemma read_advances x p n r d f : f_read (mkFile x p) n = (r, d, f) →
  r = Z.of_nat (length d) ∧ f = mkFile x (p + length d) ∧ (length d ≤ Z.to_nat n)%nat ∧
  (length d = 0 ∨ p + length d ≤ length x)%nat.
Proof.
  cbn. unfold reg_read. cbn [contents fpos]. intros [= <- <- <-].
  split_and!; try done; rewrite length_slice; lia.
Qed.

Lemma check_find_ends fuel x p buf off : (length x - p < fuel)%nat →
  check_find fuel (mkFile x p) buf off ≠ NoFuel ∧
  (∀ s b f, check_find fuel (mkFile x p) buf off = Ret (s, b, f) → contents f = x).
Proof.
  revert p buf off. induction fuel as [| fuel IH]; intros p buf off Hf; cbn [check_find]; [lia |].
  destruct (f_read (mkFile x p) 2048) as [[r d] f] eqn:E.
  destruct (read_advances _ _ _ _ _ _ E) as (-> & -> & _ & Hp).
  destruct (Z.leb_spec (Z.of_nat (length d)) 0); [by split; [| intros ? ? ? [= <- <- <-]] |].
  destruct (_ =? 1); [by split; [| intros ? ? ? [= <- <- <-]] |].
  destruct (_ =? 255); [by split; [| intros ? ? ? [= <- <- <-]] |].
  apply IH. lia.
Qed.

Lemma parsepvd_ends fuel g x p : (length x < fuel)%nat →
  parsepvd fuel g (mkFile x p) ≠ NoFuel ∧
  (∀ r o s f, parsepvd fuel g (mkFile x p) = Ret (r, o, s, f) → contents f = x).
Proof.
  intros Hf. unfold parsepvd. rewrite reg_lseek_pos by lia. cbn [contents].
  change (16 * 2048 =? -1) with false. cbn iota.
  destruct (check_find_ends fuel x (Z.to_nat (16 * 2048)) (g_pvd g) (16 * 2048) ltac:(lia)) as [Hn Hc].
  split.
  - apply bind_ends; [done |]. intros [[[off |] buf] f] _; [| done].
    apply bind_ends; [apply scan_appdata_ends; lia |]. intros [[g' |] o] _; [| done].
    destruct (negb _); [done |]. ends.
  - intros r o s f ([[found buf] f'] & Hfind & E)%outcome_bind_inv. specialize (Hc _ _ _ Hfind).
    destruct found; [| by injection E as <- <- <- <-].
    apply outcome_bind_inv in E as ([[g' |] o'] & _ & E); [| by injection E as <- <- <- <-].
    destruct (negb _); [by injection E as <- <- <- <- |].
    apply outcome_bind_inv in E as (sz & _ & E). by injection E as <- <- <- <-.
Qed.

Lemma fragment_digits_ends fuel i j count sum sums this computed : 0 ≤ i →
  (Z.to_nat (count - i) < fuel)%nat → fragment_digits fuel i j count sum sums this computed ≠ NoFuel.
Proof.
  revert i j this computed. induction fuel as [| fuel IH]; intros i j this computed Hi Hf; [lia |].
  cbn [fragment_digits]. destruct (Z.ltb_spec i count); [| done].
  ends. apply IH; lia.
Qed.

Lemma check_fragment_ends {F} be o limit off (s : check_state F) : check_fragment be o limit off s ≠ NoFuel.
Proof.
  unfold check_fragment. destruct (_ =? 0); [done |]. do 3 (apply bind_ends; [auto with ends |]; intros).
  destruct (negb _); [| done]. do 4 (apply bind_ends; [auto with ends |]; intros).
  apply bind_ends.
  - apply fragment_digits_ends; [lia |].
    match goal with H : cdiv FRAGMENT_SUM_LENGTH _ = Ret ?n |- _ => unfold cdiv in H;
      destruct (Z.eqb_spec (fragmentcount o) 0); [done | injection H as <-] end.
    change FRAGMENT_SUM_LENGTH with 60. pose proof (Z.quot_abs 60 (fragmentcount o) ltac:(done)).
    assert (Z.abs 60 ÷ Z.abs (fragmentcount o) ≤ 60).
    { rewrite Z.quot_div_nonneg by lia. change (Z.abs 60) with 60. apply Z.div_le_upper_bound; nia. }
    lia.
  - intros [[j this] computed] _. ends.
Qed.

Lemma check_loop_ends {C} be fuel (cb : option (C → Z → Z → Z * C)) o a limit s cbs x p :
  ck_file s = mkFile x p → (length x - p < fuel)%nat →
  check_loop be fuel cb o a limit s cbs ≠ NoFuel.
Proof.
  revert s cbs p. induction fuel as [| fuel IH]; intros s cbs p Hfile Hf; cbn [check_loop]; [lia |].
  destruct (Z.ltb_spec (ck_offset s) limit) as [Hlt |]; [| done].
  set (n := Z.min (limit - ck_offset s) 32768).
  destruct (f_read (ck_file s) n) as [[r d] f] eqn:E. pose proof E as E'. rewrite Hfile in E'.
  destruct (read_advances _ _ _ _ _ _ E') as (-> & -> & Hd & Hp).
  assert (Hbody : check_body be cb o a limit s cbs ≠ NoFuel ∧ ∀ st,
    check_body be cb o a limit s cbs = Ret st → match st with
      | Go s' _ => ck_file s' = mkFile x (p + length d) ∧ (0 < length d)%nat | _ => True end).
  { unfold check_body. fold n. rewrite E.
    destruct (Z.leb_spec (Z.of_nat (length d)) 0); [by split; [| intros ? [= <-]] |].
    destruct (Z.ltb_spec n (Z.of_nat (length d))); [lia |]. split.
    - apply bind_ends; [auto with ends |]. intros buf _.
      apply bind_ends; [apply check_fragment_ends |]. intros [[good prev] this] _.
      destruct good; [| done]. destruct cb as [f |]; [| done]. cbn [negb].
      destruct (f _ _ _) as [stop c]. by destruct (negb _).
    - intros st (buf & _ & ([[good prev] this] & _ & E2)%outcome_bind_inv)%outcome_bind_inv.
      destruct good; cbn [negb] in E2; [| by injection E2 as <-].
      destruct cb as [f |]; [| injection E2 as <-; split; [done | lia]].
      destruct (f _ _ _) as [stop c]. destruct (negb _); injection E2 as <-; [done |].
      split; [done | lia]. }
  destruct Hbody as [Hn Hgo]. apply bind_ends; [done |]. intros st Hst. specialize (Hgo st Hst).
  destruct st as [| | s' c]; [done | done |]. destruct Hgo as [Hf' Hpos].
  apply (IH s' c (p + length d)%nat Hf'). lia.
Qed.

(** C5: the media check of an image file ends, whatever the file and the
    uninitialised memory hold and whatever the callback answers: no loop takes
    more turns than the file has bytes. *)
Theorem mediaCheckFile_ends {C} be fuel g1 g2 x p (cb : option (C → Z → Z → Z * C)) cbs
    (Hfuel : (length x < fuel)%nat) :
  mediaCheckFile be fuel g1 g2 (Some (mkFile x p)) cb cbs ≠ NoFuel.
Proof.
  unfold mediaCheckFile, doMediaCheck. apply bind_ends; [| by intros [[rc f] c] _].
  destruct (parsepvd_ends fuel g1 x p Hfuel) as [Hn Hc]. apply bind_ends; [done |].
  intros [[[r o] sz] [c1 p1]] Hp. specialize (Hc _ _ _ _ Hp). cbn [contents] in Hc. subst c1.
  destruct (r <? 0); [done |]. unfold checkmd5sum.
  destruct (parsepvd_ends fuel g2 x p1 Hfuel) as [Hn2 Hc2]. apply bind_ends; [done |].
  intros [[[r2 o2] sz2] [c2 p2]] Hp2. specialize (Hc2 _ _ _ _ Hp2). cbn [contents] in Hc2. subst c2.
  destruct (r2 <? 0); [done |]. apply bind_ends; [auto with ends |]. intros skip _.
  apply bind_ends.
  - eapply (check_loop_ends _ _ _ _ _ _ _ _ x); [reflexivity | lia].
  - intros st _. destruct st; [done | | ]; by destruct (streq _ _).
Qed.

Lemma mediaCheckFile_ends_witness :
  mediaCheckFile false 5 (sample_stack []) (sample_stack []) (Some (mkFile [1; 2] 0)) silent tt ≠ NoFuel.
Proof. apply (mediaCheckFile_ends false 5 (sample_stack []) (sample_stack []) [1; 2] 0). cbn. lia. Defined.

(** ** Images without a descriptor *)

(** No sector the file reaches starts with a type the searches stop at. *)
Definition no_descriptor (x : bytes) : Prop :=
  ∀ j, (Z.to_nat (sector_at j) < length x)%nat → sector_type x j ≠ 1 ∧ sector_type x j ≠ 255.

Definition no_type (buf : bytes) : Prop := nth 0 buf 0 ≠ 1 ∧ nth 0 buf 0 ≠ 255.

Lemma read_sector_type x j buf r d f : no_descriptor x → no_type buf →
  f_read (mkFile x (Z.to_nat (sector_at j))) 2048 = (r, d, f) → no_type (splice 0 d buf).
Proof.
  intros Hx Hb. cbn. unfold reg_read. cbn [contents fpos]. intros [= _ <- _].
  unfold no_type, splice. rewrite take_0, app_nil_l.
  destruct (slice (Z.to_nat (sector_at j)) (Z.to_nat 2048) x) as [| b s] eqn:E.
  - cbn [app length Nat.add]. by rewrite drop_0.
  - assert (Hl : (Z.to_nat (sector_at j) < length x)%nat).
    { apply (f_equal length) in E. rewrite length_slice in E. cbn [length] in E. lia. }
    destruct (Hx j Hl) as [H1 H255]. unfold sector_type in *.
    apply (f_equal (λ l, nth 0 l 0)) in E. rewrite nth_slice, Nat.add_0_r in E by lia.
    cbn [nth] in E. rewrite E in H1, H255. cbn [app nth]. done.
Qed.

(** At the end of the file nothing is read any more. *)
Lemma read_past x p : (length x ≤ p)%nat → f_read (mkFile x p) 2048 = (0, [], mkFile x p).
Proof.
  intros Hp. cbn. unfold reg_read. cbn [contents fpos]. unfold slice. rewrite drop_ge by done.
  rewrite take_nil. cbn [length]. by rewrite Nat.add_0_r.
Qed.

Lemma implant_find_past fuel x p buf off : (length x ≤ p)%nat → no_type buf →
  implant_find fuel (mkFile x p) buf off = NoFuel.
Proof.
  intros Hp Hb. revert buf off Hb. induction fuel as [| fuel IH]; intros buf off Hb; [done |].
  cbn [implant_find]. rewrite read_past by done. change (0 =? -1) with false. cbn iota.
  assert (splice 0 [] buf = buf) as -> by (unfold splice; by rewrite take_0, drop_0).
  destruct Hb as [H1 H255]. destruct (Z.eqb_spec (nth 0 buf 0) 1); [done |].
  destruct (Z.eqb_spec (nth 0 buf 0) 255); [done |]. by apply IH.
Qed.

Lemma sector_next x j r d f : f_read (mkFile x (Z.to_nat (sector_at j))) 2048 = (r, d, f) →
  (f = mkFile x (Z.to_nat (sector_at (S j))) ∧ r = 2048) ∨
  (∃ p, f = mkFile x p ∧ (length x ≤ p)%nat ∧ r = Z.of_nat (length d) ∧ (length d < Z.to_nat 2048)%nat).
Proof.
  cbn. unfold reg_read. cbn [contents fpos]. intros [= <- <- <-].
  set (d := slice _ _ x). assert (Hd : length d = (Z.to_nat 2048 `min` (length x - Z.to_nat (sector_at j)))%nat)
    by apply length_slice.
  destruct (Nat.le_gt_cases (Z.to_nat (sector_at j) + Z.to_nat 2048) (length x)).
  - left. split; [f_equal; unfold sector_at in *; lia | lia].
  - right. eexists. split; [done |]. lia.
Qed.

Lemma implant_find_forever fuel x j buf : no_descriptor x → no_type buf →
  implant_find fuel (mkFile x (Z.to_nat (sector_at j))) buf (sector_at j) = NoFuel.
Proof.
  intros Hx. revert j buf. induction fuel as [| fuel IH]; intros j buf Hb; [done |].
  cbn [implant_find]. destruct (f_read _ 2048) as [[r d] f] eqn:E.
  pose proof (read_sector_type _ _ _ _ _ _ Hx Hb E) as [H1 H255].
  destruct (Z.eqb_spec (nth 0 (splice 0 d buf) 0) 1); [done |].
  destruct (Z.eqb_spec (nth 0 (splice 0 d buf) 0) 255); [done |].
  replace (sector_at j + 2048) with (sector_at (S j)) by (unfold sector_at; lia).
  destruct (sector_next _ _ _ _ _ E) as [[-> ->] | (p & -> & Hp & -> & Hd)].
  - change (2048 =? -1) with false. cbn iota. by apply IH.
  - destruct (Z.eqb_spec (Z.of_nat (length d)) (-1)); [lia |]. by apply implant_find_past.
Qed.

Lemma check_find_none fuel x j buf : no_descriptor x → no_type buf →
  (length x - Z.to_nat (sector_at j) + 1 < fuel)%nat →
  ∃ buf' f, check_find fuel (mkFile x (Z.to_nat (sector_at j))) buf (sector_at j) = Ret (NotFound, buf', f).
Proof.
  intros Hx. revert j buf. induction fuel as [| fuel IH]; intros j buf Hb Hf; [lia |].
  cbn [check_find]. destruct (f_read _ 2048) as [[r d] f] eqn:E.
  pose proof (read_sector_type _ _ _ _ _ _ Hx Hb E) as [H1 H255].
  destruct (Z.leb_spec r 0); [eauto |].
  destruct (Z.eqb_spec (nth 0 (splice 0 d buf) 0) 1); [done |].
  destruct (Z.eqb_spec (nth 0 (splice 0 d buf) 0) 255); [done |].
  replace (sector_at j + 2048) with (sector_at (S j)) by (unfold sector_at; lia).
  destruct (sector_next _ _ _ _ _ E) as [[-> ->] | (p & -> & Hp & -> & Hd)].
  - destruct (Nat.le_gt_cases (length x) (Z.to_nat (sector_at j))) as [Hend |].
    + rewrite read_past in E by done. done.
    + apply IH; [done |]. unfold sector_at in *. lia.
  - destruct fuel as [| fuel]; [lia |]. cbn [check_find]. rewrite read_past by done.
    change (0 <=? 0) with true. cbn iota. eauto.
Qed.

(** on an image without a primary or terminating descriptor the checker
    answers "not found", while implantISOFile never returns: its own copy of
    parsepvd does not notice the end of the file. *)
Theorem no_descriptor_found {C} be x p g1 g2 gbuf gapp gctx sup force
    (cb : option (C → Z → Z → Z * C)) cbs
    (Hx : no_descriptor x) (Hg1 : no_type (g_pvd g1)) (Hg2 : no_type gbuf) :
  (∀ fuel, (length x + 1 < fuel)%nat →
    mediaCheckFile be fuel g1 g2 (Some (mkFile x p)) cb cbs = Ret (ISOMD5SUM_CHECK_NOT_FOUND, cbs)) ∧
  (∀ fuel, implantISOFile be fuel gbuf gapp gctx (Some (mkFile x p)) sup force = NoFuel).
Proof.
  split; intros fuel.
  - intros Hf. unfold mediaCheckFile, doMediaCheck, parsepvd.
    rewrite reg_lseek_pos by lia. cbn [contents].
    change (16 * 2048 =? -1) with false. cbn iota. change (16 * 2048) with (sector_at 0).
    destruct (check_find_none fuel x 0 (g_pvd g1) Hx Hg1 ltac:(lia)) as (buf' & f & ->). done.
  - unfold implantISOFile, implant_parsepvd. rewrite reg_lseek_pos by lia. cbn [contents].
    change (16 * 2048 =? -1) with false. cbn iota. change (16 * 2048) with (sector_at 0).
    by rewrite (implant_find_forever fuel x 0 gbuf Hx Hg2).
Qed.

Lemma no_descriptor_found_witness :
  mediaCheckFile true 9 (sample_stack []) (sample_stack []) (Some (mkFile [] 0)) silent tt =
    Ret (ISOMD5SUM_CHECK_NOT_FOUND, tt) ∧
  implantISOFile true 1000 [0] [] sample_context (Some (mkFile [] 0)) true false = NoFuel.
Proof.
  pose proof (no_descriptor_found true [] 0 (sample_stack []) (sample_stack []) [0] [] sample_context
    true false silent tt) as H.
  assert (Hx : no_descriptor []) by (intros j Hj; cbn in Hj; lia).
  destruct (H Hx ltac:(split; discriminate) ltac:(split; discriminate)) as [Hc Hi].
  split; [apply Hc; cbn; lia | apply Hi].
Defined.

(** ** Reading the implanted data back *)

Section reading_back.
Context (x : bytes) (k : nat) (size : Z) (Hck : checkable x k size) (sup : bool).
Context (fuel : nat) (Hfuel : (length x + 1 < fuel)%nat).
Let frag := fragment_sums (blanked x k) (sum_limit size).
Let y := implanted_image sup x k size.
Let appd := implanted_appdata sup (image_sum x k size) frag.

(** parsepvd on the implanted image, up to the scan of its data. *)
Lemma parsepvd_scan g p : checker_memory g →
  parsepvd fuel g (mkFile y p) =
  ('(g', o) ← scan_appdata 513 (<[511%nat := 0]> appd ++ g_above g) 0 no_flags
      (set_supported 0 (set_fragmentcount 0 (g_out g)));
   match g' with
   | None => Ret (-1, o, g_isosize g, mkFile y (Z.to_nat (sector_at (S k))))
   | Some g' => if negb (skipfnd g' && md5fnd g')
                then Ret (-1, o, g_isosize g, mkFile y (Z.to_nat (sector_at (S k))))
                else Ret (sector_at k, o, size, mkFile y (Z.to_nat (sector_at (S k))))
   end).
Proof.
  intros Hg. pose proof (iso_y x k size Hck sup fuel Hfuel) as Hiso. fold y in Hiso.
  unfold parsepvd. rewrite reg_lseek_pos by lia. cbn [contents].
  change (16 * 2048 =? -1) with false. cbn iota. change (16 * 2048) with (sector_at 0).
  assert (Hyf : (length y + 1 < fuel)%nat).
  { unfold y, implanted_image. rewrite (length_with_appdata x k size (ck_image _ _ _ Hck));
      [done | exact (length_appd x k size sup fuel Hfuel)]. }
  rewrite (proj1 (find_pvd y k fuel 0 (g_pvd g) (iso_pvd _ _ _ Hiso) ltac:(lia)
    (find_fuel _ _ _ Hiso _ Hyf) (cm_pvd g Hg))).
  pose proof (appdata_of_y x k size Hck sup fuel Hfuel) as Happ. fold frag appd y in Happ.
  rewrite outcome_bind_ret, Happ.
  unfold no_flags. destruct (scan_appdata _ _ _ _ _) as [[[g' |] o] | |]; [| done ..].
  rewrite !outcome_bind_ret. destruct (negb _); [done |].
  rewrite (iso_size _ _ _ Hiso), outcome_bind_ret.
  by rewrite (proj1 (descriptor_offset y k size Hiso)).
Qed.

Lemma fragment_sums_nonzero : Forall (λ b, b ≠ 0) frag.
Proof.
  assert (Hall : ∀ n t prev,
    Forall (λ b, b ≠ 0) (fragments n (blanked x k) (sum_limit size) t prev)); [| apply Hall].
  intros n. induction n as [| n IH]; intros t prev; cbn [fragments]; [constructor |].
  destruct (t <? _)%nat; [| constructor]. apply Forall_app_2; [| apply IH].
  destruct (_ =? prev); [constructor |].
  set (s := Spec.md5 _).
  destruct (sum_digits_three s (length_md5 _) (md5_byte _))
    as (? & ? & ? & ? & d0 & d1 & d2 & _ & _ & _ & _ & -> & ? & ? & ?).
  by repeat constructor.
Qed.
End reading_back.

(** what parsepvd reads back of an implanted image.  With all twenty
    fragment sums it reports exactly what was implanted and looks at no byte
    behind its buffer; with at most twelve sums, as small images have, it
    reads past the end of [buf2] (undefined if nothing lies there). *)
Theorem parsepvd_reads_back x k size sup fuel g p
    (Hck : checkable x k size) (Hfuel : (length x + 1 < fuel)%nat) (Hg : checker_memory g) :
  let frag := fragment_sums (blanked x k) (sum_limit size) in
  let y := implanted_image sup x k size in
  (length frag = 60%nat →
    parsepvd fuel g (mkFile y p) =
      Ret (sector_at k, mkPvd (image_sum x k size) 15 (if sup then 1 else 0) (frag ++ [0]) 20, size,
           mkFile y (Z.to_nat (sector_at (S k))))) ∧
  ((length frag ≤ 36)%nat → g_above g = [] → parsepvd fuel g (mkFile y p) = Undef).
Proof.
  cbn zeta. rewrite (parsepvd_scan x k size Hck sup fuel Hfuel g p Hg).
  pose proof (length_image_sum x k size) as Hl. split.
  - intros H60. by rewrite scan_implanted.
  - intros H36 ->.
    destruct (fragments_triples (S (covered (blanked x k) (sum_limit size))) (blanked x k)
      (sum_limit size) 0 0) as [j Hj].
    rewrite (scan_implanted_overread _ _ _ j); [done | done | exact Hj |].
    unfold fragment_sums in H36. lia.
Qed.

Lemma length_fragments_step n x limit t prev : ∃ c,
  (length (fragments (S n) x limit t prev) ≤ 3 + length (fragments n x limit (chunk_end x limit t) c))%nat.
Proof.
  exists (Z.of_nat t * 21 / limit). cbn [fragments]. destruct (t <? covered x limit)%nat; [| cbn; lia].
  fold (chunk_end x limit t). rewrite length_app.
  destruct (_ =? prev); [cbn [length]; lia | rewrite length_sum_digits by apply length_md5; lia].
Qed.

Lemma fragments_past n x limit t prev : (covered x limit ≤ t)%nat → fragments n x limit t prev = [].
Proof.
  intros. destruct n as [| n]; [done |]. cbn [fragments].
  by destruct (Nat.ltb_spec t (covered x limit)); [lia |].
Qed.

(** Two chunks are covered: at most two sums. *)
Lemma sample_fragments : (length (fragment_sums (blanked (sample_image 65) 0) (sum_limit 81920)) ≤ 36)%nat.
Proof.
  assert (Hc : covered (blanked (sample_image 65) 0) 51200 = Z.to_nat 51200).
  { unfold covered, blanked. rewrite (length_with_appdata _ 0 81920 (sample_iso_image 65 byte_65)).
    - rewrite length_sample_image. lia.
    - apply length_blanks. }
  change (sum_limit 81920) with 51200. unfold fragment_sums.
  set (z := blanked (sample_image 65) 0) in *. clearbody z.
  rewrite (fragments_enough _ (3 + Z.to_nat 51200)) by lia. cbn [Nat.add].
  destruct (length_fragments_step (S (S (Z.to_nat 51200))) z 51200 0 0) as [c1 H1].
  destruct (length_fragments_step (S (Z.to_nat 51200)) z 51200 (chunk_end z 51200 0) c1) as [c2 H2].
  rewrite (fragments_past (S (Z.to_nat 51200))) in H2 by (unfold chunk_end; lia).
  cbn [length] in H2. lia.
Qed.

Lemma parsepvd_reads_back_witness :
  parsepvd (Z.to_nat 81930) (sample_stack []) (mkFile sample_implanted 0) = Undef.
Proof.
  apply (proj2 (parsepvd_reads_back (sample_image 65) 0 81920 true (Z.to_nat 81930) (sample_stack []) 0
    (sample_checkable 65 byte_65) (sample_fuel 65) (sample_checker_memory []))).
  - apply sample_fragments.
  - reflexivity.
Defined.

(** printMD5SUM prints the sum of an implanted image, and its fragment
    sums and their count when there are twenty of them; otherwise the first
    line is all. *)
Theorem printMD5SUM_implanted x k size sup fuel g p file
    (Hck : checkable x k size) (Hfuel : (length x + 1 < fuel)%nat)
    (Hg : checker_memory g) (Habove : g_above g ≠ []) :
  let frag := fragment_sums (blanked x k) (sum_limit size) in
  let line := file ++ str ":   " ++ image_sum x k size ++ [10] in
  printMD5SUM fuel g file (Some (mkFile (implanted_image sup x k size) p)) =
  Ret (0, if (length frag =? 60)%nat then
            [line; str "Fragment sums: " ++ frag ++ [10]; str "Fragment count: 20" ++ [10]]
          else [line]).
Proof.
  cbn zeta. unfold printMD5SUM.
  assert (Hsum : until_nul (image_sum x k size) = image_sum x k size)
    by apply until_nul_no_nul, length_digest_no_nul, md5_byte.
  pose proof (descriptor_offset x k size (ck_image _ _ _ Hck)) as [_ Hpos].
  assert (Hneg : (sector_at k <? 0) = false) by lia.
  destruct (Nat.eqb_spec (length (fragment_sums (blanked x k) (sum_limit size))) 60) as [H60 | Hne].
  - rewrite (parsepvd_scan x k size Hck sup fuel Hfuel g p Hg), scan_implanted;
      [| apply length_image_sum | done].
    rewrite !outcome_bind_ret. cbn [all_flags skipfnd md5fnd andb negb]. rewrite outcome_bind_ret, Hneg.
    cbn [mediasum fragmentsums fragmentcount].
    rewrite until_nul_app_nul, Hsum, H60 by apply fragment_sums_nonzero. done.
  - destruct (parsepvd_implanted x k size Hck sup fuel Hfuel g p Hg (or_introl Habove)) as (o & -> & Ho).
    rewrite outcome_bind_ret, Hneg. destruct Ho as [Hs _ [H0 | (_ & _ & ?)]]; [| done].
    rewrite H0, Hs, Hsum. change (0 <? 0) with false. by rewrite andb_false_r.
Qed.

Lemma printMD5SUM_implanted_witness :
  printMD5SUM (Z.to_nat 81930) (sample_stack [8]) (str "a.iso") (Some (mkFile sample_implanted 0)) =
  Ret (0, [str "a.iso" ++ str ":   " ++ image_sum (sample_image 65) 0 81920 ++ [10]]).
Proof.
  pose proof (printMD5SUM_implanted (sample_image 65) 0 81920 true (Z.to_nat 81930) (sample_stack [8]) 0
    (str "a.iso") (sample_checkable 65 byte_65) (sample_fuel 65) (sample_checker_memory [8])
    (sample_above 8)) as E.
  cbn zeta in E.
  assert (Hne : length (fragment_sums (blanked (sample_image 65) 0) (sum_limit 81920)) ≠ 60%nat).
  { clear E. pose proof sample_fragments. lia. }
  rewrite (proj2 (Nat.eqb_neq _ _) Hne) in E. exact E.
Defined.
