(* ===== verification/Cpio.v ===== *)
(** * The cpio reader and writer (isys/uncpio.c, isys/cpio.h, isys/cpio.c)

    This file models the archive side: headers, padding, skipping and
    myCpioFilterArchive, over any compressed stream ([GzOps]).  Unpacking into
    a file system is in [CpioInstall]; the theorems are in [CpioFacts] and
    [CpioInstallFacts].

    A [char *] into a malloc'ed block is the list of the block's bytes; reading
    it as a string without a NUL in it is [Undef].  The uninitialised byte the
    sources leave behind a name is the parameter [junk]. *)

From S2P Require Import Prelude CLib.

(** ** Compressed streams *)

(** gzread(3) and gzwrite(3): [gz_read g n] reads at most [n] bytes and returns
    the number read, or -1; [gz_write g d] returns the number written. *)
Class GzOps (G : Type) := {
  gz_read : G → Z → Z * bytes * G;
  gz_write : G → bytes → Z * G
}.

(** A stream that delivers its bytes in full and accepts every write. *)
Record memgz := mkGz { gz_in : bytes; gz_out : bytes }.

(** zlib refuses a length that is not an int. *)
Definition mem_read (g : memgz) (n : Z) : Z * bytes * memgz :=
  if 2 ^ 31 <=? n then (-1, [], g)
  else
    let d := take (Z.to_nat n) (gz_in g) in
    (Z.of_nat (length d), d, mkGz (drop (Z.to_nat n) (gz_in g)) (gz_out g)).
Definition mem_write (g : memgz) (d : bytes) : Z * memgz :=
  (Z.of_nat (length d), mkGz (gz_in g) (gz_out g ++ d)).
#[export] Instance memgz_ops : GzOps memgz := {| gz_read := mem_read; gz_write := mem_write |}.

(** ** Error codes *)

(** A code with the CPIOERR_CHECK_ERRNO bit, as an int. *)
Definition CPIOERR_CHECK_ERRNO : Z := 0x80000000.
Definition errno_code (n : Z) : Z := s32 (Z.lor n CPIOERR_CHECK_ERRNO).
Definition CPIOERR_BAD_MAGIC : Z := 2.
Definition CPIOERR_BAD_HEADER : Z := 3.
Definition CPIOERR_OPEN_FAILED : Z := errno_code 4.
Definition CPIOERR_CHMOD_FAILED : Z := errno_code 5.
Definition CPIOERR_CHOWN_FAILED : Z := errno_code 6.
Definition CPIOERR_WRITE_FAILED : Z := errno_code 7.
Definition CPIOERR_UTIME_FAILED : Z := errno_code 8.
Definition CPIOERR_UNLINK_FAILED : Z := errno_code 9.
Definition CPIOERR_SYMLINK_FAILED : Z := errno_code 11.
Definition CPIOERR_STAT_FAILED : Z := errno_code 12.
Definition CPIOERR_MKDIR_FAILED : Z := errno_code 13.
Definition CPIOERR_MKNOD_FAILED : Z := errno_code 14.
Definition CPIOERR_MKFIFO_FAILED : Z := errno_code 15.
Definition CPIOERR_LINK_FAILED : Z := errno_code 16.
Definition CPIOERR_READLINK_FAILED : Z := errno_code 17.
Definition CPIOERR_READ_FAILED : Z := errno_code 18.
Definition CPIOERR_COPY_FAILED : Z := errno_code 19.
Definition CPIOERR_INTERNAL : Z := 20.
Definition CPIOERR_HDR_SIZE : Z := 21.
Definition CPIOERR_UNKNOWN_FILETYPE : Z := 22.

(** ** Headers *)

Definition CPIO_NEWC_MAGIC : bytes := str "070701".
Definition CPIO_CRC_MAGIC : bytes := str "070702".
Definition TRAILER : bytes := str "TRAILER!!!".
Definition PHYS_HDR_SIZE : Z := 110.

(** Offsets of the fields of struct cpioCrcPhysicalHeader. *)
Inductive field := f_inode | f_mode | f_uid | f_gid | f_nlink | f_mtime | f_filesize | f_devMajor
  | f_devMinor | f_rdevMajor | f_rdevMinor | f_namesize | f_checksum.
Definition field_index (f : field) : nat :=
  match f with f_inode => 0 | f_mode => 1 | f_uid => 2 | f_gid => 3 | f_nlink => 4 | f_mtime => 5
  | f_filesize => 6 | f_devMajor => 7 | f_devMinor => 8 | f_rdevMajor => 9 | f_rdevMinor => 10
  | f_namesize => 11 | f_checksum => 12 end.
(** The eight characters of a field, and the header with others there. *)
Definition field_of (f : field) (phys : bytes) : bytes := slice (6 + 8 * field_index f) 8 phys.
Definition set_field (f : field) (v phys : bytes) : bytes := splice (6 + 8 * field_index f) v phys.
Definition set_magic (v phys : bytes) : bytes := splice 0 v phys.

Record cpioHeader := mkHeader {
  inode : Z; mode : Z; uid : Z; gid : Z; nlink : Z; mtime : Z; size : Z; dev : Z; rdev : Z;
  path : bytes
}.
Definition set_path v h := mkHeader (inode h) (mode h) (uid h) (gid h) (nlink h) (mtime h) (size h) (dev h) (rdev h) v.
Definition set_mode v h := mkHeader (inode h) v (uid h) (gid h) (nlink h) (mtime h) (size h) (dev h) (rdev h) (path h).
Definition set_uid v h := mkHeader (inode h) (mode h) v (gid h) (nlink h) (mtime h) (size h) (dev h) (rdev h) (path h).
Definition set_gid v h := mkHeader (inode h) (mode h) (uid h) v (nlink h) (mtime h) (size h) (dev h) (rdev h) (path h).

(** strntoul with base 16: the value as an int and whether the whole field was
    a number.  The C hands out a pointer into its own frame; the byte it
    pointed to is what is read here. *)
Definition strntoul (s : bytes) (base : Z) (num : nat) : Z * bool :=
  let '(v, rest) := strtoul base (until_nul (take num s)) in
  (s32 v, bool_decide (rest = [])).

(** makedev(3) *)
Definition makedev (major minor : Z) : Z :=
  let major := w32 major in let minor := w32 minor in
  Z.lor (Z.lor (Z.shiftl (Z.land major 0xfff) 8) (Z.shiftl (Z.land major 0xfffff000) 32))
        (Z.lor (Z.land minor 0xff) (Z.shiftl (Z.land minor 0xffffff00) 12)).

(** Reading a C string out of a block. *)
Definition c_str (m : bytes) : outcome bytes :=
  if existsb (λ b, b =? 0) m then Ret (until_nul m) else Undef.

Section archive.
Context {G : Type} `{GzOps G} (junk : Z).

(** struct ourfd *)
Record ourfd := mkFd { ofd : G; opos : Z }.

Definition ourread (f : ourfd) (size : Z) : Z * bytes * ourfd :=
  let '(i, d, g) := gz_read (ofd f) (w32 size) in
  (i, d, mkFd g (w64 (opos f + i))).

Definition pad_amount (pos modulo : Z) : Z := w64 (modulo - pos mod modulo) mod modulo.

Definition padinfd (f : ourfd) (modulo : Z) : ourfd :=
  snd (ourread f (pad_amount (opos f) modulo)).

(** [where] is always [&fd->pos]. *)
Definition padoutfd (f : ourfd) (modulo : Z) : Z * ourfd :=
  let amount := pad_amount (opos f) modulo in
  let '(n, g) := gz_write (ofd f) (replicate (Z.to_nat amount) 0) in
  (if n =? amount then 0 else CPIOERR_WRITE_FAILED, mkFd g (w64 (opos f + amount))).

(** GET_NUM_FIELD: the next steps, unless the field is bad. *)
Definition GET_NUM_FIELD {A} (bad : A) (f : field) (phys : bytes) (k : Z → A) : A :=
  let '(v, ok) := strntoul (field_of f phys) 16 8 in if ok then k v else bad.

(** getNextHeader: the error, or the header, the physical header and the
    advanced stream. *)
Inductive next_header := BadHeader (rc : Z) (f : ourfd)
  | Header (h : cpioHeader) (phys : bytes) (f : ourfd).

Definition getNextHeader (f : ourfd) : next_header :=
  let '(n, phys, f) := ourread f PHYS_HDR_SIZE in
  if negb (n =? PHYS_HDR_SIZE) then BadHeader CPIOERR_READ_FAILED f
  else if negb (starts_with CPIO_CRC_MAGIC phys) && negb (starts_with CPIO_NEWC_MAGIC phys) then
    BadHeader CPIOERR_BAD_MAGIC f
  else
    let bad := BadHeader CPIOERR_BAD_HEADER f in
    GET_NUM_FIELD bad f_inode phys (λ ino,
    GET_NUM_FIELD bad f_mode phys (λ mod_,
    GET_NUM_FIELD bad f_uid phys (λ uid_,
    GET_NUM_FIELD bad f_gid phys (λ gid_,
    GET_NUM_FIELD bad f_nlink phys (λ nl,
    GET_NUM_FIELD bad f_mtime phys (λ mt,
    GET_NUM_FIELD bad f_filesize phys (λ sz,
    GET_NUM_FIELD bad f_devMajor phys (λ dmaj,
    GET_NUM_FIELD bad f_devMinor phys (λ dmin,
    GET_NUM_FIELD bad f_rdevMajor phys (λ rmaj,
    GET_NUM_FIELD bad f_rdevMinor phys (λ rmin,
    GET_NUM_FIELD bad f_namesize phys (λ nameSize,
      let '(n, d, f) := ourread f nameSize in
      if negb (n =? nameSize) then BadHeader CPIOERR_BAD_HEADER f
      else
        let path := d ++ replicate (Z.to_nat (nameSize + 1) - length d) junk in
        Header (mkHeader (w64 ino) (w32 mod_) (w32 uid_) (w32 gid_) nl mt (w64 sz)
                 (makedev dmaj dmin) (makedev rmaj rmin) path)
               phys (padinfd f 4))))))))))))).

(** eatBytes: the return value. *)
Fixpoint eatBytes (fuel : nat) (f : ourfd) (amount : Z) : outcome (Z * ourfd) :=
  match fuel with
  | O => NoFuel
  | S fuel =>
      if amount =? 0 then Ret (0, f)
      else
        let bite := if 4096 <? amount then 4096 else amount in
        let '(n, _, f) := ourread f bite in
        if negb (n =? bite) then Ret (CPIOERR_READ_FAILED, f)
        else eatBytes fuel f (amount - bite)
  end.

(** [gzip_write(fd, buf, amount)] for an int amount; zlib refuses a negative
    one. *)
Definition write_amount (f : ourfd) (d : bytes) (amount : Z) : ourfd :=
  if amount <? 0 then f else mkFd (snd (gz_write (ofd f) d)) (opos f).

(** [while (size)] of copyFile *)
Fixpoint copy_data (fuel : nat) (inFd outFd : ourfd) (size : Z) : outcome (ourfd * ourfd) :=
  match fuel with
  | O => NoFuel
  | S fuel =>
      if size =? 0 then Ret (inFd, outFd)
      else
        let '(amount, d, inFd) := ourread inFd (if 8192 <? size then 8192 else size) in
        let outFd := write_amount outFd d amount in
        copy_data fuel inFd outFd (w64 (size - amount))
  end.

(** copyFile always returns 0. *)
Definition copyFile (fuel : nat) (inFd outFd : ourfd) (ch : cpioHeader) (phys : bytes) :
    outcome (ourfd * ourfd) :=
  name ← c_str (path ch);
  let name := name ++ [0] in
  let phys := set_magic CPIO_NEWC_MAGIC phys in
  let g := snd (gz_write (ofd outFd) phys) in
  let g := snd (gz_write g name) in
  let outFd := mkFd g (w64 (opos outFd + PHYS_HDR_SIZE + Z.of_nat (length name))) in
  let outFd := snd (padoutfd outFd 4) in
  '(inFd, outFd) ← copy_data fuel inFd outFd (size ch);
  let outFd := mkFd (ofd outFd) (w64 (opos outFd + size ch)) in
  Ret (inFd, snd (padoutfd outFd 4)).

Context (fnmatch : bytes → bytes → bool).

(** The loop over the archive's entries in myCpioFilterArchive. *)
Fixpoint filter_loop (fuel : nat) (patterns : list bytes) (inFd outFd : ourfd) :
    outcome (Z * ourfd * ourfd) :=
  match fuel with
  | O => NoFuel
  | S fuel =>
      match getNextHeader inFd with
      | BadHeader _ inFd => Ret (CPIOERR_BAD_HEADER, inFd, outFd)
      | Header ch phys inFd =>
          name ← c_str (path ch);
          if streq name TRAILER then Ret (0, inFd, outFd)
          else
            '(inFd, outFd) ←
              (if existsb (λ p, fnmatch p name) patterns then copyFile fuel inFd outFd ch phys
               else '(_, inFd) ← eatBytes fuel inFd (size ch); Ret (inFd, outFd));
            filter_loop fuel patterns (padinfd inFd 4) outFd
      end
  end.

Definition trailer_header : bytes :=
  set_field f_namesize (str "0000000b")
    (set_field f_nlink (str "00000001") (set_magic CPIO_NEWC_MAGIC (replicate 110 48))).

Definition myCpioFilterArchive (fuel : nat) (inStream outStream : G) (patterns : list bytes) :
    outcome (Z * G * G) :=
  '(rc, inFd, outFd) ← filter_loop fuel patterns (mkFd inStream 0) (mkFd outStream 0);
  if negb (rc =? 0) then Ret (rc, ofd inFd, ofd outFd)
  else
    let g := snd (gz_write (ofd outFd) trailer_header) in
    let g := snd (gz_write g (TRAILER ++ [0])) in
    let outFd := mkFd g (w64 (opos outFd + PHYS_HDR_SIZE + 11)) in
    let '(rc, outFd) := padoutfd outFd 4 in
    if negb (rc =? 0) then Ret (rc, ofd inFd, ofd outFd)
    else
      let '(rc, outFd) := padoutfd outFd 512 in
      Ret (rc, ofd inFd, ofd outFd).

End archive.
Arguments ourfd : clear implicits.
Arguments next_header : clear implicits.

(** ** Messages *)

(** ["%x"] of an unsigned int *)
Fixpoint hex_digits (fuel : nat) (z : Z) : bytes :=
  match fuel with
  | O => []
  | S fuel => (if z <? 16 then [] else hex_digits fuel (z / 16)) ++ [hex_digit (z mod 16)]
  end.
Definition fmt_x (z : Z) : bytes := hex_digits 8 (w32 z).

Definition error_names : list (Z * bytes) :=
  [ (CPIOERR_BAD_MAGIC, str "Bad magic"); (CPIOERR_BAD_HEADER, str "Bad header");
    (CPIOERR_OPEN_FAILED, str "open"); (CPIOERR_CHMOD_FAILED, str "chmod");
    (CPIOERR_CHOWN_FAILED, str "chown"); (CPIOERR_WRITE_FAILED, str "write");
    (CPIOERR_UTIME_FAILED, str "utime"); (CPIOERR_UNLINK_FAILED, str "unlink");
    (CPIOERR_SYMLINK_FAILED, str "symlink"); (CPIOERR_STAT_FAILED, str "stat");
    (CPIOERR_MKDIR_FAILED, str "mkdir"); (CPIOERR_MKNOD_FAILED, str "mknod");
    (CPIOERR_MKFIFO_FAILED, str "mkfifo"); (CPIOERR_LINK_FAILED, str "link");
    (CPIOERR_READLINK_FAILED, str "readlink"); (CPIOERR_READ_FAILED, str "read");
    (CPIOERR_COPY_FAILED, str "copy"); (CPIOERR_INTERNAL, str "Internal error");
    (CPIOERR_HDR_SIZE, str "Header size too big");
    (CPIOERR_UNKNOWN_FILETYPE, str "Unknown file type") ].

(** [if (l > 0) strncat(msg, s, l); l -= strlen(s);] *)
Definition append_limited (msg : bytes) (l : Z) (s : bytes) : bytes * Z :=
  (if 0 <? l then msg ++ take (Z.to_nat l) s else msg, l - Z.of_nat (length s)).

(** myCpioStrerror; [strerror_] is the text strerror(3) has for errno. *)
Definition myCpioStrerror (rc : Z) (strerror_ : bytes) : bytes :=
  let msg := str "cpio: " in
  let '(msg, s) :=
    match list_find (λ e, fst e = rc) error_names with
    | Some (_, (_, s)) => (msg, Some s)
    | None => (msg ++ str "(error 0x" ++ fmt_x rc ++ str ")", None)
    end in
  let l := 256 - Z.of_nat (length msg) - 1 in
  let '(msg, l) := match s with Some s => append_limited msg l s | None => (msg, l) end in
  if Z.land rc CPIOERR_CHECK_ERRNO =? 0 then msg
  else
    let '(msg, l) := append_limited msg l (str " failed - ") in
    fst (append_limited msg l strerror_).
