(* ===== verification/CpioFacts.v ===== *)
(** * cpio archives (isys/uncpio.c)

    An abstract archive is a list of entries; [archive] is its byte format
    ("newc").  The theorems relate the code of [Cpio] to it: headers are read
    back, myCpioFilterArchive is [filter] on entries, and the copying loop does
    not end on a truncated archive. *)

From S2P Require Import Prelude CLib Cpio.

#[local] Opaque Z.to_nat.

(** ** Numbers in hexadecimal *)

Lemma length_hex_width n z : length (hex_width n z) = n.
Proof.
  revert z. induction n as [| n IH]; intros z; cbn [hex_width]; [done |].
  rewrite length_app, IH. cbn. lia.
Qed.

Lemma hex_digit_mod z : 48 ≤ hex_digit (z mod 16) ≤ 102 ∧ base_digit 16 (hex_digit (z mod 16)) = Some (z mod 16).
Proof.
  assert (0 ≤ z mod 16 < 16) as Hr by mlia.
  split; [by apply hex_digit_range | by apply hex_digit_value].
Qed.

Lemma hex_width_range n z : Forall (λ b, 48 ≤ b ≤ 102) (hex_width n z).
Proof.
  revert z. induction n as [| n IH]; intros z; cbn [hex_width]; [constructor |].
  apply Forall_app_2; [apply IH |]. constructor; [apply hex_digit_mod | constructor].
Qed.

Lemma hex_width_digits n z : Forall (λ b, is_Some (base_digit 16 b)) (hex_width n z).
Proof.
  revert z. induction n as [| n IH]; intros z; cbn [hex_width]; [constructor |].
  apply Forall_app_2; [apply IH |]. constructor; [| constructor].
  rewrite (proj2 (hex_digit_mod z)). eauto.
Qed.

Lemma read_digits_app base acc s r : Forall (λ b, is_Some (base_digit base b)) s →
  read_digits base acc (s ++ r) = read_digits base (fst (read_digits base acc s)) r.
Proof.
  intros Hs. revert acc. induction Hs as [| b s [d Hd] _ IH]; intros acc; cbn; [done |].
  rewrite Hd. apply IH.
Qed.

Lemma read_hex_width n acc z : 0 ≤ z < 16 ^ Z.of_nat n →
  read_digits 16 acc (hex_width n z) = (acc * 16 ^ Z.of_nat n + z, []).
Proof.
  revert acc z. induction n as [| n IH]; intros acc z Hz.
  - cbn in *. f_equal. lia.
  - cbn [hex_width]. rewrite Nat2Z.inj_succ, Z.pow_succ_r in * by lia.
    rewrite read_digits_app by apply hex_width_digits.
    rewrite IH by mlia. cbn [fst read_digits].
    rewrite (proj2 (hex_digit_mod z)). f_equal.
    pose proof (Z.div_mod z 16 ltac:(done)). lia.
Qed.

Lemma read_number_hex (n : nat) z : (0 < n)%nat → 0 ≤ z < 16 ^ Z.of_nat n →
  read_number 16 (hex_width n z) = Some (false, z, []).
Proof.
  intros Hn Hz. pose proof (hex_width_range n z) as Hr. pose proof (hex_width_digits n z) as Hd.
  pose proof (read_hex_width n 0 z Hz) as E. rewrite Z.mul_0_l, Z.add_0_l in E.
  pose proof (length_hex_width n z) as Hl.
  destruct (hex_width n z) as [| a s]; [cbn in Hl; lia |].
  pose proof (Forall_inv Hr) as Ha. pose proof (Forall_inv Hd) as [da Hda]. cbn beta in Ha, Hda.
  unfold read_number. cbn [skip_space]. unfold isspace.
  destruct (Z.eqb_spec a 32); [lia |]. destruct (Z.leb_spec a 13); [lia |]. rewrite andb_false_r.
  cbn [orb]. destruct (Z.eqb_spec a 45); [lia |]. destruct (Z.eqb_spec a 43); [lia |].
  assert (Hx : ∀ x d r, s = x :: d :: r → ((16 =? 16) && (a =? 48) && ((x =? 120) || (x =? 88)) &&
      bool_decide (is_Some (base_digit 16 d))) = false).
  { intros x d r ->. pose proof (Forall_inv (Forall_inv_tail Hr)) as Hxr. cbn beta in Hxr.
    pose proof (Forall_inv (Forall_inv_tail Hd)) as Hxd. cbn beta in Hxd.
    destruct (Z.eqb_spec x 120); [lia |]. destruct (Z.eqb_spec x 88) as [-> |].
    - destruct Hxd as [v Hv]. discriminate.
    - cbn [orb]. by rewrite andb_false_r. }
  destruct s as [| x [| d r]]; [| | rewrite (Hx x d r eq_refl)];
    rewrite Hda, E; done.
Qed.

(** A number as the eight characters of a header field. *)
Definition hex8 (z : Z) : bytes := hex_width 8 z.

Lemma strntoul_hex8 z : 0 ≤ z < 2 ^ 32 → strntoul (hex8 z) 16 8 = (s32 z, true).
Proof.
  intros Hz. unfold strntoul. rewrite take_ge by (unfold hex8; rewrite length_hex_width; lia).
  rewrite until_nul_no_nul.
  2:{ eapply list.Forall_impl; [apply hex_width_range |]. cbn. lia. }
  unfold strtoul, hex8. rewrite read_number_hex by (change (16 ^ Z.of_nat 8) with (2 ^ 32); lia).
  change (2 ^ 32) with 4294967296 in Hz. change (2 ^ 64) with 18446744073709551616.
  destruct (Z.leb_spec 18446744073709551616 z); [lia |]. done.
Qed.

(** ** Entries *)

Record entry := mkEntry {
  e_crc : bool;          (* magic 070702 *)
  e_num : field → Z;     (* all fields but filesize and namesize *)
  e_name : bytes;
  e_data : bytes
}.

Definition e_field (e : entry) (f : field) : Z :=
  match f with
  | f_filesize => Z.of_nat (length (e_data e))
  | f_namesize => Z.of_nat (length (e_name e)) + 1
  | f => e_num e f
  end.

Definition all_fields : list field := [f_inode; f_mode; f_uid; f_gid; f_nlink; f_mtime; f_filesize;
  f_devMajor; f_devMinor; f_rdevMajor; f_rdevMinor; f_namesize; f_checksum].

Definition entry_fields (e : entry) : bytes := mjoin ((λ f, hex8 (e_field e f)) <$> all_fields).
Definition entry_magic (e : entry) : bytes := if e_crc e then CPIO_CRC_MAGIC else CPIO_NEWC_MAGIC.

(** Zeros up to the next multiple of [m]. *)
Definition pad (m n : nat) : bytes := replicate ((m - n mod m) mod m) 0.

Definition entry_head (e : entry) : bytes :=
  entry_magic e ++ entry_fields e ++ e_name e ++ [0] ++ pad 4 (111 + length (e_name e)).
Definition entry_bytes (e : entry) : bytes :=
  entry_head e ++ e_data e ++ pad 4 (length (e_data e)).

Definition trailer_entry : entry :=
  mkEntry false (λ f, match f with f_nlink => 1 | _ => 0 end) TRAILER [].
Definition archive (es : list entry) : bytes :=
  mjoin (entry_bytes <$> es) ++ entry_bytes trailer_entry.

(** An entry the format can hold. *)
Record entry_ok (e : entry) : Prop := {
  eo_num f : 0 ≤ e_num e f < 2 ^ 32;
  eo_name : Forall (λ b, b ≠ 0) (e_name e);
  eo_name_len : Z.of_nat (length (e_name e)) + 1 < 2 ^ 31;
  eo_data_len : Z.of_nat (length (e_data e)) < 2 ^ 31
}.

Lemma e_field_range e f : entry_ok e → 0 ≤ e_field e f < 2 ^ 32.
Proof.
  intros [Hn _ Hl Hd]. change (2 ^ 31) with 2147483648 in *. change (2 ^ 32) with 4294967296 in *.
  destruct f; cbn [e_field]; try apply Hn; lia.
Qed.

Lemma length_entry_fields e : length (entry_fields e) = 104%nat.
Proof. unfold entry_fields, all_fields, hex8. cbn [fmap list_fmap mjoin list_join]. rewrite !length_app, !length_hex_width. reflexivity. Qed.

Lemma length_entry_magic e : length (entry_magic e) = 6%nat.
Proof. unfold entry_magic. by destruct (e_crc e). Qed.

(** The [i]-th of the strings of eight characters. *)
Lemma slice_join8 (l : list bytes) i s : Forall (λ s, length s = 8%nat) l → l !! i = Some s →
  slice (8 * i) 8 (mjoin l) = s.
Proof.
  intros Hl. revert i. induction Hl as [| a l Ha Hl IH]; intros i Hi; [done |].
  cbn [mjoin list_join]. destruct i as [| i].
  - injection Hi as ->. rewrite slice_app_l by lia. by apply slice_all.
  - rewrite slice_app_r by lia. replace (8 * S i - length a)%nat with (8 * i)%nat by lia. by apply IH.
Qed.

Lemma field_of_head e f r : field_of f ((entry_magic e ++ entry_fields e) ++ r) = hex8 (e_field e f).
Proof.
  unfold field_of. rewrite slice_app_l
    by (rewrite length_app, length_entry_magic, length_entry_fields; destruct f; cbn; lia).
  rewrite slice_app_r by (rewrite length_entry_magic; lia). rewrite length_entry_magic.
  replace (6 + 8 * field_index f - 6)%nat with (8 * field_index f)%nat by lia.
  apply slice_join8.
  - apply Forall_fmap, Forall_true. intros. apply length_hex_width.
  - by destruct f.
Qed.

(** The header of an entry as getNextHeader stores it. *)
Definition header_of (e : entry) (path : bytes) : cpioHeader :=
  mkHeader (w64 (s32 (e_field e f_inode))) (w32 (s32 (e_field e f_mode)))
    (w32 (s32 (e_field e f_uid))) (w32 (s32 (e_field e f_gid))) (s32 (e_field e f_nlink))
    (s32 (e_field e f_mtime)) (Z.of_nat (length (e_data e)))
    (makedev (s32 (e_field e f_devMajor)) (s32 (e_field e f_devMinor)))
    (makedev (s32 (e_field e f_rdevMajor)) (s32 (e_field e f_rdevMinor))) path.

(** ** Reading from memory *)

Lemma ourread_exact (d r o : bytes) p (n : Z) : n = Z.of_nat (length d) → n < 2 ^ 31 →
  ourread (mkFd (mkGz (d ++ r) o) p) n = (n, d, mkFd (mkGz r o) (w64 (p + n))).
Proof.
  intros -> Hn. change (2 ^ 31) with 2147483648 in Hn. unfold ourread.
  rewrite wrap_small by (change (2 ^ 32) with 4294967296; lia). cbn. unfold mem_read.
  change (2 ^ 31) with 2147483648. destruct (Z.leb_spec 2147483648 (Z.of_nat (length d))); [lia |].
  cbn [gz_in gz_out ofd]. rewrite Nat2Z.id, take_app_length, drop_app_length. done.
Qed.

Lemma w64_add p q : w64 (w64 p + q) = w64 (p + q).
Proof. apply wrap_add_l. Qed.

Lemma pad_amount_w64 p (m : nat) : m = 4%nat ∨ m = 512%nat →
  pad_amount (w64 p) (Z.of_nat m) = (Z.of_nat m - p mod Z.of_nat m) mod Z.of_nat m.
Proof.
  intros Hm. unfold pad_amount, wrap. change (2 ^ 64) with 18446744073709551616.
  destruct Hm as [-> | ->]; [change (Z.of_nat 4) with 4 | change (Z.of_nat 512) with 512]; mlia.
Qed.

Lemma length_pad m n : (m ≠ 0)%nat → Z.of_nat (length (pad m n)) =
  (Z.of_nat m - Z.of_nat n mod Z.of_nat m) mod Z.of_nat m.
Proof.
  intros. unfold pad. rewrite length_replicate, Nat2Z.inj_mod, Nat2Z.inj_sub, Nat2Z.inj_mod; [done |].
  pose proof (Nat.mod_upper_bound n m). lia.
Qed.

(** Padding up to a multiple of 4, from a position [4 k + n]. *)
Lemma pad4_amount p n : p mod 4 = 0 → pad_amount (w64 (p + Z.of_nat n)) 4 = Z.of_nat (length (pad 4 n)).
Proof.
  intros Hp. rewrite (pad_amount_w64 _ 4) by auto. rewrite length_pad by lia.
  change (Z.of_nat 4) with 4. mlia.
Qed.

Lemma length_pad_small m n : (0 < m)%nat → (length (pad m n) < m)%nat.
Proof. intros. unfold pad. rewrite length_replicate. apply Nat.mod_upper_bound. lia. Qed.

Lemma padinfd_pad4 (r o : bytes) p n : p mod 4 = 0 →
  padinfd (mkFd (mkGz (pad 4 n ++ r) o) (w64 (p + Z.of_nat n))) 4 =
  mkFd (mkGz r o) (w64 (p + Z.of_nat n + Z.of_nat (length (pad 4 n)))).
Proof.
  intros Hp. unfold padinfd. cbn [opos]. rewrite pad4_amount by done.
  pose proof (length_pad_small 4 n ltac:(lia)).
  rewrite ourread_exact by (done || change (2 ^ 31) with 2147483648; lia). cbn [snd]. by rewrite w64_add.
Qed.

Lemma pad_aligned p n : p mod 4 = 0 → (p + Z.of_nat n + Z.of_nat (length (pad 4 n))) mod 4 = 0.
Proof. intros Hp. rewrite length_pad by lia. change (Z.of_nat 4) with 4. mlia. Qed.

(** ** getNextHeader *)

Section reading.
Context (junk : Z).

Lemma GET_NUM_FIELD_head {A} (bad : A) f e r k : entry_ok e →
  GET_NUM_FIELD bad f ((entry_magic e ++ entry_fields e) ++ r) k = k (s32 (e_field e f)).
Proof.
  intros He. unfold GET_NUM_FIELD. rewrite field_of_head, strntoul_hex8 by by apply e_field_range.
  done.
Qed.

Lemma s32_small z : 0 ≤ z < 2 ^ 31 → s32 z = z.
Proof. intros. apply swrap_small; [done |]. change (2 ^ (32 - 1)) with (2 ^ 31). lia. Qed.

Lemma getNextHeader_entry e p r o : entry_ok e → p mod 4 = 0 →
  getNextHeader junk (mkFd (mkGz (entry_head e ++ r) o) (w64 p)) =
  Header (header_of e (e_name e ++ [0; junk])) (entry_magic e ++ entry_fields e)
    (mkFd (mkGz r o) (w64 (p + Z.of_nat (length (entry_head e))))).
Proof.
  intros He Hp. set (phys := entry_magic e ++ entry_fields e).
  assert (Hlp : length phys = 110%nat)
    by (unfold phys; by rewrite length_app, length_entry_magic, length_entry_fields).
  assert (Hh : entry_head e ++ r = phys ++ (e_name e ++ [0]) ++ pad 4 (111 + length (e_name e)) ++ r).
  { unfold entry_head, phys. by rewrite <- !(assoc_L (++)). }
  rewrite Hh. unfold getNextHeader, PHYS_HDR_SIZE.
  rewrite ourread_exact by (rewrite ?Hlp; done || change (2 ^ 31) with 2147483648; lia).
  change (negb (110 =? 110)) with false. cbn iota.
  assert (Hmag : negb (starts_with CPIO_CRC_MAGIC phys) && negb (starts_with CPIO_NEWC_MAGIC phys) = false).
  { unfold phys, entry_magic. destruct (e_crc e); rewrite starts_with_app; [done | by rewrite andb_false_r]. }
  rewrite Hmag. assert (Hget : ∀ A (bad : A) f k, GET_NUM_FIELD bad f phys k = k (s32 (e_field e f))).
  { intros. pose proof (GET_NUM_FIELD_head bad f e [] k He) as E. by rewrite app_nil_r in E. }
  rewrite !Hget. destruct He as [_ _ Hln Hld].
  cbn [e_field]. rewrite (s32_small (Z.of_nat (length (e_name e)) + 1)) by lia.
  rewrite ourread_exact by (rewrite ?length_app; cbn [length]; lia).
  rewrite Z.eqb_refl. cbn [negb].
  rewrite (s32_small (Z.of_nat (length (e_data e)))) by lia.
  change (2 ^ 31) with 2147483648 in *.
  rewrite (wrap_small 64 (Z.of_nat (length (e_data e)))) by (change (2 ^ 64) with 18446744073709551616; lia).
  rewrite w64_add, <- (Z.add_assoc (w64 p)), w64_add.
  replace (p + (110 + (Z.of_nat (length (e_name e)) + 1)))
    with (p + Z.of_nat (111 + length (e_name e))) by lia.
  rewrite padinfd_pad4 by done.
  unfold header_of. cbn [e_field]. rewrite length_app. cbn [length].
  replace (Z.to_nat (Z.of_nat (length (e_name e)) + 1 + 1) - (length (e_name e) + 1))%nat with 1%nat by lia.
  rewrite <- (assoc_L (++)). cbn [replicate app]. do 3 f_equal.
  unfold entry_head. rewrite !length_app, length_entry_magic, length_entry_fields. cbn [length]. lia.
Qed.

Lemma c_str_name s r : Forall (λ b, b ≠ 0) s → c_str (s ++ 0 :: r) = Ret s.
Proof.
  intros Hs. unfold c_str. rewrite existsb_app. cbn [existsb]. change (0 =? 0) with true.
  cbn [orb]. rewrite orb_true_r. by rewrite until_nul_app_nul.
Qed.
End reading.

(** ** Skipping and copying *)

Lemma split_data (d : bytes) n : (n ≤ length d)%nat →
  ∃ d1 d2, d = d1 ++ d2 ∧ length d1 = n.
Proof.
  intros. exists (take n d), (drop n d). split; [by rewrite take_drop | by rewrite length_take_le].
Qed.

(** The bite the loops take of [n] bytes. *)
Lemma bite_size (max n : Z) : 0 < max → 0 < n → 0 < (if max <? n then max else n) ≤ n ∧
  (if max <? n then max else n) ≤ max.
Proof. intros. destruct (Z.ltb_spec max n); lia. Qed.

Lemma eatBytes_data fuel d r o p : (length d < fuel)%nat →
  eatBytes fuel (mkFd (mkGz (d ++ r) o) (w64 p)) (Z.of_nat (length d)) =
  Ret (0, mkFd (mkGz r o) (w64 (p + Z.of_nat (length d)))).
Proof.
  revert d p. induction fuel as [| fuel IH]; intros d p Hf; [lia |]. cbn [eatBytes].
  destruct (Z.eqb_spec (Z.of_nat (length d)) 0) as [H0 | Hne].
  { destruct d; [| cbn in H0; lia]. cbn [length app]. by rewrite Z.add_0_r. }
  destruct (bite_size 4096 (Z.of_nat (length d))) as [Hb Hb']; [lia | lia |].
  set (b := if 4096 <? _ then _ else _) in *. clearbody b.
  destruct (split_data d (Z.to_nat b) ltac:(lia)) as (d1 & d2 & -> & Hl1).
  rewrite <- (assoc_L (++)).
  rewrite ourread_exact by (change (2 ^ 31) with 2147483648; lia).
  rewrite Z.eqb_refl. cbn [negb]. rewrite length_app in *.
  rewrite w64_add. replace (Z.of_nat (length d1 + length d2) - b) with (Z.of_nat (length d2)) by lia.
  rewrite IH by lia. do 4 f_equal. lia.
Qed.

Lemma copy_data_all fuel d r o pi out oin po : (length d < fuel)%nat → Z.of_nat (length d) < 2 ^ 31 →
  copy_data fuel (mkFd (mkGz (d ++ r) o) (w64 pi)) (mkFd (mkGz oin out) po)
    (Z.of_nat (length d)) =
  Ret (mkFd (mkGz r o) (w64 (pi + Z.of_nat (length d))), mkFd (mkGz oin (out ++ d)) po).
Proof.
  change (2 ^ 31) with 2147483648.
  revert d pi out. induction fuel as [| fuel IH]; intros d pi out Hf Hd; [lia |]. cbn [copy_data].
  destruct (Z.eqb_spec (Z.of_nat (length d)) 0) as [H0 | Hne].
  { destruct d; [| cbn in H0; lia]. cbn [length app]. by rewrite Z.add_0_r, app_nil_r. }
  destruct (bite_size 8192 (Z.of_nat (length d))) as [Hb Hb']; [lia | lia |].
  set (b := if 8192 <? _ then _ else _) in *. clearbody b.
  destruct (split_data d (Z.to_nat b) ltac:(lia)) as (d1 & d2 & -> & Hl1).
  rewrite <- (assoc_L (++)).
  rewrite ourread_exact by (change (2 ^ 31) with 2147483648; lia).
  unfold write_amount. destruct (Z.ltb_spec b 0); [lia |]. cbn [gz_write memgz_ops mem_write snd ofd gz_in gz_out opos].
  rewrite length_app in *. rewrite w64_add.
  rewrite (wrap_small 64 (Z.of_nat (length d1 + length d2) - b))
    by (change (2 ^ 64) with 18446744073709551616; lia).
  replace (Z.of_nat (length d1 + length d2) - b) with (Z.of_nat (length d2)) by lia.
  rewrite IH by lia. rewrite <- (assoc_L (++)). do 4 f_equal. lia.
Qed.

Lemma padoutfd_pad (oin out : bytes) p (m n : nat) : (m = 4 ∨ m = 512)%nat →
  (p + Z.of_nat n) mod Z.of_nat m = Z.of_nat n mod Z.of_nat m →
  padoutfd (mkFd (mkGz oin out) (w64 (p + Z.of_nat n))) (Z.of_nat m) =
  (0, mkFd (mkGz oin (out ++ pad m n)) (w64 (p + Z.of_nat n + Z.of_nat (length (pad m n))))).
Proof.
  intros Hm Hp. unfold padoutfd. cbn [opos ofd].
  assert (Ha : pad_amount (w64 (p + Z.of_nat n)) (Z.of_nat m) = Z.of_nat (length (pad m n))).
  { rewrite pad_amount_w64, length_pad by (done || lia). by rewrite Hp. }
  rewrite Ha. cbn [gz_write memgz_ops mem_write gz_in gz_out]. rewrite Nat2Z.id, length_replicate, Z.eqb_refl.
  rewrite w64_add. do 4 f_equal. unfold pad. by rewrite length_replicate.
Qed.

Lemma aligned_mod (p : Z) (n m : nat) : (m ≠ 0)%nat → p mod Z.of_nat m = 0 →
  (p + Z.of_nat n) mod Z.of_nat m = Z.of_nat n mod Z.of_nat m.
Proof. intros Hm Hp. rewrite Zplus_mod, Hp, Z.add_0_l, Zmod_mod. done. Qed.

Lemma padoutfd_4 (oin out : bytes) p (n : nat) : p mod 4 = 0 →
  padoutfd (mkFd (mkGz oin out) (w64 (p + Z.of_nat n))) 4 =
  (0, mkFd (mkGz oin (out ++ pad 4 n)) (w64 (p + Z.of_nat n + Z.of_nat (length (pad 4 n))))).
Proof. intros Hp. apply (padoutfd_pad oin out p 4 n); [by left | by apply (aligned_mod p n 4)]. Qed.

(** What copyFile writes for an entry: always the newc magic. *)
Definition as_newc (e : entry) : entry := mkEntry false (e_num e) (e_name e) (e_data e).

Lemma set_magic_head e : set_magic CPIO_NEWC_MAGIC (entry_magic e ++ entry_fields e) =
  entry_magic (as_newc e) ++ entry_fields (as_newc e).
Proof.
  unfold set_magic. pose proof (splice_app_exact [] (entry_magic e) (entry_fields e) CPIO_NEWC_MAGIC) as Hs.
  cbn [length app] in Hs. rewrite Hs; [done |]. by rewrite length_entry_magic.
Qed.

Lemma copyFile_entry junk fuel e r o pi oin out po : entry_ok e → (length (e_data e) < fuel)%nat →
  po mod 4 = 0 →
  copyFile fuel (mkFd (mkGz (e_data e ++ r) o) (w64 pi)) (mkFd (mkGz oin out) (w64 po))
    (header_of e (e_name e ++ [0; junk])) (entry_magic e ++ entry_fields e) =
  Ret (mkFd (mkGz r o) (w64 (pi + Z.of_nat (length (e_data e)))),
       mkFd (mkGz oin (out ++ entry_bytes (as_newc e)))
         (w64 (po + Z.of_nat (length (entry_bytes (as_newc e)))))).
Proof.
  intros He Hf Hp. unfold copyFile. cbn [path header_of].
  rewrite c_str_name, outcome_bind_ret by apply He. rewrite set_magic_head.
  cbn [gz_write memgz_ops mem_write snd ofd gz_in gz_out opos].
  unfold PHYS_HDR_SIZE.
  replace (w64 (w64 po + 110 + Z.of_nat (length (e_name e ++ [0]))))
    with (w64 (po + Z.of_nat (111 + length (e_name e)))).
  2:{ rewrite <- (Z.add_assoc (w64 po)), w64_add, length_app. cbn [length]. f_equal. lia. }
  rewrite padoutfd_4 by done. cbn [snd size header_of].
  rewrite copy_data_all, outcome_bind_ret by (done || apply He). cbn [opos ofd].
  rewrite w64_add. pose proof (pad_aligned po (111 + length (e_name e)) Hp) as Hal.
  rewrite padoutfd_4 by done. cbn [snd].
  do 3 f_equal.
  - unfold entry_bytes, entry_head. cbn [e_name e_data as_newc]. by rewrite <- !(assoc_L (++)).
  - unfold entry_bytes, entry_head. cbn [e_name e_data as_newc].
    rewrite !length_app, length_entry_magic, length_entry_fields. cbn [length]. f_equal. lia.
Qed.

(** ** myCpioFilterArchive *)

Lemma length_entry_head e : Z.of_nat (length (entry_head e)) =
  Z.of_nat (111 + length (e_name e)) + Z.of_nat (length (pad 4 (111 + length (e_name e)))).
Proof.
  unfold entry_head. rewrite !length_app, length_entry_magic, length_entry_fields. cbn [length]. lia.
Qed.

Lemma entry_head_aligned e : Z.of_nat (length (entry_head e)) mod 4 = 0.
Proof.
  rewrite length_entry_head. pose proof (pad_aligned 0 (111 + length (e_name e)) eq_refl) as Hp.
  by rewrite Z.add_0_l in Hp.
Qed.

Lemma length_entry_bytes e : Z.of_nat (length (entry_bytes e)) =
  Z.of_nat (length (entry_head e)) + Z.of_nat (length (e_data e)) + Z.of_nat (length (pad 4 (length (e_data e)))).
Proof. unfold entry_bytes. rewrite !length_app. lia. Qed.

Lemma entry_bytes_aligned e : Z.of_nat (length (entry_bytes e)) mod 4 = 0.
Proof. rewrite length_entry_bytes. apply pad_aligned, entry_head_aligned. Qed.

Lemma add_aligned p q : p mod 4 = 0 → q mod 4 = 0 → (p + q) mod 4 = 0.
Proof. mlia. Qed.

Lemma body_aligned es : Z.of_nat (length (mjoin (entry_bytes <$> es))) mod 4 = 0.
Proof.
  induction es as [| e l IH]; [done |]. cbn [fmap list_fmap mjoin list_join].
  rewrite length_app, Nat2Z.inj_add. apply add_aligned; [apply entry_bytes_aligned | exact IH].
Qed.

Lemma trailer_ok : entry_ok trailer_entry.
Proof.
  constructor.
  - intros []; cbn; change (2 ^ 32) with 4294967296; lia.
  - apply (bool_decide_unpack _). vm_compute. exact I.
  - cbn. change (2 ^ 31) with 2147483648. lia.
  - cbn. change (2 ^ 31) with 2147483648. lia.
Qed.

Lemma trailer_bytes : entry_bytes trailer_entry = entry_head trailer_entry.
Proof. reflexivity. Qed.

Section filtering.
Context (junk : Z) (fnmatch : bytes → bytes → bool) (patterns : list bytes).

Definition selected (e : entry) : bool := existsb (λ p, fnmatch p (e_name e)) patterns.
(** The entries the filter keeps, as it writes them. *)
Definition kept (es : list entry) : list entry := as_newc <$> List.filter selected es.

(** An archive entry that is not mistaken for the trailer. *)
Definition member_ok (e : entry) : Prop := entry_ok e ∧ e_name e ≠ TRAILER.

Lemma filter_loop_archive es tail o oin out pi po fuel : Forall member_ok es →
  pi mod 4 = 0 → po mod 4 = 0 → (length (archive es) < fuel)%nat →
  ∃ pi', filter_loop junk fnmatch fuel patterns
      (mkFd (mkGz (archive es ++ tail) o) (w64 pi)) (mkFd (mkGz oin out) (w64 po)) =
    Ret (0, mkFd (mkGz tail o) pi',
         mkFd (mkGz oin (out ++ mjoin (entry_bytes <$> kept es)))
           (w64 (po + Z.of_nat (length (mjoin (entry_bytes <$> kept es)))))).
Proof.
  intros Hes. revert out pi po fuel. induction Hes as [| e es [He Hne] _ IH]; intros out pi po fuel Hpi Hpo Hf;
    (destruct fuel as [| fuel]; [lia |]); cbn [filter_loop].
  - unfold archive. cbn [fmap list_fmap mjoin list_join app]. rewrite trailer_bytes.
    rewrite getNextHeader_entry by (done || apply trailer_ok). cbn [path header_of].
    rewrite c_str_name, outcome_bind_ret by apply trailer_ok.
    change (streq (e_name trailer_entry) TRAILER) with true. cbn iota.
    cbn. rewrite app_nil_r, Z.add_0_r. eauto.
  - assert (Hsplit : archive (e :: es) = entry_bytes e ++ archive es)
      by (unfold archive; cbn [fmap list_fmap mjoin list_join]; by rewrite <- (assoc_L (++))).
    rewrite Hsplit in Hf |- *. rewrite length_app in Hf. unfold entry_bytes at 1.
    pose proof (length_entry_bytes e) as Hleb. pose proof (length_entry_head e) as Hleh.
    rewrite <- !(assoc_L (++)). rewrite getNextHeader_entry by done. cbn [path header_of].
    rewrite c_str_name, outcome_bind_ret by apply He.
    assert (Hst : streq (e_name e) TRAILER = false)
      by (destruct (streq (e_name e) TRAILER) eqn:E; [apply streq_spec in E; done | done]).
    rewrite Hst. fold (selected e).
    pose proof (entry_head_aligned e) as Hha. pose proof (entry_bytes_aligned (as_newc e)) as Hba.
    assert (Hpos : ∀ q, w64 (pi + Z.of_nat (length (entry_head e)) + Z.of_nat q) =
      w64 ((pi + Z.of_nat (length (entry_head e))) + Z.of_nat q)) by done.
    destruct (selected e) eqn:Hsel.
    + rewrite copyFile_entry, outcome_bind_ret by (done || lia).
      rewrite padinfd_pad4 by (by apply add_aligned).
      destruct (IH (out ++ entry_bytes (as_newc e))
        (pi + Z.of_nat (length (entry_head e)) + Z.of_nat (length (e_data e)) +
           Z.of_nat (length (pad 4 (length (e_data e)))))
        (po + Z.of_nat (length (entry_bytes (as_newc e)))) fuel) as [pi' E];
        [by apply pad_aligned, add_aligned | by apply add_aligned | lia |].
      exists pi'. rewrite E. unfold kept. cbn [List.filter]. rewrite Hsel. cbn [fmap list_fmap mjoin list_join].
      rewrite <- (assoc_L (++)), length_app, Nat2Z.inj_add, Z.add_assoc. done.
    + change (size (header_of e (e_name e ++ [0; junk]))) with (Z.of_nat (length (e_data e))).
      rewrite eatBytes_data by lia. rewrite !outcome_bind_ret.
      rewrite padinfd_pad4 by (by apply add_aligned).
      destruct (IH out
        (pi + Z.of_nat (length (entry_head e)) + Z.of_nat (length (e_data e)) +
           Z.of_nat (length (pad 4 (length (e_data e)))))
        po fuel) as [pi' E]; [by apply pad_aligned, add_aligned | done | lia |].
      exists pi'. rewrite E. unfold kept. cbn [List.filter]. by rewrite Hsel.
Qed.

Lemma trailer_written : trailer_header ++ TRAILER ++ [0] ++ pad 4 121 = entry_bytes trailer_entry.
Proof. reflexivity. Qed.

Lemma filter_archive_run es tail o oin fuel : Forall member_ok es → (length (archive es) < fuel)%nat →
  let out := archive (kept es) in
  myCpioFilterArchive junk fnmatch fuel (mkGz (archive es ++ tail) o) (mkGz oin []) patterns =
  Ret (0, mkGz tail o, mkGz oin (out ++ pad 512 (length out))).
Proof.
  intros Hes Hf out. unfold myCpioFilterArchive.
  destruct (filter_loop_archive es tail o oin [] 0 0 fuel Hes eq_refl eq_refl Hf) as [pi' E].
  rewrite wrap_small in E by (change (2 ^ 64) with 18446744073709551616; lia).
  rewrite E, outcome_bind_ret. cbn [negb Z.eqb app]. change (negb (0 =? 0)) with false. cbn iota.
  cbn [gz_write memgz_ops mem_write snd ofd gz_in gz_out opos].
  set (body := mjoin (entry_bytes <$> kept es)). unfold PHYS_HDR_SIZE.
  assert (Hal : Z.of_nat (length body) mod 4 = 0).
  { apply body_aligned. }
  rewrite Z.add_0_l, <- (Z.add_assoc (w64 _)), w64_add.
  change (110 + 11) with (Z.of_nat 121). rewrite padoutfd_4 by done.
  change (negb (0 =? 0)) with false. cbn iota.
  assert (Hout : ((body ++ trailer_header) ++ TRAILER ++ [0]) ++ pad 4 121 = out).
  { unfold out, archive. fold body. rewrite <- trailer_written. by rewrite <- !(assoc_L (++)). }
  rewrite Hout.
  replace (Z.of_nat (length body) + Z.of_nat 121 + Z.of_nat (length (pad 4 121)))
    with (0 + Z.of_nat (length out)).
  2:{ rewrite <- Hout, !length_app. change (length trailer_header) with 110%nat.
      change (length TRAILER) with 10%nat. change (length [0]) with 1%nat. lia. }
  rewrite (padoutfd_pad _ _ 0 512 (length out) (or_intror eq_refl) eq_refl). done.
Qed.
End filtering.

(** ** Truncated archives *)

(** At the end of the stream the copying loop makes no progress. *)
Lemma copy_data_starved fuel o pi outFd n : w64 n ≠ 0 →
  copy_data fuel (mkFd (mkGz [] o) pi) outFd (w64 n) = NoFuel.
Proof.
  intros Hn.
  pose proof (wrap_range 64 n ltac:(done)) as Hr. revert pi outFd.
  induction fuel as [| fuel IH]; intros pi outFd; [done |]. cbn [copy_data].
  destruct (Z.eqb_spec (w64 n) 0); [done |].
  destruct (bite_size 8192 (w64 n)) as [Hb Hb']; [lia | lia |].
  set (b := if 8192 <? _ then _ else _) in *. clearbody b.
  unfold ourread. rewrite (wrap_small 32 b) by (change (2 ^ 32) with 4294967296; lia).
  cbn [gz_read memgz_ops ofd]. unfold mem_read. change (2 ^ 31) with 2147483648.
  destruct (Z.leb_spec 2147483648 b); [lia |]. cbn [gz_in gz_out]. rewrite take_nil, drop_nil.
  cbn [length]. change (Z.of_nat 0) with 0. rewrite Z.sub_0_r, wrap_idemp. apply IH.
Qed.

(** ** Messages *)

Lemma append_limited_length msg l s msg' l' : append_limited msg l s = (msg', l') →
  Z.of_nat (length msg) + l ≤ 255 → Z.of_nat (length msg) ≤ 255 →
  Z.of_nat (length msg') + l' ≤ 255 ∧ Z.of_nat (length msg') ≤ 255.
Proof.
  unfold append_limited. intros [= <- <-] H1 H2. destruct (Z.ltb_spec 0 l); [| lia].
  rewrite length_app, length_take. lia.
Qed.

Lemma length_hex_digits n z : (length (hex_digits n z) ≤ n)%nat.
Proof.
  revert z. induction n as [| n IH]; intros z; cbn [hex_digits]; [done |].
  rewrite length_app. cbn [length]. destruct (z <? 16); cbn [length]; [lia |]. specialize (IH (z / 16)). lia.
Qed.

Lemma error_names_short : Forall (λ e, (length (snd e) ≤ 20)%nat) error_names.
Proof. apply (bool_decide_unpack _). vm_compute. exact I. Qed.

Lemma length_as_newc e : length (entry_bytes (as_newc e)) = length (entry_bytes e).
Proof.
  unfold entry_bytes, entry_head. by rewrite !length_app, !length_entry_magic, !length_entry_fields.
Qed.

Lemma kept_again fnmatch patterns es : Forall member_ok es →
  kept fnmatch patterns (kept fnmatch patterns es) = kept fnmatch patterns es ∧
  Forall member_ok (kept fnmatch patterns es) ∧
  (length (archive (kept fnmatch patterns es)) ≤ length (archive es))%nat.
Proof.
  unfold kept, archive. rewrite !length_app.
  induction 1 as [| e es [[Hn Hnm Hl Hd] Hne] _ (IH1 & IH2 & IH3)]; [done |].
  cbn [List.filter]. destruct (selected fnmatch patterns e) eqn:Hs.
  - cbn [fmap list_fmap List.filter mjoin list_join] in *.
    change (selected fnmatch patterns (as_newc e)) with (selected fnmatch patterns e). rewrite Hs.
    cbn [fmap list_fmap]. split_and!.
    + change (as_newc (as_newc e)) with (as_newc e). by f_equal.
    + apply list.Forall_cons. split; [split; [constructor; done | done] | done].
    + rewrite !length_app in *. rewrite length_as_newc, <- !Nat.add_assoc. apply Nat.add_le_mono_l, IH3.
  - cbn [fmap list_fmap mjoin list_join]. rewrite !length_app. split_and!; [done | done |].
    etransitivity; [apply IH3 |]. rewrite <- Nat.add_assoc. apply Nat.le_add_l.
Qed.

(** ** Properties *)

(** C6: getNextHeader reads back the header of every entry the format can
    hold: each field (truncated the way the code stores it), the name with its
    terminating NUL, and the stream positioned on the entry's data, behind the
    padding. *)
Theorem getNextHeader_reads junk e p r o (He : entry_ok e) (Hp : p mod 4 = 0) :
  getNextHeader junk (mkFd (mkGz (entry_head e ++ r) o) (w64 p)) =
  Header (header_of e (e_name e ++ [0; junk])) (entry_magic e ++ entry_fields e)
    (mkFd (mkGz r o) (w64 (p + Z.of_nat (length (entry_head e))))) ∧
  (p + Z.of_nat (length (entry_head e))) mod 4 = 0.
Proof. split; [by apply getNextHeader_entry | by apply add_aligned, entry_head_aligned]. Qed.

Definition sample_entry (name data : bytes) : entry :=
  mkEntry true (λ f, match f with f_mode => 33188 | f_nlink => 1 | f_mtime => 0xfffffffe | _ => 7 end) name data.

Lemma sample_entry_ok name data : Forall (λ b, b ≠ 0) name → (length name < 100)%nat →
  (length data < 100)%nat → entry_ok (sample_entry name data).
Proof.
  intros Hn Hl Hd. constructor; cbn [sample_entry e_num e_name e_data]; try done.
  - intros []; cbn; change (2 ^ 32) with 4294967296; lia.
  - change (2 ^ 31) with 2147483648. lia.
  - change (2 ^ 31) with 2147483648. lia.
Qed.

Lemma getNextHeader_reads_witness :
  ∃ h phys, getNextHeader 99 (mkFd (mkGz (entry_head (sample_entry (str "a/b") (str "xyz"))) []) (w64 8)) =
    Header h phys (mkFd (mkGz [] []) (w64 124)) ∧ mtime h = -2 ∧ path h = str "a/b" ++ [0; 99].
Proof.
  destruct (getNextHeader_reads 99 (sample_entry (str "a/b") (str "xyz")) 8 [] []) as [E _].
  - apply sample_entry_ok; [by repeat constructor | cbn; lia | cbn; lia].
  - reflexivity.
  - rewrite app_nil_r in E. eexists _, _. split; [exact E |]. split; reflexivity.
Defined.

(** C7: myCpioFilterArchive is the filter of the archive's entries: reading
    any archive of entries the format can hold, it writes the archive of
    exactly the entries whose name matches one of the patterns, in order, with
    their headers (in the newc variant) and data unchanged, closes it with a
    trailer and zeros up to a multiple of 512 bytes, and returns 0. *)
Theorem myCpioFilterArchive_filters junk fnmatch patterns es tail o oin fuel
    (Hes : Forall member_ok es) (Hfuel : (length (archive es) < fuel)%nat) :
  let out := archive (kept fnmatch patterns es) in
  myCpioFilterArchive junk fnmatch fuel (mkGz (archive es ++ tail) o) (mkGz oin []) patterns =
  Ret (0, mkGz tail o, mkGz oin (out ++ pad 512 (length out))).
Proof. by apply filter_archive_run. Qed.

Definition sample_entries : list entry :=
  [sample_entry (str "a") (str "12345"); sample_entry (str "b") []; sample_entry (str "a") [0; 1]].

Lemma sample_members : Forall member_ok sample_entries.
Proof.
  repeat constructor; try (apply sample_entry_ok; [by repeat constructor | cbn; lia | cbn; lia]);
    discriminate.
Qed.

Lemma myCpioFilterArchive_filters_witness :
  ∃ out, myCpioFilterArchive 5 streq (Z.to_nat 2000) (mkGz (archive sample_entries ++ [1; 2]) []) (mkGz [] [])
    [str "x"; str "b"] = Ret (0, mkGz [1; 2] [], mkGz [] out) ∧ length out = 512%nat.
Proof.
  eexists. split.
  - apply (myCpioFilterArchive_filters 5 streq [str "x"; str "b"] sample_entries [1; 2] [] [] (Z.to_nat 2000)
      sample_members).
    assert (length (archive sample_entries) = 472%nat) by reflexivity. lia.
  - vm_compute. reflexivity.
Defined.

(** filtering what myCpioFilterArchive has written once more, with the
    same patterns, changes nothing. *)
Theorem myCpioFilterArchive_idempotent junk fnmatch patterns es fuel
    (Hes : Forall member_ok es) (Hfuel : (length (archive es) < fuel)%nat) :
  ∃ out i1 i2, myCpioFilterArchive junk fnmatch fuel (mkGz (archive es) []) (mkGz [] []) patterns =
      Ret (0, i1, mkGz [] out) ∧
    myCpioFilterArchive junk fnmatch fuel (mkGz out []) (mkGz [] []) patterns = Ret (0, i2, mkGz [] out).
Proof.
  assert (Hk : kept fnmatch patterns (kept fnmatch patterns es) = kept fnmatch patterns es ∧
    Forall member_ok (kept fnmatch patterns es) ∧
    (length (archive (kept fnmatch patterns es)) ≤ length (archive es))%nat).
  { clear Hfuel. apply kept_again, Hes. }
  destruct Hk as (Hk & Hm & Hl).
  pose proof (filter_archive_run junk fnmatch patterns es [] [] [] fuel Hes Hfuel) as E1.
  rewrite app_nil_r in E1.
  eexists _, _, _. split; [exact E1 |].
  pose proof (filter_archive_run junk fnmatch patterns (kept fnmatch patterns es)
    (pad 512 (length (archive (kept fnmatch patterns es)))) [] [] fuel Hm ltac:(lia)) as E2.
  rewrite Hk in E2. exact E2.
Qed.

Lemma myCpioFilterArchive_idempotent_witness :
  ∃ out i1 i2, myCpioFilterArchive 5 streq (Z.to_nat 2000) (mkGz (archive sample_entries) []) (mkGz [] [])
      [str "b"] = Ret (0, i1, mkGz [] out) ∧
    myCpioFilterArchive 5 streq (Z.to_nat 2000) (mkGz out []) (mkGz [] []) [str "b"] = Ret (0, i2, mkGz [] out).
Proof.
  apply (myCpioFilterArchive_idempotent 5 streq [str "b"] sample_entries (Z.to_nat 2000) sample_members).
  assert (length (archive sample_entries) = 472%nat) by reflexivity. lia.
Defined.

(** on an archive cut off before the data of a selected entry,
    myCpioFilterArchive does not return: copyFile reads nothing, writes
    nothing and tries again. *)
Theorem filter_truncated_never_ends junk fnmatch patterns e o oin out fuel
    (He : member_ok e) (Hsel : selected fnmatch patterns e = true) (Hdata : e_data e ≠ []) :
  myCpioFilterArchive junk fnmatch fuel (mkGz (entry_head e) o) (mkGz oin out) patterns = NoFuel.
Proof.
  destruct He as [He Hne]. unfold myCpioFilterArchive. destruct fuel as [| fuel]; [done |]. cbn [filter_loop].
  pose proof (getNextHeader_entry junk e 0 [] o He eq_refl) as E. rewrite app_nil_r in E.
  rewrite wrap_small in E by (change (2 ^ 64) with 18446744073709551616; lia). rewrite E.
  cbn [path header_of]. rewrite c_str_name, outcome_bind_ret by apply He.
  assert (Hst : streq (e_name e) TRAILER = false)
    by (destruct (streq (e_name e) TRAILER) eqn:Es; [apply streq_spec in Es; done | done]).
  rewrite Hst. fold (selected fnmatch patterns e). rewrite Hsel.
  unfold copyFile. cbn [path header_of]. rewrite c_str_name, outcome_bind_ret by apply He.
  cbn [size header_of].
  match goal with |- context [copy_data fuel ?i ?f ?n] =>
    assert (Hc : copy_data fuel i f n = NoFuel) end.
  { pose proof (eo_data_len e He) as Hl. change (2 ^ 31) with 2147483648 in Hl.
    assert (Hpos : Z.of_nat (length (e_data e)) ≠ 0) by (destruct (e_data e); [done | cbn; lia]).
    assert (Hw : w64 (Z.of_nat (length (e_data e))) = Z.of_nat (length (e_data e)))
      by (apply wrap_small; change (2 ^ 64) with 18446744073709551616; lia).
    rewrite <- Hw. apply copy_data_starved. lia. }
  rewrite Hc. done.
Qed.

Lemma filter_truncated_never_ends_witness :
  myCpioFilterArchive 5 streq 100 (mkGz (entry_head (sample_entry (str "a") [1])) []) (mkGz [] []) [str "a"] = NoFuel.
Proof.
  apply (filter_truncated_never_ends 5 streq [str "a"] (sample_entry (str "a") [1])).
  - split; [apply sample_entry_ok; [by repeat constructor | cbn; lia | cbn; lia] | discriminate].
  - reflexivity.
  - discriminate.
Defined.

(** myCpioStrerror never overruns its static buffer of 256 bytes, for any
    code and any text strerror returns, and names every code of cpio.h. *)
Theorem myCpioStrerror_bounded rc strerror_ :
  (length (myCpioStrerror rc strerror_) ≤ 255)%nat ∧
  (∀ s, (rc, s) ∈ error_names → ∃ r, myCpioStrerror rc strerror_ = str "cpio: " ++ s ++ r).
Proof.
  unfold myCpioStrerror. assert (Hcp : length (str "cpio: ") = 6%nat) by reflexivity. split.
  - destruct (list_find _ error_names) as [[i [c s]] |] eqn:E.
    + apply list_find_Some in E as (Hi & _). apply list_elem_of_lookup_2 in Hi.
      destruct (append_limited _ _ s) as [m1 l1] eqn:E1.
      apply append_limited_length in E1 as [H1 H2]; [| lia | lia].
      destruct (_ =? 0); [lia |].
      destruct (append_limited m1 l1 _) as [m2 l2] eqn:E2.
      apply append_limited_length in E2 as [H3 H4]; [| lia | lia].
      destruct (append_limited m2 l2 _) as [m3 l3] eqn:E3.
      apply append_limited_length in E3 as [H5 H6]; [| lia | lia]. cbn [fst]. lia.
    + assert (Hx : (length (str "cpio: " ++ str "(error 0x" ++ fmt_x rc ++ str ")") ≤ 24)%nat).
      { rewrite !length_app. pose proof (length_hex_digits 8 (w32 rc)). unfold fmt_x.
        change (length (str "(error 0x")) with 9%nat. change (length (str ")")) with 1%nat. lia. }
      set (m := str "cpio: " ++ _) in *. clearbody m.
      destruct (_ =? 0); [lia |].
      destruct (append_limited m _ _) as [m2 l2] eqn:E2.
      apply append_limited_length in E2 as [H3 H4]; [| lia | lia].
      destruct (append_limited m2 l2 _) as [m3 l3] eqn:E3.
      apply append_limited_length in E3 as [H5 H6]; [| lia | lia]. cbn [fst]. lia.
  - intros s Hs.
    assert (Hfind : ∃ i, list_find (λ e, fst e = rc) error_names = Some (i, (rc, s))).
    { unfold error_names in Hs. rewrite !elem_of_cons in Hs.
      repeat (destruct Hs as [[= -> ->] | Hs]; [eexists; vm_compute; reflexivity |]). by apply elem_of_nil in Hs. }
    destruct Hfind as [i ->]. pose proof error_names_short as Hsh. rewrite list.Forall_forall in Hsh.
    specialize (Hsh _ Hs). cbn [snd] in Hsh. unfold append_limited at 1.
    change (256 - Z.of_nat (length (str "cpio: ")) - 1) with 249.
    change (0 <? 249) with true. cbn iota. rewrite take_ge by lia.
    destruct (_ =? 0); [exists []; by rewrite app_nil_r |].
    unfold append_limited. cbn [fst].
    destruct (0 <? _); [| destruct (0 <? _); rewrite <- ?(assoc_L (++)); eauto; exists []; by rewrite app_nil_r].
    destruct (0 <? _); rewrite <- !(assoc_L (++)); eauto.
Qed.
