(* ===== verification/CpioInstall.v ===== *)
(** * Unpacking cpio archives (isys/uncpio.c, isys/cpio.c)

    myCpioInstallArchive and the functions that create files, over any stream
    ([GzOps]) and any system ([SysOps]).  The static lastDir of checkDirectory
    is part of the state.  Theorems are in [CpioInstallFacts]. *)

From S2P Require Import Prelude CLib Sys Cpio.

Definition CPIO_MAP_PATH : Z := 1.
Definition CPIO_MAP_MODE : Z := 2.
Definition CPIO_MAP_UID : Z := 4.
Definition CPIO_MAP_GID : Z := 8.
Definition has_flag (flags flag : Z) : bool := negb (Z.land flags flag =? 0).

Record cpioFileMapping := mkMapping {
  archivePath : bytes; fsPath : bytes; finalMode : Z; finalUid : Z; finalGid : Z; mapFlags : Z
}.
Definition myCpioFileMapCmp (a b : cpioFileMapping) : comparison := strcmp (archivePath a) (archivePath b).

(** struct hardLink; [files] are the names seen and not yet linked, [None]
    for a null pointer, and [createdPath] is -1 before the file exists. *)
Record hardLink := mkLink {
  l_inode : Z; l_dev : Z; l_nlink : Z; linksLeft : Z; createdPath : Z; files : list (option bytes)
}.
Definition set_file i v li :=
  mkLink (l_inode li) (l_dev li) (l_nlink li) (linksLeft li) (createdPath li) (<[i := v]> (files li)).
Definition set_left v li := mkLink (l_inode li) (l_dev li) (l_nlink li) v (createdPath li) (files li).
Definition set_created v li := mkLink (l_inode li) (l_dev li) (l_nlink li) (linksLeft li) v (files li).

(** struct cpioCallbackInfo *)
Record cpioCallbackInfo := mkInfo { cb_file : bytes; fileSize : Z; fileComplete : Z; bytesProcessed : Z }.

Section install.
Context {G : Type} `{GzOps G} (junk : Z) {S : Type} `{SysOps S}.
Context {C : Type} (cb : option (cpioCallbackInfo → C → C)).

(** unlink what [lstat] found, before it is made anew. *)
Definition replace (s : S) (p : bytes) : Z * S :=
  match s_lstat s p with
  | inl _ => (0, s)
  | inr _ => let '(e, s) := s_unlink s p in (if e =? 0 then 0 else CPIOERR_UNLINK_FAILED, s)
  end.

Definition createDirectory (s : S) (p : bytes) (perms : Z) : Z * S :=
  (* the directory, an error, or "make it" *)
  let make s :=
    let '(e, s) := s_mkdir s p 0 in
    if negb (e =? 0) then (CPIOERR_MKDIR_FAILED, s)
    else let '(e, s) := s_chmod s p perms in (if e =? 0 then 0 else CPIOERR_CHMOD_FAILED, s) in
  let dounlink s :=
    let '(e, s) := s_unlink s p in if e =? 0 then make s else (CPIOERR_UNLINK_FAILED, s) in
  match s_lstat s p with
  | inl _ => make s
  | inr sb =>
      if S_IS S_IFDIR (st_mode sb) then (0, s)
      else if S_IS S_IFLNK (st_mode sb) then
        match s_stat s p with
        | inl e => if negb (e =? ENOENT) then (CPIOERR_STAT_FAILED, s) else dounlink s
        | inr sb => if S_IS S_IFDIR (st_mode sb) then (0, s) else dounlink s
        end
      else dounlink s
  end.

Definition setInfo (s : S) (hdr : cpioHeader) (p : bytes) : Z * S :=
  if negb (S_IS S_IFLNK (mode hdr)) then
    let '(rc, s) :=
      if s_getuid s =? 0 then
        let '(e, s) := s_chown s p (uid hdr) (gid hdr) in (if e =? 0 then 0 else CPIOERR_CHOWN_FAILED, s)
      else (0, s) in
    let '(rc, s) :=
      if rc =? 0 then
        let '(e, s) := s_chmod s p (Z.land (mode hdr) 0xfff) in (if e =? 0 then 0 else CPIOERR_CHMOD_FAILED, s)
      else (rc, s) in
    if rc =? 0 then
      let '(e, s) := s_utime s p (mtime hdr) in (if e =? 0 then 0 else CPIOERR_UTIME_FAILED, s)
    else (rc, s)
  else if s_getuid s =? 0 then
    let '(e, s) := s_lchown s p (uid hdr) (gid hdr) in (if e =? 0 then 0 else CPIOERR_CHOWN_FAILED, s)
  else (0, s).

(** The names of the directories from the first down to [dir]: one for each
    slash after the first character, and [dir] itself. *)
Definition dir_prefixes (dir : bytes) : list bytes :=
  ((λ i, take i dir) <$> List.filter (λ i, bool_decide (dir !! i = Some 47)) (seq 1 (length dir - 1))) ++ [dir].

Fixpoint createDirectories (s : S) (dirs : list bytes) : Z * S :=
  match dirs with
  | [] => (0, s)
  | d :: dirs =>
      let '(rc, s) := createDirectory s d 0x1ed in
      if negb (rc =? 0) then (rc, s) else createDirectories s dirs
  end.

(** Index of the last slash behind the first character; 0 if there is none.
    The C starts before the buffer for an empty name. *)
Fixpoint last_slash (n : nat) (p : bytes) : nat :=
  match n with
  | O => O
  | Datatypes.S n' => if bool_decide (p !! n = Some 47) then n else last_slash n' p
  end.

Definition checkDirectory (s : S) (lastDir filename : bytes) : outcome (Z * S * bytes) :=
  match filename with
  | [] => Undef
  | _ =>
      match last_slash (length filename - 1) filename with
      | O => Ret (0, s, lastDir)
      | i =>
          let buf := take i filename in
          if streq buf lastDir then Ret (0, s, lastDir)
          else let '(rc, s) := createDirectories s (dir_prefixes buf) in Ret (rc, s, buf)
      end
  end.

(** [while (left)] of expandRegular *)
Fixpoint expand_data (fuel : nat) (f : ourfd G) (s : S) (c : C) (out : nat) (hdr : cpioHeader)
    (p : bytes) (left_ : Z) : outcome (Z * ourfd G * S * C) :=
  match fuel with
  | O => NoFuel
  | Datatypes.S fuel =>
      if left_ =? 0 then Ret (0, f, s, c)
      else
        let '(bytesRead, d, f) := ourread f (if left_ <? 8192 then left_ else 8192) in
        if bytesRead <=? 0 then Ret (CPIOERR_READ_FAILED, f, s, c)
        else
          let '(n, s) := s_write s out d in
          if negb (n =? bytesRead) then Ret (CPIOERR_COPY_FAILED, f, s, c)
          else
            let left_ := left_ - bytesRead in
            let c :=
              match cb with
              | Some cb => if left_ =? 0 then c
                           else cb (mkInfo p (size hdr) (size hdr - left_) (opos f)) c
              | None => c
              end in
            expand_data fuel f s c out hdr p left_
  end.

Definition expandRegular (fuel : nat) (f : ourfd G) (s : S) (c : C) (hdr : cpioHeader) (p : bytes) :
    outcome (Z * ourfd G * S * C) :=
  let '(rc, s) := replace s p in
  if negb (rc =? 0) then Ret (rc, f, s, c)
  else
    match s_creat s p 0 with
    | (inl _, s) => Ret (CPIOERR_OPEN_FAILED, f, s, c)
    | (inr out, s) =>
        '(rc, f, s, c) ← expand_data fuel f s c out hdr p (size hdr);
        Ret (rc, f, s_close s out, c)
    end.

Definition expandSymlink (f : ourfd G) (s : S) (hdr : cpioHeader) (p : bytes) : Z * ourfd G * S :=
  if 2048 <? w64 (size hdr + 1) then (CPIOERR_INTERNAL, f, s)
  else
    let '(n, d, f) := ourread f (size hdr) in
    if negb (n =? size hdr) then (CPIOERR_READ_FAILED, f, s)
    else
      let target := until_nul (d ++ [0]) in
      let make s :=
        let '(e, s) := s_symlink s target p in (if e =? 0 then 0 else CPIOERR_SYMLINK_FAILED, f, s) in
      match s_lstat s p with
      | inl _ => make s
      | inr sb =>
          let same :=
            S_IS S_IFLNK (st_mode sb) &&
            match s_readlink s p 2047 with
            | Some ((_ :: _) as l) => streq target (until_nul l)
            | _ => false
            end in
          if same then (0, f, s)
          else let '(e, s) := s_unlink s p in if e =? 0 then make s else (CPIOERR_UNLINK_FAILED, f, s)
      end.

Definition expandFifo (s : S) (p : bytes) : Z * S :=
  match s_lstat s p with
  | inr sb =>
      if S_IS S_IFIFO (st_mode sb) then (0, s)
      else
        let '(e, s) := s_unlink s p in
        if negb (e =? 0) then (CPIOERR_UNLINK_FAILED, s)
        else let '(e, s) := s_mkfifo s p 0 in (if e =? 0 then 0 else CPIOERR_MKFIFO_FAILED, s)
  | inl _ => let '(e, s) := s_mkfifo s p 0 in (if e =? 0 then 0 else CPIOERR_MKFIFO_FAILED, s)
  end.

Definition expandDevice (s : S) (hdr : cpioHeader) (p : bytes) : Z * S :=
  let make s :=
    let '(e, s) := s_mknod s p (Z.land (mode hdr) (Z.lnot 0x1ff)) (rdev hdr) in
    (if e =? 0 then 0 else CPIOERR_MKNOD_FAILED, s) in
  match s_lstat s p with
  | inr sb =>
      if (S_IS S_IFCHR (st_mode sb) || S_IS S_IFBLK (st_mode sb)) && (st_rdev sb =? rdev hdr) then (0, s)
      else let '(e, s) := s_unlink s p in if e =? 0 then make s else (CPIOERR_UNLINK_FAILED, s)
  | inl _ => make s
  end.

(** createLinks: the return value, the system, the record and the name that
    failed. *)
Fixpoint createLinks_from (fuel i : nat) (s : S) (li : hardLink) :
    outcome (Z * S * hardLink * option bytes) :=
  match fuel with
  | O => Ret (0, s, li, None)
  | Datatypes.S fuel =>
      if Z.of_nat i =? createdPath li then createLinks_from fuel (Datatypes.S i) s li
      else
        match files li !! i with
        | None => Undef
        | Some None => createLinks_from fuel (Datatypes.S i) s li
        | Some (Some p) =>
            match checked (files li !! Z.to_nat (createdPath li)) with
            | Ret (Some from) =>
                let '(rc, s) := replace s p in
                if negb (rc =? 0) then Ret (CPIOERR_UNLINK_FAILED, s, li, Some p)
                else
                  let '(e, s) := s_link s from p in
                  if negb (e =? 0) then Ret (CPIOERR_LINK_FAILED, s, li, Some p)
                  else createLinks_from fuel (Datatypes.S i) s (set_left (linksLeft li - 1) (set_file i None li))
            | _ => Undef
            end
        end
  end.
Definition createLinks (s : S) (li : hardLink) : outcome (Z * S * hardLink * option bytes) :=
  createLinks_from (Z.to_nat (l_nlink li)) 0 s li.

(** Variables of myCpioInstallArchive; [failedFile] is [*failedFile]. *)
Record install_state := mkInstall {
  in_fd : ourfd G; in_sys : S; in_last : bytes; in_links : list hardLink;
  in_failed : option bytes; in_cb : C
}.

(** The record of a hard-linked file, made when it is met first, with the name
    entered at its first free place: the place, the records, and the index. *)
Definition enter_link (links : list hardLink) (ch : cpioHeader) (p : bytes) :
    outcome (nat * list hardLink * nat) :=
  let '(i, links) :=
    match list_find (λ li, l_inode li = inode ch ∧ l_dev li = dev ch) links with
    | Some (i, _) => (i, links)
    | None => (0%nat, mkLink (inode ch) (dev ch) (nlink ch) (nlink ch) (-1)
                        (replicate (Z.to_nat (nlink ch)) None) :: links)
    end in
  match links !! i with
  | None => Undef
  | Some li =>
      match list_find (λ q, q = None) (files li) with
      | Some (linkNum, _) => Ret (linkNum, <[i := set_file linkNum (Some p) li]> links, i)
      | None => Undef
      end
  end.

(** The mapping applied to a header and its name. *)
Definition apply_map (map : option cpioFileMapping) (ch : cpioHeader) (p : bytes) : cpioHeader * bytes :=
  match map with
  | None => (ch, p)
  | Some m =>
      let '(ch, p) :=
        if has_flag (mapFlags m) CPIO_MAP_PATH then (set_path (fsPath m ++ [0]) ch, fsPath m) else (ch, p) in
      let ch := if has_flag (mapFlags m) CPIO_MAP_MODE then set_mode (finalMode m) ch else ch in
      let ch := if has_flag (mapFlags m) CPIO_MAP_UID then set_uid (finalUid m) ch else ch in
      let ch := if has_flag (mapFlags m) CPIO_MAP_GID then set_gid (finalGid m) ch else ch in
      (ch, p)
  end.

(** Create the file of an entry by its type. *)
Definition expand (fuel : nat) (f : ourfd G) (s : S) (c : C) (ch : cpioHeader) (p : bytes) :
    outcome (Z * ourfd G * S * C) :=
  if S_IS S_IFREG (mode ch) then expandRegular fuel f s c ch p
  else if S_IS S_IFDIR (mode ch) then let '(rc, s) := createDirectory s p 0 in Ret (rc, f, s, c)
  else if S_IS S_IFLNK (mode ch) then let '(rc, f, s) := expandSymlink f s ch p in Ret (rc, f, s, c)
  else if S_IS S_IFIFO (mode ch) then let '(rc, s) := expandFifo s p in Ret (rc, f, s, c)
  else if S_IS S_IFCHR (mode ch) || S_IS S_IFBLK (mode ch) then
    let '(rc, s) := expandDevice s ch p in Ret (rc, f, s, c)
  else if S_IS S_IFSOCK (mode ch) then let '(rc, s) := expandFifo s p in Ret (rc, f, s, c)
  else Ret (CPIOERR_INTERNAL, f, s, c).

(** One entry that is to be installed: the code and the state. *)
Definition install_entry (fuel : nat) (ch : cpioHeader) (p : bytes) (st : install_state) :
    outcome (Z * install_state) :=
  let hard := S_IS S_IFREG (mode ch) && (1 <? nlink ch) in
  '(linkNum, links, k) ←
    (if hard then enter_link (in_links st) ch p else Ret (0%nat, in_links st, 0%nat));
  let created := match links !! k with Some li => createdPath li | None => -1 end in
  '(rc, st) ←
    (if hard && (size ch =? 0) && (created =? -1) then
       Ret (0, mkInstall (in_fd st) (in_sys st) (in_last st) links (in_failed st) (in_cb st))
     else if hard && negb (created =? -1) then
       li ← checked (links !! k);
       '(_, s, li, bad) ← createLinks (in_sys st) li;
       let failed_ := match bad with Some b => Some b | None => in_failed st end in
       '(_, f) ← (if size ch =? 0 then Ret (0, in_fd st) else eatBytes fuel (in_fd st) (size ch));
       Ret (0, mkInstall f s (in_last st) (<[k := li]> links) failed_ (in_cb st))
     else
       '(rc, s, last) ← checkDirectory (in_sys st) (in_last st) p;
       '(rc, f, s, c) ← (if rc =? 0 then expand fuel (in_fd st) s (in_cb st) ch p
                         else Ret (rc, in_fd st, s, in_cb st));
       let '(rc, s) := if rc =? 0 then setInfo s ch p else (rc, s) in
       if hard then
         li ← checked (links !! k);
         let li := set_left (linksLeft li - 1) (set_created (Z.of_nat linkNum) li) in
         '(rc, s, li, bad) ← createLinks s li;
         let failed_ := match bad with Some b => Some b | None => in_failed st end in
         Ret (rc, mkInstall f s last (<[k := li]> links) failed_ c)
       else Ret (rc, mkInstall f s last links (in_failed st) c));
  if negb (rc =? 0) && bool_decide (in_failed st = None) then
    Ret (rc, mkInstall (in_fd st) (snd (s_unlink (in_sys st) p)) (in_last st) (in_links st) (Some p) (in_cb st))
  else Ret (rc, st).

(** [do { ... } while (1 && !rc)]: whether the function returns from within the
    loop, the code, and the state. *)
Fixpoint install_loop (fuel : nat) (mappings : option (list cpioFileMapping)) (st : install_state) :
    outcome (bool * Z * install_state) :=
  match fuel with
  | O => NoFuel
  | Datatypes.S fuel =>
      match getNextHeader junk (in_fd st) with
      | BadHeader _ f =>
          Ret (true, CPIOERR_BAD_HEADER,
               mkInstall f (in_sys st) (in_last st) (in_links st) (in_failed st) (in_cb st))
      | Header ch _ f =>
          let st := mkInstall f (in_sys st) (in_last st) (in_links st) (in_failed st) (in_cb st) in
          p ← c_str (path ch);
          if streq p TRAILER then Ret (false, 0, st)
          else
            let map := match mappings with
                       | Some l => bsearch p archivePath l
                       | None => None
                       end in
            '(rc, st, p, sz) ←
              (if bool_decide (is_Some mappings) && bool_decide (map = None) then
                 '(_, f) ← eatBytes fuel (in_fd st) (size ch);
                 Ret (0, mkInstall f (in_sys st) (in_last st) (in_links st) (in_failed st) (in_cb st), p, size ch)
               else
                 let '(ch, p) := apply_map map ch p in
                 '(rc, st) ← install_entry fuel ch p st;
                 Ret (rc, st, p, size ch));
            let f := padinfd (in_fd st) 4 in
            let c := match cb with
                     | Some cb => if rc =? 0 then cb (mkInfo p sz sz (opos f)) (in_cb st) else in_cb st
                     | None => in_cb st
                     end in
            let st := mkInstall f (in_sys st) (in_last st) (in_links st) (in_failed st) c in
            if rc =? 0 then install_loop fuel mappings st else Ret (false, rc, st)
      end
  end.

(** [while (li && !rc)]: the links still missing. *)
Fixpoint finish_links (s : S) (links : list hardLink) (bad : option bytes) : outcome (Z * S * option bytes) :=
  match links with
  | [] => Ret (0, s, bad)
  | li :: links =>
      '(rc, s, bad) ←
        (if linksLeft li =? 0 then Ret (0, s, bad)
         else if createdPath li =? -1 then Ret (CPIOERR_INTERNAL, s, bad)
         else '(rc, s, _, b) ← createLinks s li; Ret (rc, s, match b with Some b => Some b | None => bad end));
      if rc =? 0 then finish_links s links bad else Ret (rc, s, bad)
  end.

(** The result, [*failedFile] and the system. *)
Definition myCpioInstallArchive (fuel : nat) (stream : G) (s : S) (lastDir : bytes)
    (mappings : option (list cpioFileMapping)) (c : C) : outcome (Z * option bytes * S) :=
  '(early, rc, st) ← install_loop fuel mappings (mkInstall (mkFd stream 0) s lastDir [] None c);
  if early || negb (rc =? 0) then Ret (rc, in_failed st, in_sys st)
  else
    '(rc, s, bad) ← finish_links (in_sys st) (in_links st) (in_failed st);
    Ret (rc, bad, s).

End install.

(** installCpioFile (isys/cpio.c); access of a null name fails.  The fields of
    the mapping the C leaves uninitialised are not used by its flags. *)
Definition installCpioFile {G S : Type} `{GzOps G, SysOps S} (junk : Z) (fuel : nat) (fd : G) (s : S)
    (lastDir : bytes) (cpioName : bytes) (outName : option bytes) : outcome (Z * S) :=
  let map := (λ out, [mkMapping cpioName out 0 0 0 CPIO_MAP_PATH]) <$> outName in
  '(rc, _, s) ← myCpioInstallArchive junk None fuel fd s lastDir map tt;
  let readable := match outName with Some out => s_access s out =? 0 | None => false end in
  Ret (if negb (rc =? 0) || negb readable then -1 else 0, s).
