(* ===== verification/CpioInstallFacts.v ===== *)
(** * What unpacking does (isys/uncpio.c, isys/cpio.c)

    Properties of [CpioInstall] on archives given as lists of entries
    ([CpioFacts.archive]): entries no mapping names are passed over on any
    system; installCpioFile puts the one named entry in place and leaves the
    other names alone; and where an error gets lost. *)

From S2P Require Import Prelude CLib Sys Cpio CpioFacts CpioInstall.

#[local] Opaque Z.to_nat.

(** The entries of an archive without the trailer. *)
Definition body (es : list entry) : bytes := mjoin (entry_bytes <$> es).

Lemma body_cons e es : body (e :: es) = entry_bytes e ++ body es.
Proof. reflexivity. Qed.

Lemma body_app es es' : body (es ++ es') = body es ++ body es'.
Proof.
  induction es as [| e es IH]; [done |]. cbn [app]. by rewrite !body_cons, IH, (assoc_L (++)).
Qed.

Lemma archive_body es : archive es = body es ++ archive [].
Proof. reflexivity. Qed.

Lemma entry_bytes_long e : (111 + length (e_data e) ≤ length (entry_bytes e))%nat.
Proof. pose proof (length_entry_bytes e). pose proof (length_entry_head e). lia. Qed.

Lemma length_body es : (length es ≤ length (body es))%nat.
Proof.
  induction es as [| e es IH]; [done |]. rewrite body_cons, length_app.
  pose proof (entry_bytes_long e). cbn [length]. lia.
Qed.

(** ** Passing over entries *)

Section skipping.
Context (junk : Z) {S : Type} `{SysOps S} {C : Type}.

Abbreviation no_callback := (@None (cpioCallbackInfo → C → C)).

Lemma not_trailer e : member_ok e → streq (e_name e) TRAILER = false.
Proof. intros [_ Hne]. destruct (streq _ _) eqn:E; [by apply streq_spec in E | done]. Qed.

(** One entry without a mapping. *)
Lemma install_loop_skip fuel l e r o p s last links bad c : member_ok e → p mod 4 = 0 →
  bsearch (e_name e) archivePath l = None → (length (e_data e) < fuel)%nat →
  install_loop junk no_callback (Datatypes.S fuel) (Some l)
    (mkInstall (mkFd (mkGz (entry_bytes e ++ r) o) (w64 p)) s last links bad c) =
  install_loop junk no_callback fuel (Some l)
    (mkInstall (mkFd (mkGz r o) (w64 (p + Z.of_nat (length (entry_bytes e))))) s last links bad c).
Proof.
  intros He Hp Hb Hf. pose proof (not_trailer e He) as Ht. destruct He as [He Hne].
  cbn [install_loop in_fd]. unfold entry_bytes at 1. rewrite <- !(assoc_L (++)).
  rewrite getNextHeader_entry by done. cbn [path header_of].
  rewrite c_str_name, outcome_bind_ret by apply He. rewrite Ht, Hb.
  rewrite bool_decide_eq_true_2 by eauto. rewrite bool_decide_eq_true_2 by done. cbn [andb].
  cbn [size in_fd header_of]. rewrite eatBytes_data by lia. rewrite !outcome_bind_ret.
  cbn [in_fd in_sys in_last in_links in_failed in_cb].
  rewrite padinfd_pad4 by (by apply add_aligned, entry_head_aligned).
  rewrite length_entry_bytes, !Z.add_assoc. done.
Qed.

(** The archive's end. *)
Lemma install_loop_trailer fuel mappings tail o p s last links bad c : p mod 4 = 0 → (0 < fuel)%nat →
  ∃ f, install_loop junk no_callback fuel mappings
    (mkInstall (mkFd (mkGz (archive [] ++ tail) o) (w64 p)) s last links bad c) =
  Ret (false, 0, mkInstall f s last links bad c).
Proof.
  intros Hp Hf. destruct fuel as [| fuel]; [lia |]. cbn [install_loop in_fd].
  unfold archive. cbn [fmap list_fmap mjoin list_join app]. rewrite trailer_bytes.
  rewrite getNextHeader_entry by (done || apply trailer_ok). cbn [path header_of].
  rewrite c_str_name, outcome_bind_ret by apply trailer_ok.
  change (streq (e_name trailer_entry) TRAILER) with true. cbn iota. eauto.
Qed.

(** A whole run of entries without a mapping. *)
Lemma install_loop_skips fuel l pre rest o p s last links bad c : Forall member_ok pre → p mod 4 = 0 →
  Forall (λ e, bsearch (e_name e) archivePath l = None) pre →
  ∃ p', p' mod 4 = 0 ∧
    install_loop junk no_callback (length (body pre) + fuel) (Some l)
      (mkInstall (mkFd (mkGz (body pre ++ rest) o) (w64 p)) s last links bad c) =
    install_loop junk no_callback
      (length (body pre) + fuel - length pre) (Some l)
      (mkInstall (mkFd (mkGz rest o) (w64 p')) s last links bad c).
Proof.
  intros Hpre. revert p fuel. induction Hpre as [| e pre He Hpre IH]; intros p fuel Hp Hb.
  { exists p. change (body []) with (@nil Z). cbn [app length Nat.add]. by rewrite Nat.sub_0_r. }
  rewrite list.Forall_cons in Hb. destruct Hb as [Hb Hbs].
  rewrite body_cons, length_app, <- (assoc_L (++)). cbn [length].
  pose proof (entry_bytes_long e) as Hl.
  destruct (IH (p + Z.of_nat (length (entry_bytes e)))
    (length (entry_bytes e) - 1 + fuel)%nat) as (p' & Hp' & E); [by apply add_aligned, entry_bytes_aligned | done |].
  exists p'. split; [done |].
  replace (length (entry_bytes e) + length (body pre) + fuel)%nat
    with (Datatypes.S (length (body pre) + (length (entry_bytes e) - 1 + fuel)))%nat by lia.
  rewrite install_loop_skip by (done || lia). by rewrite E.
Qed.

Lemma install_none fuel l es tail o s last c : Forall member_ok es →
  Forall (λ e, bsearch (e_name e) archivePath l = None) es → (length (archive es) < fuel)%nat →
  myCpioInstallArchive junk no_callback fuel (mkGz (archive es ++ tail) o) s last (Some l) c =
  Ret (0, None, s).
Proof.
  intros Hes Hb Hf. unfold myCpioInstallArchive.
  destruct (install_loop_skips (fuel - length (body es)) l es (archive [] ++ tail) o 0 s last
    [] None c Hes eq_refl Hb) as (p' & Hp' & E).
  pose proof (archive_body es) as Ha. rewrite Ha, length_app in Hf. pose proof (length_body es) as Hle.
  replace (length (body es) + (fuel - length (body es)))%nat
    with fuel in E by lia.
  rewrite Ha, <- (assoc_L (++)). rewrite wrap_small in E by (change (2 ^ 64) with 18446744073709551616; lia).
  rewrite E. change (length (archive [])) with 124%nat in Hf.
  destruct (install_loop_trailer (fuel - length es) (Some l) tail o p' s last [] None c Hp' ltac:(lia)) as [f ->].
  reflexivity.
Qed.
End skipping.

(** ** One regular file in a file system *)

(** Names lead to inodes, and new inodes are new. *)
Record fs_ok (fs : memfs) : Prop := {
  ok_names p n : fs_names fs !! p = Some n → is_Some (fs_inodes fs !! n);
  ok_fresh n : is_Some (fs_inodes fs !! n) → (n < fs_next fs)%nat
}.

Definition is_dir (fs : memfs) (p : bytes) : Prop :=
  ∃ n i, fs_lookup fs p = Some (n, i) ∧ i_kind i = KDir ∧ 0 ≤ i_perm i < 4096.

(** A name at which a file can be put: its directories exist, and it is not a
    directory itself. *)
Record placeable (fs : memfs) (p : bytes) : Prop := {
  pl_name : p ≠ [];
  pl_dirs i : last_slash (length p - 1) p = Datatypes.S i →
    Forall (is_dir fs) (dir_prefixes (take (Datatypes.S i) p));
  pl_parent : ∀ q, dirname p = Some q → is_dir fs q;
  pl_free n i : fs_lookup fs p = Some (n, i) → i_kind i ≠ KDir
}.

Lemma dir_mode perm : 0 ≤ perm < 4096 → S_IS S_IFDIR (Z.lor S_IFDIR perm) = true.
Proof.
  intros Hp. unfold S_IS, S_IFDIR, S_IFMT. apply Z.eqb_eq.
  rewrite Z.land_lor_distr_l. assert (Z.land perm 0xf000 = 0) as ->; [| done].
  apply Z.bits_inj'. intros i Hi. rewrite Z.land_spec, Z.bits_0.
  destruct (decide (i < 12)) as [Hi12 | Hi12].
  - change 0xf000 with (Z.shiftl 0xf 12). rewrite Z.shiftl_spec_low by lia. by rewrite andb_false_r.
  - rewrite (Z.bits_above_log2 perm i); [done | lia |].
    destruct (decide (perm = 0)) as [-> |]; [cbn; lia |].
    apply Z.log2_lt_pow2; [lia |]. apply Z.lt_le_trans with (2 ^ 12); [lia |].
    apply Z.pow_le_mono_r; lia.
Qed.

Lemma createDirectory_exists fs p perms : is_dir fs p → createDirectory fs p perms = (0, fs).
Proof.
  intros (n & i & Hl & Hk & Hp). unfold createDirectory. cbn [s_lstat memfs_ops]. unfold fs_lstat.
  rewrite Hl. unfold stat_of. rewrite Hk. cbn [fmt_of st_mode]. by rewrite dir_mode.
Qed.

Lemma createDirectories_exist fs dirs : Forall (is_dir fs) dirs → createDirectories fs dirs = (0, fs).
Proof.
  induction 1 as [| d dirs Hd _ IH]; [done |]. cbn [createDirectories].
  by rewrite createDirectory_exists.
Qed.

Lemma checkDirectory_exists fs last p : placeable fs p →
  ∃ last', checkDirectory fs last p = Ret (0, fs, last').
Proof.
  intros [Hn Hd _ _]. destruct p as [| b p]; [done |]. unfold checkDirectory.
  destruct (last_slash _ _) as [| i] eqn:E; [eauto |].
  destruct (streq _ _); [eauto |]. rewrite createDirectories_exist by by apply Hd. eauto.
Qed.

(** replace removes a name that is not a directory's. *)
Lemma replace_file fs p : fs_ok fs → placeable fs p →
  replace fs p = (0, set_names (delete p (fs_names fs)) fs).
Proof.
  intros Hok Hp. unfold replace. cbn [s_lstat s_unlink memfs_ops]. unfold fs_lstat, fs_unlink.
  destruct (fs_lookup fs p) as [[n i] |] eqn:E.
  - pose proof (pl_free _ _ Hp n i E) as Hk. by destruct (i_kind i).
  - rewrite delete_id; [by destruct fs |]. unfold fs_lookup in E.
    destruct (fs_names fs !! p) as [n |] eqn:En; [| done].
    destruct (ok_names _ Hok p n En) as [i Hi]. cbn in E. by rewrite Hi in E.
Qed.

Lemma strrchr_suffix s c t : strrchr s c = Some t → s = before s t ++ t ∧ t ≠ [].
Proof.
  unfold before. revert t. induction s as [| b s IH]; intros t; cbn; [done |].
  destruct (strrchr s c) as [t' |] eqn:E.
  - intros [= ->]. destruct (IH t eq_refl) as [Hs Ht]. split; [| done].
    assert (length t ≤ length s)%nat.
    { apply (f_equal length) in Hs. rewrite length_app in Hs. lia. }
    rewrite Nat.sub_succ_l by done. cbn. by rewrite <- Hs.
  - destruct (b =? c); [| done]. intros [= <-]. cbn [length]. by rewrite Nat.sub_diag.
Qed.

Lemma dirname_shorter p q : dirname p = Some q → (length q < length p)%nat.
Proof.
  unfold dirname. destruct (strrchr p 47) as [t |] eqn:E; [| done].
  destruct (strrchr_suffix _ _ _ E) as [Hp Ht]. intros Hq.
  assert (before p t = q) as <- by (destruct (before p t); [done | congruence]).
  apply (f_equal length) in Hp. rewrite length_app in Hp. destruct t; [done | cbn in Hp; lia].
Qed.

(** The file system with a regular file at [p]. *)
Definition with_file (fs : memfs) (p : bytes) (i : fsnode) (fds : gmap nat (nat * nat)) : memfs :=
  mkFs (<[p := fs_next fs]> (delete p (fs_names fs))) (<[fs_next fs := i]> (fs_inodes fs)) fds
    (Datatypes.S (Datatypes.S (fs_next fs))) (fs_uid fs) (fs_full fs).

Lemma lookup_with_file fs p i fds : fs_lookup (with_file fs p i fds) p = Some (fs_next fs, i).
Proof.
  unfold fs_lookup, with_file. cbn [fs_names fs_inodes]. rewrite lookup_insert_eq. cbn.
  by rewrite lookup_insert_eq.
Qed.

Lemma lookup_with_file_ne fs p i fds q : fs_ok fs → q ≠ p →
  fs_lookup (with_file fs p i fds) q = fs_lookup fs q.
Proof.
  intros Hok Hq. unfold fs_lookup, with_file. cbn [fs_names fs_inodes].
  rewrite lookup_insert_ne, lookup_delete_ne by done.
  destruct (fs_names fs !! q) as [n |] eqn:En; [cbn | done].
  destruct (ok_names _ Hok q n En) as [j Hj]. pose proof (ok_fresh _ Hok n ltac:(eauto)).
  rewrite lookup_insert_ne by lia. done.
Qed.

Lemma creat_file fs p : fs_ok fs → placeable fs p →
  fs_creat (set_names (delete p (fs_names fs)) fs) p 0 =
  (inr (Datatypes.S (fs_next fs)),
   with_file fs p (mkInode (KReg []) 0 0 0 0)
     (<[Datatypes.S (fs_next fs) := (fs_next fs, 0%nat)]> (fs_fds fs))).
Proof.
  intros Hok Hp. unfold fs_creat.
  assert (Hno : fs_lookup (set_names (delete p (fs_names fs)) fs) p = None).
  { unfold fs_lookup. cbn [fs_names set_names]. by rewrite lookup_delete_eq. }
  rewrite Hno. rewrite bool_decide_eq_false_2 by (intros [? ?]; done).
  unfold fs_create. rewrite Hno. rewrite bool_decide_eq_false_2 by (intros [? ?]; done).
  assert (Hpar : parent_ok (set_names (delete p (fs_names fs)) fs) p = true).
  { unfold parent_ok. destruct (dirname p) as [q |] eqn:Eq; [| done].
    destruct (pl_parent _ _ Hp q Eq) as (n & i & Hl & Hk & _).
    assert (fs_lookup (set_names (delete p (fs_names fs)) fs) q = fs_lookup fs q) as ->.
    { unfold fs_lookup. cbn [fs_names set_names]. rewrite lookup_delete_ne; [done |].
      pose proof (dirname_shorter p q Eq). intros ->. lia. }
    by rewrite Hl, Hk. }
  rewrite Hpar. cbn [negb]. change (0 =? 0) with true. cbn iota.
  cbn [fs_next fs_names fs_inodes fs_fds fs_uid fs_full set_names].
  unfold fs_lookup. cbn [fs_names fs_inodes]. rewrite lookup_insert_eq. cbn. rewrite lookup_insert_eq.
  done.
Qed.

Section regular.
Context {C : Type}.
Abbreviation no_callback := (@None (cpioCallbackInfo → C → C)).

Lemma expand_data_file fuel d r o q fs p (done_ : bytes) fd perm u g t c hdr :
  fs_full fs = false → (length d < fuel)%nat → fd ≠ fs_next fs →
  expand_data no_callback fuel (mkFd (mkGz (d ++ r) o) (w64 q))
    (with_file fs p (mkInode (KReg done_) perm u g t)
       (<[fd := (fs_next fs, length done_)]> (fs_fds fs))) c fd hdr p (Z.of_nat (length d)) =
  Ret (0, mkFd (mkGz r o) (w64 (q + Z.of_nat (length d))),
       with_file fs p (mkInode (KReg (done_ ++ d)) perm u g t)
         (<[fd := (fs_next fs, length (done_ ++ d))]> (fs_fds fs)), c).
Proof.
  intros Hfull. revert d q done_. induction fuel as [| fuel IH]; intros d q done_ Hf Hfd; [lia |].
  cbn [expand_data]. destruct (Z.eqb_spec (Z.of_nat (length d)) 0) as [H0 | Hne].
  { destruct d; [| cbn in H0; lia]. cbn [length app]. by rewrite Z.add_0_r, app_nil_r. }
  assert (Hb : ∃ b, (if Z.of_nat (length d) <? 8192 then Z.of_nat (length d) else 8192) = b ∧
    0 < b ≤ Z.of_nat (length d) ∧ b ≤ 8192).
  { eexists. split; [done |]. destruct (Z.ltb_spec (Z.of_nat (length d)) 8192); lia. }
  destruct Hb as (b & -> & Hb & Hb').
  destruct (split_data d (Z.to_nat b) ltac:(lia)) as (d1 & d2 & -> & Hl1).
  rewrite <- (assoc_L (++)).
  rewrite ourread_exact by (change (2 ^ 31) with 2147483648; lia).
  destruct (Z.leb_spec b 0); [lia |]. cbn [s_write memfs_ops].
  unfold fs_write. cbn [fs_full with_file fs_fds fs_inodes]. rewrite Hfull.
  rewrite lookup_insert_eq, lookup_insert_eq. cbn [i_kind i_perm i_uid i_gid i_mtime].
  rewrite Nat.sub_diag. change (replicate 0 0) with (@nil Z). rewrite app_nil_r.
  assert (Hs : splice (length done_) d1 done_ = done_ ++ d1).
  { unfold splice. rewrite take_ge, drop_ge by lia. by rewrite app_nil_r. }
  rewrite Hs. replace (Z.of_nat (length d1)) with b by lia. rewrite Z.eqb_refl. cbn [negb].
  rewrite length_app in Hf, Hne |- *.
  replace (Z.of_nat (length d1 + length d2) - b) with (Z.of_nat (length d2)) by lia.
  assert (Hfs : set_fds (<[fd := (fs_next fs, (length done_ + length d1)%nat)]>
        (<[fd := (fs_next fs, length done_)]> (fs_fds fs)))
      (set_inodes (<[fs_next fs := mkInode (KReg (done_ ++ d1)) perm u g t]>
        (<[fs_next fs := mkInode (KReg done_) perm u g t]> (fs_inodes fs)))
      (with_file fs p (mkInode (KReg done_) perm u g t) (<[fd := (fs_next fs, length done_)]> (fs_fds fs)))) =
    with_file fs p (mkInode (KReg (done_ ++ d1)) perm u g t)
      (<[fd := (fs_next fs, length (done_ ++ d1))]> (fs_fds fs))).
  { unfold set_fds, set_inodes, with_file. cbn [fs_names fs_inodes fs_fds fs_next fs_uid fs_full].
    by rewrite !insert_insert_eq, length_app. }
  cbn [fs_next with_file] in Hfs |- *. rewrite Hfs, w64_add, IH by lia.
  rewrite <- (assoc_L (++)).
  assert (q + b + Z.of_nat (length d2) = q + Z.of_nat (length d1 + length d2)) as -> by lia. done.
Qed.

Lemma expandRegular_file fuel d r o q fs p c hdr : fs_ok fs → placeable fs p → fs_full fs = false →
  (length d < fuel)%nat → size hdr = Z.of_nat (length d) →
  fs_fds fs !! Datatypes.S (fs_next fs) = None →
  expandRegular no_callback fuel (mkFd (mkGz (d ++ r) o) (w64 q)) fs c hdr p =
  Ret (0, mkFd (mkGz r o) (w64 (q + Z.of_nat (length d))),
       with_file fs p (mkInode (KReg d) 0 0 0 0) (fs_fds fs), c).
Proof.
  intros Hok Hp Hfull Hf Hsz Hfd. unfold expandRegular. rewrite replace_file by done.
  change (negb (0 =? 0)) with false. cbn iota. cbn [s_creat memfs_ops]. rewrite creat_file by done.
  rewrite Hsz. rewrite (expand_data_file _ _ _ _ _ _ _ []) by (done || lia). rewrite outcome_bind_ret.
  cbn [app s_close memfs_ops]. do 3 f_equal. unfold set_fds, with_file.
  cbn [fs_names fs_inodes fs_fds fs_next fs_uid fs_full]. by rewrite delete_insert_eq, (delete_id (fs_fds fs)).
Qed.

(** The inode setInfo leaves. *)
Definition owned (fs : memfs) (hdr : cpioHeader) (k : kind) : fsnode :=
  mkInode k (Z.land (mode hdr) 0xfff) (if fs_uid fs =? 0 then uid hdr else 0)
    (if fs_uid fs =? 0 then gid hdr else 0) (mtime hdr).

Lemma change_with_file f fs p i fds : fs_change f (with_file fs p i fds) p = (0, with_file fs p (f i) fds).
Proof.
  unfold fs_change. rewrite lookup_with_file. f_equal. unfold set_inodes, with_file.
  cbn [fs_names fs_inodes fs_fds fs_next fs_uid fs_full]. by rewrite insert_insert_eq.
Qed.

Lemma setInfo_file fs p hdr k fds : S_IS S_IFLNK (mode hdr) = false →
  setInfo (with_file fs p (mkInode k 0 0 0 0) fds) hdr p = (0, with_file fs p (owned fs hdr k) fds).
Proof.
  intros Hl. unfold setInfo, owned. rewrite Hl. cbn [negb].
  cbn [s_getuid s_chown s_chmod s_utime memfs_ops fs_uid with_file].
  destruct (fs_uid fs =? 0); repeat (rewrite change_with_file; cbn [Z.eqb i_kind i_perm i_uid i_gid i_mtime];
    change (0 =? 0) with true; cbn iota); done.
Qed.
End regular.

(** ** installCpioFile *)

Lemma bsearch_single key m : bsearch key archivePath [m] =
  if bool_decide (key = archivePath m) then Some m else None.
Proof.
  unfold bsearch, bsearch_by. cbn [length bsearch_loop]. change (0 <? 1)%nat with true. cbn iota.
  change ((0 + 1) / 2)%nat with 0%nat. cbn [lookup list_lookup].
  destruct (strcmp key (archivePath m)) eqn:E.
  - apply strcmp_eq in E. by rewrite bool_decide_eq_true_2.
  - rewrite bool_decide_eq_false_2 by (intros ->; by rewrite strcmp_refl in E). done.
  - rewrite bool_decide_eq_false_2 by (intros ->; by rewrite strcmp_refl in E). done.
Qed.

(** A regular file with one name. *)
Definition plain_file (e : entry) : Prop :=
  S_IS S_IFREG (w32 (s32 (e_num e f_mode))) = true ∧ s32 (e_num e f_nlink) ≤ 1.

Lemma regular_not m f : S_IS S_IFREG m = true → f ≠ S_IFREG → S_IS f m = false.
Proof.
  unfold S_IS. intros H%Z.eqb_eq Hf. rewrite H. by apply Z.eqb_neq.
Qed.

Section one_file.
Context (junk : Z) {C : Type}.
Abbreviation no_callback := (@None (cpioCallbackInfo → C → C)).

(** The inode installing [e] makes. *)
Definition installed (fs : memfs) (e : entry) : fsnode :=
  owned fs (header_of e []) (KReg (e_data e)).

Lemma install_loop_file fuel m e r o q fs last c : member_ok e → plain_file e → q mod 4 = 0 →
  e_name e = archivePath m → mapFlags m = CPIO_MAP_PATH →
  fs_ok fs → placeable fs (fsPath m) → fs_full fs = false →
  fs_fds fs !! Datatypes.S (fs_next fs) = None → (length (e_data e) < fuel)%nat →
  ∃ last', install_loop junk no_callback (Datatypes.S fuel) (Some [m])
    (mkInstall (mkFd (mkGz (entry_bytes e ++ r) o) (w64 q)) fs last [] None c) =
  install_loop junk no_callback fuel (Some [m])
    (mkInstall (mkFd (mkGz r o) (w64 (q + Z.of_nat (length (entry_bytes e)))))
       (with_file fs (fsPath m) (installed fs e) (fs_fds fs)) last' [] None c).
Proof.
  intros He [Hreg Hnl] Hq Hname Hflags Hok Hpl Hfull Hfd Hf. pose proof (not_trailer e He) as Ht.
  destruct He as [He Hne]. cbn [install_loop in_fd]. unfold entry_bytes at 1. rewrite <- !(assoc_L (++)).
  rewrite getNextHeader_entry by done. cbn [path header_of].
  rewrite c_str_name, outcome_bind_ret by apply He. rewrite Ht, bsearch_single.
  rewrite (bool_decide_eq_true_2 (e_name e = archivePath m)) by done.
  rewrite (bool_decide_eq_false_2 (Some m = None)) by done. rewrite andb_false_r.
  unfold apply_map. rewrite Hflags. change (has_flag CPIO_MAP_PATH CPIO_MAP_PATH) with true.
  change (has_flag CPIO_MAP_PATH CPIO_MAP_MODE) with false.
  change (has_flag CPIO_MAP_PATH CPIO_MAP_UID) with false.
  change (has_flag CPIO_MAP_PATH CPIO_MAP_GID) with false. cbn iota.
  unfold install_entry. cbn [in_fd in_sys in_last in_links in_failed in_cb].
  set (ch := set_path _ _).
  assert (Hmode : mode ch = w32 (s32 (e_num e f_mode))) by done.
  assert (Hsize : size ch = Z.of_nat (length (e_data e))) by done.
  assert (Hlink : nlink ch = s32 (e_num e f_nlink)) by done.
  rewrite Hlink. destruct (Z.ltb_spec 1 (s32 (e_num e f_nlink))); [lia |]. rewrite andb_false_r.
  rewrite outcome_bind_ret. cbn [andb].
  destruct (checkDirectory_exists fs last (fsPath m) Hpl) as [last' ->]. rewrite outcome_bind_ret.
  change (0 =? 0) with true. cbn iota. unfold expand. rewrite Hmode, Hreg.
  rewrite (expandRegular_file fuel (e_data e)) by done. rewrite outcome_bind_ret.
  change (0 =? 0) with true. cbn iota.
  rewrite setInfo_file by (rewrite Hmode; by apply regular_not).
  rewrite !outcome_bind_ret. change (negb (0 =? 0)) with false. cbn [andb].
  rewrite !outcome_bind_ret. cbn [in_fd in_sys in_last in_links in_failed in_cb].
  change (0 =? 0) with true. cbn iota.
  rewrite padinfd_pad4 by (by apply add_aligned, entry_head_aligned).
  rewrite length_entry_bytes, !Z.add_assoc. exists last'. done.
Qed.

Lemma install_one fuel m pre e post tail o fs last c :
  Forall member_ok (pre ++ e :: post) → plain_file e →
  Forall (λ e', e_name e' ≠ archivePath m) (pre ++ post) → e_name e = archivePath m →
  mapFlags m = CPIO_MAP_PATH → fs_ok fs → placeable fs (fsPath m) → fs_full fs = false →
  fs_fds fs !! Datatypes.S (fs_next fs) = None → (length (archive (pre ++ e :: post)) < fuel)%nat →
  myCpioInstallArchive junk no_callback fuel (mkGz (archive (pre ++ e :: post) ++ tail) o) fs last (Some [m]) c =
  Ret (0, None, with_file fs (fsPath m) (installed fs e) (fs_fds fs)).
Proof.
  intros Hes Hpf Hoth Hname Hflags Hok Hpl Hfull Hfd Hf.
  apply Forall_app in Hes as [Hpre [He Hpost]%list.Forall_cons].
  apply Forall_app in Hoth as [Hopre Hopost].
  assert (Hno : ∀ l, Forall (λ e', e_name e' ≠ archivePath m) l →
    Forall (λ e', bsearch (e_name e') archivePath [m] = None) l).
  { intros l Hl. eapply list.Forall_impl; [exact Hl |]. intros e' Hne. cbn beta.
    rewrite bsearch_single. by rewrite bool_decide_eq_false_2. }
  rewrite archive_body, body_app, body_cons in Hf |- *. rewrite !length_app in Hf.
  change (length (archive [])) with 124%nat in Hf.
  pose proof (length_body pre) as Hlpre. pose proof (length_body post) as Hlpost.
  pose proof (entry_bytes_long e) as Hle.
  unfold myCpioInstallArchive. rewrite <- !(assoc_L (++)).
  destruct (install_loop_skips junk (fuel - length (body pre)) [m] pre
    (entry_bytes e ++ body post ++ archive [] ++ tail) o 0 fs last [] None c Hpre eq_refl (Hno _ Hopre))
    as (q & Hq & E).
  replace (length (body pre) + (fuel - length (body pre)))%nat with fuel in E by lia.
  rewrite wrap_small in E by (change (2 ^ 64) with 18446744073709551616; lia). rewrite E. clear E.
  assert (Hfuel' : ∃ k, (fuel - length pre)%nat = Datatypes.S k ∧ (fuel = length pre + S k)%nat)
    by (exists (fuel - length pre - 1)%nat; lia).
  destruct Hfuel' as (k & -> & Hk).
  destruct (install_loop_file k m e (body post ++ archive [] ++ tail) o q fs last c)
    as [last' ->]; try done; [lia |].
  destruct (install_loop_skips junk (k - length (body post)) [m] post (archive [] ++ tail) o
    (q + Z.of_nat (length (entry_bytes e))) (with_file fs (fsPath m) (installed fs e) (fs_fds fs)) last'
    [] None c Hpost) as (q' & Hq' & E); [by apply add_aligned, entry_bytes_aligned | by apply Hno |].
  replace (length (body post) + (k - length (body post)))%nat with k in E by lia. rewrite E. clear E.
  destruct (install_loop_trailer junk (k - length post) (Some [m]) tail o q'
    (with_file fs (fsPath m) (installed fs e) (fs_fds fs)) last' [] None c Hq' ltac:(lia)) as [f ->].
  reflexivity.
Qed.
End one_file.

(** ** Properties *)

(** myCpioInstallArchive with a sorted table of mappings that names no
    entry of the archive passes over all of them: it returns 0, reports no
    failed file and makes no system call that changes anything, on any
    system. *)
Theorem install_unmapped {S : Type} `{SysOps S} junk fuel l es tail o (s : S) last
    (Hes : Forall member_ok es)
    (Hsorted : ∀ i j x y, (i < j)%nat → l !! i = Some x → l !! j = Some y →
      strcmp (archivePath x) (archivePath y) = Lt)
    (Hnone : Forall (λ e, Forall (λ m, archivePath m ≠ e_name e) l) es)
    (Hfuel : (length (archive es) < fuel)%nat) :
  myCpioInstallArchive junk (@None (cpioCallbackInfo → unit → unit)) fuel
    (mkGz (archive es ++ tail) o) s last (Some l) tt = Ret (0, None, s).
Proof.
  apply install_none; [done | | done]. eapply list.Forall_impl; [exact Hnone |].
  intros e He. by apply bsearch_none.
Qed.

Lemma install_unmapped_witness :
  myCpioInstallArchive 3 (@None (cpioCallbackInfo → unit → unit)) (Z.to_nat 600)
    (mkGz (archive sample_entries ++ [7]) []) empty_fs []
    (Some [mkMapping (str "A") [] 0 0 0 0; mkMapping (str "c") [] 0 0 0 0]) tt = Ret (0, None, empty_fs).
Proof.
  apply (install_unmapped 3 (Z.to_nat 600)
    [mkMapping (str "A") [] 0 0 0 0; mkMapping (str "c") [] 0 0 0 0] sample_entries [7] [] empty_fs []).
  - exact sample_members.
  - intros [| [| i]] [| [| j]] x y Hij; try lia; try done. by intros [= <-] [= <-].
  - repeat constructor; discriminate.
  - assert (length (archive sample_entries) = 472%nat) by reflexivity. lia.
Defined.

(** C8: installCpioFile puts one file in place: when exactly one entry of the
    archive has the name asked for, is a regular file with one link, and the
    target's directories exist, then it returns 0, the target is a regular
    file with the entry's data, permission bits and modification time (and
    owner, for root), replacing what was there, and every other name leads to
    the inode it led to before. *)
Theorem installCpioFile_extracts junk fuel pre e post tail o fs last out
    (Hes : Forall member_ok (pre ++ e :: post)) (Hplain : plain_file e)
    (Hother : Forall (λ e', e_name e' ≠ e_name e) (pre ++ post))
    (Hok : fs_ok fs) (Hplace : placeable fs out) (Hroom : fs_full fs = false)
    (Hfd : fs_fds fs !! S (fs_next fs) = None)
    (Hfuel : (length (archive (pre ++ e :: post)) < fuel)%nat) :
  ∃ fs' n, installCpioFile junk fuel (mkGz (archive (pre ++ e :: post) ++ tail) o) fs last (e_name e)
      (Some out) = Ret (0, fs') ∧
    fs_lookup fs' out = Some (n, installed fs e) ∧
    i_kind (installed fs e) = KReg (e_data e) ∧
    ∀ q, q ≠ out → fs_lookup fs' q = fs_lookup fs q.
Proof.
  set (m := mkMapping (e_name e) out 0 0 0 CPIO_MAP_PATH).
  unfold installCpioFile. cbn [fmap option_fmap option_map]. fold m.
  pose proof (install_one junk fuel m pre e post tail o fs last tt) as E.
  rewrite E by done. rewrite outcome_bind_ret. cbn [fsPath m s_access memfs_ops].
  rewrite lookup_with_file. eexists _, _. split; [reflexivity |]. split_and!.
  - apply lookup_with_file.
  - done.
  - intros q Hq. by apply lookup_with_file_ne.
Qed.

(** A system with one directory; root. *)
Definition dir_fs (p : bytes) (perm : Z) : memfs :=
  mkFs (<[p := 1%nat]> ∅) (<[1%nat := mkInode KDir perm 0 0 0]> ∅) ∅ 2 0 false.

Lemma dir_fs_ok p perm : fs_ok (dir_fs p perm).
Proof.
  constructor; cbn [dir_fs fs_names fs_inodes fs_next].
  - intros q n. rewrite lookup_insert_Some. intros [[_ <-] | [_ Hn]].
    + by rewrite lookup_insert_eq.
    + by rewrite lookup_empty in Hn.
  - intros n [i Hi]. apply lookup_insert_Some in Hi as [[<- _] | [_ Hn]]; [lia |].
    by rewrite lookup_empty in Hn.
Qed.

Lemma dir_fs_is_dir p perm : 0 ≤ perm < 4096 → is_dir (dir_fs p perm) p.
Proof.
  intros Hp. exists 1%nat, (mkInode KDir perm 0 0 0). split; [| by split].
  unfold fs_lookup. cbn [dir_fs fs_names fs_inodes]. rewrite lookup_insert_eq. cbn [mbind option_bind].
  by rewrite lookup_insert_eq.
Qed.

(** /etc exists. *)
Definition sample_fs : memfs := dir_fs (str "etc") 0x1ed.

Lemma sample_fs_ok : fs_ok sample_fs.
Proof. apply dir_fs_ok. Qed.
Lemma sample_etc : is_dir sample_fs (str "etc").
Proof. by apply dir_fs_is_dir. Qed.

Lemma sample_placeable : placeable sample_fs (str "etc/x").
Proof.
  constructor.
  - discriminate.
  - intros i Hi. assert (i = 2%nat) as -> by (vm_compute in Hi; congruence).
    apply list.Forall_cons. split; [exact sample_etc | constructor].
  - intros q Hq. assert (q = str "etc") as -> by (vm_compute in Hq; vm_compute; congruence). exact sample_etc.
  - intros n i Hl. vm_compute in Hl. discriminate.
Qed.

Lemma installCpioFile_extracts_witness :
  ∃ fs' n i, installCpioFile 3 (Z.to_nat 600)
      (mkGz (archive [sample_entry (str "a") (str "123"); sample_entry (str "b") []] ++ []) [])
      sample_fs [] (str "a") (Some (str "etc/x")) = Ret (0, fs') ∧
    fs_lookup fs' (str "etc/x") = Some (n, i) ∧ i_kind i = KReg (str "123") ∧ i_uid i = 7.
Proof.
  destruct (installCpioFile_extracts 3 (Z.to_nat 600) [] (sample_entry (str "a") (str "123"))
    [sample_entry (str "b") []] [] [] sample_fs [] (str "etc/x")) as (fs' & n & E & Hl & Hk & _).
  - repeat constructor; try (apply sample_entry_ok; [by repeat constructor | cbn; lia | cbn; lia]); discriminate.
  - split; [reflexivity | vm_compute; discriminate].
  - repeat constructor. discriminate.
  - exact sample_fs_ok.
  - exact sample_placeable.
  - reflexivity.
  - reflexivity.
  - assert (length (archive ([] ++ sample_entry (str "a") (str "123") :: [sample_entry (str "b") []])) = 352%nat)
      as -> by reflexivity. lia.
  - eexists _, _, _. split; [exact E |]. split; [exact Hl |]. split; [exact Hk | reflexivity].
Defined.

(** ** An error that is lost *)

(** A regular file with two names, its data in one piece. *)
Record linked_file (e : entry) : Prop := {
  lf_mode : S_IS S_IFREG (w32 (s32 (e_num e f_mode))) = true;
  lf_links : e_num e f_nlink = 2;
  lf_data : (0 < length (e_data e) ≤ Z.to_nat 8192)%nat
}.

Lemma expandRegular_full fuel d r o q fs p c hdr : fs_ok fs → placeable fs p → fs_full fs = true →
  (0 < length d ≤ Z.to_nat 8192)%nat → (0 < fuel)%nat → size hdr = Z.of_nat (length d) →
  fs_fds fs !! S (fs_next fs) = None →
  expandRegular (@None (cpioCallbackInfo → unit → unit)) fuel (mkFd (mkGz (d ++ r) o) (w64 q)) fs c hdr p =
  Ret (CPIOERR_COPY_FAILED, mkFd (mkGz r o) (w64 (q + Z.of_nat (length d))),
       with_file fs p (mkInode (KReg []) 0 0 0 0) (fs_fds fs), c).
Proof.
  intros Hok Hp Hfull Hd Hf Hsz Hfd. unfold expandRegular. rewrite replace_file by done.
  change (negb (0 =? 0)) with false. cbn iota. cbn [s_creat memfs_ops]. rewrite creat_file by done.
  rewrite Hsz. destruct fuel as [| fuel]; [lia |]. cbn [expand_data].
  destruct (Z.eqb_spec (Z.of_nat (length d)) 0); [lia |].
  assert (Hb : (if Z.of_nat (length d) <? 8192 then Z.of_nat (length d) else 8192) = Z.of_nat (length d))
    by (destruct (Z.ltb_spec (Z.of_nat (length d)) 8192); lia).
  rewrite Hb, ourread_exact by (done || change (2 ^ 31) with 2147483648; lia).
  destruct (Z.leb_spec (Z.of_nat (length d)) 0); [lia |]. cbn [s_write memfs_ops]. unfold fs_write at 1.
  cbn [fs_full with_file]. rewrite Hfull. destruct (Z.eqb_spec (-1) (Z.of_nat (length d))); [lia |].
  cbn [negb]. rewrite outcome_bind_ret, w64_add. cbn [s_close memfs_ops]. do 3 f_equal.
  unfold set_fds, with_file. cbn [fs_names fs_inodes fs_fds fs_next fs_uid fs_full].
  by rewrite delete_insert_eq, (delete_id (fs_fds fs)).
Qed.

(** a write error is lost for a file with several names: unpacking such a
    file on a full file system leaves an empty file, yet
    myCpioInstallArchive returns 0 and names no failed file. *)
Theorem hardlink_write_error_lost junk fuel e o fs last
    (He : member_ok e) (Hlf : linked_file e) (Hok : fs_ok fs) (Hplace : placeable fs (e_name e))
    (Hfull : fs_full fs = true) (Hfd : fs_fds fs !! S (fs_next fs) = None) (Hfuel : (1 < fuel)%nat) :
  ∃ fs' n, myCpioInstallArchive junk (@None (cpioCallbackInfo → unit → unit)) fuel
      (mkGz (archive [e]) o) fs last None tt = Ret (0, None, fs') ∧
    fs_lookup fs' (e_name e) = Some (n, mkInode (KReg []) 0 0 0 0).
Proof.
  pose proof (not_trailer e He) as Ht. destruct He as [He Hne]. destruct Hlf as [Hreg Hnl Hd].
  destruct fuel as [| fuel]; [lia |]. unfold myCpioInstallArchive.
  rewrite archive_body, body_cons. change (body []) with (@nil Z). rewrite app_nil_r.
  cbn [install_loop in_fd]. unfold entry_bytes at 1. rewrite <- !(assoc_L (++)).
  pose proof (getNextHeader_entry junk e 0 (e_data e ++ pad 4 (length (e_data e)) ++ archive []) o He eq_refl) as Eh.
  rewrite wrap_small in Eh by (change (2 ^ 64) with 18446744073709551616; lia). rewrite Eh. clear Eh.
  cbn [path header_of]. rewrite c_str_name, outcome_bind_ret by apply He. rewrite Ht.
  change (bool_decide (is_Some None) && bool_decide (None = None)) with false. cbn [apply_map].
  unfold install_entry. cbn [in_fd in_sys in_last in_links in_failed in_cb].
  set (ch := header_of e (e_name e ++ [0; junk])).
  assert (Hmode : mode ch = w32 (s32 (e_num e f_mode))) by done.
  assert (Hsize : size ch = Z.of_nat (length (e_data e))) by done.
  assert (Hlink : nlink ch = 2) by (unfold ch; cbn [nlink header_of e_field]; by rewrite Hnl).
  rewrite Hmode, Hreg, Hlink. change (1 <? 2) with true. cbn [andb].
  unfold enter_link. cbn [list_find]. rewrite Hlink. change (Z.to_nat 2) with 2%nat.
  cbn [list_lookup lookup files]. change (list_find (λ q, q = None) (replicate 2 (@None bytes))) with (Some (0%nat, @None bytes)).
  cbn iota. rewrite outcome_bind_ret. cbn [insert list_insert lookup list_lookup createdPath set_file].
  destruct (Z.eqb_spec (size ch) 0); [lia |]. change (-1 =? -1) with true. cbn [negb andb].
  destruct (checkDirectory_exists fs last (e_name e) Hplace) as [last' ->]. rewrite outcome_bind_ret.
  change (0 =? 0) with true. cbn iota. unfold expand. rewrite Hmode, Hreg.
  rewrite (expandRegular_full fuel (e_data e)) by (done || lia). rewrite outcome_bind_ret.
  change (CPIOERR_COPY_FAILED =? 0) with false. cbn iota. cbn [checked]. rewrite !outcome_bind_ret.
  unfold createLinks. cbn [l_nlink set_left set_created set_file linksLeft]. change (Z.to_nat 2) with 2%nat.
  cbn [createLinks_from files createdPath set_left set_created set_file].
  change (Z.of_nat 0 =? Z.of_nat 0) with true. change (Z.of_nat 1 =? Z.of_nat 0) with false. cbn iota.
  change ((<[0%nat:=Some (e_name e)]> (replicate 2 None)) !! 1%nat) with (Some (@None bytes)). cbn iota.
  rewrite !outcome_bind_ret. change (negb (0 =? 0)) with false. cbn [andb]. rewrite !outcome_bind_ret.
  cbn [in_fd in_sys in_last in_links in_failed in_cb]. change (0 =? 0) with true. cbn iota.
  rewrite padinfd_pad4 by apply entry_head_aligned.
  destruct (install_loop_trailer junk (C:=unit) fuel None [] o
    (Z.of_nat (length (entry_head e)) + Z.of_nat (length (e_data e)) + Z.of_nat (length (pad 4 (length (e_data e)))))
    (with_file fs (e_name e) (mkInode (KReg []) 0 0 0 0) (fs_fds fs)) last'
    [mkLink (inode ch) (dev ch) 2 (2 - 1) (Z.of_nat 0) (<[0%nat:=Some (e_name e)]> (replicate 2 None))]
    None tt) as [f Ef]; [by apply pad_aligned, entry_head_aligned | lia |].
  rewrite app_nil_r in Ef. cbn [insert list_insert].
  match goal with |- context [install_loop _ _ fuel None ?st] =>
    assert (Est : install_loop junk (@None (cpioCallbackInfo → unit → unit)) fuel None st = _) by exact Ef end.
  rewrite Est, outcome_bind_ret. change (false || negb (0 =? 0)) with false. cbn iota.
  cbn [in_sys in_links in_failed finish_links linksLeft createdPath]. change (2 - 1 =? 0) with false.
  change (Z.of_nat 0 =? -1) with false. cbn iota.
  unfold createLinks. cbn [l_nlink]. change (Z.to_nat 2) with 2%nat.
  cbn [createLinks_from files createdPath]. change (Z.of_nat 0 =? Z.of_nat 0) with true.
  change (Z.of_nat 1 =? Z.of_nat 0) with false. cbn iota.
  change ((<[0%nat:=Some (e_name e)]> (replicate 2 None)) !! 1%nat) with (Some (@None bytes)). cbn iota.
  eexists _, _. split; [reflexivity |]. apply lookup_with_file.
Qed.

Definition linked_entry : entry :=
  mkEntry false (λ f, match f with f_mode => 33188 | f_nlink => 2 | _ => 7 end) (str "f") (str "data").
Definition full_fs : memfs := mkFs ∅ ∅ ∅ 1 0 true.

Lemma hardlink_write_error_lost_witness :
  ∃ fs' n, myCpioInstallArchive 3 (@None (cpioCallbackInfo → unit → unit)) 9
      (mkGz (archive [linked_entry]) []) full_fs [] None tt = Ret (0, None, fs') ∧
    fs_lookup fs' (str "f") = Some (n, mkInode (KReg []) 0 0 0 0).
Proof.
  apply (hardlink_write_error_lost 3 9 linked_entry [] full_fs []).
  - split; [| discriminate]. constructor.
    + intros []; cbn; change (2 ^ 32) with 4294967296; lia.
    + by repeat constructor.
    + cbn. change (2 ^ 31) with 2147483648. lia.
    + cbn. change (2 ^ 31) with 2147483648. lia.
  - constructor; [reflexivity | reflexivity | cbn; lia].
  - constructor.
    + intros p n Hn. cbn in Hn. by rewrite lookup_empty in Hn.
    + intros n [i Hn]. cbn in Hn. by rewrite lookup_empty in Hn.
  - constructor.
    + discriminate.
    + intros i Hi. vm_compute in Hi. discriminate.
    + intros q Hq. vm_compute in Hq. discriminate.
    + intros n i Hl. vm_compute in Hl. discriminate.
  - reflexivity.
  - reflexivity.
  - lia.
Defined.
