(* ===== verification/IsysStr.v ===== *)
(** * String helpers (isys/str.c)

    Case conversion, strindex and strcount, over the buffer the string lies in:
    a step past the end of the buffer is undefined. *)

From S2P Require Import Prelude CLib.

(** The loop up to the end of the string. *)
Fixpoint str2case_loop (lower upper shift : Z) (tmp : bytes) : outcome bytes :=
  match tmp with
  | [] => Undef
  | b :: r =>
      if b =? 0 then Ret tmp
      else
        r ← str2case_loop lower upper shift r;
        Ret ((if (lower <=? schar b) && (schar b <=? upper) then w8 (b + shift) else b) :: r)
  end.

Definition str2case (s : option bytes) (lower upper shift : Z) : outcome (option bytes) :=
  match s with None => Ret None | Some s => Some <$> str2case_loop lower upper shift s end.
Definition str2upper (s : option bytes) : outcome (option bytes) := str2case s 97 122 (-32).
Definition str2lower (s : option bytes) : outcome (option bytes) := str2case s 65 90 32.

(** The loop of strindex: the first character is compared before the
    end of the string is looked for. *)
Fixpoint strindex_loop (s : bytes) (ch : Z) : outcome (option bytes) :=
  match s with
  | [] => Undef
  | b :: r =>
      if schar b =? ch then Ret (Some s)
      else
        b ← checked (head r);
        if b =? 0 then Ret None else strindex_loop r ch
  end.
Definition strindex (s : option bytes) (ch : Z) : outcome (option bytes) :=
  match s with None => Ret None | Some s => strindex_loop s ch end.

Fixpoint strcount_loop (fuel : nat) (tmp : bytes) (ch retval : Z) : outcome Z :=
  match fuel with
  | O => NoFuel
  | S fuel =>
      r ← strindex (Some tmp) ch;
      match r with
      | None => Ret retval
      | Some tmp => strcount_loop fuel (tail tmp) ch (retval + 1)
      end
  end.
Definition strcount (fuel : nat) (s : option bytes) (ch : Z) : outcome Z :=
  match s with None => Ret 0 | Some tmp => strcount_loop fuel tmp ch 0 end.

(** ** Facts *)

(** The number of occurrences of [ch]. *)
Fixpoint occurrences (s : bytes) (ch : Z) : Z :=
  match s with [] => 0 | b :: s => (if schar b =? ch then 1 else 0) + occurrences s ch end.

Lemma occurrences_app s t ch : occurrences (s ++ t) ch = occurrences s ch + occurrences t ch.
Proof. induction s as [| b s IH]; cbn [occurrences app]; lia. Qed.

Lemma occurrences_nonneg s ch : 0 ≤ occurrences s ch.
Proof. induction s as [| b s IH]; cbn [occurrences]; [done | case_match; lia]. Qed.

(** strindex on a string that is not empty: the first occurrence. *)
Lemma strindex_loop_spec s ch r : s ≠ [] → Forall (λ b, b ≠ 0) s →
  (∃ p b t, s = p ++ b :: t ∧ schar b = ch ∧ occurrences p ch = 0 ∧
    strindex_loop (s ++ 0 :: r) ch = Ret (Some (b :: t ++ 0 :: r))) ∨
  (occurrences s ch = 0 ∧ strindex_loop (s ++ 0 :: r) ch = Ret None).
Proof.
  intros Hne Hs. induction Hs as [| b s Hb Hs IH]; [done |]. cbn [app strindex_loop occurrences].
  destruct (Z.eqb_spec (schar b) ch) as [E | E]; [left; by exists [], b, s |].
  destruct s as [| b' s]; [by right |]. cbn [app head checked]. rewrite outcome_bind_ret.
  apply list.Forall_cons in Hs as [Hb' Hs']. destruct (Z.eqb_spec b' 0); [done |].
  destruct (IH ltac:(done)) as [(p & c & t & Es & Ec & Ep & El) | [E0 El]].
  - left. exists (b :: p), c, t. cbn [app occurrences]. rewrite Es.
    destruct (Z.eqb_spec (schar b) ch); [done |]. rewrite Ep. by rewrite <- El.
  - right. split; [lia | done].
Qed.

Lemma strcount_loop_spec fuel s ch n : (length s < fuel)%nat → Forall (λ b, b ≠ 0) s → s ≠ [] →
  (∀ p b, s = p ++ [b] → schar b ≠ ch) → ∀ r, strcount_loop fuel (s ++ 0 :: r) ch n = Ret (n + occurrences s ch).
Proof.
  revert s n. induction fuel as [| fuel IH]; intros s n Hf Hs Hne Hlast r; [lia |]. cbn [strcount_loop strindex].
  destruct (strindex_loop_spec s ch r Hne Hs) as [(p & b & t & -> & Eb & Ep & ->) | [E0 ->]]; rewrite outcome_bind_ret.
  - cbn [tail]. rewrite occurrences_app. cbn [occurrences]. rewrite (proj2 (Z.eqb_eq _ _) Eb), Ep.
    assert (t ≠ []) by (intros ->; by eapply Hlast).
    rewrite IH; [f_equal; lia | rewrite length_app in Hf; cbn in Hf; lia | by apply Forall_app in Hs as [_ [_ ?]%list.Forall_cons] | done |].
    intros q c ->. apply (Hlast (p ++ b :: q)). by rewrite <- (assoc_L (++)).
  - f_equal. lia.
Qed.

Lemma strindex_empty ch : ch ≠ 0 → strindex_loop [0] ch = Undef.
Proof. intros H. cbn [strindex_loop]. change (schar 0) with 0. destruct (Z.eqb_spec 0 ch); [congruence | done]. Qed.

Lemma strcount_loop_over fuel s b ch n : (S (length s) < fuel)%nat → Forall (λ b, b ≠ 0) (s ++ [b]) →
  schar b = ch → ch ≠ 0 → strcount_loop fuel (s ++ [b; 0]) ch n = Undef.
Proof.
  intros Hf Hs Hb Hc. revert s n Hf Hs. induction fuel as [| fuel IH]; intros s n Hf Hs; [lia |].
  cbn [strcount_loop strindex]. replace (s ++ [b; 0]) with ((s ++ [b]) ++ 0 :: []) by (by rewrite <- (assoc_L (++))).
  destruct (strindex_loop_spec (s ++ [b]) ch [] ltac:(by destruct s) Hs) as [(p & c & t & Es & Ec & Ep & ->) | [E0 _]].
  - rewrite outcome_bind_ret. cbn [tail]. destruct t as [| d t _] using rev_ind.
    + destruct fuel as [| fuel]; [lia |]. cbn [strcount_loop strindex app]. by rewrite strindex_empty.
    + assert (s = p ++ c :: t ∧ b = d) as [-> ->].
      { change (p ++ c :: t ++ [d]) with (p ++ (c :: t) ++ [d]) in Es. rewrite (assoc_L (++)) in Es. by apply app_inj_tail in Es. }
      rewrite length_app in Hf. cbn [length] in Hf. rewrite <- (assoc_L (++)). apply IH; [lia |].
      rewrite <- (assoc_L (++)) in Hs. cbn [app] in Hs. by apply Forall_app in Hs as [_ [_ ?]%list.Forall_cons].
  - rewrite occurrences_app in E0. cbn [occurrences] in E0. rewrite (proj2 (Z.eqb_eq _ _) Hb) in E0.
    pose proof (occurrences_nonneg s ch). lia.
Qed.

Lemma str2case_loop_map lower upper shift s r : Forall (λ b, b ≠ 0) s →
  str2case_loop lower upper shift (s ++ 0 :: r) =
  Ret (((λ b, if (lower <=? schar b) && (schar b <=? upper) then w8 (b + shift) else b) <$> s) ++ 0 :: r).
Proof.
  induction 1 as [| b s Hb _ IH]; [done |]. cbn [app str2case_loop]. destruct (Z.eqb_spec b 0); [done |].
  by rewrite IH.
Qed.

Definition toupper (c : Z) : Z := if (97 <=? c) && (c <=? 122) then c - 32 else c.

Lemma upper_byte b : is_byte b →
  (if (97 <=? schar b) && (schar b <=? 122) then w8 (b + -32) else b) = toupper b.
Proof.
  unfold is_byte, schar, toupper. intros Hb.
  destruct (Z.ltb_spec b 128), (Z.leb_spec 97 b), (Z.leb_spec b 122); cbn [andb]; try lia;
    repeat (case_match; try lia). rewrite wrap_small by lia. lia.
Qed.

Lemma lower_byte b : is_byte b →
  (if (65 <=? schar b) && (schar b <=? 90) then w8 (b + 32) else b) = tolower b.
Proof.
  unfold is_byte, schar, tolower. intros Hb.
  destruct (Z.ltb_spec b 128), (Z.leb_spec 65 b), (Z.leb_spec b 90); cbn [andb]; try lia;
    repeat (case_match; try lia). rewrite wrap_small by lia. lia.
Qed.

Lemma str2upper_map s r : Forall is_byte s → Forall (λ b, b ≠ 0) s →
  str2upper (Some (s ++ 0 :: r)) = Ret (Some ((toupper <$> s) ++ 0 :: r)).
Proof.
  intros Hb Hs. cbn [str2upper str2case]. rewrite str2case_loop_map by done. cbn. do 3 f_equal.
  apply list_fmap_ext. intros i x Hi. apply upper_byte. by eapply Forall_lookup_1.
Qed.

Lemma str2lower_map s r : Forall is_byte s → Forall (λ b, b ≠ 0) s →
  str2lower (Some (s ++ 0 :: r)) = Ret (Some ((tolower <$> s) ++ 0 :: r)).
Proof.
  intros Hb Hs. cbn [str2lower str2case]. rewrite str2case_loop_map by done. cbn. do 3 f_equal.
  apply list_fmap_ext. intros i x Hi. apply lower_byte. by eapply Forall_lookup_1.
Qed.

(** ** Properties *)

(** In the buffer that holds just a string, strcount counts the
    occurrences of a character; it reads past the end of the buffer exactly when
    the string is empty or ends with the character looked for. *)
Lemma strcount_counts s ch fuel (Hs : Forall (λ b, b ≠ 0) s) (Hch : ch ≠ 0) (Hfuel : (S (length s) < fuel)%nat) :
  strcount fuel (Some (s ++ [0])) ch =
  if bool_decide (s = [] ∨ schar <$> list.last s = Some ch) then Undef else Ret (occurrences s ch).
Proof.
  cbn [strcount]. case_bool_decide as H.
  - destruct H as [-> | H].
    + destruct fuel as [| fuel]; [lia |]. cbn [app strcount_loop strindex]. by rewrite strindex_empty.
    + destruct s as [| b s _] using rev_ind; [done |]. rewrite list.last_snoc in H. injection H as H.
      rewrite <- (assoc_L (++)). apply strcount_loop_over; try done. rewrite length_app in Hfuel. cbn in Hfuel. lia.
  - rewrite strcount_loop_spec; [done | lia | done | tauto |].
    intros p b -> E. apply H. right. rewrite list.last_snoc. cbn. by rewrite E.
Qed.

(** str2upper and str2lower change the ASCII letters of the string in
    place and nothing else, neither its length nor what lies behind it; each is
    idempotent and undoes the other on letters. *)
Lemma str2case_letters s r (Hb : Forall is_byte s) (Hs : Forall (λ b, b ≠ 0) s) :
  ∃ u l, str2upper (Some (s ++ 0 :: r)) = Ret (Some (u ++ 0 :: r)) ∧
    str2lower (Some (s ++ 0 :: r)) = Ret (Some (l ++ 0 :: r)) ∧
    length u = length s ∧ length l = length s ∧
    (∀ i b, s !! i = Some b → u !! i = Some (toupper b) ∧ l !! i = Some (tolower b)) ∧
    str2upper (Some (u ++ 0 :: r)) = Ret (Some (u ++ 0 :: r)) ∧
    str2lower (Some (u ++ 0 :: r)) = Ret (Some (l ++ 0 :: r)).
Proof.
  exists (toupper <$> s), (tolower <$> s). rewrite str2upper_map, str2lower_map by done.
  assert (Hub : Forall is_byte (toupper <$> s) ∧ Forall (λ b, b ≠ 0) (toupper <$> s)).
  { clear r. induction s as [| b s IH]; [by split |]. apply list.Forall_cons in Hb as [Hb0 Hb], Hs as [Hs0 Hs].
    destruct (IH Hb Hs). rewrite fmap_cons. unfold is_byte, toupper in *.
    split; constructor; try done; repeat case_match; lia. }
  destruct Hub as [Hub Hun]. rewrite str2upper_map, str2lower_map by done. rewrite !length_fmap.
  split_and!; try done.
  - intros i b Hi. by rewrite !list_lookup_fmap, Hi.
  - do 3 f_equal. rewrite <- list_fmap_compose. apply list_fmap_ext. intros i x _. unfold compose, toupper. repeat case_match; lia.
  - do 3 f_equal. rewrite <- list_fmap_compose. apply list_fmap_ext. intros i x _. unfold compose, toupper, tolower.
    repeat case_match; lia.
Qed.
