(* ===== verification/Urls.v ===== *)
(** * URLs of the installation source (stage-1/urls.c)

    convertURLToUI, getLoginName and convertUIToURL.  Strings are values; a
    null pointer is [None], and reading through it is undefined.  The characters
    convertURLToUI overwrites in its argument are shown in its result. *)

From S2P Require Import Prelude CLib.

Inductive urlprotocol := URL_METHOD_FTP | URL_METHOD_HTTP.
#[export] Instance urlprotocol_eq_dec : EqDecision urlprotocol.
Proof. solve_decision. Defined.

Record iurlinfo := mkUi {
  protocol : urlprotocol; address : option bytes; login : option bytes; password : option bytes;
  prefix : option bytes; proxy : option bytes; proxyPort : option bytes; ftpPort : Z }.

(** What memset leaves. *)
Definition zero_ui : iurlinfo := mkUi URL_METHOD_FTP None None None None None None 0.

(** A NUL written where the suffix [t] of [url] starts. *)
Definition put_nul (url t : bytes) : bytes := <[(length url - length t)%nat := 0]> url.

(** The login of an ftp URL: its name, its password and the rest, with [url]
    after the writes. *)
Definition url_login (url u : bytes) : outcome (bytes * bytes * option bytes * option bytes) :=
  match strchr u 64 with
  | None => Ret (url, u, None, None)
  | Some _ =>
      match strchr u 58 with
      | Some c =>
          let url := put_nul url c in
          let name := before u c in
          let u := tail c in
          a ← checked (strchr u 64);
          Ret (put_nul url a, tail a, Some name, Some (before u a))
      | None =>
          a ← checked (strchr u 64);
          Ret (put_nul url a, tail a, Some (before u a), None)
      end
  end.

(** The address and the prefix. *)
Definition url_host (u : bytes) : bytes * bytes :=
  match strchr u 47 with Some t => (before u t, t) | None => (u, [47]) end.

(** The return value, the argument afterwards and the structure filled in. *)
Definition convertURLToUI (url : bytes) : outcome (Z * bytes * iurlinfo) :=
  if starts_with (str "ftp://") url then
    '(url, u, lg, pw) ← url_login url (drop 6 url);
    let '(a, p) := url_host u in
    Ret (0, url, mkUi URL_METHOD_FTP (Some a) lg pw (Some p) None None 0)
  else if starts_with (str "http://") url then
    let '(a, p) := url_host (drop 7 url) in
    Ret (0, url, mkUi URL_METHOD_HTTP (Some a) None None (Some p) None None 0)
  else Ret (-1, url, zero_ui).

(** [sprintf(code, "%%%2x", *chptr)] into four bytes *)
Definition code (c : Z) : outcome bytes :=
  _ ← defined_if (0 <=? schar c);
  Ret (37 :: (if schar c <? 16 then [32; hex_digit (schar c)] else fmt_02x (schar c))).

Fixpoint codes (pw : bytes) : outcome bytes :=
  match pw with [] => Ret [] | c :: pw => x ← code c; r ← codes pw; Ret (x ++ r) end.

Definition getLoginName (login_ : bytes) (ui : iurlinfo) : outcome bytes :=
  match login ui with
  | Some (c :: l) =>
      pw ← checked (password ui);
      let i := (length (c :: l) + 5 + (if bool_decide (pw = []) then 0 else 3 * length pw + 5))%nat in
      x ← codes pw;
      let r := (c :: l) ++ [58] ++ x ++ [64] in
      _ ← defined_if (length r <? i)%nat;
      Ret r
  | _ => Ret login_
  end.

(** [for (p=finalPrefix; ...; p++)] *)
Fixpoint skip_slashes (p : bytes) : bytes :=
  match p with
  | a :: r => if (a =? 47) && bool_decide (head r = Some 47) then skip_slashes r else p
  | [] => []
  end.

Definition convertUIToURL (ui : iurlinfo) : outcome bytes :=
  pre ← checked (prefix ui);
  let finalPrefix := if streq pre (str "/") then str "/." else pre in
  lg ← getLoginName [] ui;
  a ← checked (address ui);
  let size := (length finalPrefix + 25 + length a + length lg)%nat in
  let finalPrefix := if decide (protocol ui = URL_METHOD_HTTP) then skip_slashes finalPrefix else finalPrefix in
  let r := (if decide (protocol ui = URL_METHOD_FTP) then str "ftp" else str "http") ++ str "://" ++
           lg ++ a ++ finalPrefix in
  _ ← defined_if (length r <? size)%nat;
  Ret r.

(** The end of urlMainSetupPanel: trailing slashes are taken off the prefix;
    [chptr] starts in front of an empty one. *)
Fixpoint strip_from (pre : bytes) (chptr : nat) : nat :=
  match chptr with
  | O => O
  | S n => if bool_decide (pre !! chptr = Some 47) then strip_from pre n else chptr
  end.
Definition strip_prefix (pre : bytes) : outcome bytes :=
  _ ← defined_if (negb (length pre =? 0)%nat);
  Ret (take (S (strip_from pre (length pre - 1))) pre).

(** ** Facts *)

(** The escaped form of a password. *)
Definition escape (pw : bytes) : bytes :=
  mjoin ((λ c, 37 :: (if c <? 16 then [32; hex_digit c] else fmt_02x c)) <$> pw).

Definition ascii (c : Z) : Prop := 0 < c < 128.

Lemma escape_cons c pw : escape (c :: pw) =
  (37 :: (if c <? 16 then [32; hex_digit c] else fmt_02x c)) ++ escape pw.
Proof. reflexivity. Qed.

Lemma codes_escape pw : Forall ascii pw → codes pw = Ret (escape pw).
Proof.
  induction 1 as [| c pw Hc _ IH]; [done |]. cbn [codes]. unfold code, ascii in *.
  assert (schar c = c) as -> by (unfold schar; destruct (Z.ltb_spec c 128); lia).
  destruct (Z.leb_spec 0 c); [| lia]. by rewrite IH.
Qed.

Lemma length_escape pw : length (escape pw) = (3 * length pw)%nat.
Proof.
  induction pw as [| c pw IH]; [done |]. rewrite escape_cons, length_app, IH. cbn [length].
  destruct (c <? 16); cbn [length fmt_02x]; lia.
Qed.

(** An escaped password keeps no delimiter. *)
Lemma escape_no_at pw : Forall ascii pw → Forall (λ b, b ≠ 64) (escape pw).
Proof.
  induction 1 as [| c pw Hc _ IH]; [constructor |]. rewrite escape_cons. apply Forall_app. split; [| done].
  unfold ascii in Hc. assert (Hd : ∀ n, 0 ≤ n < 16 → hex_digit n ≠ 64).
  { intros n Hn. unfold hex_digit. destruct (n <? 10) eqn:E; lia. }
  destruct (Z.ltb_spec c 16); repeat constructor; try discriminate; apply Hd; mlia.
Qed.

Lemma strchr_at l u : Forall (λ b, b ≠ 64) l → ∃ t, strchr (l ++ 64 :: u) 64 = Some t.
Proof. intros. eexists. by apply strchr_app. Qed.

Lemma before_suffix a u : before (a ++ u) u = a.
Proof. apply before_app. Qed.

Lemma url_host_app a p : Forall (λ b, b ≠ 47) a → head p = Some 47 → url_host (a ++ p) = (a, p).
Proof.
  intros Ha Hp. destruct p as [| c p]; [done |]. injection Hp as ->. unfold url_host.
  by rewrite strchr_app, before_app.
Qed.

Lemma skip_slashes_head p : head p = Some 47 → head (skip_slashes p) = Some 47.
Proof.
  induction p as [| a p IH]; [done |]. intros [= ->]. cbn [skip_slashes]. case_bool_decide as E; cbn [andb]; [| done].
  by apply IH.
Qed.

Lemma skip_slashes_length p : (length (skip_slashes p) ≤ length p)%nat.
Proof. induction p as [| a p IH]; cbn [skip_slashes length]; [done |]. case_match; cbn [length]; lia. Qed.

Lemma skip_slashes_single p : skip_slashes p !! 0%nat = Some 47 → skip_slashes p !! 1%nat ≠ Some 47.
Proof.
  induction p as [| a p IH]; [done |]. cbn [skip_slashes].
  destruct (Z.eqb_spec a 47) as [-> | Ha]; cbn [andb].
  - case_bool_decide as E; [apply IH |]. intros _. by destruct p.
  - intros [= ->]. done.
Qed.

(** ** Properties *)

(** The prefix convertUIToURL prints. *)
Definition printed_prefix (ui : iurlinfo) (p : bytes) : bytes :=
  let q := if streq p (str "/") then str "/." else p in
  match protocol ui with URL_METHOD_HTTP => skip_slashes q | URL_METHOD_FTP => q end.

(** A structure with an address and a prefix, and where a login is printed a
    name without delimiters and an ASCII password. *)
Record ui_ok (ui : iurlinfo) (a p : bytes) : Prop := {
  uo_address : address ui = Some a;
  uo_slash : Forall (λ b, b ≠ 47) a;
  uo_prefix : prefix ui = Some p;
  uo_head : head p = Some 47;
  uo_login : match protocol ui, login ui with
    | URL_METHOD_HTTP, l => default [] l = []
    | URL_METHOD_FTP, Some (c :: l) => Forall (λ b, b ≠ 58 ∧ b ≠ 64) (c :: l) ∧
        ∃ pw, password ui = Some pw ∧ Forall ascii pw
    | URL_METHOD_FTP, _ => Forall (λ b, b ≠ 64) (a ++ p)
    end }.

Lemma printed_prefix_head ui p : head p = Some 47 → head (printed_prefix ui p) = Some 47.
Proof.
  intros Hp. unfold printed_prefix. case_match eqn:Ep; (destruct (streq p (str "/")); [done || by apply skip_slashes_head |]).
  - done.
  - by apply skip_slashes_head.
Qed.

Lemma printed_prefix_no_at ui p : protocol ui = URL_METHOD_FTP → Forall (λ b, b ≠ 64) p →
  Forall (λ b, b ≠ 64) (printed_prefix ui p).
Proof. unfold printed_prefix. intros ->. destruct (streq p (str "/")); [by repeat constructor | done]. Qed.

Lemma getLoginName_some ui l pw : l ≠ [] → login ui = Some l → password ui = Some pw → Forall ascii pw →
  getLoginName [] ui = Ret (l ++ [58] ++ escape pw ++ [64]).
Proof.
  intros Hne Hl Hp Ha. unfold getLoginName. rewrite Hl, Hp. destruct l as [| c l]; [done |].
  cbn [checked]. rewrite outcome_bind_ret, codes_escape, outcome_bind_ret by done.
  rewrite !length_app, length_escape. cbn [length].
  case_bool_decide as E; [subst pw; cbn [length] |];
    (rewrite (proj2 (Nat.ltb_lt _ _)) by lia; reflexivity).
Qed.

Lemma getLoginName_none ui : default [] (login ui) = [] → getLoginName [] ui = Ret [].
Proof. unfold getLoginName. by destruct (login ui) as [[| c l] |]. Qed.

(** What convertUIToURL prints. *)
Definition printed_url (ui : iurlinfo) (lg a p : bytes) : bytes :=
  match protocol ui with URL_METHOD_FTP => str "ftp://" | URL_METHOD_HTTP => str "http://" end ++
  lg ++ a ++ printed_prefix ui p.

Lemma convertUIToURL_prints ui lg a p : address ui = Some a → prefix ui = Some p →
  getLoginName [] ui = Ret lg → convertUIToURL ui = Ret (printed_url ui lg a p).
Proof.
  intros Ha Hp Hl. unfold convertUIToURL, printed_url, printed_prefix. rewrite Hp, Ha, Hl. cbn [checked].
  rewrite !outcome_bind_ret. set (q := if streq p (str "/") then str "/." else p).
  pose proof (skip_slashes_length q). destruct (protocol ui); cbn [decide decide_rel urlprotocol_eq_dec];
    repeat (case_decide; try congruence); cbn [app]; rewrite !length_app;
    (rewrite (proj2 (Nat.ltb_lt _ _)); [reflexivity |]); cbn; rewrite ?length_app; lia.
Qed.

(** C13: the URL printed for a structure is read back with the same protocol,
    address, login and prefix (where the printer writes /. for / and drops
    doubled slashes at the front for http), but with the password in its escaped
    form: nothing decodes it. *)
Theorem url_round_trip ui a p (Hok : ui_ok ui a p) :
  ∃ url buf, convertUIToURL ui = Ret url ∧ convertURLToUI url = Ret (0, buf,
    mkUi (protocol ui) (Some a)
      (match login ui with Some (c :: l) => Some (c :: l) | _ => None end)
      (match login ui with Some (_ :: _) => escape <$> password ui | _ => None end)
      (Some (printed_prefix ui p)) None None 0).
Proof.
  destruct Hok as [Ha Hs Hp Hh Hl]. pose proof (printed_prefix_head ui p Hh) as Hq.
  destruct (protocol ui) eqn:Eproto.
  - destruct (login ui) as [[| c l] |] eqn:El.
    1, 3: eexists _, _; (split; [apply convertUIToURL_prints; [done | done | by apply getLoginName_none; rewrite El] |]);
      unfold printed_url; rewrite Eproto; unfold convertURLToUI; rewrite starts_with_app, drop_app_length' by done;
      unfold url_login; cbn [app]; apply Forall_app in Hl as [Hla Hlp];
      rewrite (proj2 (strchr_none _ _)) by (apply Forall_app; split; [done | by apply printed_prefix_no_at]);
      rewrite outcome_bind_ret, url_host_app by done; reflexivity.
    destruct Hl as [Hd (pw & Epw & Hpw)]. eexists _, _.
    split; [apply convertUIToURL_prints; [done | done | by apply (getLoginName_some ui (c :: l) pw)] |].
    unfold printed_url. rewrite Eproto. unfold convertURLToUI. rewrite starts_with_app, drop_app_length' by done.
    set (l' := c :: l) in *. set (q := printed_prefix ui p) in *.
    replace ((l' ++ [58] ++ escape pw ++ [64]) ++ a ++ q) with (l' ++ 58 :: escape pw ++ 64 :: a ++ q)
      by (rewrite <- !(assoc_L (++)); reflexivity).
    assert (Hat : Forall (λ b, b ≠ 64) (l' ++ 58 :: escape pw)).
    { apply Forall_app. split; [eapply list.Forall_impl; [exact Hd |]; by intros ? [] |].
      constructor; [done | by apply escape_no_at]. }
    assert (Hcolon : Forall (λ b, b ≠ 58) l') by (eapply list.Forall_impl; [exact Hd |]; by intros ? []).
    assert (E64 : strchr (l' ++ 58 :: escape pw ++ 64 :: a ++ q) 64 = Some (64 :: a ++ q)).
    { replace (l' ++ 58 :: escape pw ++ 64 :: a ++ q) with ((l' ++ 58 :: escape pw) ++ 64 :: a ++ q)
        by (by rewrite <- (assoc_L (++))). by apply strchr_app. }
    unfold url_login. rewrite E64, strchr_app by done. cbn [tail].
    rewrite before_app, strchr_app by (by apply escape_no_at).
    cbn [checked tail]. rewrite !outcome_bind_ret, before_app. cbn [list.tail]. rewrite url_host_app by done.
    rewrite Epw. reflexivity.
  - eexists _, _. split; [apply convertUIToURL_prints; [done | done | by apply getLoginName_none] |].
    unfold printed_url. rewrite Eproto. unfold convertURLToUI.
    change (starts_with (str "ftp://") (str "http://" ++ [] ++ a ++ printed_prefix ui p)) with false.
    rewrite starts_with_app, drop_app_length' by done. cbn [app]. rewrite url_host_app by done.
    destruct (login ui) as [[| c l] |]; done.
Qed.

Lemma url_round_trip_witness :
  ∃ url buf, convertUIToURL (mkUi URL_METHOD_FTP (Some (str "h:21")) (Some (str "joe")) (Some (str "p@w"))
      (Some (str "/")) None None 0) = Ret url ∧
    convertURLToUI url = Ret (0, buf, mkUi URL_METHOD_FTP (Some (str "h:21")) (Some (str "joe"))
      (Some (str "%70%40%77")) (Some (str "/.")) None None 0).
Proof.
  apply (url_round_trip (mkUi URL_METHOD_FTP (Some (str "h:21")) (Some (str "joe")) (Some (str "p@w"))
    (Some (str "/")) None None 0) (str "h:21") (str "/")).
  constructor; try reflexivity.
  - repeat constructor; discriminate.
  - cbn. split; [repeat constructor; discriminate |]. eexists. split; [reflexivity |]. repeat constructor; unfold ascii; lia.
Defined.

(** An ftp URL that names a user without a password is accepted, but
    convertUIToURL then reads through the null password; with a port in it
    (or any colon behind the user's @), convertURLToUI itself writes through a
    null pointer. *)
Lemma login_without_password user host port path (Hne : user ≠ []) (Hu : Forall (λ b, b ≠ 58 ∧ b ≠ 64) user)
    (Hh : Forall (λ b, b ≠ 58 ∧ b ≠ 64 ∧ b ≠ 47) host) (Hport : Forall (λ b, b ≠ 64) port)
    (Hpath : Forall (λ b, b ≠ 58 ∧ b ≠ 64) path) (Hhead : head path = Some 47) :
  (∃ buf ui, convertURLToUI (str "ftp://" ++ user ++ [64] ++ host ++ path) = Ret (0, buf, ui) ∧
    login ui = Some user ∧ address ui = Some host ∧ prefix ui = Some path ∧ convertUIToURL ui = Undef) ∧
  convertURLToUI (str "ftp://" ++ user ++ [64] ++ host ++ [58] ++ port ++ path) = Undef.
Proof.
  assert (Hsub : ∀ (l : bytes) (P Q : Z → Prop), (∀ b, P b → Q b) → Forall P l → Forall Q l)
    by (intros l P Q HPQ HP; eapply list.Forall_impl; eauto).
  assert (Hu64 : Forall (λ b, b ≠ 64) user) by (eapply Hsub; [| exact Hu]; (cbn; tauto)).
  assert (Hu58 : Forall (λ b, b ≠ 58) user) by (eapply Hsub; [| exact Hu]; (cbn; tauto)).
  assert (Hh47 : Forall (λ b, b ≠ 47) host) by (eapply Hsub; [| exact Hh]; (cbn; tauto)).
  split; unfold convertURLToUI; rewrite starts_with_app, drop_app_length' by done; unfold url_login; cbn [app].
  - rewrite strchr_app by done. rewrite (proj2 (strchr_none _ 58)).
    2:{ apply Forall_app. split; [done |]. constructor; [done |]. apply Forall_app.
        split; [eapply Hsub; [| exact Hh] | eapply Hsub; [| exact Hpath]]; (cbn; tauto). }
    cbn [checked tail]. rewrite outcome_bind_ret. rewrite before_app, outcome_bind_ret. cbn [list.tail]. rewrite url_host_app by done.
    eexists _, _. split; [reflexivity |]. split_and!; try reflexivity.
    unfold convertUIToURL, getLoginName. cbn [prefix login checked]. rewrite outcome_bind_ret. by destruct user.
  - rewrite strchr_app by done.
    replace (user ++ 64 :: host ++ 58 :: port ++ path) with ((user ++ 64 :: host) ++ 58 :: port ++ path)
      by (rewrite <- (assoc_L (++)); reflexivity).
    rewrite strchr_app.
    2:{ apply Forall_app. split; [done |]. constructor; [done |]. eapply Hsub; [| exact Hh]; (cbn; tauto). }
    cbn [tail]. rewrite (proj2 (strchr_none _ 64)); [done |].
    apply Forall_app. split; [done |]. eapply Hsub; [| exact Hpath]; (cbn; tauto).
Qed.
