(* ===== verification/Loader.v ===== *)
(** * The loader's shared state (stage-1/loader.h)

    The flag bits, [struct loaderData_s] and [struct iface_t] of isys/iface.h,
    as the build without ENABLE_IPV6 has them.  The string members (null or a
    string) and the integer members of a structure are each a function of the
    member's name; members that point to other structures are left out. *)

From S2P Require Import Prelude.

Definition LOADER_OK : Z := 0.
Definition LOADER_BACK : Z := 1.
Definition LOADER_NOOP : Z := 2.
Definition LOADER_ERROR : Z := -1.

Definition LOADER_FLAGS_TESTING : Z := Z.shiftl 1 0.
Definition LOADER_FLAGS_TEXT : Z := Z.shiftl 1 2.
Definition LOADER_FLAGS_RESCUE : Z := Z.shiftl 1 3.
Definition LOADER_FLAGS_KICKSTART : Z := Z.shiftl 1 4.
Definition LOADER_FLAGS_KICKSTART_SEND_MAC : Z := Z.shiftl 1 5.
Definition LOADER_FLAGS_POWEROFF : Z := Z.shiftl 1 6.
Definition LOADER_FLAGS_NOPROBE : Z := Z.shiftl 1 7.
Definition LOADER_FLAGS_MODDISK : Z := Z.shiftl 1 8.
Definition LOADER_FLAGS_EARLY_NETWORKING : Z := Z.shiftl 1 9.
Definition LOADER_FLAGS_SERIAL : Z := Z.shiftl 1 10.
Definition LOADER_FLAGS_UPDATES : Z := Z.shiftl 1 11.
Definition LOADER_FLAGS_KSFILE : Z := Z.shiftl 1 12.
Definition LOADER_FLAGS_HALT : Z := Z.shiftl 1 13.
Definition LOADER_FLAGS_SELINUX : Z := Z.shiftl 1 14.
Definition LOADER_FLAGS_VIRTPCONSOLE : Z := Z.shiftl 1 15.
Definition LOADER_FLAGS_NOSHELL : Z := Z.shiftl 1 17.
Definition LOADER_FLAGS_NOPCMCIA : Z := Z.shiftl 1 18.
Definition LOADER_FLAGS_TELNETD : Z := Z.shiftl 1 19.
Definition LOADER_FLAGS_NOPASS : Z := Z.shiftl 1 20.
Definition LOADER_FLAGS_MEDIACHECK : Z := Z.shiftl 1 22.
Definition LOADER_FLAGS_ASKMETHOD : Z := Z.shiftl 1 24.
Definition LOADER_FLAGS_ASKNETWORK : Z := Z.shiftl 1 25.
Definition LOADER_FLAGS_CMDLINE : Z := Z.shiftl 1 28.
Definition LOADER_FLAGS_GRAPHICAL : Z := Z.shiftl 1 29.
Definition LOADER_FLAGS_NOIPV4 : Z := Z.shiftl 1 31.
Definition LOADER_FLAGS_IP_PARAM : Z := Z.shiftl 1 33.
Definition LOADER_FLAGS_IS_KICKSTART : Z := Z.shiftl 1 35.
Definition LOADER_FLAGS_ALLOW_WIRELESS : Z := Z.shiftl 1 36.
Definition LOADER_FLAGS_HAVE_CMSCONF : Z := Z.shiftl 1 37.
Definition LOADER_FLAGS_INTERACTIVE : Z := Z.shiftl 1 38.

(** [FL_X(flags)] and [flags |= X]; flags is a uint64_t. *)
Definition FL (flags bit : Z) : bool := negb (Z.land flags bit =? 0).
Definition flag_or (flags bit : Z) : Z := Z.lor flags bit.

Section members.
Context {K V : Type} `{EqDecision K}.
Definition upd (k : K) (v : V) (f : K → V) : K → V := λ j, if decide (j = k) then v else f j.
Lemma upd_eq k v f : upd k v f k = v.
Proof. unfold upd. by rewrite decide_True. Qed.
Lemma upd_ne k v f j : j ≠ k → upd k v f j = f j.
Proof. intros. unfold upd. by rewrite decide_False. Qed.
End members.

(** ** struct loaderData_s *)

Inductive ld_string :=
  | L_lang | L_kbd | L_netDev | L_bootIf | L_netCls | L_ipv4 | L_netmask | L_gateway | L_dns | L_hostname
  | L_peerid | L_ethtool | L_subchannels | L_portname | L_essid | L_wepkey | L_nettype | L_ctcprot
  | L_layer2 | L_macaddr | L_ksFile | L_ddsrc | L_logLevel | L_updatessrc | L_dogtailurl | L_gdbServer | L_instRepo.
Inductive ld_int :=
  | L_lang_set | L_kbd_set | L_netDev_set | L_bootIf_set | L_netCls_set | L_mtu | L_noDns | L_dhcpTimeout
  | L_ipinfo_set | L_method | L_inferredStage2 | L_invalidRepoParam.
#[export] Instance ld_string_eq_dec : EqDecision ld_string.
Proof. solve_decision. Defined.
#[export] Instance ld_int_eq_dec : EqDecision ld_int.
Proof. solve_decision. Defined.

Record loaderData_s := mkLd { ld_s : ld_string → option bytes; ld_i : ld_int → Z }.
Definition set_lds (k : ld_string) (v : option bytes) (l : loaderData_s) := mkLd (upd k v (ld_s l)) (ld_i l).
Definition set_ldi (k : ld_int) (v : Z) (l : loaderData_s) := mkLd (ld_s l) (upd k v (ld_i l)).
Definition zero_ld : loaderData_s := mkLd (λ _, None) (λ _, 0).

(** ** struct iface_t *)

Inductive if_string :=
  | I_macaddr | I_nextserver | I_bootfile | I_hostname | I_domain | I_search | I_vendorclass | I_ssid | I_wepkey
  | I_subchannels | I_portname | I_peerid | I_nettype | I_ctcprot.
(** [I_ipaddr] to [I_gateway] are the s_addr of the addresses. *)
Inductive if_int :=
  | I_ipaddr | I_netmask | I_broadcast | I_gateway | I_ip6prefix | I_dhcptimeout | I_mtu | I_flags
  | I_ipv4method | I_ipv6method.
#[export] Instance if_string_eq_dec : EqDecision if_string.
Proof. solve_decision. Defined.
#[export] Instance if_int_eq_dec : EqDecision if_int.
Proof. solve_decision. Defined.

(** [if_dns] is the first numdns entries of dns; [if_gateway6] the bytes of an
    address. *)
Record iface_t := mkIf {
  if_device : bytes; if_s : if_string → option bytes; if_i : if_int → Z; if_dns : list bytes; if_gateway6 : bytes }.
Definition set_device (v : bytes) (i : iface_t) := mkIf v (if_s i) (if_i i) (if_dns i) (if_gateway6 i).
Definition set_ifs (k : if_string) (v : option bytes) (i : iface_t) :=
  mkIf (if_device i) (upd k v (if_s i)) (if_i i) (if_dns i) (if_gateway6 i).
Definition set_ifi (k : if_int) (v : Z) (i : iface_t) :=
  mkIf (if_device i) (if_s i) (upd k v (if_i i)) (if_dns i) (if_gateway6 i).
Definition set_dns (v : list bytes) (i : iface_t) := mkIf (if_device i) (if_s i) (if_i i) v (if_gateway6 i).
Definition set_gateway6 (v : bytes) (i : iface_t) := mkIf (if_device i) (if_s i) (if_i i) (if_dns i) v.

Definition IPV4_UNUSED_METHOD : Z := 0.
Definition IPV4_DHCP_METHOD : Z := 1.
Definition IPV4_MANUAL_METHOD : Z := 2.
Definition IPV6_UNUSED_METHOD : Z := 0.
Definition IFACE_FLAGS_NO_WRITE_RESOLV_CONF : Z := Z.shiftl 1 0.
(** <resolv.h> *)
Definition MAXNS : nat := 3.

Definition iface_init_iface_t : iface_t := mkIf [] (λ _, None) (λ _, 0) [] (replicate 16 0).

#[export] Hint Rewrite @upd_eq @upd_ne using done : c_rw.
