(* ===== verification/Net.v ===== *)
(** * Network configuration (stage-1/net.c, isys/iface.c)

    splitHostname, parseEthtoolSettings, setupIfaceStruct, writeEnabledNetInfo
    and the conversions between prefixes and netmasks, for the build without
    ENABLE_IPV6 on a little-endian machine.  strtok works on the buffer it cuts
    up; the files written are a list of actions, each of which the environment
    lets succeed or fail. *)

From S2P Require Import Prelude CLib IsysStr Loader.

(** ** splitHostname *)

(** The host and the port, null where none is set. *)
Definition splitHostname (s : bytes) : outcome (option bytes * option bytes) :=
  let unbracketed :=
    n ← strcount (S (S (length s))) (Some (s ++ [0])) 58;
    if 1 <? n then Ret (Some s, None)
    else
      match strrchr s 58 with
      | Some colon => Ret (Some (before s colon), Some (tail colon))
      | None => Ret (Some s, None)
      end in
  match strchr s 93 with
  | Some rightbrack =>
      if bool_decide (head s = Some 91) then
        let host := tail (before s rightbrack) in
        match strrchr rightbrack 58 with
        | Some colon => Ret (Some host, Some (tail colon))
        | None => Ret (Some host, None)
        end
      else unbracketed
  | None => unbracketed
  end.

(** ** strtok *)

Fixpoint skip_delim (d : Z) (s : bytes) : nat :=
  match s with b :: r => if b =? d then S (skip_delim d r) else O | [] => O end.

(** The token (its index), the buffer with the end of the token cut off, and
    where the next call goes on. *)
Definition strtok (d : Z) (buf : bytes) (p : nat) : option nat * bytes * nat :=
  let o := (p + skip_delim d (until_nul (drop p buf)))%nat in
  let t := until_nul (drop o buf) in
  if bool_decide (t = []) then (None, buf, o)
  else
    match strchr t d with
    | Some e => let i := (o + length (before t e))%nat in (Some o, <[i := 0]> buf, S i)
    | None => (Some o, buf, (o + length t)%nat)
    end.

(** The string at an index of a buffer that ends in NUL. *)
Definition cstr (buf : bytes) (i : nat) : outcome bytes :=
  _ ← defined_if (i <? length buf)%nat; Ret (until_nul (drop i buf)).

(** ** parseEthtoolSettings *)

Definition ETHTOOL_SPEED_UNSPEC : Z := -1.
Definition ETHTOOL_SPEED_10 : Z := 10.
Definition ETHTOOL_SPEED_100 : Z := 100.
Definition ETHTOOL_SPEED_1000 : Z := 1000.
Definition ETHTOOL_DUPLEX_UNSPEC : Z := -1.
Definition ETHTOOL_DUPLEX_HALF : Z := 0.
Definition ETHTOOL_DUPLEX_FULL : Z := 1.

Definition duplex_value (v : bytes) (duplex : Z) : Z :=
  if starts_with (str "full") v then ETHTOOL_DUPLEX_FULL
  else if starts_with (str "half") v then ETHTOOL_DUPLEX_HALF
  else duplex.
Definition speed_value (v : bytes) (speed : Z) : Z :=
  if starts_with (str "1000") v then ETHTOOL_SPEED_1000
  else if starts_with (str "100") v then ETHTOOL_SPEED_100
  else if starts_with (str "10") v then ETHTOOL_SPEED_10
  else speed.

(** [while (option)]; the result is the duplex mode and the speed. *)
Fixpoint ethtool_loop (fuel : nat) (buf : bytes) (opt : option nat) (p : nat) (duplex speed : Z) : outcome (Z * Z) :=
  match fuel with
  | O => NoFuel
  | S fuel =>
      match opt with
      | None => Ret (duplex, speed)
      | Some o =>
          s ← cstr buf o;
          c ← checked (list.last s);
          let buf := if c =? 34 then <[(o + length s - 1)%nat := 0]> buf else buf in
          let o := if bool_decide (buf !! o = Some 34) then S o else o in
          s ← cstr buf o;
          if starts_with (str "duplex") s then
            v ← cstr buf (o + 7);
            let '(_, buf, p) := strtok 32 buf p in
            let '(opt, buf, p) := strtok 32 buf p in
            ethtool_loop fuel buf opt p (duplex_value v duplex) speed
          else if starts_with (str "speed") s then
            v ← cstr buf (o + 6);
            let '(_, buf, p) := strtok 32 buf p in
            let '(opt, buf, p) := strtok 32 buf p in
            ethtool_loop fuel buf opt p duplex (speed_value v speed)
          else
            let '(opt, buf, p) := strtok 32 buf p in
            ethtool_loop fuel buf opt p duplex speed
      end
  end.

(** A call of setEthtoolSettings: the device, the speed, the duplex mode. *)
Definition ethcall : Type := option bytes * Z * Z.

Definition parseEthtoolSettings (netDev : option bytes) (ethtool : bytes) : outcome ethcall :=
  let '(opt, buf, p) := strtok 32 (ethtool ++ [0]) 0 in
  '(duplex, speed) ← ethtool_loop (S (length ethtool)) buf opt p ETHTOOL_DUPLEX_UNSPEC ETHTOOL_SPEED_UNSPEC;
  Ret (netDev, speed, duplex).

(** ** setupIfaceStruct *)

Section setup.
(** inet_pton(AF_INET6, ...) succeeds. *)
Context (inet_pton6 : bytes → bool).

(** [while ((iface->numdns < MAXNS) && (c != NULL))] *)
Fixpoint dns_loop (fuel : nat) (buf : bytes) (c : option nat) (p : nat) (dns : list bytes) : outcome (list bytes) :=
  match fuel with
  | O => NoFuel
  | S fuel =>
      match c with
      | Some o =>
          if (length dns <? MAXNS)%nat then
            s ← cstr buf o;
            if bool_decide (is_Some (inet_pton4 s)) || inet_pton6 s then
              let '(c, buf, p) := strtok 44 buf p in
              dns_loop fuel buf c p (dns ++ [s])
            else dns_loop fuel buf c p dns
          else Ret dns
      | None => Ret dns
      end
  end.

Definition copy_string (from : ld_string) (to : if_string) (ld : loaderData_s) (i : iface_t) : iface_t :=
  match ld_s ld from with Some v => set_ifs to (Some v) i | None => i end.
(** [inet_pton(AF_INET, ...)] into an address of the interface *)
Definition copy_addr (from : ld_string) (to : if_int) (ld : loaderData_s) (i : iface_t) : iface_t :=
  match ld_s ld from ≫= inet_pton4 with Some a => set_ifi to a i | None => i end.

Definition ethtool_calls (ld : loaderData_s) : outcome (list ethcall) :=
  match ld_s ld L_ethtool with
  | Some e => c ← parseEthtoolSettings (ld_s ld L_netDev) e; Ret [c]
  | None => Ret []
  end.

(** How the address is to be found. *)
Definition setup_ipv4 (i : iface_t) (ld : loaderData_s) : iface_t * loaderData_s :=
  match ld_s ld L_ipv4 with
  | Some ip =>
      if negb (ld_i ld L_ipinfo_set =? 0) then
        if starts_with (str "dhcp") ip then
          (set_ifi I_ipv4method IPV4_DHCP_METHOD (set_ifi I_dhcptimeout (ld_i ld L_dhcpTimeout) i), ld)
        else
          match inet_pton4 ip with
          | Some a => (set_ifi I_ipv4method IPV4_MANUAL_METHOD (set_ifi I_ipaddr a i), ld)
          | None => (set_ifi I_ipv4method 0 i, set_lds L_ipv4 None (set_ldi L_ipinfo_set 0 ld))
          end
      else (i, ld)
  | None => (i, ld)
  end.

Definition setup_dns (fuel : nat) (i : iface_t) (ld : loaderData_s) : outcome iface_t :=
  match ld_s ld L_dns with
  | Some d =>
      let '(c, buf, p) := strtok 44 (d ++ [0]) 0 in
      dns ← dns_loop fuel buf c p (if_dns i);
      Ret (set_dns dns i)
  | None => Ret i
  end.

Definition setupIfaceStruct (fuel : nat) (i : iface_t) (ld : loaderData_s) :
    outcome (iface_t * loaderData_s * list ethcall) :=
  calls ← ethtool_calls ld;
  let i := set_ifs I_vendorclass (if ld_i ld L_netCls_set =? 0 then None else ld_s ld L_netCls) i in
  let '(i, ld) := setup_ipv4 i ld in
  let i := copy_addr L_netmask I_netmask ld i in
  let i := copy_addr L_gateway I_gateway ld i in
  i ← setup_dns fuel i ld;
  let i := copy_string L_hostname I_hostname ld i in
  let i := if ld_i ld L_mtu =? 0 then i else set_ifi I_mtu (ld_i ld L_mtu) i in
  let i := copy_string L_peerid I_peerid ld i in
  let i := copy_string L_subchannels I_subchannels ld i in
  let i := copy_string L_ctcprot I_ctcprot ld i in
  let i := copy_string L_portname I_portname ld i in
  let i := copy_string L_nettype I_nettype ld i in
  calls' ← ethtool_calls ld;
  let i := if ld_i ld L_noDns =? 0 then i
           else set_ifi I_flags (Z.lor (if_i i I_flags) IFACE_FLAGS_NO_WRITE_RESOLV_CONF) i in
  Ret (set_ifi I_dhcptimeout (ld_i ld L_dhcpTimeout) i, ld, calls ++ calls').
End setup.

(** ** Prefixes and netmasks (isys/iface.c) *)

Definition htonl (x : Z) : Z := le_val (rev (le_bytes 4 x)).

(** A shift by the width of int or into the sign bit is undefined, and so is
    the subtraction from the least int. *)
Definition iface_prefix2netmask (prefix : Z) : outcome Z :=
  _ ← defined_if ((2 <=? prefix) && (prefix <=? 32));
  Ret (htonl (w32 (Z.lnot (Z.shiftl 1 (32 - prefix) - 1)))).

Fixpoint mask_loop (fuel : nat) (s_addr ret : Z) : outcome Z :=
  match fuel with
  | O => NoFuel
  | S fuel => if s_addr =? 0 then Ret ret else mask_loop fuel (Z.shiftr s_addr 1) (ret + 1)
  end.
Definition iface_netmask2prefix (fuel : nat) (netmask : option Z) : outcome Z :=
  match netmask with None => Ret (-1) | Some mask => mask_loop fuel mask (-1) end.

(** ** writeEnabledNetInfo *)

Definition SYSCONFIG_PATH : bytes := str "/etc/sysconfig".
Definition NETWORK_SCRIPTS_PATH : bytes := str "/etc/sysconfig/network-scripts".

(** What is done to the file system: a file is written when it is closed. *)
Inductive action :=
  | A_mkdir (path : bytes)
  | A_fopen (path : bytes)
  | A_fclose (path contents : bytes)
  | A_rename (from to : bytes).

Definition _iface_have_valid_addr (addr : Z) : bool := negb (starts_with (str "0.0.0.0") (inet_ntop4 addr)).
Definition iface_have_in_addr (addr : Z) : bool := _iface_have_valid_addr addr.

Definition line (key value : bytes) : bytes := key ++ value ++ [10].
Definition line_opt (key : string) (value : option bytes) : bytes :=
  match value with Some v => line (str key) v | None => [] end.
Definition line_addr (key : string) (a : Z) : bytes :=
  if iface_have_in_addr a then line (str key) (inet_ntop4 a) else [].

Fixpoint dns_lines (n : Z) (dns : list bytes) : bytes :=
  match dns with
  | [] => []
  | d :: dns => line (str "DNS" ++ fmt_d n ++ str "=") d ++ dns_lines (n + 1) dns
  end.

(** The lines on IPv4. *)
Definition ipv4_lines (flags : Z) (i : iface_t) : bytes :=
  if FL flags LOADER_FLAGS_NOIPV4 then []
  else if if_i i I_ipv4method =? IPV4_DHCP_METHOD then str "BOOTPROTO=dhcp" ++ [10]
  else if if_i i I_ipv4method =? IPV4_MANUAL_METHOD then
    str "BOOTPROTO=static" ++ [10] ++
    line_addr "IPADDR=" (if_i i I_ipaddr) ++ line_addr "NETMASK=" (if_i i I_netmask) ++
    line_addr "BROADCAST=" (if_i i I_broadcast) ++ line_addr "GATEWAY=" (if_i i I_gateway)
  else [].

(** What follows the name servers. *)
Definition other_lines (i : iface_t) : bytes :=
  line_opt "HOSTNAME=" (if_s i I_hostname) ++ line_opt "DOMAIN=" (if_s i I_domain) ++
  (if if_i i I_mtu =? 0 then [] else line (str "MTU=") (fmt_d (if_i i I_mtu))) ++
  line_opt "PEERID=" (if_s i I_peerid) ++ line_opt "SUBCHANNELS=" (if_s i I_subchannels) ++
  line_opt "PORTNAME=" (if_s i I_portname) ++ line_opt "NETTYPE=" (if_s i I_nettype) ++
  line_opt "CTCPROT=" (if_s i I_ctcprot).

Definition ifcfg_contents (flags : Z) (i : iface_t) (mac : bytes) : bytes :=
  line (str "DEVICE=") (if_device i) ++ line (str "HWADDR=") mac ++ str "ONBOOT=yes" ++ [10] ++
  ipv4_lines flags i ++ dns_lines 1 (if_dns i) ++ other_lines i.

Definition network_contents (flags : Z) (i : iface_t) : bytes :=
  (if FL flags LOADER_FLAGS_NOIPV4 then [] else str "NETWORKING=yes" ++ [10]) ++
  line_opt "HOSTNAME=" (if_s i I_hostname) ++ line_addr "GATEWAY=" (if_i i I_gateway).

Section write.
(** Which actions succeed (a directory that exists is a success), and the
    hardware addresses. *)
Context (env : action → bool) (iface_mac2str : bytes → option bytes).

(** Try an action and return [code] when it fails. *)
Definition try (a : action) (code : Z) (acts : list action) (k : list action → outcome (Z * list action)) :
    outcome (Z * list action) :=
  if env a then k (acts ++ [a]) else Ret (code, acts ++ [a]).

Definition write_vendorclass (i : iface_t) (acts : list action) (k : list action → outcome (Z * list action)) :
    outcome (Z * list action) :=
  match if_s i I_vendorclass with
  | None => k acts
  | Some v =>
      let path := str "/etc/dhclient-" ++ if_device i ++ str ".conf" in
      try (A_fopen path) 18 acts (λ acts,
      try (A_fclose path (str "send vendor-class-identifier " ++ [34] ++ v ++ [34] ++ str ";" ++ [10])) 19 acts k)
  end.

(** The result and the actions tried, in order. *)
Definition writeEnabledNetInfo (flags : Z) (i : iface_t) : outcome (Z * list action) :=
  let ofile := NETWORK_SCRIPTS_PATH ++ str "/.ifcfg-" ++ if_device i in
  let nfile := NETWORK_SCRIPTS_PATH ++ str "/ifcfg-" ++ if_device i in
  let network := SYSCONFIG_PATH ++ str "/.network" in
  try (A_mkdir NETWORK_SCRIPTS_PATH) 16 [] (λ acts,
  write_vendorclass i acts (λ acts,
  try (A_fopen ofile) 2 acts (λ acts,
  mac ← checked (iface_mac2str (if_device i));
  try (A_fclose ofile (ifcfg_contents flags i mac)) 8 acts (λ acts,
  try (A_rename ofile nfile) 14 acts (λ acts,
  try (A_fopen network) 9 acts (λ acts,
  try (A_fclose network (network_contents flags i)) 12 acts (λ acts,
  try (A_rename network (SYSCONFIG_PATH ++ str "/network")) 15 acts (λ acts,
  Ret (0, acts))))))))).
End write.
