(* ===== verification/NetFacts.v ===== *)
(** * Network configuration: facts (stage-1/net.c, isys/iface.c)

    strtok over a delimiter-separated list, and the properties of the operations
    of Net. *)

From S2P Require Import Prelude CLib IsysStr Loader Net.

(** ** strtok over a list *)

Fixpoint join (d : Z) (ts : list bytes) : bytes :=
  match ts with
  | [] => []
  | t :: ts => match ts with [] => t | _ => t ++ d :: join d ts end
  end.

Definition token (d : Z) (t : bytes) : Prop := t ≠ [] ∧ Forall (λ b, b ≠ d ∧ b ≠ 0) t.

Lemma token_nul d t : token d t → Forall (λ b, b ≠ 0) t.
Proof. intros [_ H]. eapply list.Forall_impl; [exact H |]. by intros ? []. Qed.
Lemma token_delim d t : token d t → Forall (λ b, b ≠ d) t.
Proof. intros [_ H]. eapply list.Forall_impl; [exact H |]. by intros ? []. Qed.

Lemma skip_delim_ne d s : head s ≠ Some d → skip_delim d s = 0%nat.
Proof. destruct s as [| b s]; [done |]. cbn. intros H. destruct (Z.eqb_spec b d); [congruence | done]. Qed.

Lemma join_no_nul d ts : d ≠ 0 → Forall (token d) ts → Forall (λ b, b ≠ 0) (join d ts).
Proof.
  intros Hd. induction 1 as [| t ts Ht Hts IH]; cbn [join]; [done |].
  destruct ts; [by eapply token_nul |]. apply Forall_app. split; [by eapply token_nul |]. by constructor.
Qed.

Lemma drop_lt {A} (l : list A) n x r : drop n l = x :: r → (n < length l)%nat.
Proof. intros E. apply (f_equal length) in E. rewrite length_drop in E. cbn in E. lia. Qed.

Lemma drop_insert_at {A} (l : list A) n k (x : A) pre y r : drop n l = pre ++ y :: r → k = (n + length pre)%nat →
  drop n (<[k := x]> l) = pre ++ x :: r.
Proof.
  intros E ->. assert (n ≤ length l)%nat.
  { destruct (Nat.le_gt_cases n (length l)); [done |]. rewrite drop_ge in E by lia. by destruct pre. }
  rewrite <- (take_drop n l) at 1. rewrite E.
  replace (n + length pre)%nat with (length (take n l) + length pre)%nat by (rewrite length_take; lia).
  rewrite insert_app_r. replace (length pre) with (length pre + 0)%nat by lia. rewrite insert_app_r. cbn [insert list_insert].
  rewrite drop_app_length'; [done | rewrite length_take; lia].
Qed.

Lemma strtok_join d buf p t ts : d ≠ 0 → Forall (token d) (t :: ts) → drop p buf = join d (t :: ts) ++ [0] →
  ∃ buf' p' r, strtok d buf p = (Some p, buf', p') ∧ drop p buf' = t ++ 0 :: r ∧ drop p' buf' = join d ts ++ [0].
Proof.
  intros Hd Hts E. pose proof (join_no_nul d (t :: ts) Hd Hts) as Hn.
  apply list.Forall_cons in Hts as [Ht Hts].
  unfold strtok. rewrite E, until_nul_app_nul by done.
  assert (Hh : head (join d (t :: ts)) ≠ Some d).
  { destruct Ht as [Hne Ht]. destruct t as [| b t]; [done |]. apply list.Forall_cons in Ht as [[Hb _] _].
    cbn [join]. destruct ts; cbn; congruence. }
  rewrite skip_delim_ne, Nat.add_0_r, E, until_nul_app_nul by done. cbn [join] in E, Hn |- *.
  destruct ts as [| t' ts].
  - rewrite bool_decide_eq_false_2 by apply Ht. rewrite (proj2 (strchr_none t d)) by (by apply token_delim).
    eexists _, _, []. split; [reflexivity |]. split; [done |].
    rewrite <- drop_drop, E. by rewrite drop_app_length.
  - rewrite bool_decide_eq_false_2 by (by destruct t). rewrite strchr_app by (by apply token_delim). rewrite before_app.
    eexists _, _, (join d (t' :: ts) ++ [0]). split; [reflexivity |].
    assert (Ei : drop p (<[(p + length t)%nat := 0]> buf) = t ++ 0 :: join d (t' :: ts) ++ [0]).
    { eapply drop_insert_at; [| reflexivity]. rewrite E, <- (assoc_L (++)). reflexivity. }
    split; [exact Ei |]. replace (S (p + length t)) with (p + S (length t))%nat by lia.
    rewrite <- drop_drop, Ei, drop_app. replace (S (length t) - length t)%nat with 1%nat by lia.
    by rewrite drop_ge by lia.
Qed.

Lemma strtok_end d buf p : drop p buf = [0] → strtok d buf p = (None, buf, p).
Proof.
  intros E. unfold strtok. rewrite E. cbn [until_nul]. change (0 =? 0) with true. cbn iota. cbn [skip_delim].
  rewrite Nat.add_0_r, E. cbn. done.
Qed.

Lemma cstr_at buf o k t r : drop o buf = t ++ 0 :: r → Forall (λ b, b ≠ 0) t → (k ≤ length t)%nat →
  cstr buf (o + k) = Ret (drop k t).
Proof.
  intros E Ht Hk. unfold cstr. assert (Hl : (length t < length buf - o)%nat).
  { apply (f_equal length) in E. rewrite length_drop, length_app in E. cbn in E. lia. }
  rewrite (proj2 (Nat.ltb_lt _ _)) by lia. cbn [defined_if]. rewrite outcome_bind_ret, <- drop_drop, E, drop_app_le by done.
  rewrite until_nul_app_nul; [done |]. by apply Forall_drop.
Qed.

(** The next token, or the end. *)
Definition at_tokens (buf : bytes) (p : nat) (d : Z) (ts : list bytes) : Prop := drop p buf = join d ts ++ [0].

Lemma strtok_next d buf p ts : d ≠ 0 → Forall (token d) ts → at_tokens buf p d ts →
  ∃ opt buf' p', strtok d buf p = (opt, buf', p') ∧
    match ts with
    | [] => opt = None ∧ at_tokens buf' p' d []
    | t :: ts => ∃ o r, opt = Some o ∧ drop o buf' = t ++ 0 :: r ∧ at_tokens buf' p' d ts
    end.
Proof.
  intros Hd Hts E. destruct ts as [| t ts].
  - eexists _, _, _. split; [by apply strtok_end |]. done.
  - destruct (strtok_join d buf p t ts Hd Hts E) as (buf' & p' & r & Es & E1 & E2).
    eexists _, _, _. split; [exact Es |]. by exists p, r.
Qed.

(** ** parseEthtoolSettings *)

(** The settings read off a list of words: a word that sets something makes the
    next one be skipped. *)
Fixpoint eth_walk (ts : list bytes) (skip : bool) (duplex speed : Z) : Z * Z :=
  match ts with
  | [] => (duplex, speed)
  | t :: ts =>
      if skip then eth_walk ts false duplex speed
      else if starts_with (str "duplex") t then eth_walk ts true (duplex_value (drop 7 t) duplex) speed
      else if starts_with (str "speed") t then eth_walk ts true duplex (speed_value (drop 6 t) speed)
      else eth_walk ts false duplex speed
  end.

(** A word without quotes that is long enough for its value to be looked at. *)
Record eth_word (t : bytes) : Prop := {
  ew_token : token 32 t;
  ew_quote : Forall (λ b, b ≠ 34) t;
  ew_duplex : starts_with (str "duplex") t = true → (7 ≤ length t)%nat;
  ew_speed : starts_with (str "speed") t = true → (6 ≤ length t)%nat }.

(** The words not yet looked at: [opt] is the first, the others are at [p]. *)
Definition pending (buf : bytes) (opt : option nat) (p : nat) (d : Z) (ts : list bytes) : Prop :=
  match ts with
  | [] => opt = None ∧ at_tokens buf p d []
  | t :: ts => ∃ o r, opt = Some o ∧ drop o buf = t ++ 0 :: r ∧ at_tokens buf p d ts
  end.

Lemma eth_words_tokens ts : Forall eth_word ts → Forall (token 32) ts.
Proof. intros H. eapply list.Forall_impl; [exact H |]. by intros ? []. Qed.

Lemma strtok_twice d buf p ts : d ≠ 0 → Forall (token d) ts → at_tokens buf p d ts →
  ∃ o1 buf1 p1 o2 buf2 p2, strtok d buf p = (o1, buf1, p1) ∧ strtok d buf1 p1 = (o2, buf2, p2) ∧
    pending buf2 o2 p2 d (tail ts).
Proof.
  intros Hd Hts H. destruct (strtok_next d buf p ts Hd Hts H) as (o1 & buf1 & p1 & E1 & H1).
  assert (H1' : at_tokens buf1 p1 d (tail ts)) by (destruct ts; [by destruct H1 | by destruct H1 as (? & ? & _ & _ & ?)]).
  assert (Hts' : Forall (token d) (tail ts)) by (destruct Hts; [constructor | done]).
  destruct (strtok_next d buf1 p1 (tail ts) Hd Hts' H1') as (o2 & buf2 & p2 & E2 & H2).
  by exists o1, buf1, p1, o2, buf2, p2.
Qed.

Lemma eth_walk_skip ts d s : eth_walk ts true d s = eth_walk (tail ts) false d s.
Proof. by destruct ts. Qed.

Lemma ethtool_loop_walk fuel buf opt p ts d s : Forall eth_word ts → pending buf opt p 32 ts →
  (length ts < fuel)%nat → ethtool_loop fuel buf opt p d s = Ret (eth_walk ts false d s).
Proof.
  revert buf opt p ts d s. induction fuel as [| fuel IH]; intros buf opt p ts d s Hw Hp Hf; [lia |].
  cbn [ethtool_loop]. destruct ts as [| t ts]; cbn [pending] in Hp; [by destruct Hp as [-> _] |].
  destruct Hp as (o & r & -> & Eo & Hp). apply list.Forall_cons in Hw as [[Ht Hq Hd Hs] Hw].
  pose proof (token_nul _ _ Ht) as Hn. pose proof (cstr_at buf o 0 t r Eo Hn ltac:(lia)) as Ec.
  rewrite Nat.add_0_r, drop_0 in Ec. rewrite Ec, outcome_bind_ret.
  destruct (list.last t) as [c |] eqn:El; [| by apply last_None in El; destruct Ht]. cbn [checked]. rewrite outcome_bind_ret.
  assert (Hc : c ≠ 34) by (apply last_Some in El as [l ->]; by apply Forall_app in Hq as [_ [? _]%list.Forall_cons]).
  destruct (Z.eqb_spec c 34); [done |]. rewrite bool_decide_eq_false_2.
  2:{ rewrite <- (Nat.add_0_r o), <- lookup_drop, Eo. destruct Ht as [Hne _]. destruct t as [| b t]; [done |].
      apply list.Forall_cons in Hq as [Hb _]. cbn. congruence. }
  rewrite Ec, outcome_bind_ret. cbn [eth_walk]. cbn [length] in Hf.
  pose proof (eth_words_tokens _ Hw) as Hts.
  assert (Hw' : Forall eth_word (tail ts)) by (destruct Hw; [constructor | done]).
  assert (Hf' : (length (tail ts) < fuel)%nat) by (destruct ts; cbn in *; lia).
  destruct (strtok_twice 32 buf p ts ltac:(done) Hts Hp) as (o1 & buf1 & p1 & o2 & buf2 & p2 & E1 & E2 & H2).
  destruct (starts_with (str "duplex") t) eqn:Edup.
  { rewrite (cstr_at buf o 7 t r) by auto. rewrite outcome_bind_ret, E1, E2, eth_walk_skip. by apply IH. }
  destruct (starts_with (str "speed") t) eqn:Espd.
  { rewrite (cstr_at buf o 6 t r) by auto. rewrite outcome_bind_ret, E1, E2, eth_walk_skip. by apply IH. }
  destruct (strtok_next 32 buf p ts ltac:(done) Hts Hp) as (o3 & buf3 & p3 & E3 & H3).
  rewrite E3. apply IH; [done | exact H3 | lia].
Qed.

Lemma join_length d ts : Forall (token d) ts → (length ts ≤ length (join d ts))%nat.
Proof.
  induction 1 as [| t ts [Ht _] _ IH]; cbn [join length]; [lia |].
  assert (length t ≠ 0%nat) by (by destruct t). destruct ts; [cbn [length]; lia |]. rewrite length_app. cbn [length] in *. lia.
Qed.

Lemma parse_ethtool_walk dev ts : Forall eth_word ts →
  parseEthtoolSettings dev (join 32 ts) =
  Ret (dev, snd (eth_walk ts false ETHTOOL_DUPLEX_UNSPEC ETHTOOL_SPEED_UNSPEC),
       fst (eth_walk ts false ETHTOOL_DUPLEX_UNSPEC ETHTOOL_SPEED_UNSPEC)).
Proof.
  intros Hw. unfold parseEthtoolSettings. pose proof (eth_words_tokens _ Hw) as Hts.
  destruct (strtok_next 32 (join 32 ts ++ [0]) 0 ts ltac:(done) Hts eq_refl) as (o & buf & p & E & H).
  rewrite E, (ethtool_loop_walk _ buf o p ts) by (done || (pose proof (join_length 32 ts Hts); lia)).
  rewrite outcome_bind_ret. by destruct (eth_walk ts false _ _).
Qed.

(** ** The name servers *)

Section dns.
Context (inet_pton6 : bytes → bool).

Definition valid_dns (s : bytes) : Prop := is_Some (inet_pton4 s) ∨ inet_pton6 s = true.

Lemma valid_dns_test s : valid_dns s → bool_decide (is_Some (inet_pton4 s)) || inet_pton6 s = true.
Proof. intros [H | H]; apply orb_true_iff; [left; by apply bool_decide_eq_true_2 | by right]. Qed.

(** Over valid addresses the loop takes up to MAXNS of them and goes on with
    the rest. *)
Lemma dns_loop_valid ts rest buf opt p dns fuel : Forall (token 44) (ts ++ rest) → Forall valid_dns ts →
  pending buf opt p 44 (ts ++ rest) → (length dns + length ts ≤ MAXNS)%nat →
  ∃ buf' opt' p', pending buf' opt' p' 44 rest ∧
    dns_loop inet_pton6 (length ts + fuel) buf opt p dns = dns_loop inet_pton6 fuel buf' opt' p' (dns ++ ts).
Proof.
  intros Ht Hv. revert buf opt p dns Ht. induction Hv as [| t ts Hv _ IH]; intros buf opt p dns Ht Hp Hl.
  - exists buf, opt, p. by rewrite app_nil_r.
  - cbn [app length] in *. destruct Hp as (o & r & -> & Eo & Hp). apply list.Forall_cons in Ht as [Ht Hts].
    destruct (strtok_next 44 buf p (ts ++ rest) ltac:(done) Hts Hp) as (o1 & buf1 & p1 & E1 & H1).
    destruct (IH buf1 o1 p1 (dns ++ [t]) Hts H1) as (buf2 & o2 & p2 & H2 & E2); [rewrite length_app; cbn; lia |].
    exists buf2, o2, p2. split; [exact H2 |]. cbn [dns_loop Nat.add].
    rewrite (proj2 (Nat.ltb_lt (length dns) MAXNS)) by lia.
    pose proof (cstr_at buf o 0 t r Eo (token_nul _ _ Ht) ltac:(lia)) as Ec.
    rewrite Nat.add_0_r, drop_0 in Ec. rewrite Ec, outcome_bind_ret, valid_dns_test by done.
    rewrite E1, E2, <- (assoc_L (++)). done.
Qed.

Lemma dns_loop_all ds buf opt p fuel : Forall (token 44) ds → Forall valid_dns ds → pending buf opt p 44 ds →
  (length ds ≤ MAXNS)%nat → (length ds < fuel)%nat → dns_loop inet_pton6 fuel buf opt p [] = Ret ds.
Proof.
  intros Ht Hv Hp Hl Hf.
  destruct (dns_loop_valid ds [] buf opt p [] (fuel - length ds)) as (buf' & opt' & p' & [-> _] & E);
    rewrite ?app_nil_r; try done.
  replace (length ds + (fuel - length ds))%nat with fuel in E by lia. rewrite E.
  destruct (fuel - length ds)%nat eqn:Ef; [lia |]. by cbn.
Qed.

(** At an invalid address the loop stays where it is. *)
Lemma dns_loop_stuck fuel buf opt p bad rest dns : token 44 bad → ¬ valid_dns bad →
  pending buf opt p 44 (bad :: rest) → (length dns < MAXNS)%nat → dns_loop inet_pton6 fuel buf opt p dns = NoFuel.
Proof.
  intros Ht Hb (o & r & -> & Eo & Hp) Hl. induction fuel as [| fuel IH]; [done |]. cbn [dns_loop].
  rewrite (proj2 (Nat.ltb_lt _ _)) by done.
  pose proof (cstr_at buf o 0 bad r Eo (token_nul _ _ Ht) ltac:(lia)) as Ec.
  rewrite Nat.add_0_r, drop_0 in Ec. rewrite Ec, outcome_bind_ret.
  destruct (bool_decide_reflect (is_Some (inet_pton4 bad))) as [H | _]; [by destruct Hb; left |].
  destruct (inet_pton6 bad) eqn:E6; [by destruct Hb; right |]. exact IH.
Qed.

(** More turns than the loop takes do not change what it returns. *)
Lemma dns_loop_mono fuel more buf opt p dns r : dns_loop inet_pton6 fuel buf opt p dns = r → r ≠ NoFuel →
  dns_loop inet_pton6 (fuel + more) buf opt p dns = r.
Proof.
  revert buf opt p dns. induction fuel as [| fuel IH]; intros buf opt p dns E Hr; [by rewrite <- E in Hr |].
  cbn [dns_loop Nat.add] in *. destruct opt as [o |]; [| done]. destruct (length dns <? MAXNS)%nat; [| done].
  destruct (cstr buf o) as [s | |] eqn:Ec; [| done | done]. rewrite outcome_bind_ret in *.
  destruct (bool_decide _ || _); [| by apply IH]. destruct (strtok 44 buf p) as [[opt' buf'] p']. by apply IH.
Qed.
End dns.

(** ** splitHostname *)

Lemma strrchr_none s c : Forall (λ b, b ≠ c) s → strrchr s c = None.
Proof. induction 1 as [| b s Hb _ IH]; cbn; [done |]. rewrite IH. by destruct (Z.eqb_spec b c). Qed.

Lemma strrchr_app s c r : Forall (λ b, b ≠ c) r → strrchr (s ++ c :: r) c = Some (c :: r).
Proof.
  intros Hr. induction s as [| b s IH]; cbn; [| by rewrite IH].
  rewrite strrchr_none by done. by rewrite Z.eqb_refl.
Qed.

Lemma schar_small b c : is_byte b → 0 ≤ c < 128 → schar b = c ↔ b = c.
Proof. unfold is_byte, schar. intros Hb Hc. destruct (Z.ltb_spec b 128); lia. Qed.

(** A byte of a host name: a byte that is not NUL. *)
Definition host_byte (b : Z) : Prop := is_byte b ∧ b ≠ 0.

Lemma host_nul s : Forall host_byte s → Forall (λ b, b ≠ 0) s.
Proof. intros H. eapply list.Forall_impl; [exact H |]. by intros ? []. Qed.

Lemma occurrences_zero s c : 0 ≤ c < 128 → Forall host_byte s → Forall (λ b, b ≠ c) s → occurrences s c = 0.
Proof.
  intros Hc Hb. induction Hb as [| b s [Hb _] _ IH]; intros Hs; [done |]. apply list.Forall_cons in Hs as [Hbc Hs].
  cbn [occurrences]. rewrite IH by done. destruct (Z.eqb_spec (schar b) c) as [E |]; [| done].
  by apply (schar_small b c Hb Hc) in E.
Qed.

Lemma strcount_whole s c : s ≠ [] → 0 < c < 128 → Forall host_byte s → list.last s ≠ Some c →
  strcount (S (S (length s))) (Some (s ++ [0])) c = Ret (occurrences s c).
Proof.
  intros Hne Hc Hs Hl. cbn [strcount]. rewrite strcount_loop_spec; [done | lia | by apply host_nul | done |].
  intros p b -> E. apply Hl. rewrite list.last_snoc. f_equal.
  apply Forall_app in Hs as [_ [[Hb _] _]%list.Forall_cons]. by apply (schar_small b c Hb ltac:(lia)).
Qed.

(** Without brackets: one colon at most, or more. *)
Lemma split_unbracketed s : s ≠ [] → Forall host_byte s → list.last s ≠ Some 58 → Forall (λ b, b ≠ 93) s →
  splitHostname s =
  Ret (if 1 <? occurrences s 58 then (Some s, None)
       else match strrchr s 58 with
            | Some colon => (Some (before s colon), Some (tail colon))
            | None => (Some s, None)
            end).
Proof.
  intros Hne Hs Hl Hb. unfold splitHostname. rewrite (proj2 (strchr_none s 93)) by done.
  rewrite strcount_whole, outcome_bind_ret by (done || lia).
  destruct (1 <? occurrences s 58); [done |]. by destruct (strrchr s 58).
Qed.

(** splitHostname takes apart a bare name, a name and a port, an IPv6
    address, and one in brackets with or without a port; on a name that ends
    with a colon it reads behind the string. *)
Theorem splitHostname_forms a p v6 (Ha : a ≠ []) (Hab : Forall host_byte a)
    (Had : Forall (λ b, b ≠ 58 ∧ b ≠ 93) a) (Hp : p ≠ []) (Hpb : Forall host_byte p)
    (Hpd : Forall (λ b, b ≠ 58 ∧ b ≠ 93) p) (Hvb : Forall host_byte v6) (Hvd : Forall (λ b, b ≠ 93) v6)
    (Hvc : 1 < occurrences v6 58) (Hvl : list.last v6 ≠ Some 58) :
  splitHostname a = Ret (Some a, None) ∧
  splitHostname (a ++ [58] ++ p) = Ret (Some a, Some p) ∧
  splitHostname v6 = Ret (Some v6, None) ∧
  splitHostname ([91] ++ v6 ++ [93]) = Ret (Some v6, None) ∧
  splitHostname ([91] ++ v6 ++ [93; 58] ++ p) = Ret (Some v6, Some p) ∧
  splitHostname (a ++ [58]) = Undef.
Proof.
  assert (Hno : ∀ l, Forall (λ b, b ≠ 58 ∧ b ≠ 93) l → Forall (λ b, b ≠ 58) l ∧ Forall (λ b, b ≠ 93) l)
    by (intros l H; split; (eapply list.Forall_impl; [exact H |]); by intros ? []).
  destruct (Hno a Had) as [Ha58 Ha93], (Hno p Hpd) as [Hp58 Hp93].
  assert (Hbr : ∀ r, strchr (91 :: v6 ++ 93 :: r) 93 = Some (93 :: r))
    by (intros r; apply (strchr_app (91 :: v6)); by constructor).
  assert (Hlast : ∀ l, Forall (λ b, b ≠ 58) l → list.last l ≠ Some 58).
  { intros l Hl E. apply last_Some in E as [k ->]. by apply Forall_app in Hl as [_ [? _]%list.Forall_cons]. }
  assert (Hbefore : ∀ r, before (91 :: v6 ++ 93 :: r) (93 :: r) = 91 :: v6)
    by (intros r; apply (before_app (91 :: v6))).
  split_and!.
  - rewrite split_unbracketed, occurrences_zero by (done || lia || by apply Hlast). by rewrite strrchr_none.
  - rewrite split_unbracketed; [| by destruct a | | |].
    + rewrite !occurrences_app, (occurrences_zero a), (occurrences_zero p) by (done || lia). change (occurrences [58] 58) with 1. change (1 <? 0 + (1 + 0)) with false.
      cbn iota. cbn [app]. rewrite strrchr_app by done. by rewrite before_app.
    + apply Forall_app. split; [done |]. constructor; [split; [unfold is_byte; lia | lia] | done].
    + rewrite list.last_app. cbn [app]. destruct p as [| b p]; [done |]. change (list.last (58 :: b :: p)) with (list.last (b :: p)).
      destruct (list.last (b :: p)) as [x |] eqn:E; [| by apply last_None in E].
      intros [= ->]. by apply (Hlast _ Hp58).
    + apply Forall_app. split; [done |]. by constructor.
  - rewrite split_unbracketed; [| by intros -> | done | done | done].
    destruct (Z.ltb_spec 1 (occurrences v6 58)); [done | lia].
  - unfold splitHostname. cbn [app]. rewrite Hbr, Hbefore. rewrite bool_decide_eq_true_2 by done. done.
  - unfold splitHostname. cbn [app]. rewrite Hbr, Hbefore. rewrite bool_decide_eq_true_2 by done.
    change (93 :: 58 :: p) with ([93] ++ 58 :: p). by rewrite strrchr_app.
  - unfold splitHostname. rewrite (proj2 (strchr_none _ 93)) by (apply Forall_app; split; [done | by repeat constructor]).
    cbn [strcount]. rewrite <- (assoc_L (++)). cbn [app]. rewrite strcount_loop_over; [done | rewrite length_app; cbn; lia | | done | done].
    apply Forall_app. split; [by apply host_nul | by repeat constructor].
Qed.

Lemma splitHostname_forms_witness :
  splitHostname (str "mirror") = Ret (Some (str "mirror"), None) ∧
  splitHostname (str "mirror" ++ [58] ++ str "80") = Ret (Some (str "mirror"), Some (str "80")) ∧
  splitHostname (str "fe80::1") = Ret (Some (str "fe80::1"), None) ∧
  splitHostname ([91] ++ str "fe80::1" ++ [93]) = Ret (Some (str "fe80::1"), None) ∧
  splitHostname ([91] ++ str "fe80::1" ++ [93; 58] ++ str "80") = Ret (Some (str "fe80::1"), Some (str "80")) ∧
  splitHostname (str "mirror" ++ [58]) = Undef.
Proof.
  apply (splitHostname_forms (str "mirror") (str "80") (str "fe80::1"));
    try discriminate; try reflexivity;
    repeat constructor; cbn; unfold is_byte; try discriminate; lia.
Defined.

(** ** Ethernet settings *)

(** parseEthtoolSettings goes through the words of the option in order,
    but a word that sets the speed or the duplex mode swallows the next one:
    whatever stands second behind such a word makes no difference. *)
Theorem ethtool_swallows_next dev w x y ts (Hw : eth_word w) (Hx : eth_word x) (Hy : eth_word y) (Hts : Forall eth_word ts)
    (Hset : starts_with (str "duplex") w = true ∨ starts_with (str "speed") w = true) :
  parseEthtoolSettings dev (join 32 (w :: ts)) =
    Ret (dev, snd (eth_walk (w :: ts) false (-1) (-1)), fst (eth_walk (w :: ts) false (-1) (-1))) ∧
  parseEthtoolSettings dev (join 32 (w :: x :: ts)) = parseEthtoolSettings dev (join 32 (w :: y :: ts)).
Proof.
  split; [by apply parse_ethtool_walk; constructor |].
  rewrite !parse_ethtool_walk by (constructor; [done | by constructor]). cbn [eth_walk].
  destruct Hset as [H | H]; [by rewrite H |]. destruct (starts_with (str "duplex") w); [done |]. by rewrite H.
Qed.

Lemma eth_word_test t : 
  bool_decide (t ≠ []) && bool_decide (Forall (λ b, b ≠ 32 ∧ b ≠ 0) t) && bool_decide (Forall (λ b, b ≠ 34) t) &&
  bool_decide (7 ≤ length t)%nat = true → eth_word t.
Proof.
  intros H. apply andb_true_iff in H as [[[H1 H2]%andb_true_iff H3]%andb_true_iff H4].
  apply bool_decide_eq_true_1 in H1, H2, H3, H4. constructor; [by split | done | done | lia].
Qed.

Lemma ethtool_swallows_next_witness :
  parseEthtoolSettings None (join 32 [str "duplex=full"; str "speed=1000"]) = Ret (None, -1, 1) ∧
  parseEthtoolSettings None (join 32 [str "duplex=full"; str "speed=100"; str "speed=1000"]) =
    parseEthtoolSettings None (join 32 [str "duplex=full"; str "ignored"; str "speed=1000"]).
Proof.
  apply (ethtool_swallows_next None (str "duplex=full") (str "speed=100") (str "ignored") [str "speed=1000"]).
  - apply eth_word_test. reflexivity.
  - apply eth_word_test. reflexivity.
  - apply eth_word_test. reflexivity.
  - constructor; [| constructor]. apply eth_word_test. reflexivity.
  - left. reflexivity.
Defined.

(** ** Addresses printed *)

Definition octet_head_ok (n : Z) : bool :=
  match fmt_d n with c :: _ => negb (c =? 100) | [] => false end.

Lemma octets_head_ok : forallb octet_head_ok (Z.of_nat <$> seq 0 256) = true.
Proof. vm_compute. reflexivity. Qed.

Lemma inet_ntop4_parts a : ∃ w x y z, inet_ntop4 a = fmt_d w ++ [46] ++ fmt_d x ++ [46] ++ fmt_d y ++ [46] ++ fmt_d z ∧
  is_byte w.
Proof.
  pose proof (le_bytes_byte 4 a) as Hb. unfold inet_ntop4.
  destruct (le_bytes 4 a) as [| w [| x [| y [| z []]]]] eqn:E; try (by apply (f_equal length) in E; rewrite length_le_bytes in E).
  exists w, x, y, z. split; [reflexivity |]. by apply list.Forall_cons in Hb as [? _].
Qed.

Lemma inet_ntop4_not_dhcp a : starts_with (str "dhcp") (inet_ntop4 a) = false.
Proof.
  destruct (inet_ntop4_parts a) as (w & x & y & z & -> & Hw).
  pose proof octets_head_ok as H. rewrite forallb_forall in H. specialize (H w).
  assert (Hin : In w (Z.of_nat <$> seq 0 256)).
  { apply list_elem_of_In, list_elem_of_fmap. unfold is_byte in Hw. exists (Z.to_nat w). split; [lia |]. apply elem_of_seq. lia. }
  apply H in Hin. unfold octet_head_ok in Hin. destruct (fmt_d w) as [| c r]; [done |].
  destruct (Z.eqb_spec c 100) as [| Hc]; [done |]. change (str "dhcp") with [100; 104; 99; 112]. cbn [app starts_with]. rewrite (proj2 (Z.eqb_neq 100 c)) by congruence. done.
Qed.

Lemma split_on_cons_ne c b r : b ≠ c → ∃ t ts, split_on c r = t :: ts ∧ split_on c (b :: r) = (b :: t) :: ts.
Proof.
  intros Hb. cbn [split_on]. destruct (Z.eqb_spec b c); [done |].
  destruct (split_on c r) as [| t ts] eqn:E; [| by eauto]. destruct r as [| x r]; cbn in E; [done |].
  destruct (x =? c); [done |]. by destruct (split_on c r).
Qed.

Lemma octet_zero t v : octet (48 :: t) = Some v → v = 0.
Proof.
  unfold octet. destruct t as [| c t]; [by intros [= <-] |]. cbn. done.
Qed.

Lemma inet_pton4_zeros r a : inet_pton4 (str "0.0.0.0" ++ r) = Some a → a = 0.
Proof.
  unfold inet_pton4. change (str "0.0.0.0" ++ r) with ([48] ++ 46 :: [48] ++ 46 :: [48] ++ 46 :: 48 :: r).
  rewrite !split_on_app by (by repeat constructor).
  destruct (split_on_cons_ne 46 48 r ltac:(done)) as (t & ts & _ & E). rewrite E. cbn [mapM].
  change (octet [48]) with (Some 0). cbn [mbind option_bind].
  destruct (octet (48 :: t)) as [v |] eqn:Ev; [| done]. apply octet_zero in Ev as ->. cbn [mbind option_bind].
  destruct (mapM octet ts) as [[| ]|]; cbn; [| done | done]. intros [= <-]. reflexivity.
Qed.

Lemma have_in_addr a : 0 < a < 2 ^ 32 → iface_have_in_addr a = true.
Proof.
  intros Ha. unfold iface_have_in_addr, _iface_have_valid_addr. destruct (starts_with _ _) eqn:E; [| done].
  apply starts_with_spec in E as [r E]. pose proof (inet_pton_ntop a ltac:(lia)) as H. rewrite E in H.
  apply inet_pton4_zeros in H. lia.
Qed.

(** ** Writing the configuration *)

(** The actions of writeEnabledNetInfo with the results their failures give. *)
Definition write_plan (flags : Z) (i : iface_t) (mac : bytes) : list (action * Z) :=
  let ofile := NETWORK_SCRIPTS_PATH ++ str "/.ifcfg-" ++ if_device i in
  let nfile := NETWORK_SCRIPTS_PATH ++ str "/ifcfg-" ++ if_device i in
  let network := SYSCONFIG_PATH ++ str "/.network" in
  (A_mkdir NETWORK_SCRIPTS_PATH, 16) ::
  match if_s i I_vendorclass with
  | None => []
  | Some v =>
      let path := str "/etc/dhclient-" ++ if_device i ++ str ".conf" in
      [(A_fopen path, 18); (A_fclose path (str "send vendor-class-identifier " ++ [34] ++ v ++ [34] ++ str ";" ++ [10]), 19)]
  end ++
  [(A_fopen ofile, 2); (A_fclose ofile (ifcfg_contents flags i mac), 8); (A_rename ofile nfile, 14);
   (A_fopen network, 9); (A_fclose network (network_contents flags i), 12);
   (A_rename network (SYSCONFIG_PATH ++ str "/network"), 15)].

(** Run a plan up to the first failure. *)
Fixpoint run_plan (env : action → bool) (plan : list (action * Z)) : Z * list action :=
  match plan with
  | [] => (0, [])
  | (a, code) :: plan =>
      if env a then let '(r, acts) := run_plan env plan in (r, a :: acts) else (code, [a])
  end.

Lemma try_run env a code acts k plan : (∀ acts, k acts = Ret (fst (run_plan env plan), acts ++ snd (run_plan env plan))) →
  try env a code acts k =
  Ret (fst (run_plan env ((a, code) :: plan)), acts ++ snd (run_plan env ((a, code) :: plan))).
Proof.
  intros Hk. unfold try. cbn [run_plan]. destruct (env a); [| done]. rewrite Hk.
  destruct (run_plan env plan) as [r done_]. cbn [fst snd]. by rewrite <- (assoc_L (++)).
Qed.

Lemma writeEnabledNetInfo_run env mac2str flags i mac : mac2str (if_device i) = Some mac →
  writeEnabledNetInfo env mac2str flags i = Ret (run_plan env (write_plan flags i mac)).
Proof.
  intros Hmac. set (plan := write_plan flags i mac).
  assert (H : writeEnabledNetInfo env mac2str flags i = Ret (fst (run_plan env plan), [] ++ snd (run_plan env plan))).
  2:{ rewrite H. by destruct (run_plan env plan). }
  unfold writeEnabledNetInfo, plan, write_plan. apply try_run. intros acts.
  unfold write_vendorclass. destruct (if_s i I_vendorclass) as [v |]; cbn [app].
  1: apply try_run; clear acts; intros acts; apply try_run; clear acts; intros acts.
  all: apply try_run; clear acts; intros acts; rewrite Hmac; cbn [checked]; rewrite outcome_bind_ret;
    do 5 (apply try_run; clear acts; intros acts); cbn; by rewrite app_nil_r.
Qed.

Lemma run_plan_spec env plan r acts : Forall (λ '(_, c), c ≠ 0) plan → run_plan env plan = (r, acts) →
  acts `prefix_of` (fst <$> plan) ∧ (r = 0 ↔ Forall (λ a, env a = true) (fst <$> plan)) ∧
  (r = 0 → acts = fst <$> plan) ∧
  (∀ done_ a, acts = done_ ++ [a] → Forall (λ a, env a = true) done_ ∧ (r ≠ 0 → env a = false)).
Proof.
  intros Hc. revert r acts. induction Hc as [| [a code] plan Hcode _ IH]; intros r acts; cbn [run_plan].
  { intros [= <- <-]. split_and!; try done. intros d a E. by destruct d. }
  rewrite fmap_cons. cbn [fst]. destruct (env a) eqn:Ea.
  - destruct (run_plan env plan) as [r' acts'] eqn:Er. intros [= <- <-].
    destruct (IH r' acts' eq_refl) as (Hp & H0 & Hall & Hd). split_and!.
    + by apply prefix_cons.
    + rewrite list.Forall_cons, <- H0. tauto.
    + intros Hr. by rewrite Hall.
    + intros d b E. destruct d as [| x d]; cbn in E.
      * injection E as -> ->. split; [constructor |]. intros Hr. destruct plan as [| [x c] plan]; cbn in Er.
        { by injection Er as <-. }
        destruct (env x); [destruct (run_plan env plan) |]; by injection Er.
      * injection E as -> ->. destruct (Hd d b eq_refl) as [Hd1 Hd2]. split; [by constructor | exact Hd2].
  - intros [= <- <-]. split_and!.
    + apply prefix_cons, prefix_nil.
    + rewrite list.Forall_cons, Ea. split; [done | by intros []].
    + done.
    + intros d b E. destruct d as [| x d]; cbn in E; [injection E as <-; by split |].
      apply (f_equal length) in E. cbn in E. rewrite length_app in E. cbn in E. lia.
Qed.

Lemma write_plan_codes flags i mac : Forall (λ '(_, c), c ≠ 0) (write_plan flags i mac).
Proof. unfold write_plan. destruct (if_s i I_vendorclass); cbn [app]; by repeat constructor. Qed.

(** ** Static configurations *)

Lemma copy_string_i f t ld i : if_i (copy_string f t ld i) = if_i i.
Proof. unfold copy_string. by destruct (ld_s ld f). Qed.
Lemma copy_string_dns f t ld i : if_dns (copy_string f t ld i) = if_dns i.
Proof. unfold copy_string. by destruct (ld_s ld f). Qed.
Lemma copy_string_device f t ld i : if_device (copy_string f t ld i) = if_device i.
Proof. unfold copy_string. by destruct (ld_s ld f). Qed.

#[local] Hint Rewrite copy_string_i copy_string_dns copy_string_device : c_rw.

Lemma setup_dns_valid pton6 fuel i ld ds : ld_s ld L_dns = Some (join 44 ds) → Forall (token 44) ds →
  Forall (valid_dns pton6) ds → (length ds ≤ MAXNS)%nat → (length ds < fuel)%nat → if_dns i = [] →
  setup_dns pton6 fuel i ld = Ret (set_dns ds i).
Proof.
  intros Hd Ht Hv Hl Hf Hi. unfold setup_dns. rewrite Hd, Hi.
  destruct (strtok_next 44 (join 44 ds ++ [0]) 0 ds ltac:(done) Ht eq_refl) as (c & buf & p & E & H).
  rewrite E, (dns_loop_all pton6 ds) by done. done.
Qed.

(** A kickstart or command line with a static configuration. *)
Record static_ld (pton6 : bytes → bool) (ld : loaderData_s) (ip mask gw : Z) (ds : list bytes) : Prop := {
  sl_set : ld_i ld L_ipinfo_set ≠ 0;
  sl_ipv4 : ld_s ld L_ipv4 = Some (inet_ntop4 ip);
  sl_netmask : ld_s ld L_netmask = Some (inet_ntop4 mask);
  sl_gateway : ld_s ld L_gateway = Some (inet_ntop4 gw);
  sl_dns : ld_s ld L_dns = Some (join 44 ds);
  sl_tokens : Forall (token 44) ds;
  sl_valid : Forall (valid_dns pton6) ds;
  sl_few : (length ds ≤ MAXNS)%nat;
  sl_ethtool : ld_s ld L_ethtool = None;
  sl_range : 0 < ip < 2 ^ 32 ∧ 0 < mask < 2 ^ 32 ∧ 0 < gw < 2 ^ 32 }.

Lemma copy_addr_some f t ld i a : ld_s ld f = Some (inet_ntop4 a) → 0 ≤ a < 2 ^ 32 →
  copy_addr f t ld i = set_ifi t a i.
Proof. intros H Ha. unfold copy_addr. rewrite H. cbn [mbind option_bind]. by rewrite inet_pton_ntop. Qed.

Lemma setup_static pton6 fuel i ld ip mask gw ds : static_ld pton6 ld ip mask gw ds → (length ds < fuel)%nat →
  if_dns i = [] → if_i i I_broadcast = 0 →
  ∃ i', setupIfaceStruct pton6 fuel i ld = Ret (i', ld, []) ∧ if_device i' = if_device i ∧ if_dns i' = ds ∧
    if_i i' I_ipv4method = IPV4_MANUAL_METHOD ∧ if_i i' I_ipaddr = ip ∧ if_i i' I_netmask = mask ∧
    if_i i' I_gateway = gw ∧ if_i i' I_broadcast = 0.
Proof.
  intros [Hset Hip Hmask Hgw Hdns Ht Hv Hn He (Rip & Rmask & Rgw)] Hf Hi Hb.
  unfold setupIfaceStruct, ethtool_calls. rewrite He, outcome_bind_ret.
  unfold setup_ipv4. rewrite Hip. destruct (Z.eqb_spec (ld_i ld L_ipinfo_set) 0); [done |]. cbn [negb].
  rewrite inet_ntop4_not_dhcp, inet_pton_ntop by lia.
  rewrite (copy_addr_some L_netmask I_netmask ld _ mask Hmask), (copy_addr_some L_gateway I_gateway ld _ gw Hgw) by lia.
  rewrite (setup_dns_valid pton6 fuel _ ld ds) by done. rewrite outcome_bind_ret, He, outcome_bind_ret.
  eexists. split; [reflexivity |].
  cbn [set_ifi if_device if_dns if_i]. 
  destruct (ld_i ld L_noDns =? 0), (ld_i ld L_mtu =? 0); cbn [set_ifi if_device if_dns if_i];
    autorewrite with c_rw; cbn [set_ifi set_dns set_ifs if_device if_dns if_i]; autorewrite with c_rw;
    split_and!; done.
Qed.

Lemma ipv4_lines_static flags i ip mask gw : FL flags LOADER_FLAGS_NOIPV4 = false →
  if_i i I_ipv4method = IPV4_MANUAL_METHOD → if_i i I_ipaddr = ip → if_i i I_netmask = mask →
  if_i i I_gateway = gw → if_i i I_broadcast = 0 →
  0 < ip < 2 ^ 32 → 0 < mask < 2 ^ 32 → 0 < gw < 2 ^ 32 →
  ipv4_lines flags i = str "BOOTPROTO=static" ++ [10] ++ line (str "IPADDR=") (inet_ntop4 ip) ++
    line (str "NETMASK=") (inet_ntop4 mask) ++ line (str "GATEWAY=") (inet_ntop4 gw).
Proof.
  intros Hf Hm <- <- <- Hb Hip Hmask Hgw. unfold ipv4_lines. rewrite Hf, Hm, Hb.
  change (IPV4_MANUAL_METHOD =? IPV4_DHCP_METHOD) with false. change (IPV4_MANUAL_METHOD =? IPV4_MANUAL_METHOD) with true.
  cbn iota. unfold line_addr. rewrite (have_in_addr _ Hip), (have_in_addr _ Hmask), (have_in_addr _ Hgw).
  change (iface_have_in_addr 0) with false. reflexivity.
Qed.

Lemma static_config_run pton6 mac2str flags i ld ip mask gw ds mac fuel (Hld : static_ld pton6 ld ip mask gw ds)
    (Hfuel : (length ds < fuel)%nat) (Hdns : if_dns i = []) (Hbrd : if_i i I_broadcast = 0)
    (Hflags : FL flags LOADER_FLAGS_NOIPV4 = false) (Hmac : mac2str (if_device i) = Some mac) :
  ∃ i' acts rest, setupIfaceStruct pton6 fuel i ld = Ret (i', ld, []) ∧
    writeEnabledNetInfo (λ _, true) mac2str flags i' = Ret (0, acts) ∧
    A_fclose (NETWORK_SCRIPTS_PATH ++ str "/.ifcfg-" ++ if_device i)
      (line (str "DEVICE=") (if_device i) ++ line (str "HWADDR=") mac ++ str "ONBOOT=yes" ++ [10] ++
       str "BOOTPROTO=static" ++ [10] ++ line (str "IPADDR=") (inet_ntop4 ip) ++
       line (str "NETMASK=") (inet_ntop4 mask) ++ line (str "GATEWAY=") (inet_ntop4 gw) ++
       dns_lines 1 ds ++ rest) ∈ acts ∧
    A_rename (NETWORK_SCRIPTS_PATH ++ str "/.ifcfg-" ++ if_device i)
      (NETWORK_SCRIPTS_PATH ++ str "/ifcfg-" ++ if_device i) ∈ acts.
Proof.
  pose proof (sl_range _ _ _ _ _ _ Hld) as (Rip & Rmask & Rgw).
  destruct (setup_static pton6 fuel i ld ip mask gw ds Hld Hfuel Hdns Hbrd)
    as (i' & E & Edev & Edns & Emeth & Eip & Emask & Egw & Ebrd).
  pose proof (ipv4_lines_static flags i' ip mask gw Hflags Emeth Eip Emask Egw Ebrd Rip Rmask Rgw) as Elines.
  pose proof (writeEnabledNetInfo_run (λ _, true) mac2str flags i' mac) as Hw. rewrite Edev in Hw. specialize (Hw Hmac).
  destruct (run_plan (λ _, true) (write_plan flags i' mac)) as [r acts] eqn:Er.
  destruct (run_plan_spec _ _ _ _ (write_plan_codes flags i' mac) Er) as (_ & H0 & Hall & _).
  assert (r = 0) as -> by (apply H0; by apply list.Forall_forall).
  specialize (Hall eq_refl).
  exists i', acts, (other_lines i'). split; [exact E |]. split; [exact Hw |].
  rewrite Hall. unfold write_plan. rewrite Edev, fmap_cons, fmap_app. cbn [fst fmap list_fmap].
  split; apply elem_of_cons; right; apply elem_of_app; right.
  - apply elem_of_cons; right. apply elem_of_cons; left. f_equal. unfold ifcfg_contents. rewrite Elines, Edev, Edns.
    by rewrite <- !(assoc_L (++)).
  - apply elem_of_cons; right. apply elem_of_cons; right. apply elem_of_cons; left. reflexivity.
Qed.

(** a static configuration given to the loader reaches the interface's
    file: after setupIfaceStruct, writeEnabledNetInfo writes the address, the
    netmask, the gateway and the name servers as they were given, and returns
    0 when the file system lets it. *)
Theorem static_config_written pton6 mac2str flags i ld ip mask gw ds mac fuel (Hld : static_ld pton6 ld ip mask gw ds)
    (Hfuel : (length ds < fuel)%nat) (Hdns : if_dns i = []) (Hbrd : if_i i I_broadcast = 0)
    (Hflags : FL flags LOADER_FLAGS_NOIPV4 = false) (Hmac : mac2str (if_device i) = Some mac) :
  ∃ i' acts rest, setupIfaceStruct pton6 fuel i ld = Ret (i', ld, []) ∧
    writeEnabledNetInfo (λ _, true) mac2str flags i' = Ret (0, acts) ∧
    A_fclose (NETWORK_SCRIPTS_PATH ++ str "/.ifcfg-" ++ if_device i)
      (line (str "DEVICE=") (if_device i) ++ line (str "HWADDR=") mac ++ str "ONBOOT=yes" ++ [10] ++
       str "BOOTPROTO=static" ++ [10] ++ line (str "IPADDR=") (inet_ntop4 ip) ++
       line (str "NETMASK=") (inet_ntop4 mask) ++ line (str "GATEWAY=") (inet_ntop4 gw) ++
       dns_lines 1 ds ++ rest) ∈ acts ∧
    A_rename (NETWORK_SCRIPTS_PATH ++ str "/.ifcfg-" ++ if_device i)
      (NETWORK_SCRIPTS_PATH ++ str "/ifcfg-" ++ if_device i) ∈ acts.
Proof. by apply (static_config_run pton6 mac2str flags i ld ip mask gw ds mac fuel). Qed.

Definition sample_static : loaderData_s :=
  set_lds L_ipv4 (Some (str "10.0.0.5")) (set_lds L_netmask (Some (str "255.0.0.0"))
    (set_lds L_gateway (Some (str "10.0.0.1")) (set_lds L_dns (Some (str "10.0.0.2,10.0.0.3"))
      (set_ldi L_ipinfo_set 1 zero_ld)))).
Definition sample_iface : iface_t := set_device (str "eth0") iface_init_iface_t.

Lemma static_config_written_witness :
  ∃ i' acts rest, setupIfaceStruct (λ _, false) 10 sample_iface sample_static = Ret (i', sample_static, []) ∧
    writeEnabledNetInfo (λ _, true) (λ _, Some (str "00:11")) 0 i' = Ret (0, acts) ∧
    A_fclose (str "/etc/sysconfig/network-scripts/.ifcfg-eth0")
      (line (str "DEVICE=") (str "eth0") ++ line (str "HWADDR=") (str "00:11") ++ str "ONBOOT=yes" ++ [10] ++
       str "BOOTPROTO=static" ++ [10] ++ line (str "IPADDR=") (str "10.0.0.5") ++
       line (str "NETMASK=") (str "255.0.0.0") ++ line (str "GATEWAY=") (str "10.0.0.1") ++
       dns_lines 1 [str "10.0.0.2"; str "10.0.0.3"] ++ rest) ∈ acts ∧
    A_rename (str "/etc/sysconfig/network-scripts/.ifcfg-eth0")
      (str "/etc/sysconfig/network-scripts/ifcfg-eth0") ∈ acts.
Proof.
  apply (static_config_written (λ _, false) (λ _, Some (str "00:11")) 0 sample_iface sample_static
    83886090 255 16777226 [str "10.0.0.2"; str "10.0.0.3"] (str "00:11") 10); try reflexivity.
  - constructor; try reflexivity; try discriminate.
    + repeat constructor; cbn; discriminate.
    + constructor; [left; eexists; vm_compute; reflexivity |]. constructor; [left; eexists; vm_compute; reflexivity | constructor].
    + cbn. unfold MAXNS. lia.
    + change (2 ^ 32) with 4294967296. lia.
  - cbn. lia.
Defined.

(** a name server that is not an address, among the first MAXNS, makes
    setupIfaceStruct run for ever: only a valid address makes the loop go on
    to the next one. *)
Theorem invalid_dns_hangs pton6 fuel i ld ds bad rest (Hld : ld_s ld L_dns = Some (join 44 (ds ++ bad :: rest)))
    (Htok : Forall (token 44) (ds ++ bad :: rest)) (Hds : Forall (valid_dns pton6) ds) (Hbad : ¬ valid_dns pton6 bad)
    (Hroom : (length (if_dns i) + length ds < MAXNS)%nat) (Heth : ld_s ld L_ethtool = None) :
  setupIfaceStruct pton6 fuel i ld = NoFuel.
Proof.
  assert (Hset : ∀ i', if_dns i' = if_dns i → ∀ ld', ld_s ld' L_dns = ld_s ld L_dns → setup_dns pton6 fuel i' ld' = NoFuel).
  { intros i' Hi ld' Hd. unfold setup_dns. rewrite Hd, Hld, Hi.
    destruct (strtok_next 44 (join 44 (ds ++ bad :: rest) ++ [0]) 0 _ ltac:(done) Htok eq_refl) as (c & buf & p & E & Hp).
    rewrite E. destruct (dns_loop_valid pton6 ds (bad :: rest) buf c p (if_dns i) fuel Htok Hds Hp ltac:(lia))
      as (buf' & c' & p' & Hp' & El).
    rewrite (dns_loop_stuck pton6 fuel buf' c' p' bad rest) in El; try done.
    2:{ by apply Forall_app in Htok as [_ [? _]%list.Forall_cons]. }
    2:{ rewrite length_app. lia. }
    destruct (dns_loop pton6 fuel buf c p (if_dns i)) as [r | |] eqn:Er; [| | done].
    - apply (dns_loop_mono _ _ (length ds)) in Er; [| done]. rewrite Nat.add_comm, El in Er. done.
    - apply (dns_loop_mono _ _ (length ds)) in Er; [| done]. rewrite Nat.add_comm, El in Er. done. }
  assert (Haddr : ∀ f t ld' i', if_dns (copy_addr f t ld' i') = if_dns i')
    by (intros f t ld' i'; unfold copy_addr; by destruct (ld_s ld' f ≫= inet_pton4)).
  unfold setupIfaceStruct, ethtool_calls. rewrite Heth, outcome_bind_ret.
  destruct (setup_ipv4 _ ld) as [i1 ld1] eqn:E4.
  assert (if_dns i1 = if_dns i ∧ ld_s ld1 L_dns = ld_s ld L_dns) as [E1 E2].
  { unfold setup_ipv4 in E4. repeat case_match; by injection E4 as <- <-. }
  rewrite Hset; [done | by rewrite !Haddr | done].
Qed.

Definition sample_bad_dns : loaderData_s := set_lds L_dns (Some (str "10.0.0.2,nameserver")) zero_ld.

Lemma invalid_dns_hangs_witness : setupIfaceStruct (λ _, false) 1000 sample_iface sample_bad_dns = NoFuel.
Proof.
  apply (invalid_dns_hangs (λ _, false) 1000 sample_iface sample_bad_dns [str "10.0.0.2"] (str "nameserver") []).
  - reflexivity.
  - repeat constructor; cbn; discriminate.
  - constructor; [left; eexists; vm_compute; reflexivity | constructor].
  - intros [[a E] | E]; [vm_compute in E |]; discriminate.
  - cbn. unfold MAXNS. lia.
  - reflexivity.
Defined.

(** C15: writeEnabledNetInfo carries out its plan up to the first action that
    fails: what it has tried is a prefix of the plan in which only the last
    action can have failed, and it returns 0 exactly when the whole plan has
    succeeded; so a configuration file is replaced only after its new version
    has been written to the end. *)
Theorem writeEnabledNetInfo_stops_at_failure env mac2str flags i mac (Hmac : mac2str (if_device i) = Some mac) :
  ∃ r acts, writeEnabledNetInfo env mac2str flags i = Ret (r, acts) ∧
    acts `prefix_of` (fst <$> write_plan flags i mac) ∧
    (r = 0 ↔ Forall (λ a, env a = true) (fst <$> write_plan flags i mac)) ∧
    (r = 0 → acts = fst <$> write_plan flags i mac) ∧
    (∀ done_ a, acts = done_ ++ [a] → Forall (λ a, env a = true) done_ ∧ (r ≠ 0 → env a = false)).
Proof.
  destruct (run_plan env (write_plan flags i mac)) as [r acts] eqn:Er. exists r, acts.
  rewrite (writeEnabledNetInfo_run _ _ _ _ mac Hmac), Er. split; [done |].
  exact (run_plan_spec _ _ _ _ (write_plan_codes flags i mac) Er).
Qed.

Definition rename_fails (a : action) : bool := match a with A_rename _ _ => false | _ => true end.

Lemma writeEnabledNetInfo_stops_at_failure_witness :
  ∃ r acts, writeEnabledNetInfo rename_fails (λ _, Some (str "00:11")) 0 sample_iface = Ret (r, acts) ∧
    acts `prefix_of` (fst <$> write_plan 0 sample_iface (str "00:11")) ∧
    (r = 0 ↔ Forall (λ a, rename_fails a = true) (fst <$> write_plan 0 sample_iface (str "00:11"))) ∧
    (r = 0 → acts = fst <$> write_plan 0 sample_iface (str "00:11")) ∧
    (∀ done_ a, acts = done_ ++ [a] → Forall (λ a, rename_fails a = true) done_ ∧ (r ≠ 0 → rename_fails a = false)).
Proof. apply (writeEnabledNetInfo_stops_at_failure rename_fails (λ _, Some (str "00:11")) 0 sample_iface (str "00:11")). reflexivity. Defined.

(** ** Prefixes *)

(** What comes back for a prefix [p]. *)
Definition prefix_back (p : Z) : Z := 8 * ((p + 7) / 8) - 1.

Definition prefix_ok (p : Z) : bool :=
  match iface_prefix2netmask p with
  | Ret m =>
      bool_decide (le_bytes 4 m = rev (le_bytes 4 (2 ^ 32 - 2 ^ (32 - p)))) &&
      match iface_netmask2prefix 33 (Some m) with Ret q => q =? prefix_back p | _ => false end
  | _ => false
  end.

Lemma prefixes_ok : forallb prefix_ok (Z.of_nat <$> seq 2 31) = true.
Proof. vm_compute. reflexivity. Qed.

Lemma mask_loop_mono fuel more s r q : mask_loop fuel s r = Ret q → mask_loop (fuel + more) s r = Ret q.
Proof.
  revert s r. induction fuel as [| fuel IH]; intros s r; cbn [mask_loop Nat.add]; [done |].
  destruct (s =? 0); [done |]. apply IH.
Qed.

(** the netmask of a prefix has its bytes in network order, and
    iface_netmask2prefix gives the number of bits up to the last byte that is
    not zero, less one: the prefix only when that happens to be it. *)
Theorem netmask_prefix p fuel (Hp : 2 ≤ p ≤ 32) (Hfuel : (33 ≤ fuel)%nat) :
  ∃ m, iface_prefix2netmask p = Ret m ∧ le_bytes 4 m = rev (le_bytes 4 (2 ^ 32 - 2 ^ (32 - p))) ∧
    iface_netmask2prefix fuel (Some m) = Ret (prefix_back p) ∧ (prefix_back p = p ↔ p mod 8 = 7).
Proof.
  pose proof prefixes_ok as H. rewrite forallb_forall in H. specialize (H p).
  assert (Hin : In p (Z.of_nat <$> seq 2 31)).
  { apply list_elem_of_In, list_elem_of_fmap. exists (Z.to_nat p). split; [lia |]. apply elem_of_seq. lia. }
  apply H in Hin. unfold prefix_ok in Hin. destruct (iface_prefix2netmask p) as [m | |]; [| done | done].
  apply andb_true_iff in Hin as [Hb Hq]. apply bool_decide_eq_true_1 in Hb.
  destruct (iface_netmask2prefix 33 (Some m)) as [q | |] eqn:Eq; [| done | done]. apply Z.eqb_eq in Hq as ->.
  exists m. split_and!; [done | done | | unfold prefix_back; mlia].
  replace fuel with (33 + (fuel - 33))%nat by lia. by apply mask_loop_mono.
Qed.

Lemma netmask_prefix_witness :
  ∃ m, iface_prefix2netmask 24 = Ret m ∧ le_bytes 4 m = [255; 255; 255; 0] ∧
    iface_netmask2prefix 33 (Some m) = Ret 23 ∧ (23 = 24 ↔ 0 = 7).
Proof. apply (netmask_prefix 24 33); lia. Defined.
