(* ===== verification/Ftp.v ===== *)
(** * The FTP and HTTP client (stage-1/ftp.c)

    ftpCheckResponse on its static buffer, the commands and the transfer of a
    file over FTP, and httpGetFileDesc with the functions on its headers.  The
    sockets are any instance of [NetOps].  What alloca(n) gives room for is a
    parameter. *)

From S2P Require Import Prelude CLib Net Urls.

Definition FTPERR_BAD_SERVER_RESPONSE : Z := -1.
Definition FTPERR_SERVER_IO_ERROR : Z := -2.
Definition FTPERR_SERVER_TIMEOUT : Z := -3.
Definition FTPERR_BAD_HOST_ADDR : Z := -4.
Definition FTPERR_BAD_HOSTNAME : Z := -5.
Definition FTPERR_FAILED_CONNECT : Z := -6.
Definition FTPERR_FILE_IO_ERROR : Z := -7.
Definition FTPERR_PASSIVE_ERROR : Z := -8.
Definition FTPERR_FAILED_DATA_CONNECT : Z := -9.
Definition FTPERR_FILE_NOT_FOUND : Z := -10.
Definition FTPERR_TOO_MANY_CONNECTIONS : Z := -11.
Definition FTPERR_BAD_URL : Z := -12.
Definition FTPERR_TOO_MANY_REDIRECTS : Z := -13.
Definition FTPERR_UNSUPPORTED_FAMILY : Z := -14.
Definition FTPERR_PERMISSION_DENIED : Z := -15.
Definition FTPERR_UNKNOWN : Z := -100.

Definition BUFFER_SIZE : nat := 4096.
Definition IPPORT_FTP : Z := 21.
Definition AF_INET : Z := 2.
Definition AF_INET6 : Z := 10.
Definition crlf : bytes := [13; 10].

(** The codes [FTPERR_BAD_URL] and [FTPERR_TOO_MANY_REDIRECTS] have no message
    of their own. *)
Definition ftpStrerror (errorNumber : Z) (protocol : urlprotocol) : string :=
  let both (ftp http : string) := if decide (protocol = URL_METHOD_FTP) then ftp else http in
  if errorNumber =? FTPERR_PERMISSION_DENIED then both "FTP permission denied" "HTTP permission denied"
  else if errorNumber =? FTPERR_BAD_SERVER_RESPONSE then both "Bad FTP server response" "Bad HTTP server response"
  else if errorNumber =? FTPERR_SERVER_IO_ERROR then both "FTP IO error" "HTTP IO error"
  else if errorNumber =? FTPERR_SERVER_TIMEOUT then both "FTP server timeout" "HTTP server timeout"
  else if errorNumber =? FTPERR_BAD_HOST_ADDR then
    both "Unable to lookup FTP server host address" "Unable to lookup HTTP server host address"
  else if errorNumber =? FTPERR_BAD_HOSTNAME then
    both "Unable to lookup FTP server host name" "Unable to lookup HTTP server host name"
  else if errorNumber =? FTPERR_FAILED_CONNECT then both "Failed to connect to FTP server" "Failed to connect to HTTP server"
  else if errorNumber =? FTPERR_FAILED_DATA_CONNECT then
    both "Failed to establish data connection to FTP server" "Failed to establish data connection to HTTP server"
  else if errorNumber =? FTPERR_FILE_IO_ERROR then "IO error to local file"
  else if errorNumber =? FTPERR_PASSIVE_ERROR then "Error setting remote server to passive mode"
  else if errorNumber =? FTPERR_FILE_NOT_FOUND then "File not found on server"
  else if errorNumber =? FTPERR_TOO_MANY_CONNECTIONS then
    both "Too many connections to FTP server" "Too many connections to HTTP server"
  else if errorNumber =? FTPERR_UNSUPPORTED_FAMILY then
    both "Unsupported address family on FTP server" "Unsupported address family on HTTP server"
  else "Unknown or unexpected error".

(** ** Sockets *)

(** A [struct sockaddr_in] or [sockaddr_in6]: the bytes of the address and the
    port in host order. *)
Record sockaddr := mkAddr { sa_family : Z; sa_addr : bytes; sa_port : Z }.

Class NetOps (W : Type) := {
  (* socket(family, SOCK_STREAM, IPPROTO_IP): a descriptor or -1 *)
  n_socket : W → Z → Z * W;
  (* 0 or -1 *)
  n_connect : W → Z → sockaddr → Z * W;
  (* fcntl(fd, F_SETFL, O_NONBLOCK): 0 or -1 *)
  n_nonblock : W → Z → Z * W;
  n_close : W → Z → W;
  (* select for reading on one descriptor, for 60 seconds: 1, 0 or -1 *)
  n_select : W → Z → Z * W;
  (* as [f_read] and [f_write] of Posix *)
  n_read : W → Z → Z → Z * bytes * W;
  n_write : W → Z → bytes → Z * W
}.

(** ** ftpCheckResponse *)

(** What a turn of the loops works on: the buffer, the start of the line, the
    code of the reply (empty before its first line), whether the reply
    continues, and the line [str] points to. *)
Record reply_state := mkReply {
  r_buf : bytes; r_start : nat; r_code : bytes; r_continues : bool; r_str : option nat }.

(** [while ( *chptr != '\n' && *chptr) chptr++;] from [chptr] on: the steps. *)
Fixpoint to_newline (s : bytes) : outcome nat :=
  match s with
  | [] => Undef
  | b :: r => if (b =? 10) || (b =? 0) then Ret O else n ← to_newline r; Ret (S n)
  end.

(** A complete line, which ends at [chptr]. *)
Definition reply_line (st : reply_state) (chptr : nat) : outcome reply_state :=
  let start := r_start st in
  let buf := <[chptr := 0]> (r_buf st) in
  p ← (match chptr with O => Undef | S p => Ret p end);
  b ← checked (buf !! p);
  let buf := if b =? 13 then <[p := 0]> buf else buf in
  let code := take 3 (until_nul (drop start buf)) in
  if bool_decide (r_code st = []) then
    c ← checked (buf !! (start + 3)%nat);
    Ret (mkReply buf (S chptr) code (r_continues st && (c =? 45)) (Some start))
  else if bool_decide (code = r_code st) then
    c ← checked (buf !! (start + 3)%nat);
    Ret (mkReply buf (S chptr) (r_code st) (r_continues st && negb (c =? 32)) (Some start))
  else Ret (mkReply buf (S chptr) (r_code st) (r_continues st) (Some start)).

(** The inner do loop.  A line without an end makes [chptr] step over the NUL
    behind it. *)
Fixpoint reply_lines (fuel : nat) (st : reply_state) (chptr : nat) : outcome (reply_state * nat) :=
  match fuel with
  | O => NoFuel
  | S fuel =>
      n ← to_newline (drop chptr (r_buf st));
      let chptr := (chptr + n)%nat in
      c ← checked (r_buf st !! chptr);
      st ← (if c =? 10 then reply_line st chptr else Ret st);
      let chptr := S chptr in
      c ← checked (r_buf st !! chptr);
      if c =? 0 then Ret (st, chptr) else reply_lines fuel st chptr
  end.

(** [buf] is as long as the turns of [reply_lines] can be. *)
Definition reply_scan (st : reply_state) : outcome (reply_state * nat) := reply_lines (length (r_buf st)) st 0.

(** What the code of the reply means. *)
Definition reply_result (code : bytes) (rc : Z) : Z :=
  if bool_decide (head code = Some 52) || bool_decide (head code = Some 53) then
    if bool_decide (code = str "421") then FTPERR_TOO_MANY_CONNECTIONS
    else if bool_decide (code = str "550") then FTPERR_FILE_NOT_FOUND
    else FTPERR_BAD_SERVER_RESPONSE
  else rc.

Section client.
Context {W : Type} `{NetOps W}.

(** The outer do loop; the static buffer is part of the result.  memcpy moves
    the beginning of a line to the front, over itself where it is long. *)
Fixpoint response_loop (fuel : nat) (sock : Z) (buf : bytes) (bufLength : nat) (code : bytes) (s : option nat) (w : W) :
    outcome (Z * option nat * bytes * W) :=
  match fuel with
  | O => NoFuel
  | S fuel =>
      let '(rc, w) := n_select w sock in
      if rc =? 0 then Ret (FTPERR_BAD_SERVER_RESPONSE, s, buf, w)
      else
        let rc := if rc <? 1 then FTPERR_UNKNOWN else 0 in
        let '(bytesRead, d, w) := n_read w sock (Z.of_nat (BUFFER_SIZE - bufLength)) in
        let buf := splice bufLength d buf in
        bufLength ← (if bytesRead <? 0 then match bufLength with O => Undef | S n => Ret n end
                     else Ret (bufLength + Z.to_nat bytesRead)%nat);
        let buf := <[bufLength := 0]> buf in
        '(st, chptr) ← reply_scan (mkReply buf 0 code true s);
        let n := (chptr - r_start st - 1)%nat in
        let '(buf, bufLength) :=
          if r_continues st && (r_start st <? chptr)%nat
          then (splice 0 (slice (r_start st) n (r_buf st)) (r_buf st), n) else (r_buf st, O) in
        if r_continues st && (rc =? 0)
        then response_loop fuel sock buf bufLength (r_code st) (r_str st) w
        else Ret (reply_result (r_code st) rc, r_str st, buf, w)
  end.

Definition ftpCheckResponse (fuel : nat) (sock : Z) (buf : bytes) (w : W) : outcome (Z * option nat * bytes * W) :=
  response_loop fuel sock buf 0 [] None w.

(** The command in its buffer of [len] + 1 bytes. *)
Definition command_line (command : bytes) (args : list bytes) : bytes :=
  let s := command ++ [32] ++ mjoin ((λ a, a ++ [32]) <$> args) in
  let len := S (length s) in
  take len (<[len := 0]> (<[(len - 1)%nat := 10]> (<[(len - 2)%nat := 13]> (s ++ [0; 0])))).

Definition ftpCommand (fuel : nat) (sock : Z) (command : bytes) (args : list bytes) (buf : bytes) (w : W) :
    outcome (Z * bytes * W) :=
  let l := command_line command args in
  let '(n, w) := n_write w sock l in
  if negb (n =? Z.of_nat (length l)) then Ret (FTPERR_SERVER_IO_ERROR, buf, w)
  else '(rc, _, buf, w) ← ftpCheckResponse fuel sock buf w; Ret (rc, buf, w).

(** ** Addresses *)

(** inet_pton(AF_INET6, ...) and gethostbyname, for their address; what a
    [struct in6_addr] on the stack holds; the user's name, null for root. *)
Context (inet_pton6 : bytes → option bytes) (gethostbyname : bytes → option bytes) (junk6 : bytes)
  (pw_name : option bytes).

Definition getHostAddress (host : bytes) (family : Z) : outcome (Z * bytes) :=
  '(hostname, _) ← splitHostname host;
  hostname ← checked hostname;
  let resolve (room : nat) (rest : bytes) :=
    match gethostbyname hostname with
    | Some a => _ ← defined_if (length a <=? room)%nat; Ret (0, a ++ drop (length a) rest)
    | None => Ret (FTPERR_BAD_HOSTNAME, rest)
    end in
  if family =? AF_INET then
    if isdigit (default 0 (head host)) then
      match inet_pton4 hostname with
      | Some a => Ret (0, le_bytes 4 a)
      | None => Ret (FTPERR_BAD_HOST_ADDR, [])
      end
    else resolve 4%nat []
  else if family =? AF_INET6 then
    if bool_decide (is_Some (strchr hostname 58)) then
      match inet_pton6 hostname with
      | Some a => Ret (0, a)
      | None => Ret (FTPERR_BAD_HOST_ADDR, [])
      end
    else resolve 16%nat junk6
  else Ret (FTPERR_UNSUPPORTED_FAMILY, []).

Definition is_inet (family : Z) : bool := (family =? AF_INET) || (family =? AF_INET6).

(** Connect unless the family is another one. *)
Definition connect_to (sock family : Z) (addr : bytes) (port : Z) (w : W) : Z * W :=
  if is_inet family then n_connect w sock (mkAddr family addr (wrap 16 port)) else (0, w).

(** Log in: the first command that fails closes the socket. *)
Fixpoint login_commands (fuel : nat) (sock : Z) (cmds : list (bytes * bytes)) (buf : bytes) (w : W) : outcome (Z * bytes * W) :=
  match cmds with
  | [] => Ret (sock, buf, w)
  | (command, arg) :: cmds =>
      '(rc, buf, w) ← ftpCommand fuel sock command [arg] buf w;
      if rc =? 0 then login_commands fuel sock cmds buf w else Ret (rc, buf, n_close w sock)
  end.

(** The result is the socket or an error; the socket stays open when the
    greeting is an error. *)
Definition ftpOpen (fuel : nat) (host : bytes) (family : Z) (name password : option bytes) (port : Z) (buf : bytes) (w : W) :
    outcome (Z * bytes * W) :=
  let port := if port <? 0 then IPPORT_FTP else port in
  let name := default (str "anonymous") name in
  let password := default (match pw_name with Some n => n ++ [64] | None => str "root@" end) password in
  '(rc, addr) ← (if is_inet family then getHostAddress host family else Ret (0, []));
  if negb (rc =? 0) then Ret (rc, buf, w)
  else
    let '(sock, w) := n_socket w family in
    if sock <? 0 then Ret (FTPERR_FAILED_CONNECT, buf, w)
    else
      let '(c, w) := connect_to sock family addr port w in
      if negb (c =? 0) then Ret (FTPERR_FAILED_CONNECT, buf, n_close w sock)
      else
        let '(c, w) := n_nonblock w sock in
        if negb (c =? 0) then Ret (FTPERR_FAILED_CONNECT, buf, n_close w sock)
        else
          '(rc, _, buf, w) ← ftpCheckResponse fuel sock buf w;
          if negb (rc =? 0) then Ret (rc, buf, w)
          else login_commands fuel sock [(str "USER", name); (str "PASS", password); (str "TYPE", str "I")] buf w.

(** ** Files over FTP *)

(** How many characters of a kind a string starts with. *)
Fixpoint run_length (p : Z → bool) (s : bytes) : nat :=
  match s with b :: r => if p b then S (run_length p r) else O | [] => O end.

(** [while ( *chptr && *chptr != c) chptr++;] *)
Fixpoint steps_to (c : Z) (s : bytes) : outcome nat :=
  match s with
  | [] => Undef
  | b :: r => if (b =? c) || (b =? 0) then Ret O else n ← steps_to c r; Ret (S n)
  end.
(** [while ( *chptr && *chptr != c) chptr--;], which may leave the buffer. *)
Fixpoint back_to (c : Z) (buf : bytes) (chptr : nat) : outcome nat :=
  b ← checked (buf !! chptr);
  if (b =? c) || (b =? 0) then Ret chptr else match chptr with O => Undef | S p => back_to c buf p end.
(** [while ( *chptr++) if ( *chptr == ',') *chptr = '.';] *)
Fixpoint commas_to_dots (fuel : nat) (buf : bytes) (chptr : nat) : outcome bytes :=
  match fuel with
  | O => NoFuel
  | S fuel =>
      b ← checked (buf !! chptr);
      if b =? 0 then Ret buf
      else
        b ← checked (buf !! S chptr);
        commas_to_dots fuel (if b =? 44 then <[S chptr := 46]> buf else buf) (S chptr)
  end.

(** A number read by sscanf into a signed type of [w] bits: the value and the
    rest; a number outside the type is undefined. *)
Definition scan_d (w : Z) (s : bytes) : outcome (option (Z * bytes)) :=
  match read_number 10 s with
  | None => Ret None
  | Some (neg, v, r) =>
      let z := if neg : bool then - v else v in
      _ ← defined_if ((- 2 ^ (w - 1) <=? z) && (z <? 2 ^ (w - 1)));
      Ret (Some (z, r))
  end.
(** ["%d,%d"]: the two numbers when both are read. *)
Definition scan_d_d (s : bytes) : outcome (option (Z * Z)) :=
  i ← scan_d 32 s;
  match i with
  | Some (i, c :: r) =>
      if c =? 44 then j ← scan_d 32 r; Ret (match j with Some (j, _) => Some (i, j) | None => None end) else Ret None
  | _ => Ret None
  end.

(** [(i << 8) + j] as a port. *)
Definition shifted_port (i j : Z) : outcome Z :=
  _ ← defined_if ((0 <=? i) && (i <? 2 ^ 23));
  _ ← defined_if ((- 2 ^ 31 <=? i * 256 + j) && (i * 256 + j <? 2 ^ 31));
  Ret (wrap 16 (i * 256 + j)).

(** 227 Entering Passive Mode (a,b,c,d,p,q): the address and the port, or null
    for a reply of another form, and the buffer the reply lies in. *)
Definition parse_pasv (buf : bytes) (passReply : nat) : outcome (bytes * option sockaddr) :=
  n ← steps_to 40 (drop passReply buf);
  let chptr := (passReply + n)%nat in
  c ← checked (buf !! chptr);
  if negb (c =? 40) then Ret (buf, None)
  else
    let passReply := S chptr in
    n ← steps_to 41 (drop passReply buf);
    let chptr := (passReply + n)%nat in
    c ← checked (buf !! chptr);
    if negb (c =? 41) then Ret (buf, None)
    else
      let buf := <[chptr := 0]> buf in
      chptr ← back_to 44 buf (chptr - 1);
      c ← checked (buf !! chptr);
      if negb (c =? 44) then Ret (buf, None)
      else
        chptr ← (match chptr with O => Undef | S p => back_to 44 buf p end);
        c ← checked (buf !! chptr);
        if negb (c =? 44) then Ret (buf, None)
        else
          let buf := <[chptr := 0]> buf in
          p ← scan_d_d (until_nul (drop (S chptr) buf));
          match p with
          | None => Ret (buf, None)
          | Some (i, j) =>
              port ← shifted_port i j;
              buf ← commas_to_dots (length buf) buf passReply;
              match inet_pton4 (until_nul (drop passReply buf)) with
              | Some a => Ret (buf, Some (mkAddr AF_INET (le_bytes 4 a) port))
              | None => Ret (buf, None)
              end
          end.

(** 229 Entering Extended Passive Mode (|||port|) *)
Definition parse_epsv (host buf : bytes) (passReply : nat) : outcome (bytes * option sockaddr) :=
  n ← steps_to 40 (drop passReply buf);
  let chptr := (passReply + n)%nat in
  c ← checked (buf !! chptr);
  if negb (c =? 40) then Ret (buf, None)
  else
    let bars := run_length (Z.eqb 124) (drop (S chptr) buf) in
    let chptr := (S chptr + bars)%nat in
    n ← steps_to 124 (drop chptr buf);
    let buf := <[(chptr + n)%nat := 0]> buf in
    i ← scan_d 32 (until_nul (drop chptr buf));
    match i with
    | None => Ret (buf, None)
    | Some (i, _) => Ret (buf, Some (mkAddr AF_INET6 host (wrap 16 i)))
    end.

(** The size in a reply to SIZE. *)
Definition parse_size (sizeReply : bytes) : outcome Z :=
  let s := skip_space sizeReply in
  let s := drop (run_length (λ b, negb (isspace b)) s) s in
  v ← scan_d 64 (skip_space s);
  Ret (match v with Some (v, _) => if v <? 0 then 0 else v | None => 0 end).

(** The data socket or an error, [*size], the static buffer.  The data socket
    stays open where writing fails. *)
Definition ftpGetFileDesc (fuel : nat) (sock : Z) (host : bytes) (family : Z) (remotename : bytes) (size : Z)
    (buf : bytes) (w : W) : outcome (Z * Z * bytes * W) :=
  let '(n, w) :=
    if family =? AF_INET then n_write w sock (str "PASV" ++ crlf)
    else if family =? AF_INET6 then n_write w sock (str "EPSV" ++ crlf) else (6, w) in
  if negb (n =? 6) then Ret (FTPERR_SERVER_IO_ERROR, size, buf, w)
  else
    '(rc, passReply, buf, w) ← ftpCheckResponse fuel sock buf w;
    if negb (rc =? 0) then Ret (FTPERR_PASSIVE_ERROR, size, buf, w)
    else
      passReply ← checked passReply;
      '(buf, dataAddress) ←
        (if family =? AF_INET then parse_pasv buf passReply
         else if family =? AF_INET6 then parse_epsv host buf passReply
         else Ret (buf, Some (mkAddr family [] 0)));
      match dataAddress with
      | None => Ret (FTPERR_PASSIVE_ERROR, size, buf, w)
      | Some dataAddress =>
          let '(dataSocket, w) := n_socket w family in
          if dataSocket <? 0 then Ret (FTPERR_FAILED_CONNECT, size, buf, w)
          else
            let sizeCommand := str "SIZE " ++ remotename ++ crlf in
            let '(n, w) := n_write w sock sizeCommand in
            if negb (n =? Z.of_nat (length sizeCommand)) then Ret (FTPERR_SERVER_IO_ERROR, size, buf, w)
            else
              '(rc, sizeReply, buf, w) ← ftpCheckResponse fuel sock buf w;
              size ← (if negb (rc =? 0) then Ret 0
                      else r ← checked sizeReply; s ← cstr buf r; parse_size s);
              let retrCommand := str "RETR " ++ remotename ++ crlf in
              let '(n, w) := n_write w sock retrCommand in
              if negb (n =? Z.of_nat (length retrCommand)) then Ret (FTPERR_SERVER_IO_ERROR, size, buf, w)
              else
                let '(c, w) := if is_inet family then n_connect w dataSocket dataAddress else (0, w) in
                if negb (c =? 0) then Ret (FTPERR_FAILED_DATA_CONNECT, size, buf, n_close w dataSocket)
                else
                  '(rc, _, buf, w) ← ftpCheckResponse fuel sock buf w;
                  if negb (rc =? 0) then Ret (rc, size, buf, n_close w dataSocket)
                  else Ret (dataSocket, size, buf, w)
      end.

Definition ftpGetFileDone (fuel : nat) (sock : Z) (buf : bytes) (w : W) : outcome (Z * bytes * W) :=
  '(rc, _, buf, w) ← ftpCheckResponse fuel sock buf w;
  Ret (if rc =? 0 then 0 else FTPERR_BAD_SERVER_RESPONSE, buf, w).

(** ** HTTP *)

(** Headers byte by byte, in a buffer of [n] bytes; the NUL behind a byte is
    written before there is room for it. *)
Fixpoint read_headers (fuel : nat) (sock : Z) (headers : bytes) (n : nat) (w : W) : outcome (Z * bytes * W) :=
  match fuel with
  | O => NoFuel
  | S fuel =>
      if bool_decide (is_Some (strstr (until_nul headers) (crlf ++ crlf))) then Ret (0, headers, w)
      else
        let '(rc, w) := n_select w sock in
        if rc =? 0 then Ret (FTPERR_SERVER_TIMEOUT, [], n_close w sock)
        else if rc <? 0 then Ret (FTPERR_SERVER_IO_ERROR, [], n_close w sock)
        else
          let '(r, d, w) := n_read w sock 1 in
          if negb (r =? 1) then Ret (FTPERR_SERVER_IO_ERROR, [], n_close w sock)
          else
            let headers := headers ++ d in
            _ ← defined_if (length headers <? n)%nat;
            let n := if bool_decide (length headers = n) then (n + 4096)%nat else n in
            read_headers fuel sock headers n w
  end.

Definition find_header (headers to_find : bytes) : option bytes :=
  let searching_for := crlf ++ to_find ++ [58] in
  start ← strstr headers searching_for;
  let start := skip_space (drop (length searching_for) start) in
  e ← strstr start crlf;
  Some (before start e).

Definition find_status_code (headers : bytes) : option bytes :=
  let start := drop (run_length (λ b, negb (isspace b)) headers) headers in
  let start := skip_space start in
  e ← strstr start crlf;
  Some (before start e).

(** The value of a Content-Length header; [None] when the process aborts. *)
Definition content_length (contlen : option bytes) : option Z :=
  match contlen with
  | None => Some 0
  | Some s =>
      let '(v, _) := strtol 10 s in
      let erange := match read_number 10 s with
                    | Some (neg, v, _) => if neg : bool then 2 ^ 63 <? v else 2 ^ 63 <=? v
                    | None => false
                    end in
      if erange then None else Some (if v <? 0 then 0 else v)
  end.

(** The request, and the bytes asked of alloca for it. *)
Definition http_request (remotename hostname hstr : bytes) : bytes :=
  str "GET " ++ remotename ++ str " HTTP/1.0" ++ crlf ++ str "Host: " ++ hostname ++ crlf ++ hstr ++ crlf.
Definition http_request_room (remotename hostname hstr : bytes) : nat :=
  (length remotename + length hostname + length hstr + 25)%nat.

(** What alloca(n) gives room for. *)
Context (alloca : nat → nat).

(** An address of either family. *)
Definition http_address (hostname : bytes) : outcome (Z * Z * bytes) :=
  '(rc, addr) ← getHostAddress hostname AF_INET;
  if rc =? 0 then Ret (0, AF_INET, addr)
  else '(rc, addr) ← getHostAddress hostname AF_INET6; Ret (rc, AF_INET6, addr).

(** The socket, with the headers read from it, or an error, and [*size];
    [None] when the process aborts.  [fuel] bounds the redirections and the
    headers.  A reply of a kind that is not known is logged after its status
    has been freed. *)
Fixpoint httpGetFileDesc (fuel : nat) (hostname : bytes) (port : Z) (remotename : bytes) (extraHeaders : option bytes)
    (size : Z) (w : W) : outcome (option (Z * Z * W)) :=
  match fuel with
  | O => NoFuel
  | S fuel =>
      let port := if port <? 0 then 80 else port in
      '(rc, family, addr) ← http_address hostname;
      if negb (rc =? 0) then Ret (Some (rc, size, w))
      else
        let '(sock, w) := n_socket w family in
        if sock <? 0 then Ret (Some (FTPERR_FAILED_CONNECT, size, w))
        else
          let '(c, w) := n_connect w sock (mkAddr family addr (wrap 16 port)) in
          if negb (c =? 0) then Ret (Some (FTPERR_FAILED_CONNECT, size, n_close w sock))
          else
            let hstr := default [] extraHeaders in
            let req := http_request remotename hostname hstr in
            _ ← defined_if (length req <? alloca (http_request_room remotename hostname hstr))%nat;
            let '(_, w) := n_write w sock req in
            '(rc, headers, w) ← read_headers (S fuel) sock [] 4096 w;
            if rc <? 0 then Ret (Some (rc, size, w))
            else
              let headers := until_nul headers in
              match find_status_code headers with
              | None => Ret (Some (FTPERR_SERVER_IO_ERROR, size, n_close w sock))
              | Some status =>
                  let code_is (code : string) := starts_with (str code) status in
                  if code_is "200"%string then
                    match content_length (find_header headers (str "Content-Length")) with
                    | None => Ret None
                    | Some size => Ret (Some (sock, size, w))
                    end
                  else if code_is "301"%string || code_is "302"%string || code_is "303"%string || code_is "307"%string then
                    match find_header headers (str "Location") with
                    | None => Ret (Some (FTPERR_FILE_NOT_FOUND, size, n_close w sock))
                    | Some redir_loc =>
                        '(_, _, ui) ← convertURLToUI redir_loc;
                        a ← checked (address ui);
                        p ← checked (prefix ui);
                        httpGetFileDesc fuel a (-1) p extraHeaders size w
                    end
                  else if code_is "403"%string then Ret (Some (FTPERR_PERMISSION_DENIED, size, n_close w sock))
                  else if code_is "404"%string then Ret (Some (FTPERR_FILE_NOT_FOUND, size, n_close w sock))
                  else Undef
              end
  end.
End client.
