(* ===== verification/FtpFacts.v ===== *)
(** * Facts about the FTP and HTTP client

    Replies of an FTP server and what ftpCheckResponse makes of them, passive
    mode replies read back, a whole retrieval, and HTTP: headers, a successful
    request, redirections. *)

From S2P Require Import Prelude CLib Decimal Net NetFacts Urls Ftp.

(** ** What a connection delivers *)

Section arrives.
Context {W : Type} `{NetOps W}.

(** The pieces that arrive on a socket, one for each turn of select and read. *)
Inductive arrives (sock : Z) : W → list bytes → W → Prop :=
  | arrives_nil w : arrives sock w [] w
  | arrives_cons w w1 w2 w' d ds :
      n_select w sock = (1, w1) →
      (∀ n, Z.of_nat (length d) ≤ n → n_read w1 sock n = (Z.of_nat (length d), d, w2)) →
      arrives sock w2 ds w' → arrives sock w (d :: ds) w'.

Definition sends (sock : Z) (w : W) (l : bytes) (w' : W) : Prop :=
  n_write w sock l = (Z.of_nat (length l), w').
End arrives.

(** ** Lines of a reply *)

Definition wire (l : bytes) : bytes := l ++ crlf.
(** A line in the buffer once its end is cut off. *)
Definition cut (l : bytes) : bytes := l ++ [0; 0].
Definition line_ok (l : bytes) : Prop := Forall (λ b, b ≠ 0 ∧ b ≠ 10) l.
Definition byte3 (l : bytes) : Z := default 0 (l !! 3%nat).

(** The lines of RFC 959: one line with the code, or a first line with a hyphen
    behind the code, any lines that do not start with the code and a blank, and
    a line that does. *)
Inductive reply_ok (code : bytes) : list bytes → Prop :=
  | reply_single l : take 3 l = code → byte3 l ≠ 45 → reply_ok code [l]
  | reply_multi l ms f : take 3 l = code → byte3 l = 45 →
      Forall (λ m, ¬ (take 3 m = code ∧ byte3 m = 32)) ms →
      take 3 f = code → byte3 f = 32 → reply_ok code (l :: ms ++ [f]).

(** What is still to come of a reply when its code, [seen], is known or not. *)
Definition pending_reply (code seen : bytes) (ls : list bytes) : Prop :=
  (seen = [] ∧ reply_ok code ls) ∨
  (seen = code ∧ ∃ ms f, ls = ms ++ [f] ∧ Forall (λ m, ¬ (take 3 m = code ∧ byte3 m = 32)) ms ∧
                   take 3 f = code ∧ byte3 f = 32).

(** The code and whether the reply continues, after one more line. *)
Definition reply_next (code : bytes) (continues : bool) (l : bytes) : bytes * bool :=
  if bool_decide (code = []) then (take 3 l, continues && (byte3 l =? 45))
  else if bool_decide (take 3 l = code) then (code, continues && negb (byte3 l =? 32))
  else (code, continues).

Lemma pending_next code seen l rest : length code = 3%nat → pending_reply code seen (l :: rest) →
  (seen = [] → length (take 3 l) = 3%nat) ∧
  reply_next seen true l = (code, negb (bool_decide (rest = []))) ∧
  (rest ≠ [] → pending_reply code code rest).
Proof.
  intros Hc. unfold reply_next, pending_reply. assert (code ≠ []) as Hne by (by destruct code).
  intros [[-> Hr] | [-> (ms & f & E & Hms & Hf & Hb)]].
  - rewrite bool_decide_true by done. inversion Hr as [? Ht Hb | ? ms f Ht Hb Hms Hf Hb']; subst.
    + split_and!; [by intros _ | | done]. f_equal. rewrite bool_decide_true by done. cbn. by apply Z.eqb_neq.
    + split_and!; [by intros _ | | intros _; right; split; [done |]; by exists ms, f].
      rewrite bool_decide_false by (by destruct ms). by rewrite Hb.
  - rewrite (bool_decide_false (code = [])) by done. destruct ms as [| m ms]; injection E as -> ->.
    + split_and!; [done | | done]. rewrite bool_decide_true by done. by rewrite Hb.
    + apply list.Forall_cons in Hms as [Hm Hms]. split_and!; [done | | intros _; right; split; [done |]; by exists ms, f].
      rewrite (bool_decide_false (ms ++ [f] = [])) by (by destruct ms). cbn [negb].
      destruct (bool_decide_reflect (take 3 m = code)) as [Ht |]; [| done].
      destruct (Z.eqb_spec (byte3 m) 32); [exfalso; by apply Hm | done].
Qed.

(** ** One read that ends with a line *)

Lemma to_newline_run l b r : line_ok l → b = 10 ∨ b = 0 → to_newline (l ++ b :: r) = Ret (length l).
Proof.
  intros Hl Hb. induction Hl as [| x l [H0 H10] _ IH]; cbn.
  - by destruct Hb as [-> | ->].
  - destruct (Z.eqb_spec x 10), (Z.eqb_spec x 0); [done .. |]. cbn. by rewrite IH.
Qed.

Lemma line_ok_snoc l c : line_ok l → c ≠ 0 → c ≠ 10 → line_ok (l ++ [c]).
Proof. intros. apply Forall_app. split; [done |]. by repeat constructor. Qed.

Lemma line_ok_nul l : line_ok l → Forall (λ b, b ≠ 0) l.
Proof. intros Hl. eapply list.Forall_impl; [exact Hl |]. by intros x []. Qed.

Lemma byte3_lookup l post : (3 ≤ length l)%nat → (cut l ++ post) !! 3%nat = Some (byte3 l).
Proof.
  intros Hl. unfold cut, byte3. rewrite <- app_assoc.
  destruct (decide (3 = length l)%nat) as [E |].
  - cbn [app]. rewrite list_lookup_middle by done. by rewrite (lookup_ge_None_2 l) by lia.
  - rewrite lookup_app_l by lia. destruct (lookup_lt_is_Some_2 l 3) as [x Hx]; [lia |]. by rewrite Hx.
Qed.

Lemma join_cons (f : bytes → bytes) l g : mjoin (f <$> l :: g) = f l ++ mjoin (f <$> g).
Proof. reflexivity. Qed.
Lemma join_nil (f : bytes → bytes) : mjoin (f <$> []) = [].
Proof. reflexivity. Qed.
Lemma length_wire l : length (wire l) = (length l + 2)%nat.
Proof. unfold wire. by rewrite length_app. Qed.
Lemma length_cut l : length (cut l) = (length l + 2)%nat.
Proof. unfold cut. by rewrite length_app. Qed.

Lemma reply_line_crlf a r start seen continues s :
  reply_line (mkReply (a ++ 13 :: 10 :: r) start seen continues s) (S (length a)) =
  let buf := a ++ 0 :: 0 :: r in
  let code := take 3 (until_nul (drop start buf)) in
  let next := S (S (length a)) in
  if bool_decide (seen = []) then
    c ← checked (buf !! (start + 3)%nat); Ret (mkReply buf next code (continues && (c =? 45)) (Some start))
  else if bool_decide (code = seen) then
    c ← checked (buf !! (start + 3)%nat); Ret (mkReply buf next seen (continues && negb (c =? 32)) (Some start))
  else Ret (mkReply buf next seen continues (Some start)).
Proof.
  unfold reply_line. cbn [r_start r_buf r_code r_continues].
  rewrite insert_app_r_alt by lia. replace (S (length a) - length a)%nat with 1%nat by lia. cbn [insert list_insert mbind outcome_bind].
  rewrite list_lookup_middle by done. cbn [checked mbind outcome_bind]. change (13 =? 13) with true. cbv iota.
  rewrite insert_app_r_alt, Nat.sub_diag by lia. done.
Qed.

Lemma reply_line_at pre l post seen continues s : line_ok l →
  (seen = [] → length (take 3 l) = 3%nat) → (seen ≠ [] → length seen = 3%nat) →
  reply_line (mkReply (pre ++ wire l ++ post) (length pre) seen continues s) (length pre + length l + 1) =
  Ret (mkReply (pre ++ cut l ++ post) (length pre + length (wire l))
         (reply_next seen continues l).1 (reply_next seen continues l).2 (Some (length pre))).
Proof.
  intros Hl H3 Hseen.
  replace (length pre + length l + 1)%nat with (S (length (pre ++ l))) by (rewrite length_app; lia).
  assert (pre ++ wire l ++ post = (pre ++ l) ++ 13 :: 10 :: post) as -> by (unfold wire, crlf; by rewrite <- !app_assoc).
  rewrite reply_line_crlf. cbn zeta. cbn [r_start r_buf r_code r_continues].
  assert ((pre ++ l) ++ 0 :: 0 :: post = pre ++ cut l ++ post) as -> by (unfold cut; by rewrite <- !app_assoc).
  rewrite drop_app_length.
  assert (until_nul (cut l ++ post) = l) as ->.
  { unfold cut. rewrite <- app_assoc. cbn [app]. apply until_nul_app_nul, line_ok_nul, Hl. }
  assert ((3 ≤ length l)%nat → (pre ++ cut l ++ post) !! (length pre + 3)%nat = Some (byte3 l)) as Hb3.
  { intros. rewrite lookup_app_r by lia. replace (length pre + 3 - length pre)%nat with 3%nat by lia. by apply byte3_lookup. }
  replace (S (S (length (pre ++ l)))) with (length pre + length (wire l))%nat by (rewrite length_wire, length_app; lia).
  unfold reply_next. rewrite length_take in H3. destruct (bool_decide_reflect (seen = [])) as [Es |].
  - specialize (H3 Es). rewrite Hb3 by lia. done.
  - destruct (bool_decide_reflect (take 3 l = seen)) as [Et |]; [| done].
    assert (length (take 3 l) = 3%nat) as E3 by (rewrite Et; auto). rewrite length_take in E3. rewrite Hb3 by lia. done.
Qed.

Lemma reply_lines_group code rest g : length code = 3%nat → ∀ fuel pre seen post s, g ≠ [] → Forall line_ok g →
  pending_reply code seen (g ++ rest) → (length g ≤ fuel)%nat →
  ∃ last, list.last g = Some last ∧
  reply_lines fuel (mkReply (pre ++ mjoin (wire <$> g) ++ 0 :: post) (length pre) seen true s) (length pre) =
  Ret (mkReply (pre ++ mjoin (cut <$> g) ++ 0 :: post) (length (pre ++ mjoin (wire <$> g))) code
         (negb (bool_decide (rest = []))) (Some (length (pre ++ mjoin (wire <$> g)) - length (wire last))%nat),
       length (pre ++ mjoin (wire <$> g))).
Proof.
  intros Hc. induction g as [| l g IH]; intros fuel pre seen post s Hg Hok Hp Hf; [done |].
  apply list.Forall_cons in Hok as [Hl Hok]. destruct fuel as [| fuel]; [cbn in Hf; lia |].
  cbn [app] in Hp. destruct (pending_next code seen l (g ++ rest) Hc Hp) as (H3 & Hnext & Hp').
  rewrite !join_cons. cbn [reply_lines r_buf].
  rewrite <- !app_assoc, drop_app_length.
  assert (to_newline (wire l ++ mjoin (wire <$> g) ++ 0 :: post) = Ret (length l + 1)%nat) as ->.
  { unfold wire at 1, crlf. rewrite <- app_assoc. cbn [app].
    replace (l ++ 13 :: 10 :: mjoin (wire <$> g) ++ 0 :: post) with ((l ++ [13]) ++ 10 :: mjoin (wire <$> g) ++ 0 :: post)
      by (by rewrite <- app_assoc).
    rewrite to_newline_run by (try apply line_ok_snoc; auto). rewrite length_app. done. }
  cbn [mbind outcome_bind]. rewrite Nat.add_assoc.
  assert ((pre ++ wire l ++ mjoin (wire <$> g) ++ 0 :: post) !! (length pre + length l + 1)%nat = Some 10) as ->.
  { replace (pre ++ wire l ++ mjoin (wire <$> g) ++ 0 :: post) with ((pre ++ l ++ [13]) ++ 10 :: mjoin (wire <$> g) ++ 0 :: post)
      by (unfold wire, crlf; by rewrite <- !app_assoc).
    apply list_lookup_middle. rewrite !length_app. cbn. lia. }
  cbn [checked mbind outcome_bind]. change (10 =? 10) with true. cbv iota.
  rewrite reply_line_at; [| done | done |].
  2:{ destruct Hp as [[-> _] | [-> _]]; [done | auto]. }
  cbn [mbind outcome_bind r_buf]. rewrite Hnext. cbn [fst snd].
  replace (S (length pre + length l + 1)) with (length (pre ++ cut l)) by (rewrite length_app, length_cut; lia).
  replace (length pre + length (wire l))%nat with (length (pre ++ cut l)) by (rewrite length_app, length_cut, length_wire; lia).
  destruct g as [| l2 g].
  - exists l. split; [done |]. rewrite !join_nil. cbn [app].
    replace (pre ++ cut l ++ 0 :: post) with ((pre ++ cut l) ++ 0 :: post) by (by rewrite <- app_assoc).
    rewrite list_lookup_middle by done. cbn [checked mbind outcome_bind]. change (0 =? 0) with true. cbv iota.
    rewrite !app_nil_r. rewrite <- !app_assoc, !length_app, length_cut, length_wire.
    replace (length pre + (length l + 2) - (length l + 2))%nat with (length pre) by lia. done.
  - assert (∃ x r, mjoin (wire <$> l2 :: g) ++ 0 :: post = x :: r ∧ x ≠ 0) as (x & r & E & Hx).
    { rewrite join_cons. unfold wire at 1, crlf. apply list.Forall_cons in Hok as [Hl2 _].
      destruct l2 as [| x l2]; cbn; [by eexists _, _ |]. apply list.Forall_cons in Hl2 as [[] _]. by eexists _, _. }
    assert ((pre ++ cut l ++ mjoin (wire <$> l2 :: g) ++ 0 :: post) !! length (pre ++ cut l) = Some x) as ->.
    { rewrite E. replace (pre ++ cut l ++ x :: r) with ((pre ++ cut l) ++ x :: r) by (by rewrite <- app_assoc).
      by apply list_lookup_middle. }
    cbn [checked mbind outcome_bind]. destruct (Z.eqb_spec x 0); [done |].
    rewrite (bool_decide_false ((l2 :: g) ++ rest = [])) by done. cbn [negb].
    destruct (IH fuel (pre ++ cut l) code post (Some (length pre))) as (last & Hlast & IH'); [done | done | | cbn in *; lia |].
    { by apply Hp'. }
    exists last. split; [done |]. rewrite <- !app_assoc in IH'.
    etransitivity; [exact IH' |]. repeat rewrite ?length_app, ?length_cut, ?length_wire. reflexivity.
Qed.

(** ** Whole replies *)

(** What a group of lines is on the connection. *)
Definition piece (g : list bytes) : bytes := mjoin (wire <$> g).

Lemma piece_app g1 g2 : piece (g1 ++ g2) = piece g1 ++ piece g2.
Proof. unfold piece. rewrite fmap_app. apply join_app. Qed.

Lemma length_cuts g : length (mjoin (cut <$> g)) = length (piece g).
Proof.
  unfold piece. induction g as [| l g IH]; [done |].
  rewrite !join_cons, !length_app, IH, length_cut, length_wire. done.
Qed.

Lemma piece_lines g : (length g ≤ length (piece g))%nat.
Proof.
  unfold piece. induction g as [| l g IH]; [cbn; lia |]. rewrite join_cons, length_app, length_wire. cbn [length]. lia.
Qed.

Lemma last_cut g last post : list.last g = Some last →
  drop (length (piece g) - length (wire last)) (mjoin (cut <$> g) ++ post) = cut last ++ post.
Proof.
  intros [g0 ->]%last_Some. rewrite piece_app, length_app. unfold piece at 2. rewrite join_cons, join_nil, app_nil_r.
  rewrite Nat.add_sub, fmap_app, join_app. rewrite <- app_assoc. cbn [fmap list_fmap]. change (mjoin [cut last]) with (cut last ++ []).
  rewrite app_nil_r. rewrite <- length_cuts. apply drop_app_length.
Qed.

(** The string at an index that has one, and what follows its NUL. *)
Definition string_at (buf : bytes) (i : nat) (l : bytes) : Prop := ∃ r, drop i buf = l ++ 0 :: r.

Lemma string_at_cstr buf i l : string_at buf i l → Forall (λ b, b ≠ 0) l → cstr buf i = Ret l.
Proof.
  intros [r E] Hl. unfold cstr. assert (i < length buf)%nat as Hi.
  { destruct (Nat.lt_ge_cases i (length buf)); [done |]. rewrite drop_ge in E by lia. by destruct l. }
  destruct (Nat.ltb_spec i (length buf)); [| lia]. cbn. by rewrite E, until_nul_app_nul.
Qed.

Definition FTP_BUF : nat := S BUFFER_SIZE.

Section responses.
Context {W : Type} `{NetOps W} (sock : Z).

Lemma response_loop_groups code : length code = 3%nat → ∀ groups fuel buf seen s w w', length buf = FTP_BUF → groups ≠ [] →
  Forall (λ g, g ≠ [] ∧ Forall line_ok g ∧ (length (piece g) ≤ BUFFER_SIZE)%nat) groups →
  pending_reply code seen (mjoin groups) → arrives sock w (piece <$> groups) w' → (length groups ≤ fuel)%nat →
  ∃ last i buf', list.last (mjoin groups) = Some last ∧ string_at buf' i last ∧ length buf' = FTP_BUF ∧
    response_loop fuel sock buf 0 seen s w = Ret (reply_result code 0, Some i, buf', w').
Proof.
  intros Hc. unfold FTP_BUF. induction groups as [| g groups IH]; intros fuel buf seen s w w' Hb Hne Hg Hp Ha Hf; [done |].
  apply list.Forall_cons in Hg as [(Hgne & Hok & Hlen) Hg]. destruct fuel as [| fuel]; [cbn in Hf; lia |].
  inversion Ha as [| ? w1 w2 ? d ds Hsel Hread Ha']; subst. cbn [response_loop]. rewrite Hsel.
  change (1 =? 0) with false. change (1 <? 1) with false. cbv iota.
  rewrite Hread by lia. cbv iota. destruct (Z.ltb_spec (Z.of_nat (length (piece g))) 0); [lia |].
  cbn [mbind outcome_bind]. rewrite Nat2Z.id. cbn [Nat.add].
  assert (<[length (piece g) := 0]> (splice 0 (piece g) buf) = piece g ++ 0 :: drop (S (length (piece g))) buf) as ->.
  { unfold splice. rewrite take_0. cbn [app Nat.add]. rewrite insert_app_r_alt, Nat.sub_diag by lia.
    destruct (drop (length (piece g)) buf) as [| x r] eqn:E.
    - apply (f_equal length) in E. rewrite length_drop in E. cbn in E. lia.
    - cbn [insert list_insert]. do 2 f_equal.
      replace (S (length (piece g))) with (length (piece g) + 1)%nat by lia. by rewrite <- drop_drop, E. }
  unfold reply_scan. cbn [r_buf]. set (post := drop (S (length (piece g))) buf).
  assert (length post = BUFFER_SIZE - length (piece g))%nat as Hpost by (unfold post; rewrite length_drop; lia).
  change (mjoin (g :: groups)) with (g ++ mjoin groups) in *.
  destruct (reply_lines_group code (mjoin groups) g Hc (length (piece g ++ 0 :: post)) [] seen post s Hgne Hok Hp)
    as (last & Hlast & Hscan).
  { rewrite length_app. pose proof (piece_lines g). lia. }
  cbn [app length] in Hscan. fold (piece g) in Hscan. rewrite Hscan. cbn [mbind outcome_bind r_start r_buf r_code r_continues r_str].
  rewrite Nat.ltb_irrefl, andb_false_r. cbv iota.
  set (buf1 := mjoin (cut <$> g) ++ 0 :: post).
  assert (length buf1 = S BUFFER_SIZE) as Hb1 by (unfold buf1; rewrite length_app, length_cuts; cbn [length]; lia).
  assert (mjoin groups = [] ↔ groups = []) as Hnil.
  { destruct groups as [| g' groups]; [done |]. apply list.Forall_cons in Hg as [(? & _) _]. split; [| done].
    change (mjoin (g' :: groups)) with (g' ++ mjoin groups). by destruct g'. }
  destruct (bool_decide_reflect (mjoin groups = [])) as [E | E]; cbn [negb andb].
  - exists last, (length (piece g) - length (wire last))%nat, buf1. split_and!; [by rewrite E, app_nil_r | | done |].
    + unfold string_at, buf1. exists (0 :: 0 :: post). rewrite last_cut by done. unfold cut. by rewrite <- app_assoc.
    + apply Hnil in E as ->. inversion Ha'; by subst.
  - change (0 =? 0) with true. cbv iota.
    destruct (IH fuel buf1 code (Some (length (piece g) - length (wire last))%nat) w2 w') as (last' & i & buf' & El & Hs & Hl & Er);
      [done | by intros Eg; apply E, Hnil | done | | done | cbn in Hf; lia |].
    { destruct g as [| l0 g]; [done |]. clear -Hp Hc E. revert seen l0 Hp. induction g as [| l1 g IHg]; intros seen l0 Hp.
      - apply (pending_next code seen l0 _ Hc Hp). done.
      - eapply (IHg code). apply (pending_next code seen l0 _ Hc Hp). done. }
    exists last', i, buf'. split_and!; [| done | done | done].
    rewrite last_app, El. done.
Qed.

(** ftpCheckResponse on a reply in the form of RFC 959, one line or many,
    that arrives in any number of reads each of which ends with a line: whatever
    its static buffer held before, the result is 0, or the error the code stands
    for, the string handed back is the last line, and exactly the reply has been
    read. *)
Theorem ftpCheckResponse_reply code groups fuel buf w w' (Hcode : length code = 3%nat) (Hbuf : length buf = FTP_BUF)
  (Hgroups : groups ≠ []) (Hpieces : Forall (λ g, g ≠ [] ∧ Forall line_ok g ∧ (length (piece g) ≤ BUFFER_SIZE)%nat) groups)
  (Hreply : reply_ok code (mjoin groups)) (Harrives : arrives sock w (piece <$> groups) w')
  (Hfuel : (length groups ≤ fuel)%nat) :
  ∃ last i buf', list.last (mjoin groups) = Some last ∧ cstr buf' i = Ret last ∧ length buf' = FTP_BUF ∧
    ftpCheckResponse fuel sock buf w =
      Ret (if bool_decide (code = str "421") then FTPERR_TOO_MANY_CONNECTIONS
           else if bool_decide (code = str "550") then FTPERR_FILE_NOT_FOUND
           else if bool_decide (head code = Some 52 ∨ head code = Some 53) then FTPERR_BAD_SERVER_RESPONSE
           else 0, Some i, buf', w').
Proof.
  destruct (response_loop_groups code Hcode groups fuel buf [] None w w') as (last & i & buf' & El & Hs & Hl & Er); try done.
  { by left. }
  exists last, i, buf'. split_and!; [done | | done |].
  - apply string_at_cstr; [done |]. apply line_ok_nul. apply last_Some in El as [g0 E].
    assert (Forall line_ok (mjoin groups)) as Hall.
    { clear -Hpieces. induction Hpieces as [| g gs (_ & Hg & _) _ IH]; [constructor |]. by apply Forall_app. }
    rewrite E in Hall. apply Forall_app in Hall as [_ Hall]. by inversion Hall.
  - unfold ftpCheckResponse. rewrite Er. unfold reply_result. do 4 f_equal.
    destruct (bool_decide_reflect (code = str "421")) as [-> |]; [done |].
    destruct (bool_decide_reflect (code = str "550")) as [-> |]; [done |].
    destruct (bool_decide_reflect (head code = Some 52)), (bool_decide_reflect (head code = Some 53));
      destruct (bool_decide_reflect (head code = Some 52 ∨ head code = Some 53)); naive_solver.
Qed.
End responses.

(** ** Replies cut in the middle of a line, and the end of the connection *)

Lemma to_newline_no_lf s n : Forall (λ b, b ≠ 10) s → to_newline s = Ret n → s !! n = Some 0.
Proof.
  revert n. induction s as [| b s IH]; intros n Hs; cbn; [done |]. apply list.Forall_cons in Hs as [Hb Hs].
  destruct (Z.eqb_spec b 10); [done |]. destruct (Z.eqb_spec b 0) as [-> |]; cbn; [by intros [= <-] |].
  destruct (to_newline s) as [k | |] eqn:E; cbn; try done. intros [= <-]. by apply IH.
Qed.

(** Without a newline in the buffer no line is complete, however far the scan
    goes behind the text that was read. *)
Lemma reply_lines_no_lf fuel st chptr r : Forall (λ b, b ≠ 10) (r_buf st) →
  reply_lines fuel st chptr = Ret r → r.1 = st ∧ (chptr < r.2)%nat ∧ r_buf st !! r.2 = Some 0 ∧ r_buf st !! (r.2 - 1)%nat = Some 0.
Proof.
  intros Hb. revert chptr. induction fuel as [| fuel IH]; intros chptr; cbn [reply_lines]; [done |].
  destruct (to_newline (drop chptr (r_buf st))) as [n | |] eqn:En; cbn [mbind outcome_bind]; try done.
  assert (Hn : r_buf st !! (chptr + n)%nat = Some 0).
  { rewrite <- lookup_drop. apply to_newline_no_lf; [by apply Forall_drop | done]. }
  rewrite Hn. cbn [checked mbind outcome_bind]. change (0 =? 10) with false. cbv iota. cbn [mbind outcome_bind].
  destruct (r_buf st !! S (chptr + n)) as [c |] eqn:Ec; cbn [checked mbind outcome_bind]; [| done].
  destruct (Z.eqb_spec c 0) as [-> |].
  - intros [= <-]. cbn [fst snd]. split_and!; [done | lia | done |].
    replace (S (chptr + n) - 1)%nat with (chptr + n)%nat by lia. done.
  - intros Er. destruct (IH _ Er) as (? & ? & ? & ?). split_and!; [done | lia | done | done].
Qed.

Section closed.
Context {W : Type} `{NetOps W} (sock : Z).

Lemma response_loop_no_lf fuel : ∀ buf n code s w, Forall (λ b, b ≠ 10) buf →
  n_select w sock = (1, w) → (∀ k, n_read w sock k = (0, [], w)) →
  ∀ r, response_loop fuel sock buf n code s w ≠ Ret r.
Proof.
  induction fuel as [| fuel IH]; intros buf n code s w Hb Hsel Hread r; cbn [response_loop]; [done |].
  rewrite Hsel. change (1 =? 0) with false. change (1 <? 1) with false. cbv iota. rewrite Hread.
  change (0 <? 0) with false. cbv iota. cbn [mbind outcome_bind]. rewrite Nat.add_0_r.
  assert (Hb1 : Forall (λ b, b ≠ 10) (<[n := 0]> (splice n [] buf))).
  { apply Forall_insert; [| done]. by apply Forall_splice. }
  set (buf1 := <[n := 0]> (splice n [] buf)) in *.
  destruct (reply_scan (mkReply buf1 0 code true s)) as [[st chptr] | |] eqn:E; cbn [mbind outcome_bind]; try done.
  apply reply_lines_no_lf in E as (Est & _ & _ & _); [| done]. cbn [fst] in Est. subst st. cbn [r_continues r_start r_buf andb r_code r_str].
  change (0 =? 0) with true. cbv iota. destruct (0 <? chptr)%nat; apply IH; try done.
  apply Forall_splice; [by apply Forall_slice | done].
Qed.

Lemma zeros_no_lf k : Forall (λ b, b ≠ 10) (replicate k 0).
Proof. apply Forall_replicate. done. Qed.

Lemma response_loop_zeros fuel w : n_select w sock = (1, w) → (∀ k, n_read w sock k = (0, [], w)) →
  response_loop fuel sock (replicate FTP_BUF 0) 0 [] None w = NoFuel.
Proof.
  intros Hsel Hread. induction fuel as [| fuel IH]; cbn [response_loop]; [done |].
  rewrite Hsel. change (1 =? 0) with false. change (1 <? 1) with false. cbv iota. rewrite Hread.
  change (0 <? 0) with false. cbv iota. cbn [mbind outcome_bind Nat.add].
  exact IH.
Qed.

(** When the server closes the connection before a reply is complete,
    ftpCheckResponse never returns: read goes on to give 0 bytes, select goes on
    to say that there is something to read, and the error of select is the only
    way out.  With the buffer a program starts with it turns for ever; with any
    contents without a newline it never gets to a result either. *)
Theorem ftpCheckResponse_closed_hangs w (Hselect : n_select w sock = (1, w)) (Hread : ∀ n, n_read w sock n = (0, [], w)) :
  (∀ fuel, ftpCheckResponse fuel sock (replicate FTP_BUF 0) w = NoFuel) ∧
  (∀ fuel buf r, Forall (λ b, b ≠ 10) buf → ftpCheckResponse fuel sock buf w ≠ Ret r).
Proof.
  split; [intros fuel; by apply response_loop_zeros | intros fuel buf r Hb; by apply response_loop_no_lf].
Qed.

(** ** A line that comes in two reads *)

(** One turn over a text without a newline. *)
Lemma reply_lines_text fuel st chptr t r : line_ok t → drop chptr (r_buf st) = t ++ 0 :: r →
  reply_lines (S fuel) st chptr =
  match r with
  | [] => Undef
  | c :: _ => if c =? 0 then Ret (st, S (chptr + length t)) else reply_lines fuel st (S (chptr + length t))
  end.
Proof.
  intros Ht Ed. cbn [reply_lines]. rewrite Ed, to_newline_run by auto. cbn [mbind outcome_bind].
  rewrite <- lookup_drop, Ed, list_lookup_middle by done. cbn [checked mbind outcome_bind]. change (0 =? 10) with false. cbv iota.
  cbn [mbind outcome_bind]. replace (S (chptr + length t)) with (chptr + S (length t))%nat by lia.
  rewrite <- lookup_drop, Ed, lookup_app_r by lia. replace (S (length t) - length t)%nat with 1%nat by lia.
  cbn. by destruct r as [| c r].
Qed.

Lemma splice_at_end {A} (a d x y : list A) : length d = length x → splice (length a) d (a ++ x ++ y) = a ++ d ++ y.
Proof. intros. by apply splice_app_exact. Qed.

Lemma store_nul (a : bytes) x y : <[length a := 0]> (a ++ x :: y) = a ++ 0 :: y.
Proof. rewrite insert_app_r_alt, Nat.sub_diag by lia. done. Qed.

Lemma line_ok_app a b : line_ok a → line_ok b → line_ok (a ++ b).
Proof. intros. by apply Forall_app. Qed.

(** One turn of the outer loop, when something arrives. *)
Lemma response_turn fuel buf n code s w w1 w2 d : n_select w sock = (1, w1) →
  n_read w1 sock (Z.of_nat (BUFFER_SIZE - n)) = (Z.of_nat (length d), d, w2) →
  response_loop (S fuel) sock buf n code s w =
  '(st, chptr) ← reply_scan (mkReply (<[(n + length d)%nat := 0]> (splice n d buf)) 0 code true s);
  let k := (chptr - r_start st - 1)%nat in
  let '(buf, n) := if r_continues st && (r_start st <? chptr)%nat
                   then (splice 0 (slice (r_start st) k (r_buf st)) (r_buf st), k) else (r_buf st, O) in
  if r_continues st then response_loop fuel sock buf n (r_code st) (r_str st) w2
  else Ret (reply_result (r_code st) 0, r_str st, buf, w2).
Proof.
  intros Hsel Hread. cbn [response_loop]. rewrite Hsel. change (1 =? 0) with false. change (1 <? 1) with false. cbv iota.
  rewrite Hread. cbv iota. destruct (Z.ltb_spec (Z.of_nat (length d)) 0); [lia |].
  cbn [mbind outcome_bind]. rewrite Nat2Z.id. change (0 =? 0) with true.
  destruct (reply_scan _) as [[st chptr] | |]; cbn [mbind outcome_bind]; [| done ..]. by rewrite andb_true_r.
Qed.

Lemma length_two {A} (p r : list A) : (2 ≤ length p)%nat → ∃ k, length (p ++ r) = S (S k).
Proof. intros. exists (length (p ++ r) - 2)%nat. rewrite length_app. lia. Qed.

(** The two scans: the first stops behind the old text, the second finds the
    newline behind it. *)
Lemma scan_cut p s y str0 : line_ok p → line_ok s → s ≠ [] → (2 ≤ length p)%nat →
  reply_scan (mkReply (p ++ 0 :: s ++ 0 :: 0 :: y) 0 [] true str0) =
  Ret (mkReply (p ++ 0 :: s ++ 0 :: 0 :: y) 0 [] true str0, S (S (length p + length s))).
Proof.
  intros Hp Hs Hne Hp2. unfold reply_scan. cbn [r_buf].
  destruct (length_two p (0 :: s ++ 0 :: 0 :: y) Hp2) as [k ->].
  rewrite (reply_lines_text _ _ _ p (s ++ 0 :: 0 :: y)) by done.
  destruct s as [| b s]; [done |]. cbn [app]. pose proof (Forall_inv Hs) as [Hb _]. destruct (Z.eqb_spec b 0); [done |].
  rewrite (reply_lines_text _ _ _ (b :: s) (0 :: y)); [| done |].
  - change (0 =? 0) with true. cbv iota. done.
  - cbn [r_buf]. replace (S (0 + length p)) with (length p + 1)%nat by lia. by rewrite <- drop_drop, drop_app_length.
Qed.

Lemma scan_joined p s q y str0 : line_ok p → line_ok s → line_ok q → s ≠ [] → (3 < length p)%nat → byte3 p ≠ 45 →
  ∃ buf, reply_scan (mkReply (p ++ 0 :: s ++ wire q ++ 0 :: y) 0 [] true str0) =
    Ret (mkReply buf (length (p ++ 0 :: s ++ wire q)) (take 3 p) false (Some O), length (p ++ 0 :: s ++ wire q)) ∧
    cstr buf 0 = Ret p.
Proof.
  intros Hp Hs Hq Hne Hp3 H45. unfold reply_scan. cbn [r_buf].
  set (buf := p ++ 0 :: s ++ wire q ++ 0 :: y).
  destruct (length_two p (0 :: s ++ wire q ++ 0 :: y) ltac:(lia)) as [k Ek]. fold buf in Ek. rewrite Ek.
  rewrite (reply_lines_text _ _ _ p (s ++ wire q ++ 0 :: y)) by done.
  destruct s as [| b s]; [done |]. cbn [app]. pose proof (Forall_inv Hs) as [Hb _]. destruct (Z.eqb_spec b 0); [done |].
  set (a := p ++ 0 :: (b :: s) ++ q).
  assert (Ebuf : buf = a ++ 13 :: 10 :: 0 :: y).
  { unfold buf, a, wire, crlf. cbn [app]. rewrite <- !app_assoc. cbn [app]. by rewrite <- !app_assoc. }
  cbn [reply_lines r_buf]. replace (S (0 + length p)) with (length p + 1)%nat by lia.
  assert (to_newline (drop (length p + 1) buf) = Ret (length (b :: s ++ q) + 1)%nat) as ->.
  { assert (drop (length p + 1) buf = ((b :: s) ++ q ++ [13]) ++ 10 :: 0 :: y) as ->.
    { unfold buf. rewrite <- drop_drop, drop_app_length. unfold wire, crlf. rewrite <- !app_assoc. done. }
    rewrite to_newline_run; [| apply line_ok_app; [done | by apply line_ok_snoc] | by left].
    f_equal. cbn [length app]. rewrite !length_app. cbn. lia. }
  cbn [mbind outcome_bind].
  replace (length p + 1 + (length (b :: s ++ q) + 1))%nat with (S (length a))
    by (unfold a; rewrite !length_app; cbn [length]; rewrite !length_app; cbn; lia).
  rewrite Ebuf. rewrite (lookup_app_r _ _ (S (length a))) by lia. replace (S (length a) - length a)%nat with 1%nat by lia.
  cbn [lookup list_lookup checked mbind outcome_bind]. change (10 =? 10) with true. cbv iota.
  rewrite reply_line_crlf. cbn zeta. rewrite bool_decide_true by done. rewrite drop_0.
  assert (Eu : until_nul (a ++ 0 :: 0 :: 0 :: y) = p).
  { unfold a. rewrite <- app_assoc. cbn [app]. apply until_nul_app_nul, line_ok_nul, Hp. }
  rewrite Eu. cbn [Nat.add].
  assert (((a ++ 0 :: 0 :: 0 :: y) !! 3%nat) = Some (byte3 p)) as ->.
  { unfold a. rewrite <- app_assoc, lookup_app_l by lia. unfold byte3.
    destruct (lookup_lt_is_Some_2 p 3) as [z Hz]; [lia |]. by rewrite Hz. }
  cbn [checked mbind outcome_bind r_buf andb]. rewrite (proj2 (Z.eqb_neq _ _) H45).
  rewrite (lookup_app_r _ _ (S (S (length a)))) by lia. replace (S (S (length a)) - length a)%nat with 2%nat by lia.
  cbn [lookup list_lookup checked mbind outcome_bind]. change (0 =? 0) with true. cbv iota.
  exists (a ++ 0 :: 0 :: 0 :: y). split.
  - unfold a, wire, crlf. repeat rewrite ?length_app, ?length_cons. cbn [length]. do 2 f_equal; [f_equal |]; lia.
  - unfold cstr. rewrite drop_0, Eu. rewrite length_app. cbn. by destruct (length a).
Qed.

(** A line that comes in two reads is cut off at the first read when the
    buffer still holds text of an older reply behind it: the scan steps over the
    NUL, takes the old text for more of the same line, and what the second read
    brings is stored behind that.  The string handed back, and the code with it,
    is the first piece. *)
Theorem ftpCheckResponse_cut_line (p q s x y buf : bytes) fuel w w' (Hp : line_ok p) (Hq : line_ok q) (Hs : line_ok s)
  (Hp3 : (3 < length p)%nat) (Hhyphen : byte3 p ≠ 45) (Hne : s ≠ [])
  (Hbuf : buf = x ++ s ++ 0 :: 0 :: y) (Hx : length x = S (length p))
  (Hroom : (length p + length s + length q + 3 < length buf - 1)%nat) (Hlen : length buf = FTP_BUF)
  (Harrives : arrives sock w [p; wire q] w') :
  ∃ buf', ftpCheckResponse (S (S fuel)) sock buf w = Ret (reply_result (take 3 p) 0, Some O, buf', w') ∧ cstr buf' 0 = Ret p.
Proof.
  unfold FTP_BUF in Hlen. inversion Harrives as [| ? w1 w2 ? ? ? Hsel1 Hread1 Ha]; subst.
  inversion Ha as [| ? w3 w4 ? ? ? Hsel2 Hread2 Ha2]; subst. inversion Ha2; subst. clear Harrives Ha Ha2.
  unfold ftpCheckResponse. rewrite !length_app in *. cbn [length] in *. rewrite Hx in *.
  rewrite (response_turn _ _ _ _ _ _ _ _ _ Hsel1) by (apply Hread1; rewrite Nat.sub_0_r; lia).
  cbn [Nat.add]. destruct x as [| c x _] using rev_ind; [done |]. rewrite length_app in Hx. cbn in Hx.
  assert (<[length p := 0]> (splice 0 p ((x ++ [c]) ++ s ++ 0 :: 0 :: y)) = p ++ 0 :: s ++ 0 :: 0 :: y) as ->.
  { rewrite <- app_assoc. pose proof (splice_at_end [] p x ([c] ++ s ++ 0 :: 0 :: y) ltac:(lia)) as E. cbn [length app] in E.
    cbn [app]. rewrite E. apply store_nul. }
  rewrite scan_cut by (done || lia). cbn [mbind outcome_bind r_continues r_start r_buf r_code r_str andb].
  change (0 <? S (S (length p + length s)))%nat with true. cbv iota.
  set (n := (S (S (length p + length s)) - 0 - 1)%nat).
  assert (Hn : n = length (p ++ 0 :: s)) by (unfold n; rewrite length_app; cbn; lia).
  assert (splice 0 (slice 0 n (p ++ 0 :: s ++ 0 :: 0 :: y)) (p ++ 0 :: s ++ 0 :: 0 :: y) = p ++ 0 :: s ++ 0 :: 0 :: y) as ->.
  { unfold splice, slice. rewrite take_0, drop_0. cbn [app Nat.add]. rewrite length_take_le, take_drop; [done |].
    rewrite Hn, !length_app. cbn. rewrite !length_app. lia. }
  rewrite (response_turn _ _ _ _ _ _ _ _ _ Hsel2) by (apply Hread2; rewrite length_wire, Hn, length_app; cbn [length]; lia).
  assert (∃ z, <[(n + length (wire q))%nat := 0]> (splice n (wire q) (p ++ 0 :: s ++ 0 :: 0 :: y)) = p ++ 0 :: s ++ wire q ++ 0 :: z) as [z ->].
  { exists (drop (S (length (wire q))) (0 :: 0 :: y)).
    assert (p ++ 0 :: s ++ 0 :: 0 :: y = (p ++ 0 :: s) ++ 0 :: 0 :: y) as -> by (by rewrite <- app_assoc).
    rewrite <- (take_drop (length (wire q)) (0 :: 0 :: y)) at 1. rewrite Hn, splice_at_end.
    2:{ rewrite length_take. cbn. rewrite length_wire. lia. }
    destruct (drop (length (wire q)) (0 :: 0 :: y)) as [| c' r] eqn:Ed.
    { apply (f_equal length) in Ed. rewrite length_drop, length_wire in Ed. cbn in Ed. lia. }
    rewrite app_assoc, <- (length_app (p ++ 0 :: s)), store_nul.
    replace (S (length (wire q))) with (length (wire q) + 1)%nat by lia. rewrite <- drop_drop, Ed.
    by rewrite <- !app_assoc. }
  destruct (scan_joined p s q z None Hp Hs Hq Hne Hp3 Hhyphen) as (buf' & Escan & Ecstr).
  rewrite Escan. cbn [mbind outcome_bind r_continues r_start r_buf r_code r_str andb]. exists buf'. done.
Qed.
End closed.

(** ** Passive mode *)

Lemma steps_to_run c s b r : Forall (λ x, x ≠ c ∧ x ≠ 0) s → b = c ∨ b = 0 → steps_to c (s ++ b :: r) = Ret (length s).
Proof.
  intros Hs Hb. induction Hs as [| x s [Hc H0] _ IH]; cbn.
  - destruct Hb as [-> | ->]; [by rewrite Z.eqb_refl | by rewrite orb_true_r].
  - destruct (Z.eqb_spec x c), (Z.eqb_spec x 0); [done .. |]. cbn. by rewrite IH.
Qed.

Lemma back_to_run c x t y : Forall (λ b, b ≠ c ∧ b ≠ 0) t → back_to c (x ++ c :: t ++ y) (length x + length t) = Ret (length x).
Proof.
  revert y. induction t as [| b t IH] using rev_ind; intros y Ht.
  - cbn [length]. rewrite Nat.add_0_r. destruct (length x) eqn:E; cbn [back_to]; rewrite <- E, list_lookup_middle by done;
      cbn; by rewrite Z.eqb_refl.
  - apply Forall_app in Ht as [Ht [[Hc H0] _]%list.Forall_cons]. rewrite length_app. cbn [length].
    replace (length x + (length t + 1))%nat with (S (length x + length t)) by lia. cbn [back_to].
    assert ((x ++ c :: (t ++ [b]) ++ y) !! S (length x + length t) = Some b) as ->.
    { replace (x ++ c :: (t ++ [b]) ++ y) with ((x ++ c :: t) ++ b :: y) by (by rewrite <- !app_assoc).
      apply list_lookup_middle. rewrite length_app. cbn. lia. }
    cbn [checked mbind outcome_bind]. destruct (Z.eqb_spec b c), (Z.eqb_spec b 0); [done .. |]. cbn [orb].
    rewrite <- app_assoc. by apply IH.
Qed.

Definition dot (b : Z) : Z := if b =? 44 then 46 else b.

Lemma lookup_next {A} (pre : list A) c x r : (pre ++ c :: x :: r) !! S (length pre) = Some x.
Proof. rewrite lookup_app_r by lia. by replace (S (length pre) - length pre)%nat with 1%nat by lia. Qed.

Lemma commas_to_dots_run s : Forall (λ b, b ≠ 0) s → ∀ fuel pre c r, c ≠ 0 → (S (length s) < fuel)%nat →
  commas_to_dots fuel (pre ++ c :: s ++ 0 :: r) (length pre) = Ret (pre ++ c :: (dot <$> s) ++ 0 :: r).
Proof.
  induction 1 as [| b s Hb _ IH]; intros fuel pre c r Hc Hf; (destruct fuel as [| fuel]; [lia |]); cbn [commas_to_dots];
    rewrite (list_lookup_middle pre _ c (length pre) eq_refl); cbn [checked mbind outcome_bind app];
    rewrite (proj2 (Z.eqb_neq _ _) Hc), lookup_next; cbn [checked mbind outcome_bind].
  - change (0 =? 44) with false. cbv iota. destruct fuel as [| fuel]; [cbn in Hf; lia |]. cbn [commas_to_dots].
    by rewrite lookup_next.
  - assert ((if b =? 44 then <[S (length pre) := 46]> (pre ++ c :: b :: s ++ 0 :: r) else pre ++ c :: b :: s ++ 0 :: r) =
            (pre ++ [c]) ++ dot b :: s ++ 0 :: r) as ->.
    { unfold dot. rewrite <- app_assoc. cbn [app]. destruct (b =? 44); [| done].
      rewrite insert_app_r_alt by lia. by replace (S (length pre) - length pre)%nat with 1%nat by lia. }
    replace (S (length pre)) with (length (pre ++ [c])) by (rewrite length_app; cbn; lia).
    rewrite IH; [by rewrite <- app_assoc | | cbn in Hf; lia]. unfold dot. destruct (b =? 44); lia.
Qed.

(** A port as the two numbers of the reply. *)
Lemma shifted_port_bytes p q : is_byte p → is_byte q → shifted_port p q = Ret (p * 256 + q).
Proof.
  unfold is_byte. intros Hp Hq. unfold shifted_port, wrap.
  rewrite (proj2 (andb_true_iff _ _)) by lia. cbn [defined_if mbind outcome_bind].
  rewrite (proj2 (andb_true_iff _ _)) by lia. cbn [defined_if mbind outcome_bind]. by rewrite Z.mod_small by lia.
Qed.

Lemma no_digit_comma r : no_digit (44 :: r).
Proof. by intros c [= <-]. Qed.
Lemma no_digit_nil : no_digit [].
Proof. done. Qed.

Lemma scan_d_fmt w n r : 0 ≤ n < 2 ^ (w - 1) → no_digit r → scan_d w (fmt_d n ++ r) = Ret (Some (n, r)).
Proof.
  intros Hn Hr. unfold scan_d. change (fmt_d n ++ r) with ([] ++ fmt_d n ++ r). rewrite read_number_fmt_d by (done || lia).
  rewrite (proj2 (andb_true_iff _ _)) by lia. done.
Qed.

Lemma scan_d_d_fmt p q : is_byte p → is_byte q → scan_d_d (fmt_d p ++ 44 :: fmt_d q) = Ret (Some (p, q)).
Proof.
  unfold is_byte. intros Hp Hq. unfold scan_d_d. rewrite scan_d_fmt by (apply no_digit_comma || lia).
  cbn [mbind outcome_bind]. change (44 =? 44) with true. cbv iota.
  rewrite <- (app_nil_r (fmt_d q)), scan_d_fmt by (apply no_digit_nil || lia). done.
Qed.

(** The six numbers of a reply to PASV. *)
Definition pasv_host (a : Z) : bytes := join 44 (fmt_d <$> le_bytes 4 a).
Definition pasv_numbers (a p q : Z) : bytes := pasv_host a ++ 44 :: fmt_d p ++ 44 :: fmt_d q.

Lemma fmt_d_plain n : 0 ≤ n → Forall (λ b, b ≠ 44 ∧ b ≠ 0) (fmt_d n) ∧ Forall (λ b, b ≠ 41 ∧ b ≠ 0) (fmt_d n).
Proof.
  intros Hn. split; apply list.Forall_and; split; by apply fmt_d_not.
Qed.

Lemma dot_digits n : 0 ≤ n → dot <$> fmt_d n = fmt_d n.
Proof.
  intros Hn. destruct (fmt_d_plain n Hn) as [H _]. induction H as [| b l [Hb _] _ IH]; [done |].
  rewrite fmap_cons, IH. unfold dot. by rewrite (proj2 (Z.eqb_neq _ _) Hb).
Qed.

(** The host part starts with a digit; with dots for the commas it is the
    address. *)
Lemma pasv_host_split a : 0 ≤ a < 2 ^ 32 → ∃ c s, pasv_host a = c :: s ∧ c ≠ 0 ∧ Forall (λ b, b ≠ 0) s ∧
  Forall (λ b, b ≠ 41 ∧ b ≠ 0) (pasv_host a) ∧ c :: (dot <$> s) = inet_ntop4 a.
Proof.
  intros Ha. unfold pasv_host, inet_ntop4. pose proof (le_bytes_byte 4 a) as Hb.
  destruct (le_bytes 4 a) as [| w [| x [| y [| z []]]]] eqn:E; try (by apply (f_equal length) in E; rewrite length_le_bytes in E).
  unfold is_byte in Hb. repeat (apply list.Forall_cons in Hb as [? Hb]).
  cbn [fmap list_fmap join].
  destruct (fmt_d_digits w ltac:(lia)) as [[Hd _] Hne].
  assert (Hp : Forall (λ b, b ≠ 41 ∧ b ≠ 0) (fmt_d w ++ 44 :: fmt_d x ++ 44 :: fmt_d y ++ 44 :: fmt_d z)).
  { repeat (apply Forall_app; split; [apply fmt_d_plain; lia | apply list.Forall_cons; split; [done |]]). apply fmt_d_plain; lia. }
  assert (Hdot : dot <$> (fmt_d w ++ 44 :: fmt_d x ++ 44 :: fmt_d y ++ 44 :: fmt_d z) =
                 fmt_d w ++ 46 :: fmt_d x ++ 46 :: fmt_d y ++ 46 :: fmt_d z).
  { rewrite !fmap_app, !fmap_cons, !fmap_app, !fmap_cons, !fmap_app, !fmap_cons, !dot_digits by lia. done. }
  destruct (fmt_d w) as [| c t]; [done |]. exists c, (t ++ 44 :: fmt_d x ++ 44 :: fmt_d y ++ 44 :: fmt_d z).
  apply list.Forall_cons in Hd as [Hc _]. cbn [app] in *. apply list.Forall_cons in Hp as [[Hc41 Hc0] Hp].
  split_and!; [done | done | | by constructor |].
  { eapply list.Forall_impl; [exact Hp |]. by intros ? []. }
  rewrite fmap_cons in Hdot. injection Hdot as _ Hdot. by rewrite Hdot.
Qed.

(** The reply to PASV in the form of RFC 959 is read back, whatever text stands
    around the parenthesis and wherever in the buffer the line lies. *)
Lemma parse_pasv_reads (a p q : Z) (pre t u post : bytes) (Ha : 0 ≤ a < 2 ^ 32) (Hp : is_byte p) (Hq : is_byte q)
  (Ht : Forall (λ b, b ≠ 40 ∧ b ≠ 0) t) :
  ∃ buf', length buf' = length (pre ++ t ++ 40 :: pasv_numbers a p q ++ 41 :: u ++ 0 :: post) ∧
    parse_pasv (pre ++ t ++ 40 :: pasv_numbers a p q ++ 41 :: u ++ 0 :: post) (length pre) =
      Ret (buf', Some (mkAddr AF_INET (le_bytes 4 a) (p * 256 + q))).
Proof.
  destruct (pasv_host_split a Ha) as (c & s & Eh & Hc & Hs & Hplain & Edot).
  assert (Hp0 : 0 ≤ p ∧ 0 ≤ q) by (unfold is_byte in *; lia). destruct Hp0 as [Hp0 Hq0].
  destruct (fmt_d_plain p Hp0) as [Hp44 Hp41], (fmt_d_plain q Hq0) as [Hq44 Hq41].
  unfold parse_pasv. rewrite drop_app_length, steps_to_run by auto. cbn [mbind outcome_bind].
  set (b1 := pre ++ t ++ [40]). rewrite app_assoc. rewrite <- length_app, list_lookup_middle by done.
  cbn [checked mbind outcome_bind]. change (negb (40 =? 40)) with false. cbv iota.
  replace (S (length (pre ++ t))) with (length b1) by (unfold b1; rewrite !length_app; cbn; lia).
  assert ((pre ++ t) ++ 40 :: pasv_numbers a p q ++ 41 :: u ++ 0 :: post = b1 ++ pasv_numbers a p q ++ 41 :: u ++ 0 :: post) as ->
    by (unfold b1; by rewrite <- !app_assoc).
  assert (Hnum : Forall (λ b, b ≠ 41 ∧ b ≠ 0) (pasv_numbers a p q)).
  { unfold pasv_numbers. apply Forall_app; split; [done |]. apply list.Forall_cons; split; [done |].
    apply Forall_app; split; [done |]. by apply list.Forall_cons. }
  rewrite drop_app_length, steps_to_run by auto. cbn [mbind outcome_bind].
  rewrite app_assoc, <- length_app, list_lookup_middle by done. cbn [checked mbind outcome_bind].
  change (negb (41 =? 41)) with false. cbv iota. rewrite store_nul.
  set (x1 := b1 ++ pasv_host a ++ 44 :: fmt_d p). set (rest := 0 :: u ++ 0 :: post).
  assert (Hb : (b1 ++ pasv_numbers a p q) ++ rest = x1 ++ 44 :: fmt_d q ++ rest).
  { unfold x1, pasv_numbers. rewrite <- !app_assoc. cbn [app]. by rewrite <- !app_assoc. }
  change (0 :: u ++ 0 :: post) with rest. rewrite Hb.
  replace (length (b1 ++ pasv_numbers a p q) - 1)%nat with (length x1 + length (fmt_d q))%nat.
  2:{ unfold x1, pasv_numbers. rewrite !length_app. cbn [length]. rewrite !length_app. cbn [length]. lia. }
  rewrite back_to_run by done. cbn [mbind outcome_bind]. rewrite list_lookup_middle by done.
  cbn [checked mbind outcome_bind]. change (negb (44 =? 44)) with false. cbv iota.
  set (x0 := b1 ++ pasv_host a).
  assert (Hx1 : length x1 = S (length x0 + length (fmt_d p))) by (unfold x1, x0; rewrite !length_app; cbn; lia).
  rewrite Hx1. assert (Hb2 : x1 ++ 44 :: fmt_d q ++ rest = x0 ++ 44 :: fmt_d p ++ 44 :: fmt_d q ++ rest).
  { unfold x1, x0. rewrite <- !app_assoc. done. }
  rewrite Hb2, back_to_run by done. cbn [mbind outcome_bind]. rewrite list_lookup_middle by done.
  cbn [checked mbind outcome_bind]. change (negb (44 =? 44)) with false. cbv iota. rewrite store_nul.
  assert (until_nul (drop (S (length x0)) (x0 ++ 0 :: fmt_d p ++ 44 :: fmt_d q ++ rest)) = fmt_d p ++ 44 :: fmt_d q) as ->.
  { replace (S (length x0)) with (length x0 + 1)%nat by lia. rewrite <- drop_drop, drop_app_length. unfold rest. cbn [drop].
    replace (fmt_d p ++ 44 :: fmt_d q ++ 0 :: u ++ 0 :: post) with ((fmt_d p ++ 44 :: fmt_d q) ++ 0 :: u ++ 0 :: post) by (by rewrite <- app_assoc).
    apply until_nul_app_nul. apply Forall_app; split; [eapply list.Forall_impl; [exact Hp41 |]; by intros ? [] |].
    apply list.Forall_cons; split; [done |]. eapply list.Forall_impl; [exact Hq41 |]; by intros ? []. }
  rewrite scan_d_d_fmt by done. cbn [mbind outcome_bind]. rewrite shifted_port_bytes by done. cbn [mbind outcome_bind].
  unfold x0. rewrite Eh. set (r2 := fmt_d p ++ 44 :: fmt_d q ++ rest).
  replace ((b1 ++ c :: s) ++ 0 :: r2) with (b1 ++ c :: s ++ 0 :: r2) by (by rewrite <- app_assoc).
  rewrite commas_to_dots_run; [| done | done | rewrite length_app; cbn; rewrite length_app; cbn; lia].
  cbn [mbind outcome_bind]. rewrite drop_app_length.
  assert (until_nul (c :: (dot <$> s) ++ 0 :: r2) = inet_ntop4 a) as ->.
  { rewrite <- Edot. change (c :: (dot <$> s) ++ 0 :: r2) with ((c :: (dot <$> s)) ++ 0 :: r2). apply until_nul_app_nul.
    apply list.Forall_cons; split; [done |]. apply Forall_fmap. eapply list.Forall_impl; [exact Hs |].
    intros b Hb0. cbn. unfold dot. destruct (b =? 44); [done | exact Hb0]. }
  rewrite inet_pton_ntop by done. eexists. split; [| done].
  unfold r2, rest, pasv_numbers. rewrite Eh. repeat rewrite ?length_app, ?length_fmap, ?length_cons. cbn [length]. lia.
Qed.

(** ** Retrieving a file *)

(** A reply with a code and its last line, in at most [k] reads. *)
Definition replies {W} `{NetOps W} (sock : Z) (k : nat) (code last : bytes) (w w' : W) : Prop :=
  ∃ groups, length code = 3%nat ∧ groups ≠ [] ∧ (length groups ≤ k)%nat ∧
    Forall (λ g, g ≠ [] ∧ Forall line_ok g ∧ (length (piece g) ≤ BUFFER_SIZE)%nat) groups ∧
    reply_ok code (mjoin groups) ∧ list.last (mjoin groups) = Some last ∧ arrives sock w (piece <$> groups) w'.

(** A code that is no error. *)
Definition positive (code : bytes) : Prop := reply_result code 0 = 0.

Section retrieve.
Context {W : Type} `{NetOps W} (sock : Z).

Lemma replies_check k code last buf w w' : replies sock k code last w w' → length buf = FTP_BUF →
  ∃ i buf', ftpCheckResponse k sock buf w = Ret (reply_result code 0, Some i, buf', w') ∧
    string_at buf' i last ∧ Forall (λ b, b ≠ 0) last ∧ length buf' = FTP_BUF.
Proof.
  intros (groups & Hc & Hne & Hk & Hg & Hr & Hlast & Ha) Hb.
  destruct (response_loop_groups sock code Hc groups k buf [] None w w') as (last' & i & buf' & El & Hs & Hl & Er); try done.
  { by left. }
  assert (last' = last) as -> by congruence. exists i, buf'. split_and!; [done .. | | done].
  apply line_ok_nul. apply last_Some in Hlast as [g0 E].
  assert (Forall line_ok (mjoin groups)) as Hall.
  { clear -Hg. induction Hg as [| g gs (_ & Hg & _) _ IH]; [constructor |]. by apply Forall_app. }
  rewrite E in Hall. apply Forall_app in Hall as [_ Hall]. by inversion Hall.
Qed.

Lemma string_at_split buf i l : string_at buf i l → ∃ pre r, buf = pre ++ l ++ 0 :: r ∧ i = length pre.
Proof.
  intros [r E]. exists (take i buf), r. rewrite <- E, take_drop. split; [done |]. rewrite length_take.
  destruct (Nat.le_gt_cases i (length buf)); [lia |]. rewrite drop_ge in E by lia. by destruct l.
Qed.

(** The size of a reply to SIZE. *)
Definition size_reply (code last : bytes) (size : Z) : Prop :=
  (¬ positive code ∧ size = 0) ∨
  (positive code ∧ Forall (λ b, isspace b = false) code ∧ 0 ≤ size < 2 ^ 63 ∧ last = code ++ 32 :: fmt_d size).

Lemma parse_size_reads code size : length code = 3%nat → Forall (λ b, isspace b = false) code → 0 ≤ size < 2 ^ 63 →
  parse_size (code ++ 32 :: fmt_d size) = Ret size.
Proof.
  intros Hl Hc Hs. unfold parse_size. destruct code as [| a [| b [| c []]]]; try done.
  apply list.Forall_cons in Hc as [Ea Hc], Hc as [Eb Hc], Hc as [Ec _]. cbn [app skip_space]. rewrite Ea.
  cbn [run_length]. rewrite Ea, Eb, Ec. cbn [negb run_length]. change (isspace 32) with true. cbn [negb drop skip_space].
  change (isspace 32) with true. cbv iota.
  assert (skip_space (fmt_d size) = fmt_d size) as ->.
  { destruct (fmt_d_digits size ltac:(lia)) as [[Hd _] _]. destruct Hd as [| d ds Hd _]; [done |].
    destruct (digit_not_space d Hd) as [Hsp _]. cbn [skip_space]. by rewrite Hsp. }
  rewrite <- (app_nil_r (fmt_d size)), scan_d_fmt by (done || lia). cbn [mbind outcome_bind].
  destruct (Z.ltb_spec size 0); [lia | done].
Qed.

Lemma size_of_reply k code last size buf w w' : replies sock k code last w w' → size_reply code last size →
  length buf = FTP_BUF → ∃ rc i buf', ftpCheckResponse k sock buf w = Ret (rc, Some i, buf', w') ∧ length buf' = FTP_BUF ∧
    (if negb (rc =? 0) then Ret 0 else s ← cstr buf' i; parse_size s) = Ret size.
Proof.
  intros Hr Hs Hb. destruct (replies_check k code last buf w w' Hr Hb) as (i & buf' & E & Hat & Hnul & Hl).
  exists (reply_result code 0), i, buf'. split_and!; [done .. |]. unfold size_reply, positive in Hs.
  destruct Hs as [[Hp ->] | (Hp & Hsp & Hsz & ->)].
  - by rewrite (proj2 (Z.eqb_neq _ _) Hp).
  - rewrite Hp. change (negb (0 =? 0)) with false. cbv iota. rewrite (string_at_cstr _ _ _ Hat Hnul). cbn [mbind outcome_bind].
    destruct Hr as (? & Hc & _). by apply parse_size_reads.
Qed.

(** C19: A file is retrieved over FTP the way RFC 959 has it.  Against a server
    that answers PASV with an address and a port, SIZE with a size or an error,
    and RETR with a reply that is no error, ftpGetFileDesc sends exactly these
    three commands, connects the new socket to the address and the port the
    server has named, and returns it with the size (0 where SIZE is an error). *)
Theorem ftpGetFileDesc_retrieves (a p q : Z) (c1 t u c2 l2 c3 l3 host name buf : bytes) (ds size0 size : Z) (k : nat)
  (w w1 w2 w3 w4 w5 w6 w7 w8 : W) (Ha : 0 ≤ a < 2 ^ 32) (Hp : is_byte p) (Hq : is_byte q)
  (Ht : Forall (λ b, b ≠ 40 ∧ b ≠ 0) t) (Hbuf : length buf = FTP_BUF)
  (Hpasv : sends sock w (str "PASV" ++ crlf) w1)
  (Hr1 : replies sock k c1 (t ++ 40 :: pasv_numbers a p q ++ 41 :: u) w1 w2) (Hc1 : positive c1)
  (Hsock : n_socket w2 AF_INET = (ds, w3)) (Hds : 0 ≤ ds)
  (Hsize : sends sock w3 (str "SIZE " ++ name ++ crlf) w4)
  (Hr2 : replies sock k c2 l2 w4 w5) (Hl2 : size_reply c2 l2 size)
  (Hretr : sends sock w5 (str "RETR " ++ name ++ crlf) w6)
  (Hconn : n_connect w6 ds (mkAddr AF_INET (le_bytes 4 a) (p * 256 + q)) = (0, w7))
  (Hr3 : replies sock k c3 l3 w7 w8) (Hc3 : positive c3) :
  ∃ buf', ftpGetFileDesc k sock host AF_INET name size0 buf w = Ret (ds, size, buf', w8).
Proof.
  unfold ftpGetFileDesc. change (AF_INET =? AF_INET) with true. cbv iota. unfold sends in *. rewrite Hpasv.
  change (negb (Z.of_nat (length (str "PASV" ++ crlf)) =? 6)) with false. cbv iota.
  destruct (replies_check k _ _ buf w1 w2 Hr1 Hbuf) as (i & buf1 & E1 & Hat & _ & Hb1).
  rewrite E1. cbn [mbind outcome_bind]. rewrite Hc1. change (negb (0 =? 0)) with false. cbv iota. cbn [checked mbind outcome_bind].
  destruct (string_at_split _ _ _ Hat) as (pre & r & -> & ->).
  destruct (parse_pasv_reads a p q pre t u r Ha Hp Hq Ht) as (buf2 & Hl2' & E2).
  assert (pre ++ (t ++ 40 :: pasv_numbers a p q ++ 41 :: u) ++ 0 :: r = pre ++ t ++ 40 :: pasv_numbers a p q ++ 41 :: u ++ 0 :: r) as Eb.
  { rewrite <- !app_assoc. cbn [app]. by rewrite <- !app_assoc. }
  rewrite Eb in *. rewrite E2. cbn [mbind outcome_bind]. rewrite Hsock. destruct (Z.ltb_spec ds 0); [lia |]. cbv zeta.
  rewrite Hsize, Z.eqb_refl. cbn [negb].
  destruct (size_of_reply k c2 l2 size buf2 w4 w5 Hr2 Hl2) as (rc & j & buf3 & E3 & Hb3 & Esz); [congruence |].
  rewrite E3. cbn [mbind outcome_bind].
  assert ((if negb (rc =? 0) then Ret 0 else r0 ← checked (Some j); s ← cstr buf3 r0; parse_size s) = Ret size) as ->.
  { etransitivity; [| exact Esz]. done. }
  cbn [mbind outcome_bind]. rewrite Hretr, Z.eqb_refl. cbn [negb]. change (is_inet AF_INET) with true. cbv iota.
  rewrite Hconn. change (negb (0 =? 0)) with false. cbv iota.
  destruct (replies_check k c3 l3 buf3 w7 w8 Hr3 Hb3) as (i3 & buf4 & E4 & _). rewrite E4. cbn [mbind outcome_bind].
  rewrite Hc3. change (negb (0 =? 0)) with false. cbv iota. by exists buf4.
Qed.
End retrieve.

(** ** The head of an HTTP response *)

Definition no_cr (s : bytes) : Prop := Forall (λ b, b ≠ 13) s.
Definition blank_line : bytes := crlf ++ crlf.

Lemma starts_with_prefix_ne lit s : (∀ r, s ≠ lit ++ r) → starts_with lit s = false.
Proof.
  intros Hne. destruct (starts_with lit s) eqn:E; [| done]. apply starts_with_spec in E as [r ->]. by destruct (Hne r).
Qed.

(** A search for something that starts with CR steps over text without one. *)
Lemma strstr_skip t s nd : no_cr t → strstr (t ++ s) (13 :: nd) = strstr s (13 :: nd).
Proof.
  induction 1 as [| b t Hb _ IH]; [done |]. cbn [app strstr starts_with].
  rewrite (proj2 (Z.eqb_neq 13 b)) by done. done.
Qed.

Lemma strstr_text t nd : no_cr t → strstr t (13 :: nd) = None.
Proof. intros Ht. rewrite <- (app_nil_r t). by rewrite strstr_skip. Qed.

Lemma strstr_crlf_more x s : x ≠ 13 → strstr (13 :: 10 :: x :: s) blank_line = strstr (x :: s) blank_line.
Proof.
  intros Hx. unfold blank_line, crlf. cbn [app]. set (nd := [13; 10; 13; 10]).
  assert (starts_with nd (13 :: 10 :: x :: s) = false) as E.
  { apply starts_with_prefix_ne. intros r [= ->]. done. }
  change (strstr (13 :: 10 :: x :: s) nd) with (if starts_with nd (13 :: 10 :: x :: s) then Some (13 :: 10 :: x :: s)
                                                else strstr (10 :: x :: s) nd).
  rewrite E. done.
Qed.

(** Lines separated by CRLF, with a blank line behind the last. *)
Fixpoint head_lines (ls : list bytes) : bytes :=
  match ls with
  | [] => blank_line
  | l :: ls => match ls with [] => l ++ blank_line | _ => l ++ crlf ++ head_lines ls end
  end.

Definition head_line (l : bytes) : Prop := l ≠ [] ∧ Forall (λ b, b ≠ 13 ∧ b ≠ 10 ∧ b ≠ 0) l.

Lemma head_line_cr l : head_line l → no_cr l.
Proof. intros [_ H]. eapply list.Forall_impl; [exact H |]. by intros b (? & _). Qed.

Lemma take_text (l s : bytes) k : (k ≤ length l)%nat → no_cr l → strstr (take k (l ++ s)) blank_line = None.
Proof. intros Hk Hl. rewrite take_app_le by done. apply strstr_text. by apply Forall_take. Qed.

(** No proper prefix of such a head has a blank line. *)
Lemma head_lines_prefix ls : ls ≠ [] → Forall head_line ls → ∀ k, (k < length (head_lines ls))%nat →
  strstr (take k (head_lines ls)) blank_line = None.
Proof.
  induction ls as [| l ls IH]; intros Hne Hls k Hk; [done |]. apply list.Forall_cons in Hls as [Hl Hls].
  pose proof (head_line_cr l Hl) as Hcr. cbn [head_lines] in *. destruct ls as [| l2 ls].
  - rewrite length_app in Hk. cbn in Hk. destruct (Nat.le_gt_cases k (length l)); [by apply take_text |].
    rewrite take_app_ge by lia. unfold blank_line at 2, crlf. cbn [app]. rewrite strstr_skip by done.
    destruct (k - length l)%nat as [| [| [| [| ?]]]] eqn:E; [done .. |]. lia.
  - destruct (Nat.le_gt_cases k (length l)); [by apply take_text |]. rewrite take_app_ge by lia.
    unfold blank_line at 1. cbn [app crlf]. change (crlf ++ crlf) with (13 :: 10 :: crlf). rewrite strstr_skip by done.
    rewrite !length_app in Hk. cbn [length crlf] in Hk. apply list.Forall_cons in Hls as Hls2. destruct Hls2 as [[Hne2 H2] _].
    destruct (k - length l)%nat as [| [| [| k']]] eqn:E; [done .. |]. cbn [take].
    assert (∃ x r, head_lines (l2 :: ls) = x :: r ∧ x ≠ 13) as (x & r & Ex & Hx).
    { destruct l2 as [| x l2]; [done |]. apply list.Forall_cons in H2 as [(? & _) _].
      cbn. destruct ls; eexists _, _; done. }
    specialize (IH ltac:(done) Hls (S k')). rewrite Ex in *. cbn [take] in *.
    change (13 :: 10 :: crlf) with blank_line. rewrite strstr_crlf_more by done. apply IH. lia.
Qed.

Lemma head_lines_end ls : ls ≠ [] → ∃ s, head_lines ls = s ++ blank_line.
Proof.
  induction ls as [| l ls IH]; [done |]. intros _. cbn [head_lines]. destruct ls as [| l2 ls]; [by exists l |].
  destruct IH as [s E]; [done |]. exists (l ++ crlf ++ s). by rewrite E, <- !app_assoc.
Qed.

Lemma strstr_found s nd r : is_Some (strstr (s ++ nd ++ r) nd).
Proof.
  induction s as [| b s IH]; cbn [app].
  - destruct (nd ++ r) eqn:E; cbn [strstr]; rewrite <- E, starts_with_app; done.
  - cbn [strstr]. by destruct (starts_with nd _).
Qed.

Lemma head_lines_nul ls : Forall head_line ls → Forall (λ b, b ≠ 0) (head_lines ls).
Proof.
  induction 1 as [| l ls [_ Hl] _ IH]; [by repeat constructor |]. cbn [head_lines].
  assert (Forall (λ b, b ≠ 0) l) by (eapply list.Forall_impl; [exact Hl |]; by intros b (_ & _ & ?)).
  destruct ls; (apply Forall_app; split; [done |]); [by repeat constructor |].
  apply Forall_app; split; [by repeat constructor | done].
Qed.

Section http.
Context {W : Type} `{NetOps W}.

(** What a socket gives to reads of one byte. *)
Inductive stream (sock : Z) : W → bytes → W → Prop :=
  | stream_nil w : stream sock w [] w
  | stream_cons w w1 w2 w' b s : n_select w sock = (1, w1) → n_read w1 sock 1 = (1, [b], w2) →
      stream sock w2 s w' → stream sock w (b :: s) w'.

Lemma read_headers_run sock h : Forall (λ b, b ≠ 0) h → (∀ k, (k < length h)%nat → strstr (take k h) blank_line = None) →
  is_Some (strstr h blank_line) → (length h < 4096)%nat → ∀ rest acc fuel w w', acc ++ rest = h → stream sock w rest w' →
  (length rest < fuel)%nat → read_headers fuel sock acc 4096 w = Ret (0, h, w').
Proof.
  intros Hnul Hpre Hfull Hlen. induction rest as [| b rest IH]; intros acc fuel w w' E Ha Hf;
    (destruct fuel as [| fuel]; [lia |]); cbn [read_headers].
  - rewrite app_nil_r in E. subst acc. rewrite until_nul_no_nul by done. change (crlf ++ crlf) with blank_line.
    rewrite bool_decide_true by done. inversion Ha; by subst.
  - assert (Forall (λ b, b ≠ 0) acc) by (subst h; by apply Forall_app in Hnul as [? _]).
    rewrite until_nul_no_nul by done. change (crlf ++ crlf) with blank_line.
    assert (Hacc : take (length acc) h = acc) by (subst h; apply take_app_length).
    assert (length h = length acc + S (length rest))%nat as Hl by (subst h; rewrite length_app; done).
    assert (strstr acc blank_line = None) as -> by (rewrite <- Hacc; apply Hpre; lia). rewrite bool_decide_false by (by intros []).
    inversion Ha as [| ? w1 w2 ? b1 s1 Hsel Hread Ha']; subst. rewrite Hsel. change (1 =? 0) with false. change (1 <? 0) with false.
    cbv iota. rewrite Hread. change (negb (1 =? 1)) with false. cbv iota. cbv zeta.
    destruct (Nat.ltb_spec (length (acc ++ [b])) 4096) as [| Hge]; [| rewrite length_app in Hge; cbn in Hge; lia].
    cbn [defined_if mbind outcome_bind]. rewrite bool_decide_false by lia.
    apply IH; [by rewrite <- app_assoc | done | cbn in Hf; lia].
Qed.

(** read_headers takes exactly the head of a response from the socket, up
    to and with its blank line, and nothing of what follows, as long as the head
    has at most 4095 bytes; as soon as 4096 bytes have come without a blank line
    it writes behind its buffer. *)
Theorem read_headers_bounds sock ls fuel w w' (Hne : ls ≠ []) (Hls : Forall head_line ls)
  (Hlen : (length (head_lines ls) < 4096)%nat) (Hstream : stream sock w (head_lines ls) w')
  (Hfuel : (length (head_lines ls) < fuel)%nat) :
  read_headers fuel sock [] 4096 w = Ret (0, head_lines ls, w') ∧
  (∀ long v v', (length long = 4096)%nat → Forall (λ b, b ≠ 0 ∧ b ≠ 13) long → stream sock v long v' →
     read_headers (4096 + fuel) sock [] 4096 v = Undef).
Proof.
  split.
  - apply (read_headers_run sock (head_lines ls)) with (rest := head_lines ls); try done.
    + by apply head_lines_nul.
    + by apply head_lines_prefix.
    + destruct (head_lines_end ls Hne) as [s ->]. rewrite <- (app_nil_r blank_line) at 1. apply strstr_found.
  - intros long v v' Hl Hlong Ha.
    assert (∀ rest acc v fuel, Forall (λ b, b ≠ 0 ∧ b ≠ 13) (acc ++ rest) → (length acc + length rest = 4096)%nat → rest ≠ [] →
      stream sock v rest v' → read_headers (length rest + fuel) sock acc 4096 v = Undef) as Hgo.
    { clear. induction rest as [| b rest IH]; intros acc v fuel Hb Hl Hne Ha; [done |].
      cbn [length Nat.add read_headers]. apply Forall_app in Hb as Hb'. destruct Hb' as [Hacc _].
      rewrite until_nul_no_nul by (eapply list.Forall_impl; [exact Hacc |]; by intros ? []).
      change (crlf ++ crlf) with (13 :: [10; 13; 10]).
      rewrite strstr_text by (eapply list.Forall_impl; [exact Hacc |]; by intros ? []).
      rewrite bool_decide_false by (by intros []).
      inversion Ha as [| ? w1 w2 ? b1 s1 Hsel Hread Ha']; subst. rewrite Hsel. change (1 =? 0) with false. change (1 <? 0) with false.
      cbv iota. rewrite Hread. change (negb (1 =? 1)) with false. cbv iota. cbv zeta.
      cbn [length] in Hl. destruct rest as [| b' rest].
      - assert (length (acc ++ [b]) = 4096)%nat as -> by (rewrite length_app; cbn in *; lia). done.
      - destruct (Nat.ltb_spec (length (acc ++ [b])) 4096) as [| Hge]; [| rewrite length_app in Hge; cbn in *; lia].
        cbn [defined_if mbind outcome_bind]. rewrite bool_decide_false by lia.
        apply IH; [by rewrite <- app_assoc | rewrite length_app; cbn in *; lia | done | done]. }
    replace (4096 + fuel)%nat with (length long + fuel)%nat by lia. apply Hgo; [done | done | by destruct long | done].
Qed.
End http.

(** ** The fields of a head *)

Definition field_line (f : bytes * bytes) : bytes := f.1 ++ [58; 32] ++ f.2.
Definition field_ok (f : bytes * bytes) : Prop :=
  f.1 ≠ [] ∧ Forall (λ b, b ≠ 13 ∧ b ≠ 10 ∧ b ≠ 0 ∧ b ≠ 58) f.1 ∧
  Forall (λ b, b ≠ 13 ∧ b ≠ 10 ∧ b ≠ 0) f.2 ∧ ∃ c v, f.2 = c :: v ∧ isspace c = false.
Definition name_ok (name : bytes) : Prop := Forall (λ b, b ≠ 13 ∧ b ≠ 10 ∧ b ≠ 0 ∧ b ≠ 58) name.

(** The value of the first field with a name. *)
Definition field_value (fs : list (bytes * bytes)) (name : bytes) : option bytes :=
  snd <$> List.find (λ f, bool_decide (f.1 = name)) fs.

Lemma field_head_line f : field_ok f → head_line (field_line f).
Proof.
  intros (Hne & Hn & Hv & _). split; [unfold field_line; by destruct f.1 |].
  apply Forall_app; split; [eapply list.Forall_impl; [exact Hn |]; (intros ? ?; cbv beta in *; tauto) |].
  by repeat constructor.
Qed.

(** What follows the first line. *)
Definition lines_after (ls : list bytes) : bytes := match ls with [] => crlf | _ => head_lines ls end.
Lemma head_lines_cons l ls : head_lines (l :: ls) = l ++ 13 :: 10 :: lines_after ls.
Proof. by destruct ls. Qed.

Lemma name_prefix name a r s : name_ok name → Forall (λ b, b ≠ 58) a → a ++ 58 :: r = name ++ 58 :: s → a = name.
Proof.
  revert name. induction a as [| x a IH]; intros [| y name] Hn Ha E; cbn in E.
  - done.
  - injection E as <- _. by apply list.Forall_cons in Hn as [(_ & _ & _ & ?) _].
  - injection E as -> _. by apply list.Forall_cons in Ha as [? _].
  - injection E as -> E. apply list.Forall_cons in Ha as [_ Ha], Hn as [_ Hn]. f_equal. by apply IH.
Qed.

Lemma strstr_fields name fs : name ≠ [] → name_ok name → Forall field_ok fs → ∀ sl, no_cr sl →
  match List.find (λ f, bool_decide (f.1 = name)) fs with
  | Some f => ∃ r, strstr (head_lines (sl :: (field_line <$> fs))) (crlf ++ name ++ [58]) = Some (crlf ++ name ++ 58 :: 32 :: f.2 ++ 13 :: 10 :: r)
  | None => strstr (head_lines (sl :: (field_line <$> fs))) (crlf ++ name ++ [58]) = None
  end.
Proof.
  intros Hname Hn. change (crlf ++ name ++ [58]) with (13 :: 10 :: name ++ [58]).
  induction 1 as [| f fs Hf Hfs IH]; intros sl Hsl.
  - cbn [List.find fmap list_fmap]. rewrite head_lines_cons, strstr_skip by done. unfold lines_after, crlf.
    destruct name as [| c name]; [done |]. pose proof (Forall_inv Hn) as (Hc & _).
    cbn [app strstr starts_with]. rewrite (proj2 (Z.eqb_neq c 13)) by done. done.
  - rewrite fmap_cons, head_lines_cons, strstr_skip by done. unfold lines_after. rewrite head_lines_cons.
    destruct Hf as (Hfne & Hfn & Hfv & Hfs1). cbn [List.find].
    assert (Hstart : starts_with (13 :: 10 :: name ++ [58]) (13 :: 10 :: field_line f ++ 13 :: 10 :: lines_after (field_line <$> fs)) =
            bool_decide (f.1 = name)).
    { unfold field_line. rewrite <- !app_assoc. cbn [app]. destruct (bool_decide_reflect (f.1 = name)) as [-> | Hne].
      - apply starts_with_spec. exists (32 :: f.2 ++ 13 :: 10 :: lines_after (field_line <$> fs)). cbn. by rewrite <- app_assoc.
      - apply starts_with_prefix_ne. cbn [app]. intros r. rewrite <- app_assoc. intros [= E]. apply Hne.
        eapply name_prefix; [done | | exact E]. eapply list.Forall_impl; [exact Hfn |]. (intros ? ?; cbv beta in *; tauto). }
    destruct (bool_decide_reflect (f.1 = name)) as [Ef | Hne].
    + exists (lines_after (field_line <$> fs)).
      change (strstr (13 :: 10 :: field_line f ++ 13 :: 10 :: lines_after (field_line <$> fs)) (13 :: 10 :: name ++ [58])) with
        (if starts_with (13 :: 10 :: name ++ [58]) (13 :: 10 :: field_line f ++ 13 :: 10 :: lines_after (field_line <$> fs))
         then Some (13 :: 10 :: field_line f ++ 13 :: 10 :: lines_after (field_line <$> fs))
         else strstr (10 :: field_line f ++ 13 :: 10 :: lines_after (field_line <$> fs)) (13 :: 10 :: name ++ [58])).
      rewrite Hstart. do 3 f_equal. unfold field_line. rewrite Ef, <- !app_assoc. done.
    + assert (Hsk : strstr (13 :: 10 :: field_line f ++ 13 :: 10 :: lines_after (field_line <$> fs)) (13 :: 10 :: name ++ [58]) =
                    strstr (head_lines (field_line f :: (field_line <$> fs))) (13 :: 10 :: name ++ [58])).
      { change (strstr (13 :: 10 :: field_line f ++ 13 :: 10 :: lines_after (field_line <$> fs)) (13 :: 10 :: name ++ [58])) with
          (if starts_with (13 :: 10 :: name ++ [58]) (13 :: 10 :: field_line f ++ 13 :: 10 :: lines_after (field_line <$> fs))
           then Some (13 :: 10 :: field_line f ++ 13 :: 10 :: lines_after (field_line <$> fs))
           else strstr ([10] ++ field_line f ++ 13 :: 10 :: lines_after (field_line <$> fs)) (13 :: 10 :: name ++ [58])).
        rewrite Hstart, strstr_skip by (by repeat constructor). by rewrite head_lines_cons. }
      rewrite Hsk. apply IH. apply head_line_cr, field_head_line. by repeat split.
Qed.

Lemma strstr_crlf_at v r : no_cr v → strstr (v ++ 13 :: 10 :: r) crlf = Some (13 :: 10 :: r).
Proof. intros. unfold crlf. by rewrite strstr_skip. Qed.

(** find_header gives the value of the first field with the name. *)
Lemma find_header_value name fs sl : name ≠ [] → name_ok name → Forall field_ok fs → no_cr sl →
  find_header (head_lines (sl :: (field_line <$> fs))) name = field_value fs name.
Proof.
  intros Hne Hn Hfs Hsl. unfold find_header, field_value. pose proof (strstr_fields name fs Hne Hn Hfs sl Hsl) as Hs.
  destruct (List.find _ fs) as [f |] eqn:Ef; [| by rewrite Hs]. destruct Hs as [r ->]. cbn [mbind option_bind].
  apply find_some in Ef as [Hin _]. rewrite list.Forall_forall in Hfs. apply list_elem_of_In in Hin.
  destruct (Hfs f Hin) as (_ & _ & Hv & c & v & Ev & Hc).
  assert (drop (length (crlf ++ name ++ [58])) (crlf ++ name ++ 58 :: 32 :: f.2 ++ 13 :: 10 :: r) = 32 :: f.2 ++ 13 :: 10 :: r) as ->.
  { replace (crlf ++ name ++ 58 :: 32 :: f.2 ++ 13 :: 10 :: r) with ((crlf ++ name ++ [58]) ++ 32 :: f.2 ++ 13 :: 10 :: r)
      by (by rewrite <- !app_assoc). apply drop_app_length. }
  cbn [skip_space]. change (isspace 32) with true. cbv iota.
  assert (skip_space (f.2 ++ 13 :: 10 :: r) = f.2 ++ 13 :: 10 :: r) as -> by (rewrite Ev; cbn [app skip_space]; by rewrite Hc).
  rewrite strstr_crlf_at by (eapply list.Forall_impl; [exact Hv |]; (intros ? ?; cbv beta in *; tauto)). cbn [mbind option_bind fmap option_fmap option_map].
  by rewrite before_app.
Qed.

(** The status line: a word, a blank, and the status. *)
Definition status_line (proto st : bytes) : bytes := proto ++ 32 :: st.
Definition status_ok (proto st : bytes) : Prop :=
  Forall (λ b, isspace b = false ∧ b ≠ 0) proto ∧ Forall (λ b, b ≠ 13 ∧ b ≠ 10 ∧ b ≠ 0) st ∧ ∃ c v, st = c :: v ∧ isspace c = false.

Lemma not_space_cr b : isspace b = false → b ≠ 13 ∧ b ≠ 10.
Proof. unfold isspace. lia. Qed.

Lemma status_head_line proto st : status_ok proto st → head_line (status_line proto st).
Proof.
  intros (Hp & Hs & _). split; [by destruct proto |]. apply Forall_app; split; [| by constructor].
  eapply list.Forall_impl; [exact Hp |]. intros b [Hb Hb0]. by destruct (not_space_cr b Hb).
Qed.

Lemma find_status_code_value proto st ls : status_ok proto st →
  find_status_code (head_lines (status_line proto st :: ls)) = Some st.
Proof.
  intros (Hp & Hs & c & v & Ev & Hc). unfold find_status_code. rewrite head_lines_cons. unfold status_line. rewrite <- app_assoc.
  cbn [app]. assert (run_length (λ b, negb (isspace b)) (proto ++ 32 :: st ++ 13 :: 10 :: lines_after ls) = length proto) as ->.
  { induction Hp as [| b p [Hb _] _ IH]; cbn [app run_length]; [done |]. by rewrite Hb, IH. }
  rewrite drop_app_length. cbn [skip_space]. change (isspace 32) with true. cbv iota.
  assert (skip_space (st ++ 13 :: 10 :: lines_after ls) = st ++ 13 :: 10 :: lines_after ls) as -> by (rewrite Ev; cbn [app skip_space]; by rewrite Hc).
  rewrite strstr_crlf_at by (eapply list.Forall_impl; [exact Hs |]; (intros ? ?; cbv beta in *; tauto)). cbn [mbind option_bind]. by rewrite before_app.
Qed.

(** ** Addresses in numbers *)

Lemma inet_ntop4_chars a : Forall (λ b, isdigit b = true ∨ b = 46) (inet_ntop4 a) ∧
  ∃ c s, inet_ntop4 a = c :: s ∧ isdigit c = true.
Proof.
  pose proof (le_bytes_byte 4 a) as Hb. unfold inet_ntop4.
  destruct (le_bytes 4 a) as [| w [| x [| y [| z []]]]] eqn:E; try (by apply (f_equal length) in E; rewrite length_le_bytes in E).
  unfold is_byte in Hb. repeat (apply list.Forall_cons in Hb as [? Hb]). cbn [fmap list_fmap].
  assert (Hd : ∀ n, 0 ≤ n → Forall (λ b, isdigit b = true ∨ b = 46) (fmt_d n)).
  { intros n Hn. destruct (fmt_d_digits n Hn) as [[Hall _] _]. eapply list.Forall_impl; [exact Hall |]. by left. }
  split.
  - assert (Hdot : Forall (λ b, isdigit b = true ∨ b = 46) [46]) by (constructor; [by right | done]).
    repeat (apply Forall_app; split; [by apply Hdot || (apply Hd; lia) |]). apply Hd. lia.
  - destruct (fmt_d_digits w ltac:(lia)) as [[Hall _] Hne]. destruct (fmt_d w) as [| c s]; [done |].
    apply list.Forall_cons in Hall as [Hc _]. by eexists _, _.
Qed.

Lemma splitHostname_numbers a : splitHostname (inet_ntop4 a) = Ret (Some (inet_ntop4 a), None).
Proof.
  destruct (inet_ntop4_chars a) as [Hall (c & s & E & _)].
  assert (Hb : ∀ P : Z → Prop, (∀ b, isdigit b = true ∨ b = 46 → P b) → Forall P (inet_ntop4 a))
    by (intros P HP; eapply list.Forall_impl; [exact Hall | exact HP]).
  assert (H58 : Forall (λ b, b ≠ 58) (inet_ntop4 a)) by (apply Hb; unfold isdigit; intros b Hd; lia).
  assert (Hhost : Forall host_byte (inet_ntop4 a)) by (apply Hb; unfold isdigit, host_byte, is_byte; intros b Hd; lia).
  rewrite split_unbracketed; [| by rewrite E | done | | apply Hb; unfold isdigit; intros b Hd; lia].
  - rewrite occurrences_zero by (done || lia). by rewrite strrchr_none.
  - intros El. apply last_Some in El as [k Ek]. rewrite Ek in H58. by apply Forall_app in H58 as [_ [? _]%list.Forall_cons].
Qed.

(** ** Requests *)

Section requests.
Context {W : Type} `{NetOps W} (inet_pton6 gethostbyname : bytes → option bytes) (junk6 : bytes) (alloca : nat → nat).

Abbreviation http_get := (httpGetFileDesc inet_pton6 gethostbyname junk6 alloca).

(** A connection to a host given in numbers, the request, and the head of the
    response; the worlds in between are those after each of the calls. *)
Record exchange (a port : Z) (remote : bytes) (extra : option bytes) (ls : list bytes) (w : W) (sock : Z) (w' : W) : Prop := {
  ex_addr : 0 ≤ a < 2 ^ 32;
  ex_room : (length (http_request remote (inet_ntop4 a) (default [] extra)) <
             alloca (http_request_room remote (inet_ntop4 a) (default [] extra)))%nat;
  ex_sock : 0 ≤ sock;
  ex_calls : ∃ w1 w2 n w3, n_socket w AF_INET = (sock, w1) ∧
    n_connect w1 sock (mkAddr AF_INET (le_bytes 4 a) (wrap 16 (if port <? 0 then 80 else port))) = (0, w2) ∧
    n_write w2 sock (http_request remote (inet_ntop4 a) (default [] extra)) = (n, w3) ∧
    stream sock w3 (head_lines ls) w';
  ex_short : (length (head_lines ls) < 4096)%nat }.

Lemma http_address_numbers a : 0 ≤ a < 2 ^ 32 →
  http_address inet_pton6 gethostbyname junk6 (inet_ntop4 a) = Ret (0, AF_INET, le_bytes 4 a).
Proof.
  intros Ha. unfold http_address, getHostAddress. rewrite splitHostname_numbers. cbn [mbind outcome_bind checked].
  change (AF_INET =? AF_INET) with true. cbv iota. destruct (inet_ntop4_chars a) as [_ (c & s & E & Hc)].
  rewrite (inet_pton_ntop a Ha), E. change (default 0 (head (c :: s))) with c. by rewrite Hc.
Qed.

(** What is done with the status and the fields of a response. *)
Definition http_answer (fuel : nat) (sock : Z) (extra : option bytes) (size : Z) (st : bytes) (fs : list (bytes * bytes)) (w : W) :
    outcome (option (Z * Z * W)) :=
  let code_is (code : string) := starts_with (str code) st in
  if code_is "200"%string then
    match content_length (field_value fs (str "Content-Length")) with
    | None => Ret None
    | Some size => Ret (Some (sock, size, w))
    end
  else if code_is "301"%string || code_is "302"%string || code_is "303"%string || code_is "307"%string then
    match field_value fs (str "Location") with
    | None => Ret (Some (FTPERR_FILE_NOT_FOUND, size, n_close w sock))
    | Some loc => '(_, _, ui) ← convertURLToUI loc; a ← checked (address ui); p ← checked (prefix ui);
                  http_get fuel a (-1) p extra size w
    end
  else if code_is "403"%string then Ret (Some (FTPERR_PERMISSION_DENIED, size, n_close w sock))
  else if code_is "404"%string then Ret (Some (FTPERR_FILE_NOT_FOUND, size, n_close w sock))
  else Undef.

Lemma http_exchange fuel a port remote extra size proto st fs w sock w' : status_ok proto st → Forall field_ok fs →
  exchange a port remote extra (status_line proto st :: (field_line <$> fs)) w sock w' →
  (length (head_lines (status_line proto st :: (field_line <$> fs))) < S fuel)%nat →
  http_get (S fuel) (inet_ntop4 a) port remote extra size w = http_answer fuel sock extra size st fs w'.
Proof.
  intros Hst Hfs [Ha Hroom Hs (w1 & w2 & n & w3 & Esock & Econn & Ewrite & Hstream) Hshort] Hfuel.
  set (ls := status_line proto st :: (field_line <$> fs)) in *.
  assert (Hls : Forall head_line ls).
  { constructor; [by apply status_head_line |]. apply Forall_fmap. eapply list.Forall_impl; [exact Hfs | apply field_head_line]. }
  assert (Hnul : Forall (λ b, b ≠ 0) (head_lines ls)) by (by apply head_lines_nul).
  assert (Hread : read_headers (S fuel) sock [] 4096 w3 = Ret (0, head_lines ls, w')).
  { apply read_headers_run with (rest := head_lines ls); try done.
    - by apply head_lines_prefix.
    - destruct (head_lines_end ls) as [s ->]; [done |]. rewrite <- (app_nil_r blank_line) at 1. apply strstr_found. }
  cbn [httpGetFileDesc]. rewrite http_address_numbers by done. cbn [mbind outcome_bind].
  change (negb (0 =? 0)) with false. cbv iota. rewrite Esock. destruct (Z.ltb_spec sock 0); [lia |]. rewrite Econn.
  change (negb (0 =? 0)) with false. cbv iota. cbv zeta.
  destruct (Nat.ltb_spec (length (http_request remote (inet_ntop4 a) (default [] extra)))
              (alloca (http_request_room remote (inet_ntop4 a) (default [] extra)))); [| lia].
  cbn [defined_if mbind outcome_bind]. rewrite Ewrite, Hread. cbn [mbind outcome_bind]. change (0 <? 0) with false. cbv iota.
  rewrite until_nul_no_nul by done. unfold ls. rewrite find_status_code_value by done.
  assert (Hcr : no_cr (status_line proto st)) by (by apply head_line_cr, status_head_line).
  rewrite !find_header_value by (done || by repeat constructor). reflexivity.
Qed.

(** C20: One HTTP request.  The head of the response is taken apart whatever
    other fields it has and in whatever order: 200 gives the open socket with
    the head read from it and the size of Content-Length (0 without one); 301,
    302, 303 and 307 go on with the host and the path of Location on port 80,
    the old socket left open; 403 and 404 are errors with the socket closed; any
    other status is undefined, since it is logged after it has been freed. *)
Theorem httpGetFileDesc_by_status fuel a port remote extra size proto st fs w sock w' (Hst : status_ok proto st)
  (Hfs : Forall field_ok fs) (Hex : exchange a port remote extra (status_line proto st :: (field_line <$> fs)) w sock w')
  (Hfuel : (length (head_lines (status_line proto st :: (field_line <$> fs))) < S fuel)%nat) :
  let result := http_get (S fuel) (inet_ntop4 a) port remote extra size w in
  let code_is (code : string) := starts_with (str code) st = true in
  (code_is "200"%string → field_value fs (str "Content-Length") = None → result = Ret (Some (sock, 0, w'))) ∧
  (∀ n, code_is "200"%string → 0 ≤ n < 2 ^ 63 → field_value fs (str "Content-Length") = Some (fmt_d n) →
     result = Ret (Some (sock, n, w'))) ∧
  (∀ host path, code_is "301"%string ∨ code_is "302"%string ∨ code_is "303"%string ∨ code_is "307"%string →
     Forall (λ b, b ≠ 47) host → head path = Some 47 →
     field_value fs (str "Location") = Some (str "http://" ++ host ++ path) →
     result = http_get fuel host (-1) path extra size w') ∧
  (code_is "403"%string → result = Ret (Some (FTPERR_PERMISSION_DENIED, size, n_close w' sock))) ∧
  (code_is "404"%string → result = Ret (Some (FTPERR_FILE_NOT_FOUND, size, n_close w' sock))) ∧
  (Forall (λ code : string, starts_with (str code) st = false) ["200"; "301"; "302"; "303"; "307"; "403"; "404"]%string →
     result = Undef).
Proof.
  cbn zeta. rewrite (http_exchange fuel a port remote extra size proto st fs w sock w') by done. unfold http_answer.
  split_and!.
  - intros Hc Hn. by rewrite Hc, Hn.
  - intros n Hc Hn Hv. rewrite Hc, Hv. unfold content_length.
    rewrite <- (app_nil_r (fmt_d n)), strtol_fmt_d by (done || lia).
    change (fmt_d n ++ []) with ([] ++ fmt_d n ++ []). rewrite read_number_fmt_d by (done || lia).
    destruct (Z.leb_spec (2 ^ 63) n); [lia |]. destruct (Z.ltb_spec n 0); [lia | done].
  - intros host path Hc Hhost Hpath Hloc. assert (starts_with (str "200") st = false) as ->.
    { destruct st as [| a1 [| a2 [| a3 st]]]; destruct_or! Hc; try (by cbn in Hc; rewrite ?andb_false_r in Hc);
        apply starts_with_spec in Hc as [r E]; by injection E as -> -> -> _. }
    assert (starts_with (str "301") st || starts_with (str "302") st || starts_with (str "303") st || starts_with (str "307") st = true) as ->.
    { destruct_or! Hc; rewrite Hc, ?orb_true_r; done. }
    rewrite Hloc. unfold convertURLToUI.
    assert (starts_with (str "ftp://") (str "http://" ++ host ++ path) = false) as -> by reflexivity.
    rewrite starts_with_app. rewrite (drop_app_length' (str "http://")) by done. by rewrite url_host_app.
  - intros Hc. apply starts_with_spec in Hc as [r ->]. done.
  - intros Hc. apply starts_with_spec in Hc as [r ->]. done.
  - intros Hall. repeat (apply list.Forall_cons in Hall as [Hx Hall]; rewrite ?Hx; clear Hx). done.
Qed.

(** The request is a byte longer, with its NUL, than the memory asked for. *)
Lemma http_request_overflow remote hostname hstr :
  length (http_request remote hostname hstr) = http_request_room remote hostname hstr.
Proof. unfold http_request, http_request_room. rewrite !length_app. change (length (str "GET ")) with 4%nat. change (length (str " HTTP/1.0")) with 9%nat. change (length (str "Host: ")) with 6%nat. change (length crlf) with 2%nat. lia. Qed.
End requests.

(** ** Redirections without end *)

Section redirections.
Context {W : Type} `{NetOps W} (inet_pton6 gethostbyname : bytes → option bytes) (junk6 : bytes) (alloca : nat → nat).

Lemma read_headers_short sock h : Forall (λ b, b ≠ 0) h → (∀ k, (k < length h)%nat → strstr (take k h) blank_line = None) →
  (length h < 4096)%nat → ∀ rest acc fuel w w', acc ++ rest = h → stream sock w rest w' → (fuel ≤ length rest)%nat →
  read_headers fuel sock acc 4096 w = NoFuel.
Proof.
  intros Hnul Hpre Hlen. induction rest as [| b rest IH]; intros acc fuel w w' E Ha Hf;
    (destruct fuel as [| fuel]; [done |]); [cbn in Hf; lia |]. cbn [read_headers].
  assert (Forall (λ b, b ≠ 0) acc) by (subst h; by apply Forall_app in Hnul as [? _]).
  rewrite until_nul_no_nul by done. change (crlf ++ crlf) with blank_line.
  assert (Hacc : take (length acc) h = acc) by (subst h; apply take_app_length).
  assert (length h = length acc + S (length rest))%nat as Hl by (subst h; rewrite length_app; done).
  assert (strstr acc blank_line = None) as -> by (rewrite <- Hacc; apply Hpre; lia).
  rewrite bool_decide_false by (by intros []).
  inversion Ha as [| ? w1 w2 ? b1 s1 Hsel Hread Ha']; subst. rewrite Hsel. change (1 =? 0) with false. change (1 <? 0) with false.
  cbv iota. rewrite Hread. change (negb (1 =? 1)) with false. cbv iota. cbv zeta.
  destruct (Nat.ltb_spec (length (acc ++ [b])) 4096) as [| Hge]; [| rewrite length_app in Hge; cbn in Hge; lia].
  cbn [defined_if mbind outcome_bind]. rewrite bool_decide_false by lia.
  eapply IH; [by rewrite <- app_assoc | done | cbn in Hf; lia].
Qed.

(** A server that redirects a path to itself keeps httpGetFileDesc busy for
    ever: redirections are followed without a limit. *)
Theorem http_redirects_forever (P : W → Prop) a path extra proto st fs (Hst : status_ok proto st) (Hfs : Forall field_ok fs)
  (Hcode : starts_with (str "301") st = true ∨ starts_with (str "302") st = true ∨ starts_with (str "303") st = true ∨
           starts_with (str "307") st = true)
  (Hpath : head path = Some 47) (Hloc : field_value fs (str "Location") = Some (str "http://" ++ inet_ntop4 a ++ path))
  (Hserver : ∀ w, P w → ∃ sock w', exchange alloca a (-1) path extra (status_line proto st :: (field_line <$> fs)) w sock w' ∧ P w') :
  ∀ fuel size w, P w → httpGetFileDesc inet_pton6 gethostbyname junk6 alloca fuel (inet_ntop4 a) (-1) path extra size w = NoFuel.
Proof.
  induction fuel as [| fuel IH]; intros size w Hw; [done |]. destruct (Hserver w Hw) as (sock & w' & Hex & Hw').
  destruct (Nat.le_gt_cases (S fuel) (length (head_lines (status_line proto st :: (field_line <$> fs))))) as [Hle |].
  - destruct Hex as [Ha Hroom Hs (w1 & w2 & n & w3 & Esock & Econn & Ewrite & Hstream) Hshort].
    cbn [httpGetFileDesc]. rewrite http_address_numbers by done. cbn [mbind outcome_bind].
    change (negb (0 =? 0)) with false. cbv iota. rewrite Esock. destruct (Z.ltb_spec sock 0); [lia |]. rewrite Econn.
    change (negb (0 =? 0)) with false. cbv iota. cbv zeta.
    destruct (Nat.ltb_spec (length (http_request path (inet_ntop4 a) (default [] extra)))
                (alloca (http_request_room path (inet_ntop4 a) (default [] extra)))); [| lia].
    cbn [defined_if mbind outcome_bind]. rewrite Ewrite.
    assert (Hls : Forall head_line (status_line proto st :: (field_line <$> fs))).
    { constructor; [by apply status_head_line |]. apply Forall_fmap. eapply list.Forall_impl; [exact Hfs | apply field_head_line]. }
    set (ls := status_line proto st :: (field_line <$> fs)) in *. assert (Hne : ls ≠ []) by done.
    rewrite (read_headers_short sock _ (head_lines_nul _ Hls) (head_lines_prefix _ Hne Hls) Hshort (head_lines ls) [] (S fuel) w3 w');
      [done | done | done | lia].
  - rewrite (http_exchange inet_pton6 gethostbyname junk6 alloca fuel a (-1) path extra size proto st fs w sock w') by done.
    unfold http_answer. assert (starts_with (str "200") st = false) as ->.
    { destruct_or! Hcode; apply starts_with_spec in Hcode as [r ->]; reflexivity. }
    assert (starts_with (str "301") st || starts_with (str "302") st || starts_with (str "303") st || starts_with (str "307") st = true) as ->.
    { destruct_or! Hcode; rewrite Hcode, ?orb_true_r; done. }
    rewrite Hloc. unfold convertURLToUI.
    assert (starts_with (str "ftp://") (str "http://" ++ inet_ntop4 a ++ path) = false) as -> by reflexivity.
    rewrite starts_with_app. rewrite (drop_app_length' (str "http://")) by done.
    rewrite url_host_app; [| | done].
    2:{ destruct (inet_ntop4_chars a) as [Hall _]. eapply list.Forall_impl; [exact Hall |]. unfold isdigit. intros b Hb. lia. }
    cbn [mbind outcome_bind checked address prefix]. by apply IH.
Qed.
End redirections.

(** ** Servers with a script *)

(** What a server at an address sends, piece by piece, before it closes; the
    open connections, and what was written and closed. *)
Record script_net := mkNet {
  nt_serve : sockaddr → list bytes; nt_next : Z; nt_conns : list (Z * list bytes); nt_log : list (Z * bytes) }.

Definition conn_of (w : script_net) (fd : Z) : list bytes :=
  match List.find (λ c, c.1 =? fd) (nt_conns w) with Some c => c.2 | None => [] end.
Definition set_conn (fd : Z) (l : list bytes) (w : script_net) : script_net :=
  mkNet (nt_serve w) (nt_next w) ((fd, l) :: List.filter (λ c, negb (c.1 =? fd)) (nt_conns w)) (nt_log w).
Definition script_read (w : script_net) (fd n : Z) : Z * bytes * script_net :=
  match conn_of w fd with
  | [] => (0, [], w)
  | d :: ds =>
      let got := take (Z.to_nat n) d in
      (Z.of_nat (length got), got, set_conn fd (if bool_decide (drop (Z.to_nat n) d = []) then ds else drop (Z.to_nat n) d :: ds) w)
  end.

#[export] Instance script_net_ops : NetOps script_net := {|
  n_socket w _ := (nt_next w, mkNet (nt_serve w) (nt_next w + 1) (nt_conns w) (nt_log w));
  n_connect w fd a := (0, set_conn fd (nt_serve w a) w);
  n_nonblock w _ := (0, w);
  n_close w fd := mkNet (nt_serve w) (nt_next w) (List.filter (λ c, negb (c.1 =? fd)) (nt_conns w)) (nt_log w);
  n_select w _ := (1, w);
  n_read := script_read;
  n_write w fd d := (Z.of_nat (length d), mkNet (nt_serve w) (nt_next w) (nt_conns w) (nt_log w ++ [(fd, d)]))
|}.

(** The connection after some pieces have been read. *)
Fixpoint advance (fd : Z) (k : nat) (w : script_net) : script_net :=
  match k with O => w | S k => advance fd k (set_conn fd (tail (conn_of w fd)) w) end.

Lemma conn_of_set fd l w : conn_of (set_conn fd l w) fd = l.
Proof. unfold conn_of, set_conn. cbn. by rewrite Z.eqb_refl. Qed.

Lemma script_arrives fd ds rest : ∀ w, conn_of w fd = ds ++ rest → arrives fd w ds (advance fd (length ds) w).
Proof.
  induction ds as [| d ds IH]; intros w E; [constructor |]. cbn [length advance].
  eapply arrives_cons with (w1 := w) (w2 := set_conn fd (tail (conn_of w fd)) w); [done | |].
  - intros n Hn. cbn. unfold script_read. rewrite E. cbn [app tail]. rewrite take_ge, drop_ge by lia.
    by rewrite bool_decide_true.
  - apply IH. rewrite conn_of_set, E. done.
Qed.

Lemma script_stream fd s rest : ∀ w, conn_of w fd = ((λ b, [b]) <$> s) ++ rest → stream fd w s (advance fd (length s) w).
Proof.
  induction s as [| b s IH]; intros w E; [constructor |]. cbn [length advance].
  eapply stream_cons with (w1 := w) (w2 := set_conn fd (tail (conn_of w fd)) w); [done | |].
  - cbn. unfold script_read. rewrite E. cbn. done.
  - apply IH. rewrite conn_of_set, E. done.
Qed.

Definition control (chunks : list bytes) : script_net := mkNet (λ _, []) 4 [(3, chunks)] [].
Definition old_buffer : bytes := replicate FTP_BUF 120.

Lemma chars_checked l : forallb (λ b, negb (b =? 0) && negb (b =? 10)) l = true → line_ok l.
Proof. intros Hl. apply Forall_forall. intros x Hx. rewrite forallb_forall in Hl. apply Hl in Hx. lia. Qed.

Definition hello : list (list bytes) := [[str "220-Welcome"; str "  to the mirror"]; [str "220 ready"]].

Lemma ftpCheckResponse_reply_witness : ∃ i buf',
  cstr buf' i = Ret (str "220 ready") ∧
  ftpCheckResponse 2 3 old_buffer (control (piece <$> hello)) = Ret (0, Some i, buf', advance 3 2 (control (piece <$> hello))).
Proof.
  destruct (ftpCheckResponse_reply 3 (str "220") hello 2 old_buffer (control (piece <$> hello)) (advance 3 2 (control (piece <$> hello))))
    as (last & i & buf' & El & Es & _ & Er).
  - reflexivity.
  - reflexivity.
  - done.
  - repeat constructor; (done || apply chars_checked; reflexivity || (vm_compute; lia)).
  - change (mjoin hello) with (str "220-Welcome" :: [str "  to the mirror"] ++ [str "220 ready"]).
    apply reply_multi; try reflexivity. repeat constructor. by intros [].
  - exact (script_arrives 3 (piece <$> hello) [] (control (piece <$> hello)) eq_refl).
  - cbn. lia.
  - exists i, buf'. injection El as <-. done.
Defined.

Lemma ftpCheckResponse_closed_hangs_witness :
  (∀ fuel, ftpCheckResponse fuel 3 (replicate FTP_BUF 0) (control []) = NoFuel) ∧
  (∀ fuel buf r, Forall (λ b, b ≠ 10) buf → ftpCheckResponse fuel 3 buf (control []) ≠ Ret r).
Proof. apply (ftpCheckResponse_closed_hangs 3 (control [])); [reflexivity | intros n; reflexivity]. Defined.

(** What is left of the greeting of a server behind the first piece of a reply
    to PASV. *)
Definition greeting_buffer : bytes :=
  str "220 This server is placed in our west wing" ++ replicate (FTP_BUF - 42) 0.
Definition pasv_cut : list bytes := [str "227 Entering Passive Mode (10,0,"; wire (str "0,1,4,5)")].

Lemma ftpCheckResponse_cut_line_witness : ∃ buf',
  ftpCheckResponse 2 3 greeting_buffer (control pasv_cut) = Ret (0, Some O, buf', advance 3 2 (control pasv_cut)) ∧
  cstr buf' 0 = Ret (str "227 Entering Passive Mode (10,0,").
Proof.
  apply (ftpCheckResponse_cut_line 3 (str "227 Entering Passive Mode (10,0,") (str "0,1,4,5)") (str "west wing")
           (str "220 This server is placed in our ") (replicate (FTP_BUF - 44) 0) greeting_buffer 0
           (control pasv_cut) (advance 3 2 (control pasv_cut)));
    try (apply chars_checked); try reflexivity; try (vm_compute; lia); try done.
  exact (script_arrives 3 pasv_cut [] (control pasv_cut) eq_refl).
Defined.

(** A mirror at 10.0.0.1 that holds a file of 1048576 bytes. *)
Definition mirror_addr : Z := le_val [10; 0; 0; 1].
Definition pasv_line : bytes := str "227 Entering Passive Mode " ++ 40 :: pasv_numbers mirror_addr 156 64 ++ 41 :: [].
Definition ftp_replies : list bytes := [wire pasv_line; wire (str "213 1048576"); wire (str "150 here it comes")].
Definition ftp_w0 : script_net := control ftp_replies.
Definition logged (fd : Z) (d : bytes) (w : script_net) : script_net := snd (n_write w fd d).
Definition ftp_w2 : script_net := advance 3 1 (logged 3 (str "PASV" ++ crlf) ftp_w0).
Definition ftp_w3 : script_net := snd (n_socket ftp_w2 AF_INET).
Definition ftp_w5 : script_net := advance 3 1 (logged 3 (str "SIZE /f.img" ++ crlf) ftp_w3).
Definition ftp_w7 : script_net := set_conn 4 [] (logged 3 (str "RETR /f.img" ++ crlf) ftp_w5).

Lemma single_reply code l w rest : length code = 3%nat → take 3 l = code → byte3 l ≠ 45 → line_ok l → (length (wire l) ≤ BUFFER_SIZE)%nat →
  conn_of w 3 = wire l :: rest → replies 3 1 code l w (advance 3 1 w).
Proof.
  intros Hc Ht Hb Hl Hlen Hconn. exists [[l]]. split_and!; [done | done | cbn; lia | | by constructor | done |].
  - constructor; [| constructor]. split_and!; [done | by constructor |]. unfold piece. by rewrite join_cons, join_nil, app_nil_r.
  - assert (piece <$> [[l]] = [wire l]) as -> by (unfold piece; cbn [fmap list_fmap]; do 2 f_equal; apply app_nil_r).
    exact (script_arrives 3 [wire l] rest w Hconn).
Qed.

Lemma ftpGetFileDesc_retrieves_witness : ∃ buf',
  ftpGetFileDesc 1 3 [] AF_INET (str "/f.img") 0 old_buffer ftp_w0 = Ret (4, 1048576, buf', advance 3 1 ftp_w7) ∧
  nt_log (advance 3 1 ftp_w7) =
    [(3, str "PASV" ++ crlf); (3, str "SIZE /f.img" ++ crlf); (3, str "RETR /f.img" ++ crlf)].
Proof.
  destruct (ftpGetFileDesc_retrieves 3 mirror_addr 156 64 (str "227") (str "227 Entering Passive Mode ") [] (str "213") (str "213 1048576")
    (str "150") (str "150 here it comes") [] (str "/f.img") old_buffer 4 0 1048576 1 ftp_w0
    (logged 3 (str "PASV" ++ crlf) ftp_w0) ftp_w2 ftp_w3 (logged 3 (str "SIZE " ++ str "/f.img" ++ crlf) ftp_w3) ftp_w5
    (logged 3 (str "RETR " ++ str "/f.img" ++ crlf) ftp_w5) ftp_w7 (advance 3 1 ftp_w7)) as [buf' E];
    try reflexivity; try lia; try (vm_compute; split; congruence).
  - repeat constructor; discriminate.
  - eapply single_reply; try reflexivity; [discriminate | apply chars_checked; reflexivity | vm_compute; lia].
  - eapply single_reply; try reflexivity; [discriminate | apply chars_checked; reflexivity | vm_compute; lia].
  - right. split_and!; try reflexivity; try lia. repeat constructor.
  - eapply single_reply; try reflexivity; [discriminate | apply chars_checked; reflexivity | vm_compute; lia].
  - exists buf'. split; [exact E | reflexivity].
Defined.

(** ** HTTP servers *)

Definition web (chunks : list bytes) : script_net := mkNet (λ _, chunks) 3 [] [].
Definition bytewise (s : bytes) : list bytes := (λ b, [b]) <$> s.
Definition ok_fields : list (bytes * bytes) :=
  [(str "Server", str "mirror"); (str "Content-Length", fmt_d 5); (str "X-Content-Length", str "7")].
Definition ok_head : list bytes := status_line (str "HTTP/1.1") (str "200 OK") :: (field_line <$> ok_fields).
Definition ok_server : script_net := web (bytewise (head_lines ok_head ++ str "hello")).
Definition web_request : bytes := http_request (str "/ks.cfg") (inet_ntop4 mirror_addr) [].
Definition web_connected (w : script_net) : script_net := logged 3 web_request (set_conn 3 (nt_serve w (mkAddr AF_INET (le_bytes 4 mirror_addr) 80)) (snd (n_socket w AF_INET))).
Definition web_read (n : nat) (w : script_net) : script_net := advance 3 n (web_connected w).

(** The lines and fields of an example are fit to be printed. *)
Definition field_check (f : bytes * bytes) : bool :=
  forallb (λ b, negb (b =? 13) && negb (b =? 10) && negb (b =? 0) && negb (b =? 58)) f.1 &&
  forallb (λ b, negb (b =? 13) && negb (b =? 10) && negb (b =? 0)) f.2 &&
  negb (bool_decide (f.1 = [])) && match f.2 with c :: _ => negb (isspace c) | [] => false end.

Lemma field_check_ok f : field_check f = true → field_ok f.
Proof.
  unfold field_check, field_ok. rewrite !andb_true_iff, !forallb_forall, !Forall_forall. intros [[[Hn Hv] Hne] Hs].
  split_and!.
  - by apply negb_true_iff, bool_decide_eq_false_1 in Hne.
  - intros b Hb. specialize (Hn b Hb). lia.
  - intros b Hb. specialize (Hv b Hb). lia.
  - destruct f.2 as [| c v]; [done |]. exists c, v. split; [done |]. by destruct (isspace c).
Qed.

Lemma fields_check fs : forallb field_check fs = true → Forall field_ok fs.
Proof. rewrite forallb_forall, Forall_forall. eauto using field_check_ok. Qed.

Lemma http_status_ok st : field_check ([104], st) = true → status_ok (str "HTTP/1.1") st.
Proof.
  intros (_ & _ & Hst & Hc)%field_check_ok. split_and!; [| done | done].
  repeat constructor; discriminate.
Qed.

Lemma web_exchange proto st fs body : 
  let ls := status_line proto st :: (field_line <$> fs) in
  let w := web (bytewise (head_lines ls ++ body)) in
  (length (head_lines ls) < 4096)%nat →
  exchange S mirror_addr (-1) (str "/ks.cfg") None ls w 3 (web_read (length (head_lines ls)) w).
Proof.
  cbn zeta. intros Hlen. constructor; try done; try (vm_compute; split; congruence); try (vm_compute; lia).
  exists (snd (n_socket (web (bytewise (head_lines (status_line proto st :: (field_line <$> fs)) ++ body))) AF_INET)).
  eexists _, _, _. split_and!; [reflexivity | reflexivity | reflexivity |].
  apply script_stream with (rest := bytewise body). unfold bytewise. cbn. rewrite fmap_app. done.
Qed.

Lemma httpGetFileDesc_by_status_witness :
  httpGetFileDesc (λ _, None) (λ _, None) [] S 4000 (inet_ntop4 mirror_addr) (-1) (str "/ks.cfg") None 0 ok_server =
  Ret (Some (3, 5, web_read (length (head_lines ok_head)) ok_server)).
Proof.
  destruct (httpGetFileDesc_by_status (λ _, None) (λ _, None) [] S 3999 mirror_addr (-1) (str "/ks.cfg") None 0 (str "HTTP/1.1") (str "200 OK")
    ok_fields ok_server 3 (web_read (length (head_lines ok_head)) ok_server)) as (_ & H & _).
  - by apply http_status_ok.
  - by apply fields_check.
  - apply (web_exchange (str "HTTP/1.1") (str "200 OK") ok_fields (str "hello")). vm_compute. lia.
  - vm_compute. lia.
  - apply (H 5); [reflexivity | lia | reflexivity].
Defined.

Lemma read_headers_bounds_witness :
  read_headers 4000 3 [] 4096 (web_connected ok_server) = Ret (0, head_lines ok_head, web_read (length (head_lines ok_head)) ok_server).
Proof.
  refine (proj1 (read_headers_bounds 3 ok_head 4000 (web_connected ok_server) (web_read (length (head_lines ok_head)) ok_server) _ _ _ _ _)).
  - done.
  - constructor; [apply status_head_line; by apply http_status_ok |]. apply Forall_fmap.
    eapply list.Forall_impl; [by apply fields_check | apply field_head_line].
  - vm_compute. lia.
  - apply script_stream with (rest := bytewise (str "hello")). reflexivity.
  - vm_compute. lia.
Defined.

(** A page that has moved to itself. *)
Definition moved_fields : list (bytes * bytes) := [(str "Location", str "http://10.0.0.1/ks.cfg")].
Definition moved_head : list bytes := status_line (str "HTTP/1.1") (str "302 Found") :: (field_line <$> moved_fields).
Definition moved_world (w : script_net) : Prop :=
  0 ≤ nt_next w ∧ ∀ a, nt_serve w a = bytewise (head_lines moved_head).

Lemma advance_world fd k w : nt_next (advance fd k w) = nt_next w ∧ nt_serve (advance fd k w) = nt_serve w.
Proof. revert w. induction k as [| k IH]; intros w; [done |]. cbn [advance]. destruct (IH (set_conn fd (tail (conn_of w fd)) w)) as [-> ->]. done. Qed.

Lemma http_redirects_forever_witness :
  ∀ fuel size, httpGetFileDesc (λ _, None) (λ _, None) [] S fuel (inet_ntop4 mirror_addr) (-1) (str "/ks.cfg") None size
    (web (bytewise (head_lines moved_head))) = NoFuel.
Proof.
  intros fuel size.
  apply (http_redirects_forever (λ _, None) (λ _, None) [] S moved_world mirror_addr (str "/ks.cfg") None (str "HTTP/1.1") (str "302 Found") moved_fields).
  - by apply http_status_ok.
  - by apply fields_check.
  - right. left. reflexivity.
  - reflexivity.
  - reflexivity.
  - intros w [Hn Hs]. exists (nt_next w), (advance (nt_next w) (length (head_lines moved_head))
      (logged (nt_next w) web_request (set_conn (nt_next w) (nt_serve w (mkAddr AF_INET (le_bytes 4 mirror_addr) 80)) (snd (n_socket w AF_INET))))).
    split; [split; [vm_compute; split; congruence | vm_compute; lia | exact Hn | | vm_compute; lia] |].
    + exists (snd (n_socket w AF_INET)), (set_conn (nt_next w) (nt_serve w (mkAddr AF_INET (le_bytes 4 mirror_addr) 80)) (snd (n_socket w AF_INET))).
      eexists _, _. split_and!; [reflexivity | reflexivity | reflexivity |].
      apply script_stream with (rest := []). rewrite app_nil_r. change ((λ b, [b]) <$> head_lines moved_head) with (bytewise (head_lines moved_head)).
      rewrite <- (Hs (mkAddr AF_INET (le_bytes 4 mirror_addr) 80)). apply conn_of_set.
    + destruct (advance_world (nt_next w) (length (head_lines moved_head)) (logged (nt_next w) web_request (set_conn (nt_next w)
        (nt_serve w (mkAddr AF_INET (le_bytes 4 mirror_addr) 80)) (snd (n_socket w AF_INET))))) as [E1 E2].
      split; [rewrite E1; cbn; lia | intros a; rewrite E2; apply Hs].
  - split; [cbn; lia | done].
Defined.

(** A command is its words separated by blanks, with CRLF behind. *)
Lemma command_line_words command a : command_line command [a] = command ++ 32 :: a ++ crlf.
Proof.
  unfold command_line. cbn [fmap list_fmap]. change (mjoin [a ++ [32]]) with ((a ++ [32]) ++ []). rewrite app_nil_r.
  set (s := command ++ [32] ++ a ++ [32]). assert (Es : s = (command ++ 32 :: a) ++ [32]) by (unfold s; by rewrite <- !app_assoc).
  assert (Hl : length s = S (length (command ++ 32 :: a))) by (rewrite Es, length_app; cbn; lia).
  cbn zeta. rewrite Hl. set (t := command ++ 32 :: a) in *.
  replace (S (S (length t)) - 1)%nat with (S (length t)) by lia. replace (S (S (length t)) - 2)%nat with (length t) by lia.
  rewrite Es, <- app_assoc. cbn [app]. rewrite !insert_app_r_alt by lia. rewrite Nat.sub_diag.
  replace (S (length t) - length t)%nat with 1%nat by lia. replace (S (S (length t)) - length t)%nat with 2%nat by lia.
  cbn [insert list_insert]. rewrite take_app_ge by lia. replace (S (S (length t)) - length t)%nat with 2%nat by lia.
  unfold t, crlf. cbn [take]. by rewrite <- app_assoc.
Qed.
