(* ===== verification/ModuleInfo.v ===== *)
(** * Module descriptions (stage-1/moduleinfo.c)

    readModuleInfo with its in-place cutting of the buffer, findModuleInfo and
    getModuleList.  A [moduleInfoSet] is the array of its modules and their
    number; while a file is read the array may hold one more, the module that is
    not counted yet. *)

From S2P Require Import Prelude CLib Posix.

Inductive driverMajor :=
  | DRIVER_NONE | DRIVER_SCSI | DRIVER_NET | DRIVER_CDROM | DRIVER_PCMCIA | DRIVER_FS | DRIVER_IDE
  | DRIVER_OTHER | DRIVER_ANY.
Inductive driverMinor := DRIVER_MINOR_NONE | DRIVER_MINOR_ETHERNET | DRIVER_MINOR_TR.
#[export] Instance driverMajor_eq_dec : EqDecision driverMajor.
Proof. solve_decision. Defined.
#[export] Instance driverMinor_eq_dec : EqDecision driverMinor.
Proof. solve_decision. Defined.

(** A [void *]: null or a number for what it points to. *)
Abbreviation ptr := (option nat).

Record moduleArg := mkArg { arg : bytes; arg_description : bytes }.
Record moduleInfo := mkModule {
  moduleName : bytes; description : option bytes; major : driverMajor; minor : driverMinor;
  args : list moduleArg; flags : Z; locationID : ptr }.
Record moduleInfoSet := mkSet { moduleList : list moduleInfo; numModules : nat }.

Definition newModuleInfoSet : moduleInfoSet := mkSet [] 0.

(** ** Looking modules up *)

(** [for (i = 0; i < mis->numModules; i++)]: an entry replaces the one found
    unless that has a location and it has none. *)
Fixpoint find_loop (name : bytes) (l : list moduleInfo) (i : nat) (found : option (nat * moduleInfo)) :
    option (nat * moduleInfo) :=
  match l with
  | [] => found
  | m :: l =>
      let found :=
        if streq name (moduleName m) then
          match found with
          | None => Some (i, m)
          | Some (_, f) =>
              if bool_decide (is_Some (locationID f)) && negb (bool_decide (is_Some (locationID m))) then found
              else Some (i, m)
          end
        else found in
      find_loop name l (S i) found
  end.
Definition findModuleInfo (mis : moduleInfoSet) (name : bytes) : option (nat * moduleInfo) :=
  find_loop name (take (numModules mis) (moduleList mis)) 0 None.

Definition wanted (m : driverMajor) (mi : moduleInfo) : bool :=
  bool_decide (major mi = m) || bool_decide (m = DRIVER_NONE).

(** The copies (null for none).  The array has room for the modules of the set
    and one byte more, and the terminator is written behind the copies. *)
Definition getModuleList (mis : moduleInfoSet) (m : driverMajor) : outcome (option (list moduleInfo)) :=
  let l := List.filter (wanted m) (take (numModules mis) (moduleList mis)) in
  match l with
  | [] => Ret None
  | _ => _ ← defined_if (length l <? numModules mis)%nat; Ret (Some l)
  end.

(** ** Reading a file *)

(** [while (isspace( *chptr)) chptr--;] *)
Fixpoint trim_back (buf : bytes) (i : nat) : outcome nat :=
  b ← checked (buf !! i);
  if isspace b then match i with O => Undef | S i => trim_back buf i end else Ret i.

(** [while (isspace( *start) && *start != '\n') start++;] *)
Fixpoint skip_blanks (s : bytes) : nat :=
  match s with b :: r => if isspace b && negb (b =? 10) then S (skip_blanks r) else O | [] => O end.

(** Cut off the line at [start]: the buffer, where its text starts, whether it
    is indented, and where the next line starts.  Without a newline the code
    computes with a null pointer. *)
Definition cut_line (buf : bytes) (start : nat) : outcome (bytes * nat * bool * nat) :=
  let s := until_nul (drop start buf) in
  match strchr s 10 with
  | None => Undef
  | Some t =>
      let e := (start + length (before s t))%nat in
      i ← (match e with O => Undef | S e => trim_back buf e end);
      let buf := <[S i := 0]> buf in
      b ← checked (buf !! start);
      let indented := isspace b in
      let start := if indented then (start + skip_blanks (drop start buf))%nat else start in
      Ret (buf, start, indented, S e)
  end.

(** The text behind the last white space; [start] is kept when only its first
    character is white or none is. *)
Definition class_word (s : bytes) : bytes :=
  match s with
  | [] => []
  | b :: r =>
      (fix go (r : bytes) (w : bytes) : bytes :=
         match r with [] => w | c :: r => go r (if isspace c then r else w) end) r s
  end.

Definition classify (w : bytes) : driverMajor * option driverMinor :=
  if streq w (str "eth") then (DRIVER_NET, Some DRIVER_MINOR_ETHERNET)
  else if streq w (str "tr") then (DRIVER_NET, Some DRIVER_MINOR_TR)
  else if streq w (str "scsi_hostadapter") || streq w (str "scsi") then (DRIVER_SCSI, None)
  else if streq w (str "pcmcia") then (DRIVER_PCMCIA, None)
  else if streq w (str "fs") then (DRIVER_FS, None)
  else if streq w (str "cdrom") then (DRIVER_CDROM, None)
  else if streq w (str "ide") then (DRIVER_IDE, None)
  else (DRIVER_OTHER, None).

(** An argument line: a name, white space, and a description in quotes. *)
Fixpoint first_word (s : bytes) : bytes * bytes :=
  match s with
  | [] => ([], [])
  | b :: r => if isspace b then ([], s) else let '(w, t) := first_word r in (b :: w, t)
  end.
Definition arg_of (s : bytes) : option moduleArg :=
  let '(w, t) := first_word s in
  match t with
  | [] => None
  | _ :: t =>
      match skip_space t with
      | c :: d => if c =? 34 then match strchr d 34 with Some q => Some (mkArg w (before d q)) | None => None end else None
      | [] => None
      end
  end.

(** What a line of its description does to a module. *)
Definition describe (s : bytes) (m : moduleInfo) : moduleInfo :=
  if decide (major m = DRIVER_NONE) then
    let '(mj, mn) := classify (class_word s) in
    mkModule (moduleName m) (description m) mj (default (minor m) mn) (args m) (flags m) (locationID m)
  else
    match description m with
    | None =>
        if bool_decide (head s = Some 34) && bool_decide (list.last s = Some 34) then
          mkModule (moduleName m) (Some (removelast (tail s))) (major m) (minor m) (args m) (flags m) (locationID m)
        else m
    | Some _ =>
        match arg_of s with
        | Some a => mkModule (moduleName m) (description m) (major m) (minor m) (args m ++ [a]) (flags m) (locationID m)
        | None => m
        end
    end.

(** The state of the loop: [nextModule] is an index. *)
Record mi_state := mkMi { mi_set : moduleInfoSet; nextModule : option nat; skipModule : bool }.

(** A module that is still uncounted is counted. *)
Definition count_next (st : mi_state) : moduleInfoSet :=
  let mis := mi_set st in
  if bool_decide (nextModule st = Some (numModules mis)) then mkSet (moduleList mis) (S (numModules mis)) else mis.

Definition fresh_module (name : bytes) (location : ptr) : moduleInfo :=
  mkModule name None DRIVER_NONE DRIVER_MINOR_NONE [] 0 location.

(** A line that names a module. *)
Definition name_line (s : bytes) (override : bool) (location : ptr) (st : mi_state) : mi_state :=
  let mis := count_next st in
  match list_find (λ m, moduleName m = s) (take (numModules mis) (moduleList mis)) with
  | Some (i, m) =>
      if override then
        mkMi (mkSet (<[i := fresh_module (moduleName m) location]> (moduleList mis)) (numModules mis)) (Some i) false
      else mkMi mis None true
  | None =>
      mkMi (mkSet (take (numModules mis) (moduleList mis) ++ [fresh_module s location]) (numModules mis))
        (Some (numModules mis)) false
  end.

(** An indented line; without a module, and without one skipped, the code reads
    through a null pointer. *)
Definition detail_line (s : bytes) (st : mi_state) : outcome mi_state :=
  match nextModule st with
  | None => if skipModule st then Ret st else Undef
  | Some i =>
      let mis := mi_set st in
      m ← checked (moduleList mis !! i);
      Ret (mkMi (mkSet (<[i := describe s m]> (moduleList mis)) (numModules mis)) (Some i) (skipModule st))
  end.

Fixpoint read_loop (fuel : nat) (override : bool) (location : ptr) (buf : bytes) (start : nat) (st : mi_state) :
    outcome mi_state :=
  match fuel with
  | O => NoFuel
  | S fuel =>
      b ← checked (buf !! start);
      if b =? 0 then Ret st
      else
        '(buf, text, indented, next) ← cut_line buf start;
        let s := until_nul (drop text buf) in
        st ← (match s with
              | [] => Ret st
              | c :: _ =>
                  if (c =? 10) || (c =? 35) then Ret st
                  else if indented : bool then detail_line s st else Ret (name_line s override location st)
              end);
        read_loop fuel override location buf next st
  end.

Section read.
Context {F : Type} `{FileOps F}.

(** [file] is the descriptor open returns, with the size fstat finds.  The
    result and the set. *)
Definition readModuleInfo (file : option (F * Z)) (mis : moduleInfoSet) (location : ptr) (override : bool) :
    outcome (Z * moduleInfoSet) :=
  match file with
  | None => Ret (-1, mis)
  | Some (f, size) =>
      let '(i, d, _) := f_read f size in
      if negb (i =? size) then Ret (-1, mis)
      else
        let buf := d ++ [0] in
        if negb (starts_with (str "Version 0" ++ [10]) buf) then Ret (-1, mis)
        else
          st ← read_loop (length buf) override location buf 10 (mkMi mis None false);
          Ret (0, count_next st)
  end.
End read.
