(* ===== verification/ModuleInfoFacts.v ===== *)
(** * Module descriptions: facts (stage-1/moduleinfo.c)

    Files written line by line ([mod_text]) are read back, and whatever is read
    leaves the names of a set distinct. *)

From S2P Require Import Prelude CLib Posix ModuleInfo.

(** ** One line *)

(** A character of a line. *)
Definition line_char (b : Z) : Prop := b ≠ 0 ∧ b ≠ 10.

Lemma line_nul l : Forall line_char l → Forall (λ b, b ≠ 0) l.
Proof. intros H. eapply list.Forall_impl; [exact H |]. by intros ? []. Qed.
Lemma line_nl l : Forall line_char l → Forall (λ b, b ≠ 10) l.
Proof. intros H. eapply list.Forall_impl; [exact H |]. by intros ? []. Qed.

(** A text that begins and ends with something to see. *)
Record visible (s : bytes) : Prop := {
  vi_chars : Forall line_char s;
  vi_head : ∃ b, head s = Some b ∧ isspace b = false ∧ b ≠ 35;
  vi_last : ∃ b, list.last s = Some b ∧ isspace b = false }.

Lemma last_lookup {A} (l : list A) x : list.last l = Some x → ∃ k, l = k ++ [x].
Proof. by apply last_Some. Qed.

(** A line that ends visibly is cut at its newline. *)
Lemma cut_line_run buf start l rest b : drop start buf = l ++ 10 :: rest → Forall line_char l →
  list.last l = Some b → isspace b = false →
  ∃ buf', cut_line buf start =
    Ret (buf', (if bool_decide (isspace <$> head l = Some true) then start + skip_blanks (l ++ 0%Z :: rest) else start)%nat,
         bool_decide (isspace <$> head l = Some true), (start + length l + 1)%nat) ∧
    drop start buf' = l ++ 0 :: rest ∧ drop (start + length l + 1) buf' = rest.
Proof.
  intros E Hl Hlast Hb. unfold cut_line.
  assert (Hnl : Forall (λ b, b ≠ 10) l) by (by apply line_nl).
  assert (Hn0 : Forall (λ b, b ≠ 0) l) by (by apply line_nul).
  assert (Hu : ∃ r, until_nul (drop start buf) = l ++ 10 :: r).
  { rewrite E. clear -Hn0. induction Hn0 as [| c l Hc _ IH]; cbn [app until_nul].
    - change (10 =? 0) with false. by eexists.
    - destruct IH as [r Er]. destruct (Z.eqb_spec c 0); [done |]. rewrite Er. by exists r. }
  destruct Hu as [r Hu]. rewrite Hu, strchr_app, before_app by done.
  destruct (last_Some l b) as [Hk _]. destruct (Hk Hlast) as [k ->]. clear Hk.
  rewrite length_app. cbn [length]. replace (start + (length k + 1))%nat with (S (start + length k)) by lia.
  assert (Hat : buf !! (start + length k)%nat = Some b).
  { apply (drop_lookup_app buf start k b (10 :: rest)). rewrite E, <- (assoc_L (++)). done. }
  assert (Ht : trim_back buf (start + length k) = Ret (start + length k)%nat)
    by (destruct (start + length k)%nat; cbn [trim_back]; rewrite Hat; cbn [checked]; rewrite outcome_bind_ret, Hb; done).
  rewrite Ht, outcome_bind_ret.
  set (buf' := <[S (start + length k) := 0]> buf).
  assert (E' : drop start buf' = (k ++ [b]) ++ 0 :: rest).
  { unfold buf'. replace (S (start + length k)) with (start + length (k ++ [b]))%nat by (rewrite length_app; cbn; lia).
    eapply drop_set. exact E. }
  assert (Hh : buf' !! start = head (k ++ [b])).
  { destruct k as [| c k]; cbn [app head] in *; eapply drop_lookup; exact E'. }
  rewrite Hh. destruct (head (k ++ [b])) as [c |] eqn:Ec; [| by destruct k].
  cbn [checked]. rewrite outcome_bind_ret. exists buf'. cbn [fmap option_fmap option_map]. split; [| split].
  - rewrite E'. replace (S (start + length k) + 1)%nat with (S (S (start + length k))) by lia.
    destruct (isspace c); [rewrite bool_decide_eq_true_2 | rewrite bool_decide_eq_false_2]; done.
  - exact E'.
  - replace (S (start + length k) + 1)%nat with (start + S (length (k ++ [b])))%nat by (rewrite length_app; cbn; lia).
    rewrite <- drop_drop, E', drop_app. replace (S (length (k ++ [b])) - length (k ++ [b]))%nat with 1%nat by lia.
    by rewrite drop_ge by lia.
Qed.

(** ** Lines of a description *)

Section lines.
Context (override : bool) (location : ptr).

Lemma read_name_line fuel buf start s rest st : drop start buf = s ++ 10 :: rest → visible s →
  ∃ buf' start', drop start' buf' = rest ∧
    read_loop (S fuel) override location buf start st =
    read_loop fuel override location buf' start' (name_line s override location st).
Proof.
  intros E [Hc (h & Eh & Hh & H35) (b & El & Hb)].
  destruct (cut_line_run buf start s rest b E Hc El Hb) as (buf' & Ecut & E1 & E2).
  exists buf', (start + length s + 1)%nat. split; [exact E2 |]. cbn [read_loop].
  destruct s as [| c s]; [done |]. injection Eh as ->. rewrite (drop_lookup _ _ _ _ E). cbn [checked]. rewrite outcome_bind_ret.
  pose proof (line_nul _ Hc) as Hn. destruct (Z.eqb_spec h 0) as [-> |]; [by apply list.Forall_cons in Hn as [? _] |].
  rewrite Ecut, outcome_bind_ret. cbn [head fmap option_fmap option_map]. rewrite bool_decide_eq_false_2 by congruence.
  rewrite E1, until_nul_app_nul by done. apply list.Forall_cons in Hc as [[_ H10] _].
  rewrite (proj2 (Z.eqb_neq h 10)), (proj2 (Z.eqb_neq h 35)) by done. cbn [orb]. by rewrite outcome_bind_ret.
Qed.

Lemma read_detail_line fuel buf start s rest st : drop start buf = 9 :: s ++ 10 :: rest → visible s →
  ∃ buf' start', drop start' buf' = rest ∧
    read_loop (S fuel) override location buf start st =
    (st ← detail_line s st; read_loop fuel override location buf' start' st).
Proof.
  intros E [Hc (h & Eh & Hh & H35) (b & El & Hb)].
  destruct (cut_line_run buf start (9 :: s) rest b E) as (buf' & Ecut & E1 & E2);
    [by constructor | by destruct s | done |].
  exists buf', (start + length (9%Z :: s) + 1)%nat. split; [exact E2 |]. cbn [read_loop].
  rewrite (drop_lookup _ _ _ _ E). cbn [checked]. rewrite outcome_bind_ret. change (9 =? 0) with false. cbn iota.
  rewrite Ecut, outcome_bind_ret. cbn [head fmap option_fmap option_map]. rewrite bool_decide_eq_true_2 by done.
  assert (Hsk : skip_blanks ((9 :: s) ++ 0 :: rest) = 1%nat).
  { destruct s as [| c s]; [done |]. injection Eh as ->. cbn [app skip_blanks]. change (isspace 9 && negb (9 =? 10)) with true.
    cbn iota. by rewrite Hh. }
  rewrite Hsk, <- drop_drop, E1. change (drop 1 ((9 :: s) ++ 0 :: rest)) with (s ++ 0 :: rest).
  pose proof (line_nul _ Hc) as Hn. rewrite until_nul_app_nul by done.
  destruct s as [| c s]; [done |]. injection Eh as ->. apply list.Forall_cons in Hc as [[_ H10] _].
  rewrite (proj2 (Z.eqb_neq h 10)), (proj2 (Z.eqb_neq h 35)) by done. done.
Qed.
End lines.

(** ** Files *)

(** A description as it is written: the name, its class, a description and
    arguments with theirs. *)
Record mod_text := mkText { mt_name : bytes; mt_class : bytes; mt_desc : option bytes; mt_args : list moduleArg }.

Definition quoted (s : bytes) : bytes := 34 :: s ++ [34].
Definition arg_line (a : moduleArg) : bytes := arg a ++ 32 :: quoted (arg_description a).
Definition detail_lines (t : mod_text) : list bytes :=
  mt_class t :: match mt_desc t with Some d => [quoted d] | None => [] end ++ (arg_line <$> mt_args t).
Definition print_lines (ls : list bytes) : bytes := mjoin ((λ s, 9 :: s ++ [10]) <$> ls).
Definition print_mod (t : mod_text) : bytes := mt_name t ++ 10 :: print_lines (detail_lines t).
Definition print_file (ts : list mod_text) : bytes := str "Version 0" ++ [10] ++ mjoin (print_mod <$> ts).

(** The module such a description stands for. *)
Definition module_of (location : ptr) (t : mod_text) : moduleInfo :=
  mkModule (mt_name t) (mt_desc t) (fst (classify (mt_class t)))
    (default DRIVER_MINOR_NONE (snd (classify (mt_class t)))) (mt_args t) 0 location.

Record arg_ok (a : moduleArg) : Prop := {
  ao_word : Forall (λ b, line_char b ∧ isspace b = false) (arg a);
  ao_head : ∃ b, head (arg a) = Some b ∧ b ≠ 35;
  ao_desc : Forall (λ b, line_char b ∧ b ≠ 34) (arg_description a) }.
Record text_ok (t : mod_text) : Prop := {
  to_name : visible (mt_name t);
  to_class : visible (mt_class t);
  to_word : Forall (λ b, isspace b = false) (mt_class t);
  to_desc : ∀ d, mt_desc t = Some d → Forall line_char d;
  to_args : Forall arg_ok (mt_args t);
  to_order : mt_desc t = None → mt_args t = [] }.

Lemma quoted_visible d : Forall line_char d → visible (quoted d).
Proof.
  intros Hd. unfold quoted. constructor.
  - constructor; [done |]. apply Forall_app. by repeat constructor.
  - by exists 34.
  - exists 34. split; [| done]. change (34 :: d ++ [34]) with ((34 :: d) ++ [34]). apply list.last_snoc.
Qed.

Lemma arg_line_visible a : arg_ok a → visible (arg_line a).
Proof.
  intros [Hw (b & Eb & H35) Hd]. unfold arg_line. destruct (arg a) as [| c w]; [done |]. injection Eb as ->.
  constructor.
  - apply Forall_app. split; [eapply list.Forall_impl; [exact Hw |]; by intros ? [] |].
    constructor; [done |]. apply quoted_visible. eapply list.Forall_impl; [exact Hd |]. by intros ? [].
  - exists b. apply list.Forall_cons in Hw as [[_ ?] _]. done.
  - exists 34. split; [| done]. unfold quoted.
    replace ((b :: w) ++ 32 :: 34 :: arg_description a ++ [34]) with (((b :: w) ++ 32 :: 34 :: arg_description a) ++ [34])
      by (by rewrite <- (assoc_L (++))). apply list.last_snoc.
Qed.

Lemma class_word_plain s : Forall (λ b, isspace b = false) s → class_word s = s.
Proof.
  destruct s as [| b r]; [done |]. intros [_ Hr]%list.Forall_cons. cbn. generalize (b :: r). 
  induction Hr as [| c r Hc _ IH]; intros w; [done |]. by rewrite Hc.
Qed.

Lemma classify_not_none w : fst (classify w) ≠ DRIVER_NONE.
Proof. unfold classify. by repeat case_match. Qed.

Lemma first_word_app w t : Forall (λ b, isspace b = false) w → first_word (w ++ 32 :: t) = (w, 32 :: t).
Proof. induction 1 as [| b w Hb _ IH]; cbn [app first_word]; [done |]. by rewrite Hb, IH. Qed.

Lemma arg_of_line a : arg_ok a → arg_of (arg_line a) = Some a.
Proof.
  intros [Hw _ Hd]. unfold arg_of, arg_line, quoted.
  rewrite first_word_app by (eapply list.Forall_impl; [exact Hw |]; by intros ? []).
  cbn [skip_space]. change (isspace 34) with false. cbn iota. change (34 =? 34) with true. cbn iota.
  rewrite strchr_app, before_app by (eapply list.Forall_impl; [exact Hd |]; by intros ? []). by destruct a.
Qed.

Lemma describe_class m t : major m = DRIVER_NONE → minor m = DRIVER_MINOR_NONE → Forall (λ b, isspace b = false) t →
  describe t m = mkModule (moduleName m) (description m) (fst (classify t))
    (default DRIVER_MINOR_NONE (snd (classify t))) (args m) (flags m) (locationID m).
Proof.
  intros Hm Hn Ht. unfold describe. rewrite decide_True, class_word_plain by done.
  destruct (classify t) as [mj mn]. cbn. by rewrite Hn.
Qed.

Lemma describe_desc m d : major m ≠ DRIVER_NONE → description m = None →
  describe (quoted d) m = mkModule (moduleName m) (Some d) (major m) (minor m) (args m) (flags m) (locationID m).
Proof.
  intros Hm Hd. unfold describe. rewrite decide_False, Hd by done. unfold quoted.
  change (34 :: d ++ [34]) with ((34 :: d) ++ [34]). rewrite list.last_snoc. cbn [app]. cbn [head tail andb].
  rewrite !bool_decide_eq_true_2 by done. cbn [andb]. by rewrite removelast_last.
Qed.

Lemma describe_args m l : major m ≠ DRIVER_NONE → is_Some (description m) → Forall arg_ok l →
  foldl (λ m s, describe s m) m (arg_line <$> l) =
  mkModule (moduleName m) (description m) (major m) (minor m) (args m ++ l) (flags m) (locationID m).
Proof.
  intros Hm [d Hd] Hl. revert m Hm Hd. induction Hl as [| a l Ha _ IH]; intros m Hm Hd.
  - cbn. rewrite app_nil_r. by destruct m.
  - rewrite fmap_cons. cbn [foldl]. assert (E : describe (arg_line a) m =
      mkModule (moduleName m) (description m) (major m) (minor m) (args m ++ [a]) (flags m) (locationID m)).
    { unfold describe. rewrite decide_False, Hd by done. by rewrite arg_of_line. }
    rewrite E, IH by done. cbn. by rewrite <- (assoc_L (++)).
Qed.

Lemma describe_all location t : text_ok t →
  foldl (λ m s, describe s m) (fresh_module (mt_name t) location) (detail_lines t) = module_of location t.
Proof.
  intros [_ _ Hw _ Ha Ho]. unfold detail_lines. cbn [foldl]. rewrite describe_class by done.
  pose proof (classify_not_none (mt_class t)) as Hc. cbn [moduleName description args flags locationID fresh_module].
  unfold module_of. destruct (mt_desc t) as [d |] eqn:Ed; cbn [app].
  - cbn [foldl]. rewrite describe_desc by done. rewrite describe_args by done. done.
  - rewrite Ho by done. done.
Qed.

Lemma detail_lines_visible t : text_ok t → Forall visible (detail_lines t).
Proof.
  intros [_ Hc _ Hd Ha _]. unfold detail_lines. constructor; [done |]. apply Forall_app. split.
  - destruct (mt_desc t) as [d |]; constructor; [| constructor]. by apply quoted_visible, Hd.
  - apply Forall_fmap. eapply list.Forall_impl; [exact Ha |]. intros a. apply arg_line_visible.
Qed.

Section files.
Context (override : bool) (location : ptr).

Lemma read_details ls fuel buf start rest mis i m skip : Forall visible ls →
  drop start buf = print_lines ls ++ rest → moduleList mis !! i = Some m →
  ∃ buf' start', drop start' buf' = rest ∧
    read_loop (length ls + fuel) override location buf start (mkMi mis (Some i) skip) =
    read_loop fuel override location buf' start'
      (mkMi (mkSet (<[i := foldl (λ m s, describe s m) m ls]> (moduleList mis)) (numModules mis)) (Some i) skip).
Proof.
  intros Hv. revert buf start mis m. induction Hv as [| s ls Hs _ IH]; intros buf start mis m E Hi.
  - exists buf, start. split; [done |]. cbn [foldl length Nat.add]. rewrite list_insert_id by done. by destruct mis.
  - change (print_lines (s :: ls)) with ((9 :: s ++ [10]) ++ print_lines ls) in E.
    assert (E' : drop start buf = 9 :: s ++ 10 :: print_lines ls ++ rest)
      by (rewrite E; cbn [app]; f_equal; by rewrite <- !(assoc_L (++))).
    cbn [length Nat.add].
    destruct (read_detail_line override location (length ls + fuel) buf start s _ (mkMi mis (Some i) skip) E' Hs)
      as (buf1 & start1 & E1 & ->).
    unfold detail_line. cbn [nextModule mi_set skipModule]. rewrite Hi. cbn [checked]. rewrite !outcome_bind_ret.
    assert (Hlt : (i < length (moduleList mis))%nat) by (by eapply lookup_lt_Some).
    destruct (IH buf1 start1 (mkSet (<[i:=describe s m]> (moduleList mis)) (numModules mis)) (describe s m) E1)
      as (buf2 & start2 & E2 & ->); [cbn; by rewrite list_lookup_insert_eq |].
    exists buf2, start2. split; [done |]. cbn [moduleList numModules foldl]. by rewrite list_insert_insert_eq.
Qed.

Lemma read_modules ts fuel buf start st l : Forall text_ok ts →
  drop start buf = mjoin (print_mod <$> ts) ++ [0] → count_next st = mkSet l (length l) →
  NoDup ((moduleName <$> l) ++ (mt_name <$> ts)) → (length (mjoin (print_mod <$> ts)) < fuel)%nat →
  ∃ st', read_loop fuel override location buf start st = Ret st' ∧
    count_next st' = mkSet (l ++ (module_of location <$> ts)) (length l + length ts).
Proof.
  intros Ht. revert fuel buf start st l. induction Ht as [| t ts Ht _ IH]; intros fuel buf start st l E Hst Hnd Hf;
    (destruct fuel as [| fuel]; [lia |]).
  - exists st. cbn [read_loop]. change (drop start buf = [0]) in E. rewrite (drop_lookup _ _ _ _ E). cbn [checked].
    rewrite outcome_bind_ret. change (0 =? 0) with true. split; [done |]. cbn. by rewrite Hst, app_nil_r, Nat.add_0_r.
  - change (mjoin (print_mod <$> t :: ts)) with (print_mod t ++ mjoin (print_mod <$> ts)) in *.
    unfold print_mod at 1 in E. rewrite <- !(assoc_L (++)) in E. cbn [app] in E.
    destruct (read_name_line override location fuel buf start _ _ st E (to_name t Ht)) as (buf1 & start1 & E1 & ->).
    assert (Hfind : list_find (λ m, moduleName m = mt_name t) l = None).
    { apply list_find_None, list.Forall_forall. intros m Hm En. apply list.NoDup_app in Hnd as (_ & Hd & _).
      apply (Hd (moduleName m)); [by apply list_elem_of_fmap_2 |]. rewrite En. by left. }
    unfold name_line. rewrite Hst. cbn [moduleList numModules]. rewrite firstn_all, Hfind.
    set (mis1 := mkSet (l ++ [fresh_module (mt_name t) location]) (length l)).
    assert (Hlen : (length (detail_lines t) ≤ length (print_lines (detail_lines t)))%nat).
    { generalize (detail_lines t). intros ls. induction ls as [| s ls IHl]; [done |].
      change (print_lines (s :: ls)) with ((9 :: s ++ [10]) ++ print_lines ls). rewrite length_app. cbn [length].
      lia. }
    unfold print_mod at 1 in Hf. rewrite !length_app in Hf. cbn [length] in Hf.
    destruct (read_details (detail_lines t) (fuel - length (detail_lines t)) buf1 start1
      (mjoin (print_mod <$> ts) ++ [0]) mis1 (length l) (fresh_module (mt_name t) location) false
      (detail_lines_visible t Ht) E1) as (buf2 & start2 & E2 & H2); [by apply list_lookup_middle |].
    replace (length (detail_lines t) + (fuel - length (detail_lines t)))%nat with fuel in H2 by lia.
    rewrite H2, describe_all by done. cbn [moduleList numModules mis1].
    assert (Hins : <[length l := module_of location t]> (l ++ [fresh_module (mt_name t) location]) = l ++ [module_of location t]).
    { replace (length l) with (length l + 0)%nat by lia. by rewrite insert_app_r. }
    rewrite Hins.
    destruct (IH (fuel - length (detail_lines t))%nat buf2 start2
      (mkMi (mkSet (l ++ [module_of location t]) (length l)) (Some (length l)) false) (l ++ [module_of location t]) E2)
      as (st' & E3 & H3).
    + unfold count_next. cbn [nextModule mi_set numModules moduleList]. rewrite bool_decide_eq_true_2 by done.
      by rewrite length_app, Nat.add_1_r.
    + rewrite fmap_app, <- (assoc_L (++)). exact Hnd.
    + lia.
    + exists st'. split; [exact E3 |]. rewrite H3, length_app, <- (assoc_L (++)). cbn [length app fmap list_fmap].
      f_equal. lia.
Qed.
End files.

(** ** Sets *)

(** The count is that of the array, and no name occurs twice. *)
Record mis_ok (mis : moduleInfoSet) : Prop := {
  mo_count : numModules mis = length (moduleList mis);
  mo_names : NoDup (moduleName <$> moduleList mis) }.

Lemma find_loop_skip name l i found : Forall (λ m, moduleName m ≠ name) l → find_loop name l i found = found.
Proof.
  intros Hl. revert i found. induction Hl as [| m l Hm _ IH]; intros i found; [done |]. cbn [find_loop].
  destruct (streq name (moduleName m)) eqn:E; [by apply streq_spec in E |]. apply IH.
Qed.

Lemma find_loop_nodup name l i k m : NoDup (moduleName <$> l) → l !! k = Some m → moduleName m = name →
  find_loop name l i None = Some ((i + k)%nat, m).
Proof.
  revert i k. induction l as [| x l IH]; intros i k Hnd Hk Hn; [done |].
  rewrite fmap_cons in Hnd. apply list.NoDup_cons in Hnd as [Hx Hnd]. cbn [find_loop]. destruct k as [| k].
  - injection Hk as ->. rewrite (proj2 (streq_spec name (moduleName m))) by done. rewrite Nat.add_0_r.
    apply find_loop_skip, list.Forall_forall. intros y Hy E. apply Hx. rewrite Hn, <- E. by apply list_elem_of_fmap_2.
  - assert (Hxn : streq name (moduleName x) = false).
    { destruct (streq name (moduleName x)) eqn:E; [| done]. apply streq_spec in E. destruct Hx.
      rewrite <- E, <- Hn. apply list_elem_of_fmap_2. by eapply list_elem_of_lookup_2. }
    rewrite Hxn. rewrite (IH (S i) k Hnd Hk Hn). do 2 f_equal. lia.
Qed.

Lemma find_loop_some name l i found r : find_loop name l i found = Some r → (found = Some r) ∨
  ∃ k, l !! k = Some (snd r) ∧ fst r = (i + k)%nat ∧ moduleName (snd r) = name.
Proof.
  revert i found. induction l as [| m l IH]; intros i found H; [by left |]. cbn [find_loop] in H.
  destruct (IH _ _ H) as [E | (k & Hk & Hi & Hn)]; [| right; exists (S k); split_and!; [done | lia | done]].
  destruct (streq name (moduleName m)) eqn:Es; [| by left]. apply streq_spec in Es.
  destruct found as [[j f] |].
  - destruct (bool_decide _ && negb _); [by left |]. injection E as <-. right. exists 0%nat. split_and!; [done | cbn; lia | done].
  - injection E as <-. right. exists 0%nat. split_and!; [done | cbn; lia | done].
Qed.

(** In a set without doubled names findModuleInfo finds exactly the modules
    that are there. *)
Lemma findModuleInfo_iff mis name i m : mis_ok mis →
  findModuleInfo mis name = Some (i, m) ↔ moduleList mis !! i = Some m ∧ moduleName m = name.
Proof.
  intros [Hc Hn]. unfold findModuleInfo. rewrite Hc, firstn_all. split.
  - intros H. apply find_loop_some in H as [H | (k & Hk & Hi & Hm)]; [done |]. cbn in *. by subst i.
  - intros [Hi Hm]. by rewrite (find_loop_nodup name _ 0 i m).
Qed.

(** Asking for every module writes behind the array. *)
Lemma getModuleList_overflows mis : mis_ok mis → moduleList mis ≠ [] → getModuleList mis DRIVER_NONE = Undef.
Proof.
  intros [Hc _] Hne. unfold getModuleList. rewrite Hc, firstn_all.
  assert (E : List.filter (wanted DRIVER_NONE) (moduleList mis) = moduleList mis).
  { clear. induction (moduleList mis) as [| m l IH]; [done |]. cbn [List.filter]. unfold wanted at 1.
    rewrite (bool_decide_eq_true_2 (DRIVER_NONE = DRIVER_NONE)), orb_true_r by done. by rewrite IH. }
  rewrite E. destruct (moduleList mis) as [| m l]; [done |]. by rewrite Nat.ltb_irrefl.
Qed.

(** What holds between two lines, when the set began as [l0]. *)
Record mi_inv (override : bool) (l0 : list moduleInfo) (st : mi_state) : Prop := {
  in_ok : mis_ok (count_next st);
  in_names : (moduleName <$> l0) `prefix_of` (moduleName <$> moduleList (mi_set st));
  in_next : ∀ i, nextModule st = Some i → (i ≤ numModules (mi_set st))%nat;
  in_keep : override = false → l0 `prefix_of` moduleList (mi_set st) ∧
    ∀ i, nextModule st = Some i → (length l0 ≤ i)%nat }.

Lemma count_next_list st : moduleList (count_next st) = moduleList (mi_set st).
Proof. unfold count_next. by destruct (bool_decide _). Qed.

Lemma names_insert (l : list moduleInfo) i m x : l !! i = Some x → moduleName m = moduleName x →
  moduleName <$> <[i := m]> l = moduleName <$> l.
Proof.
  intros Hi Hm. rewrite list_fmap_insert, Hm. apply list_insert_id. by rewrite list_lookup_fmap, Hi.
Qed.

Lemma describe_name s m : moduleName (describe s m) = moduleName m.
Proof. unfold describe. by repeat case_match. Qed.

Lemma insert_prefix (l0 l : list moduleInfo) i m : l0 `prefix_of` l → (length l0 ≤ i)%nat → l0 `prefix_of` <[i := m]> l.
Proof.
  intros [k ->] Hi. replace i with (length l0 + (i - length l0))%nat by lia. rewrite insert_app_r. by eexists.
Qed.

Lemma name_line_inv override location l0 s st : mi_inv override l0 st → mi_inv override l0 (name_line s override location st).
Proof.
  intros [[Hc Hn] Hp Hi Hk]. unfold name_line. rewrite Hc, firstn_all, count_next_list in *.
  destruct (list_find _ _) as [[i m] |] eqn:Ef.
  - apply list_find_Some in Ef as (Hl & Hm & _). assert (i < length (moduleList (mi_set st)))%nat by (by eapply lookup_lt_Some).
    destruct override.
    + constructor; cbn [mi_set moduleList numModules nextModule skipModule].
      * unfold count_next. cbn [mi_set nextModule moduleList numModules]. rewrite bool_decide_eq_false_2 by (intros [= ->]; lia).
        constructor; cbn [moduleList numModules]; [by rewrite length_insert | by rewrite (names_insert _ _ _ m)].
      * by rewrite (names_insert _ _ _ m).
      * intros j [= ->]. lia.
      * done.
    + constructor; cbn [mi_set nextModule].
      * unfold count_next at 1. cbn [mi_set nextModule]. rewrite bool_decide_eq_false_2 by done.
        constructor; by rewrite count_next_list.
      * by rewrite count_next_list.
      * done.
      * intros _. rewrite count_next_list. by split; [apply Hk |].
  - apply list_find_None in Ef. constructor; cbn [mi_set moduleList numModules nextModule].
    + unfold count_next. cbn [mi_set nextModule moduleList numModules]. rewrite bool_decide_eq_true_2 by done.
      constructor; cbn [moduleList numModules]; [rewrite length_app; cbn; lia |].
      rewrite fmap_app. apply list.NoDup_app. split; [done |]. split; [| apply NoDup_singleton].
      intros x Hx Hx'. apply list_elem_of_singleton in Hx' as ->. apply list_elem_of_fmap in Hx as (m & Em & Hm).
      rewrite list.Forall_forall in Ef. by apply (Ef m Hm).
    + rewrite fmap_app. by apply prefix_app_r.
    + intros j [= <-]. lia.
    + intros Ho. destruct (Hk Ho) as [Hpre _]. split; [by apply prefix_app_r |]. intros j [= <-]. by apply prefix_length.
Qed.

Lemma detail_line_inv override l0 s st st' : mi_inv override l0 st → detail_line s st = Ret st' → mi_inv override l0 st'.
Proof.
  intros Hinv H. unfold detail_line in H.
  destruct (nextModule st) as [i |] eqn:En; [| destruct (skipModule st); [by injection H as <- | done]].
  destruct Hinv as [[Hc Hn] Hp Hi Hk]. rewrite En in Hi, Hk.
  apply outcome_bind_inv in H as (m & Hm & [= <-]).
  destruct (moduleList (mi_set st) !! i) as [x |] eqn:Ex; [injection Hm as -> | done].
  pose proof (describe_name s m) as Hd.
  constructor; cbn [mi_set moduleList numModules nextModule].
  - unfold count_next in *. cbn [mi_set moduleList numModules nextModule]. rewrite En in Hc, Hn.
    destruct (bool_decide (Some i = Some (numModules (mi_set st)))); cbn [moduleList numModules] in *;
      (constructor; cbn [moduleList numModules]; [by rewrite length_insert | by rewrite (names_insert _ _ _ m)]).
  - by rewrite (names_insert _ _ _ m).
  - intros j [= <-]. by apply Hi.
  - intros Ho. destruct (Hk Ho) as [Hpre Hge]. split; [by apply insert_prefix, Hge |]. intros j [= <-]. by apply Hge.
Qed.

Lemma read_loop_inv fuel override location buf start st st' l0 : mi_inv override l0 st →
  read_loop fuel override location buf start st = Ret st' → mi_inv override l0 st'.
Proof.
  revert buf start st. induction fuel as [| fuel IH]; intros buf start st Hi H; [done |]. cbn [read_loop] in H.
  apply outcome_bind_inv in H as (b & _ & H). destruct (b =? 0); [by injection H as <- |].
  apply outcome_bind_inv in H as ([[[buf' text] ind] next] & _ & H). apply outcome_bind_inv in H as (st1 & H1 & H).
  apply (IH _ _ _) in H; [done |]. destruct (until_nul (drop text buf')) as [| c r]; [by injection H1 as <- |].
  destruct ((c =? 10) || (c =? 35)); [by injection H1 as <- |]. destruct ind.
  - by eapply detail_line_inv.
  - injection H1 as <-. by apply name_line_inv.
Qed.

(** ** Properties *)

(** C16: a file of descriptions with new, distinct names is read completely:
    readModuleInfo returns 0 and adds exactly the modules described, in order,
    with their class, description, arguments and location. *)
Theorem readModuleInfo_reads_back ts mis location override (Hts : Forall text_ok ts) (Hmis : mis_ok mis)
    (Hnew : NoDup ((moduleName <$> moduleList mis) ++ (mt_name <$> ts))) :
  readModuleInfo (Some (mkFile (print_file ts) 0, Z.of_nat (length (print_file ts)))) mis location override =
  Ret (0, mkSet (moduleList mis ++ (module_of location <$> ts)) (numModules mis + length ts)).
Proof.
  destruct Hmis as [Hc Hn]. unfold readModuleInfo.
  rewrite reg_read_all by (cbn [fpos contents]; lia). cbn [fpos contents]. rewrite Nat2Z.id, slice_all, Z.eqb_refl by done.
  cbn [negb]. set (body := mjoin (print_mod <$> ts)).
  assert (Efile : print_file ts ++ [0] = (str "Version 0" ++ [10]) ++ body ++ [0])
    by (unfold print_file; fold body; by rewrite <- !(assoc_L (++))).
  rewrite Efile, starts_with_app. cbn [negb].
  assert (Hd : drop 10 ((str "Version 0" ++ [10]) ++ body ++ [0]) = body ++ [0]) by done.
  assert (Hm : mis = mkSet (moduleList mis) (length (moduleList mis))) by (rewrite <- Hc; by destruct mis).
  destruct (read_modules override location ts (length ((str "Version 0" ++ [10]) ++ body ++ [0])) _ 10
    (mkMi mis None false) (moduleList mis) Hts Hd) as (st & -> & Est); [by rewrite Hm at 1 | done | |].
  - rewrite !length_app. fold body. cbn [length]. lia.
  - rewrite outcome_bind_ret, Est. by rewrite Hc.
Qed.

Definition sample_text : mod_text :=
  mkText (str "e1000") (str "eth") (Some (str "Intel PRO/1000")) [mkArg (str "debug") (str "level (0-16)")].

Lemma sample_text_ok : text_ok sample_text.
Proof.
  constructor.
  - constructor; [repeat constructor; discriminate | eexists; split; [reflexivity |]; by split | eexists; by split].
  - constructor; [repeat constructor; discriminate | eexists; split; [reflexivity |]; by split | eexists; by split].
  - by repeat constructor.
  - intros d [= <-]. repeat constructor; discriminate.
  - constructor; [| constructor]. constructor.
    + repeat constructor; discriminate.
    + eexists. by split.
    + repeat constructor; discriminate.
  - done.
Defined.

Lemma readModuleInfo_reads_back_witness :
  readModuleInfo (Some (mkFile (print_file [sample_text]) 0, Z.of_nat (length (print_file [sample_text]))))
    newModuleInfoSet (Some 3%nat) false =
  Ret (0, mkSet [mkModule (str "e1000") (Some (str "Intel PRO/1000")) DRIVER_NET DRIVER_MINOR_ETHERNET
    [mkArg (str "debug") (str "level (0-16)")] 0 (Some 3%nat)] 1).
Proof.
  apply (readModuleInfo_reads_back [sample_text] newModuleInfoSet (Some 3%nat) false).
  - constructor; [exact sample_text_ok | constructor].
  - constructor; [reflexivity | constructor].
  - apply NoDup_singleton.
Defined.

(** whatever the file holds, readModuleInfo keeps the names of a set
    distinct and the modules that were there under their names and in their
    places (unchanged unless it may override them), so that findModuleInfo
    still finds each of them; when it fails the set is as before. *)
Theorem readModuleInfo_keeps_set {F} `{FileOps F} (file : option (F * Z)) mis location override r mis'
    (Hmis : mis_ok mis) (Hread : readModuleInfo file mis location override = Ret (r, mis')) :
  mis_ok mis' ∧ (r = 0 ∨ r = -1 ∧ mis' = mis) ∧
  (override = false → moduleList mis `prefix_of` moduleList mis') ∧
  (∀ i m, moduleList mis !! i = Some m → ∃ m', findModuleInfo mis' (moduleName m) = Some (i, m') ∧
    (override = false → m' = m)).
Proof.
  assert (Hmain : mis_ok mis' ∧ (r = 0 ∨ r = -1 ∧ mis' = mis) ∧
    (override = false → moduleList mis `prefix_of` moduleList mis') ∧
    (moduleName <$> moduleList mis) `prefix_of` (moduleName <$> moduleList mis')).
  { assert (Hsame : Ret (-1, mis) = Ret (r, mis') → mis_ok mis' ∧ (r = 0 ∨ r = -1 ∧ mis' = mis) ∧
      (override = false → moduleList mis `prefix_of` moduleList mis') ∧
      (moduleName <$> moduleList mis) `prefix_of` (moduleName <$> moduleList mis')).
    { intros [= <- <-]. split; [done |]. split; [by right |]. by split. }
    unfold readModuleInfo in Hread. destruct file as [[f size] |]; [| by apply Hsame].
    destruct (f_read f size) as [[i d] f']. destruct (negb (i =? size)); [by apply Hsame |].
    destruct (negb _); [by apply Hsame |].
    apply outcome_bind_inv in Hread as (st & Hst & [= <- <-]).
    assert (Hinit : mi_inv override (moduleList mis) (mkMi mis None false)).
    { destruct Hmis. by constructor; cbn. }
    destruct (read_loop_inv _ _ _ _ _ _ _ _ Hinit Hst) as [Hok Hnames _ Hkeep]. rewrite count_next_list.
    split; [done |]. split; [by left |]. split; [| done]. intros Ho. by apply Hkeep. }
  destruct Hmain as (Hok & Hr & Hpre & Hnames). split; [done |]. split; [done |]. split; [done |].
  intros i m Hi. destruct Hnames as [k Hk].
  assert (Hn : (moduleName <$> moduleList mis') !! i = Some (moduleName m)).
  { rewrite Hk. apply lookup_app_l_Some. by rewrite list_lookup_fmap, Hi. }
  rewrite list_lookup_fmap in Hn. destruct (moduleList mis' !! i) as [m' |] eqn:Ei; [| done]. injection Hn as Hn.
  exists m'. split; [by apply findModuleInfo_iff |].
  intros Ho. destruct (Hpre Ho) as [k' E]. rewrite E in Ei. rewrite lookup_app_l in Ei by (by eapply lookup_lt_Some).
  congruence.
Qed.

Definition sample_set : moduleInfoSet := mkSet [module_of None sample_text] 1.
Definition sample_override : regfile := mkFile (str "Version 0" ++ [10] ++ str "e1000" ++ [10; 9] ++ str "fs" ++ [10]) 0.

Lemma readModuleInfo_keeps_set_witness :
  let mis' := mkSet [mkModule (str "e1000") None DRIVER_FS DRIVER_MINOR_NONE [] 0 (Some 5%nat)] 1 in
  mis_ok mis' ∧ (0 = 0 ∨ 0 = -1 ∧ mis' = sample_set) ∧
  (true = false → moduleList sample_set `prefix_of` moduleList mis') ∧
  (∀ i m, moduleList sample_set !! i = Some m → ∃ m', findModuleInfo mis' (moduleName m) = Some (i, m') ∧
    (true = false → m' = m)).
Proof.
  apply (readModuleInfo_keeps_set (Some (sample_override, 20)) sample_set (Some 5%nat) true 0).
  - constructor; [reflexivity | apply NoDup_singleton].
  - vm_compute. reflexivity.
Defined.
