(* ===== verification/Getparts.v ===== *)
(** * Partitions of the running kernel (stage-1/getparts.c)

    isPartitionName, getPartitionsList and lenPartitionsList; /proc/partitions
    is the list of its bytes, read by fgets into a buffer of 4096. *)

From S2P Require Import Prelude CLib.
From Stdlib Require Import Sorted.
Open Scope Z_scope.

Definition isalpha (c : Z) : bool := ((65 <=? c) && (c <=? 90)) || ((97 <=? c) && (c <=? 122)).

(** [pname] is not empty: an empty token is skipped. *)
Definition isPartitionName (pname : bytes) : bool :=
  match pname with
  | [] => false
  | c :: _ =>
      if negb (isalpha c) || bool_decide (is_Some (strstr pname (str "ram"))) then false
      else if bool_decide (is_Some (strchr pname 47)) && negb (bool_decide (is_Some (strstr pname (str "iseries")))) &&
              negb (bool_decide (is_Some (strstr pname (str "i2o")))) then
        bool_decide (is_Some (strchr pname 112))
      else isdigit (default 0 (list.last pname))
  end.

(** [strsep(&a, delim)] for a space and a newline: the token and the new [a]. *)
Definition delim (b : Z) : bool := (b =? 32) || (b =? 10).
Fixpoint strsep (s : bytes) : bytes * option bytes :=
  match s with
  | [] => ([], None)
  | b :: r => if delim b then ([], Some r) else let '(t, a) := strsep r in (b :: t, a)
  end.

(** The fields of a line: the name of a partition, if it has one that is
    wanted. *)
Fixpoint field_loop (fuel : nat) (disk : option bytes) (a : option bytes) (toknum : nat) : outcome (option bytes) :=
  match fuel with
  | O => NoFuel
  | S fuel =>
      match a with
      | None => Ret None
      | Some s =>
          let '(b, a) := strsep s in
          match b with
          | [] => field_loop fuel disk a toknum
          | c :: _ =>
              if (toknum =? 0)%nat && negb (isdigit c) then Ret None
              else if (toknum =? 2)%nat && streq b (str "1") then Ret None
              else if (toknum =? 3)%nat then
                if negb (isPartitionName b) then Ret None
                else
                  match disk with
                  | Some d => if starts_with d b then Ret (Some b) else Ret None
                  | None => Ret (Some b)
                  end
              else field_loop fuel disk a (S toknum)
          end
      end
  end.

(** Where the new name goes: in front of the first greater one. *)
Fixpoint insert_at (p : bytes) (rc : list bytes) : nat :=
  match rc with
  | [] => O
  | x :: rc => if bool_decide (strcmp p x = Lt) then O else S (insert_at p rc)
  end.
Definition add_partition (p : bytes) (rc : option (list bytes)) : list bytes :=
  match rc with
  | None => [p]
  | Some l => let idx := insert_at p l in take idx l ++ [p] ++ drop idx l
  end.

Fixpoint partitions_loop (fuel : nat) (disk : option bytes) (f : bytes) (rc : option (list bytes)) :
    outcome (option (list bytes)) :=
  match fuel with
  | O => NoFuel
  | S fuel =>
      match fgets 4096 f with
      | None => Ret rc
      | Some (tmpstr, f) =>
          let a := until_nul tmpstr in
          name ← field_loop (S (S (length a))) disk (Some a) 0;
          partitions_loop fuel disk f
            (match name with Some b => Some (add_partition (str "/dev/" ++ b) rc) | None => rc end)
      end
  end.

(** [f] is null when the file cannot be opened. *)
Definition getPartitionsList (disk : option bytes) (f : option bytes) : outcome (option (list bytes)) :=
  match f with
  | None => Ret None
  | Some f => partitions_loop (S (length f)) disk f None
  end.

Definition lenPartitionsList (l : option (list bytes)) : nat := length (default [] l).

(** ** Facts *)

(** The words of a line. *)
Fixpoint split_delim (s : bytes) : list bytes :=
  match s with
  | [] => [[]]
  | b :: r =>
      if delim b then [] :: split_delim r
      else match split_delim r with t :: ts => (b :: t) :: ts | [] => [[b]] end
  end.
Definition words (s : bytes) : list bytes := List.filter (λ w, negb (bool_decide (w = []))) (split_delim s).

(** The name a line gives: its first word starts with a digit, the third is not
    1, the fourth is the name of a partition (of the disk asked for). *)
Definition line_partition (disk : option bytes) (s : bytes) : option bytes :=
  match words s with
  | (c :: _) :: _ :: w2 :: w3 :: _ =>
      if isdigit c && negb (streq w2 (str "1")) && isPartitionName w3 &&
         match disk with Some d => starts_with d w3 | None => true end
      then Some w3 else None
  | _ => None
  end.

Lemma split_delim_strsep s : ∃ t ts, split_delim s = t :: ts ∧ fst (strsep s) = t ∧
  match snd (strsep s) with
  | None => ts = []
  | Some a => split_delim a = ts ∧ (length a < length s)%nat
  end.
Proof.
  induction s as [| b s IH]; cbn [split_delim strsep]; [by exists [], [] |].
  destruct (delim b); [exists [], (split_delim s); cbn; split_and!; (done || lia) |].
  destruct IH as (t & ts & -> & Et & Hs). destruct (strsep s) as [t' a]. cbn [fst snd] in *. subst t'.
  exists (b :: t), ts. split_and!; try done. destruct a as [a |]; [| done]. destruct Hs. split; [done |]. cbn. lia.
Qed.

(** The fields that are left, from the [n]th on. *)
Definition from_word (disk : option bytes) (n : nat) (ws : list bytes) : option bytes :=
  let ok0 w := match w with c :: _ => isdigit c | [] => false end in
  let ok2 w := negb (streq w (str "1")) in
  let ok3 w := isPartitionName w && match disk with Some d => starts_with d w | None => true end in
  match n, ws with
  | 0%nat, w0 :: _ :: w2 :: w3 :: _ => if ok0 w0 && ok2 w2 && ok3 w3 then Some w3 else None
  | 1%nat, _ :: w2 :: w3 :: _ => if ok2 w2 && ok3 w3 then Some w3 else None
  | 2%nat, w2 :: w3 :: _ => if ok2 w2 && ok3 w3 then Some w3 else None
  | 3%nat, w3 :: _ => if ok3 w3 then Some w3 else None
  | _, _ => None
  end.

Lemma from_word_step disk n c w ws : (n < 3)%nat →
  from_word disk n ((c :: w) :: ws) =
  if (n =? 0)%nat && negb (isdigit c) then None
  else if (n =? 2)%nat && streq (c :: w) (str "1") then None
  else from_word disk (S n) ws.
Proof.
  intros Hn. destruct n as [| [| [| n]]]; [| | | lia]; cbn [Nat.eqb andb].
  - destruct (isdigit c) eqn:Ec; cbn [negb].
    + unfold from_word. rewrite Ec. by destruct ws as [| ? [| ? [| ? ?]]].
    + unfold from_word. rewrite Ec. by destruct ws as [| ? [| ? [| ? ?]]].
  - unfold from_word. by destruct ws as [| ? [| ? ?]].
  - unfold from_word. destruct (streq (c :: w) (str "1")); cbn [negb andb]; by destruct ws.
Qed.

Lemma from_word_nil disk n : from_word disk n [] = None.
Proof. by destruct n as [| [| [| [| n]]]]. Qed.

Lemma words_strsep s : words s =
  (if bool_decide (fst (strsep s) = []) then [] else [fst (strsep s)]) ++
  match snd (strsep s) with Some a => words a | None => [] end.
Proof.
  unfold words. destruct (split_delim_strsep s) as (t & ts & -> & -> & Hs). cbn [List.filter].
  assert (E : List.filter (λ w, negb (bool_decide (w = []))) ts =
    match snd (strsep s) with Some a => List.filter (λ w, negb (bool_decide (w = []))) (split_delim a) | None => [] end).
  { destruct (snd (strsep s)) as [a |]; [by destruct Hs as [-> _] | by subst ts]. }
  rewrite E. by destruct (bool_decide (t = [])).
Qed.

Lemma field_loop_words fuel disk s n : (n ≤ 3)%nat → (length s < fuel)%nat →
  field_loop (S fuel) disk (Some s) n = Ret (from_word disk n (words s)).
Proof.
  revert s n. induction fuel as [| fuel IH]; intros s n Hn Hf; [lia |].
  rewrite words_strsep. cbn [field_loop].
  destruct (split_delim_strsep s) as (t & ts & _ & Et & Hs). destruct (strsep s) as [b a]. cbn [fst snd] in *. subst t.
  assert (Hrest : ∀ m, (m ≤ 3)%nat → field_loop (S fuel) disk a m = Ret (from_word disk m (match a with Some a => words a | None => [] end))).
  { intros m Hm. destruct a as [a |]; [apply IH; [done | lia] |]. cbn [field_loop]. by rewrite from_word_nil. }
  destruct b as [| c b].
  - rewrite bool_decide_eq_true_2 by done. by apply Hrest.
  - rewrite bool_decide_eq_false_2 by done. cbn [app]. destruct (Nat.lt_ge_cases n 3) as [Hlt | Hge].
    + rewrite from_word_step by done. destruct ((n =? 0)%nat && negb (isdigit c)); [done |].
      destruct ((n =? 2)%nat && streq (c :: b) (str "1")); [done |].
      destruct (Nat.eqb_spec n 3); [lia |]. apply Hrest. lia.
    + assert (n = 3)%nat as -> by lia. cbn [Nat.eqb andb]. unfold from_word.
      destruct (isPartitionName (c :: b)); cbn [negb andb]; [| done]. destruct disk as [d |]; [| done].
      by destruct (starts_with d (c :: b)).
Qed.

Lemma from_word_line disk s : from_word disk 0 (words s) = line_partition disk s.
Proof.
  unfold from_word, line_partition. destruct (words s) as [| [| c w0] [| w1 [| w2 [| w3 ws]]]]; try done.
  by rewrite !andb_assoc.
Qed.

Lemma field_loop_line disk s : field_loop (S (S (length s))) disk (Some s) 0 = Ret (line_partition disk s).
Proof. rewrite field_loop_words by lia. by rewrite from_word_line. Qed.

Lemma fgets_line n l rest : Forall (λ b, b ≠ 10) l → (length l < n)%nat → fgets_take n (l ++ 10 :: rest) = (l ++ [10], rest).
Proof.
  intros Hl. revert n. induction Hl as [| b l Hb _ IH]; intros n Hn; (destruct n as [| n]; [cbn in Hn; lia |]);
    cbn [app fgets_take]; [done |]. destruct (Z.eqb_spec b 10); [done |]. cbn [length] in Hn. by rewrite IH by lia.
Qed.

(** ** The order of the list *)

Definition str_le (a b : bytes) : Prop := strcmp a b ≠ Gt.

Lemma insert_at_spec p l : StronglySorted str_le l →
  Forall (λ x, str_le x p) (take (insert_at p l) l) ∧ Forall (λ x, str_le p x) (drop (insert_at p l) l) ∧
  StronglySorted str_le (take (insert_at p l) l) ∧ StronglySorted str_le (drop (insert_at p l) l).
Proof.
  induction 1 as [| x l Hs IH Hx]; cbn [insert_at take drop].
  { split_and!; constructor. }
  case_bool_decide as E; cbn [take drop].
  - split_and!; [constructor | | constructor | by constructor].
    constructor; [unfold str_le; by rewrite E |]. eapply list.Forall_impl; [exact Hx |]. intros y Hy. unfold str_le in *.
    destruct (strcmp x y) eqn:Exy; [| | done].
    + apply strcmp_eq in Exy as ->. by rewrite E.
    + by rewrite (strcmp_trans p x y).
  - destruct IH as (H1 & H2 & H3 & H4). split_and!; try done.
    + constructor; [| done]. unfold str_le. rewrite strcmp_antisym. by destruct (strcmp p x).
    + constructor; [done |]. by apply Forall_take.
Qed.

Lemma sorted_app (l k : list bytes) p : StronglySorted str_le l → StronglySorted str_le k →
  Forall (λ x, str_le x p) l → Forall (λ x, str_le p x) k →
  Forall (λ x, Forall (str_le x) k) l → StronglySorted str_le (l ++ [p] ++ k).
Proof.
  intros Hl Hk Hlp Hpk. induction Hl as [| x l Hl IH Hx]; intros Hlk; cbn [app].
  - by constructor.
  - apply list.Forall_cons in Hlp as [Hxp Hlp], Hlk as [Hxk Hlk]. constructor; [by apply IH |].
    apply Forall_app. split; [done |]. by constructor.
Qed.

Lemma sorted_cut (l : list bytes) n : StronglySorted str_le l → Forall (λ x, Forall (str_le x) (drop n l)) (take n l).
Proof.
  intros H. revert n. induction H as [| x l Hl IH Hx]; intros [| n]; cbn [take drop]; try constructor.
  - by apply Forall_drop.
  - apply IH.
Qed.

Lemma add_partition_sorted p l : StronglySorted str_le l → StronglySorted str_le (add_partition p (Some l)).
Proof.
  intros H. cbn [add_partition]. destruct (insert_at_spec p l H) as (H1 & H2 & H3 & H4).
  apply sorted_app; try done. by apply sorted_cut.
Qed.

Lemma add_partition_perm p l : Permutation (add_partition p (Some l)) (p :: l).
Proof.
  cbn [add_partition app]. generalize (insert_at p l). intros n. rewrite <- (take_drop n l) at 3.
  symmetry. apply Permutation_middle.
Qed.

(** Lines fgets reads whole. *)
Definition short_line (l : bytes) : Prop := Forall (λ b, b ≠ 10 ∧ b ≠ 0) l ∧ (length l < 4095)%nat.
Definition file_of (ls : list bytes) : bytes := mjoin ((λ l, l ++ [10]) <$> ls).

Lemma words_nl l : Forall (λ b, b ≠ 10) l → words (l ++ [10]) = words l.
Proof.
  intros Hl. unfold words. assert (E : split_delim (l ++ [10]) = split_delim l ++ [[]]).
  { induction Hl as [| b l Hb _ IH]; [done |]. cbn [app split_delim]. rewrite IH.
    destruct (delim b); [done |]. destruct (split_delim l) as [| t ts] eqn:E; [| done].
    destruct l as [| x l]; cbn in E; [done |]. destruct (delim x); [done |]. by destruct (split_delim l). }
  rewrite E, List.filter_app. cbn [List.filter]. by rewrite (bool_decide_eq_true_2 ([] = [])), app_nil_r by done.
Qed.

Definition dev_names (disk : option bytes) (ls : list bytes) : list bytes :=
  (λ b, str "/dev/" ++ b) <$> omap (line_partition disk) ls.

Lemma partitions_loop_spec disk ls fuel rc : Forall short_line ls → (length (file_of ls) < fuel)%nat →
  StronglySorted str_le (default [] rc) → rc ≠ Some [] →
  ∃ rc', partitions_loop fuel disk (file_of ls) rc = Ret rc' ∧ StronglySorted str_le (default [] rc') ∧
    Permutation (default [] rc') (default [] rc ++ dev_names disk ls) ∧ rc' ≠ Some [].
Proof.
  intros Hls. revert fuel rc. induction Hls as [| l ls [Hl Hlen] _ IH]; intros fuel rc Hf Hs Hne;
    (destruct fuel as [| fuel]; [lia |]); cbn [partitions_loop].
  - exists rc. cbn. by rewrite app_nil_r.
  - change (file_of (l :: ls)) with ((l ++ [10]) ++ file_of ls) in *.
    assert (H10 : Forall (λ b, b ≠ 10) l) by (eapply list.Forall_impl; [exact Hl |]; by intros ? []).
    assert (H0 : Forall (λ b, b ≠ 0) l) by (eapply list.Forall_impl; [exact Hl |]; by intros ? []).
    assert (Eg : fgets 4096 ((l ++ [10]) ++ file_of ls) = Some (l ++ [10], file_of ls)).
    { rewrite <- (assoc_L (++)). cbn [app].
      assert (Ef : fgets 4096 (l ++ 10 :: file_of ls) = Some (fgets_take (4096 - 1) (l ++ 10 :: file_of ls))) by (by destruct l).
      rewrite Ef, fgets_line by (done || lia). done. }
    rewrite Eg. rewrite until_nul_no_nul by (apply Forall_app; by repeat constructor).
    rewrite field_loop_line, outcome_bind_ret.
    assert (El : line_partition disk (l ++ [10]) = line_partition disk l) by (unfold line_partition; by rewrite words_nl).
    rewrite El. rewrite !length_app in Hf. cbn [length] in Hf.
    unfold dev_names. cbn [omap list_omap]. destruct (line_partition disk l) as [b |].
    + set (rc1 := add_partition (str "/dev/" ++ b) rc).
      assert (Hrc1 : StronglySorted str_le rc1 ∧ Permutation rc1 ((str "/dev/" ++ b) :: default [] rc) ∧ rc1 ≠ []).
      { unfold rc1. destruct rc as [k |].
        - split_and!; [by apply add_partition_sorted | apply add_partition_perm |].
          intros E. by apply (f_equal length) in E; rewrite (Permutation_length (add_partition_perm _ _)) in E.
        - split_and!; [by repeat constructor | done | done]. }
      destruct Hrc1 as (S1 & P1 & N1).
      destruct (IH fuel (Some rc1)) as (rc' & E & S' & P' & N'); [lia | done | congruence |].
      exists rc'. split_and!; [done | done | | done]. cbn [from_option id] in P'. rewrite P', P1. cbn [app]. apply Permutation_middle.
    + apply IH; [lia | done | done].
Qed.

(** getPartitionsList returns /dev/ and the name of exactly the partitions
    the lines of /proc/partitions give (null if there are none), each as often
    as it is given, in ascending order; lenPartitionsList counts them. *)
Theorem getPartitionsList_sorted disk ls (Hls : Forall short_line ls) :
  ∃ rc, getPartitionsList disk (Some (file_of ls)) = Ret rc ∧ StronglySorted str_le (default [] rc) ∧
    Permutation (default [] rc) (dev_names disk ls) ∧ lenPartitionsList rc = length (dev_names disk ls) ∧
    (rc = None ↔ dev_names disk ls = []).
Proof.
  destruct (partitions_loop_spec disk ls (S (length (file_of ls))) None) as (rc & E & Hs & Hp & Hn);
    [done | lia | constructor | done |].
  exists rc. split; [exact E |]. split; [done |]. split; [done |]. split; [by apply Permutation_length |].
  split.
  - intros ->. by apply Permutation_nil_l in Hp.
  - intros Ed. rewrite Ed in Hp. apply Permutation_nil_r in Hp. destruct rc as [[| x l] |]; done.
Qed.

Definition sample_lines : list bytes :=
  [str "major minor  #blocks  name"; []; str "   8        0   488386584 sda"; str "   8        2     102400 sda2";
   str "   8        1          1 sda1"; str "   8        3     102400 sda10"; str "   1        0   4096 ram0"].

Lemma getPartitionsList_sorted_witness :
  ∃ rc, getPartitionsList (Some (str "sda")) (Some (file_of sample_lines)) = Ret rc ∧
    StronglySorted str_le (default [] rc) ∧
    Permutation (default [] rc) [str "/dev/sda2"; str "/dev/sda10"] ∧ lenPartitionsList rc = 2%nat ∧
    (rc = None ↔ [str "/dev/sda2"; str "/dev/sda10"] = []).
Proof.
  apply (getPartitionsList_sorted (Some (str "sda")) sample_lines).
  assert (H : forallb (λ l, forallb (λ b, negb (b =? 10) && negb (b =? 0)) l && (length l <? 4095)%nat) sample_lines = true)
    by (vm_compute; reflexivity).
  apply list.Forall_forall. intros l Hl. rewrite forallb_forall in H. apply list_elem_of_In in Hl. apply H in Hl.
  apply andb_true_iff in Hl as [Hc Hn]. split; [| by apply Nat.ltb_lt].
  apply list.Forall_forall. intros b Hb. rewrite forallb_forall in Hc. apply list_elem_of_In in Hb. apply Hc in Hb. lia.
Defined.
