(* ===== verification/Lang.v ===== *)
(** * Languages of the loader (stage-1/lang.c)

    The table of translations: its hash ([translateString]), its sort and search
    order, and loadLanguage, which takes it out of a cpio archive; and the choice
    of a language by setLanguage.  The file that holds the table, the archive
    and the sort of the C library are parameters. *)

From S2P Require Import Prelude CLib Posix Sys Cpio CpioInstall Loader.

(** ** Translations *)

(** [str] is the buffer of length + 1 bytes. *)
Record aString := mkAString { hash : Z; length_ : Z; a_str : bytes }.

Definition aStringCmp (first second : aString) : Z :=
  if hash first <? hash second then -1 else if hash first =? hash second then 0 else 1.

(** The sums over the characters of a string: [sum], [xor], [len]. *)
Fixpoint hash_loop (s : bytes) (sum xor len : Z) : Z * Z * Z :=
  match s with
  | [] => (sum, xor, len)
  | c :: s => hash_loop s (w32 (sum + schar c)) (Z.lxor xor (w32 (schar c))) (len + 1)
  end.
Definition string_hash (s : bytes) : Z :=
  let '(sum, xor, len) := hash_loop s 0 0 0 in
  Z.lor (Z.lor (w32 (Z.shiftl sum 16)) (Z.shiftl (Z.land xor 0xFF) 8)) (Z.land len 0xFF).

Definition translateString (strings : list aString) (s : bytes) : bytes :=
  let key := mkAString (string_hash s) 0 [] in
  match bsearch_by (λ x, aStringCmp key x ?= 0) strings with
  | None => s
  | Some m => until_nul (a_str m)
  end.

(** ntohl and ntohs of the bytes read, on a little-endian machine. *)
Definition be_val (b : bytes) : Z := le_val (rev b).

Section load.
Context {G S F : Type} `{GzOps G, SysOps S, FileOps F}.
(** What memory holds that nothing was written to; gunzip_open; open(2) for
    reading; qsort with aStringCmp. *)
Context (junk : Z) (gunzip_open : bytes → option G) (s_open : S → bytes → option F)
  (qsort : list aString → list aString).

(** [n] bytes of which a read may have filled the first ones only. *)
Definition filled (n : nat) (d : bytes) : bytes := take n (d ++ replicate n junk).

(** [while (read(fd, &hash, 4) == 4)]; a length above 32767 is negative as a
    short, and malloc and the writes that follow are undefined. *)
Fixpoint strings_loop (fuel : nat) (f : F) (strings : list aString) : outcome (list aString * F) :=
  match fuel with
  | O => NoFuel
  | Datatypes.S fuel =>
      let '(n, d, f) := f_read f 4 in
      if negb (n =? 4) then Ret (strings, f)
      else
        let '(_, dl, f) := f_read f 2 in
        let length := swrap 16 (be_val (filled 2 dl)) in
        _ ← defined_if (0 <=? length);
        let '(_, ds, f) := f_read f length in
        strings_loop fuel f (strings ++ [mkAString (be_val d) length (filled (Z.to_nat length) ds ++ [0])])
  end.

(** The strings afterwards and the system. *)
Definition loadLanguage (fuel : nat) (flags : Z) (LANGKEY : option bytes) (file : option bytes)
    (lastDir : bytes) (s : S) : outcome (list aString * S) :=
  key ← checked LANGKEY;
  if streq key (str "en") then Ret ([], s)
  else
    let file :=
      match file with
      | Some f => f
      | None => if FL flags LOADER_FLAGS_TESTING then str "loader.tr" else str "/etc/loader.tr"
      end in
    match gunzip_open file with
    | None => Ret ([], s)
    | Some stream =>
        let filename := key ++ str ".tr" in
        _ ← defined_if (length filename <? 200)%nat;
        '(rc, s) ← installCpioFile junk fuel stream s lastDir filename (Some (str "/tmp/translation"));
        if negb (rc =? 0) || negb (s_access s (str "/tmp/translation") =? 0) then Ret ([], s)
        else
          match s_open s (str "/tmp/translation") with
          | None => Ret ([], s)
          | Some f =>
              '(strings, _) ← strings_loop fuel f [];
              let '(_, s) := s_unlink s (str "/tmp/translation") in
              Ret (qsort strings, s)
          end
    end.
End load.

(** ** Choosing a language *)

Record langInfo := mkLang { lang : bytes; key : bytes; font : bytes; lc_all : bytes; keyboard : bytes }.

(** The variables setLangEnv sets. *)
Record langEnv := mkEnv { LANG : option bytes; LANGKEY : option bytes; LINGUAS : option bytes }.

(** Up to the first [c]. *)
Definition cut_at (c : Z) (s : bytes) : bytes :=
  match strchr s c with Some t => before s t | None => s end.
Definition getLangShortForm (oldLang : bytes) : bytes := cut_at 46 (cut_at 64 oldLang).
Definition getLangNick (oldLang : bytes) : bytes := cut_at 95 oldLang.

Definition displayable (l : langInfo) : bool := streq (font l) (str "latarcyrheb-sun16").

(** Afterwards loadLanguage is called when the last component is true. *)
Definition setLangEnv (languages : list langInfo) (i : nat) (env : langEnv) : outcome (langEnv * bool) :=
  if (length languages <? i)%nat then Ret (env, false)
  else
    l ← checked (languages !! i);
    if displayable l then Ret (mkEnv (Some (lc_all l)) (Some (key l)) (Some (lang l)), true)
    else Ret (env, false).

(** The return value, the environment, whether loadLanguage was called. *)
Definition setupLanguage (flags : Z) (isVioConsole : bool) (languages : list langInfo) (english choice : nat)
    (forced : bool) (env : langEnv) : outcome (Z * langEnv * bool) :=
  l ← checked (languages !! choice);
  if negb (displayable l) && negb (FL flags LOADER_FLAGS_SERIAL) && negb (FL flags LOADER_FLAGS_VIRTPCONSOLE) &&
     negb isVioConsole then
    if forced then Ret (0, env, false)
    else '(env, loaded) ← setLangEnv languages english env; Ret (0, env, loaded)
  else '(env, loaded) ← setLangEnv languages choice env; Ret (0, env, loaded).

(** The first language whose code, shortened by [form], is the key. *)
Definition lang_index (form : bytes → bytes) (languages : list langInfo) (k : bytes) : option nat :=
  fst <$> list_find (λ l, form (lc_all l) = k) languages.

(** [forced | !FL_KICKSTART(flags)] is 1 or 0 for a [forced] of 1 or 0. *)
Definition setLanguage (flags : Z) (isVioConsole : bool) (languages : list langInfo) (english : nat) (k : bytes)
    (forced : bool) (env : langEnv) : outcome (Z * langEnv * bool) :=
  let setup i := setupLanguage flags isVioConsole languages english i
                   (forced || negb (FL flags LOADER_FLAGS_KICKSTART)) env in
  match lang_index id languages k with
  | Some i => setup i
  | None =>
      match lang_index getLangShortForm languages k with
      | Some i => setup i
      | None =>
          match lang_index getLangNick languages k with
          | Some i => setup i
          | None => Ret (-1, env, false)
          end
      end
  end.
