(* ===== verification/LangFacts.v ===== *)
(** * Languages of the loader: facts (stage-1/lang.c)

    A table of translations packed into loader.tr is what translateString uses;
    setLanguage takes the first of the best matches. *)

From S2P Require Import Prelude CLib Posix Sys Cpio CpioFacts CpioInstall CpioInstallFacts Loader Lang.
From Stdlib Require Import Sorted.
From stdpp Require Import sorting.
Open Scope Z_scope.

(** ** The table *)

(** A translation: the hash of the string and what replaces it. *)
Abbreviation translation := (Z * bytes)%type.

Definition encode_string (t : translation) : bytes :=
  rev (le_bytes 4 (fst t)) ++ rev (le_bytes 2 (Z.of_nat (length (snd t)))) ++ snd t.
Definition encode_table (ts : list translation) : bytes := mjoin (encode_string <$> ts).
Definition loaded (t : translation) : aString :=
  mkAString (fst t) (Z.of_nat (length (snd t))) (snd t ++ [0]).

Record translation_ok (t : translation) : Prop := {
  tr_hash : 0 ≤ fst t < 2 ^ 32;
  tr_length : (length (snd t) < Z.to_nat 32768)%nat;
  tr_nul : Forall (λ b, b ≠ 0) (snd t) }.

Lemma be_val_rev n z : 0 ≤ z < 2 ^ (8 * Z.of_nat n) → be_val (rev (le_bytes n z)) = z.
Proof. intros Hz. unfold be_val. rewrite rev_involutive. by apply le_val_bytes. Qed.

Lemma read_drop c p d r : drop p c = d ++ r →
  f_read (mkFile c p) (Z.of_nat (length d)) = (Z.of_nat (length d), d, mkFile c (p + length d)) ∧
  drop (p + length d) c = r.
Proof.
  intros E. split; [| by rewrite <- drop_drop, E, drop_app_length].
  destruct d as [| b d].
  - reflexivity.
  - assert (length (drop p c) = length ((b :: d) ++ r)) as El by (by rewrite E).
    rewrite length_drop, length_app in El. cbn [length] in El.
    rewrite reg_read_all by (cbn [fpos contents]; rewrite Nat2Z.id; cbn [length]; lia). cbn [fpos contents]. rewrite Nat2Z.id.
    unfold slice. by rewrite E, take_app_length.
Qed.

Section table.
Context (junk : Z).

Lemma filled_exact n d : length d = n → filled junk n d = d.
Proof. intros <-. unfold filled. apply take_app_length. Qed.

Lemma strings_loop_end fuel c p acc : drop p c = [] →
  strings_loop junk (S fuel) (mkFile c p) acc = Ret (acc, mkFile c p).
Proof.
  intros E. cbn [strings_loop f_read regfile_ops]. unfold reg_read. cbn [fpos contents]. unfold slice. rewrite E, take_nil.
  cbn [length]. by rewrite Nat.add_0_r.
Qed.

Lemma strings_loop_table fuel c p ts acc : Forall translation_ok ts → drop p c = encode_table ts →
  (length ts < fuel)%nat → ∃ f, strings_loop junk fuel (mkFile c p) acc = Ret (acc ++ (loaded <$> ts), f).
Proof.
  intros Hts. revert fuel p acc. induction Hts as [| [h t] ts [Hh Hl Hn] _ IH]; intros fuel p acc E Hf;
    (destruct fuel as [| fuel]; [lia |]).
  - eexists. cbn [fmap list_fmap]. rewrite app_nil_r. by apply strings_loop_end.
  - cbn [fst snd] in *. change (encode_table ((h, t) :: ts)) with
      ((rev (le_bytes 4 h) ++ rev (le_bytes 2 (Z.of_nat (length t))) ++ t) ++ encode_table ts) in E.
    rewrite <- !(assoc_L (++)) in E.
    assert (L4 : length (rev (le_bytes 4 h)) = 4%nat) by (by rewrite length_rev, length_le_bytes).
    assert (L2 : length (rev (le_bytes 2 (Z.of_nat (length t)))) = 2%nat) by (by rewrite length_rev, length_le_bytes).
    destruct (read_drop c p _ _ E) as [R1 E1]. destruct (read_drop c _ _ _ E1) as [R2 E2].
    destruct (read_drop c _ _ _ E2) as [R3 E3]. rewrite L4 in R1, R2, R3, E1, E2, E3. rewrite L2 in R2, R3, E2, E3.
    cbn [strings_loop]. change 4 with (Z.of_nat 4) at 1. rewrite R1. change (negb (Z.of_nat 4 =? 4)) with false. cbn iota.
    change 2 with (Z.of_nat 2) at 1. rewrite R2.
    rewrite (filled_exact 2), !be_val_rev by (done || (change (2 ^ (8 * Z.of_nat 2)) with 65536; lia)).
    rewrite swrap_small by (change (2 ^ (16 - 1)) with 32768; lia).
    rewrite (proj2 (Z.leb_le 0 _)) by lia. cbn [defined_if]. rewrite outcome_bind_ret, R3, Nat2Z.id.
    rewrite (filled_exact (length t)) by done.
    destruct (IH fuel (p + 4 + 2 + length t)%nat (acc ++ [loaded (h, t)]) E3) as [f Ef]; [cbn in Hf; lia |].
    exists f. rewrite fmap_cons. etrans; [exact Ef |]. by rewrite <- (assoc_L (++)).
Qed.
End table.

(** ** Sorting and searching *)

(** What the C library promises of qsort with aStringCmp. *)
Record sorts (qsort : list aString → list aString) : Prop := {
  qs_perm : ∀ l, Permutation (qsort l) l;
  qs_sorted : ∀ l, StronglySorted (λ x y, aStringCmp x y ≠ 1) (qsort l) }.

Lemma strongly_sorted_lookup {A} (R : A → A → Prop) l i j x y : StronglySorted R l → (i < j)%nat →
  l !! i = Some x → l !! j = Some y → R x y.
Proof.
  intros Hs. revert i j. induction Hs as [| a l Hs IH Ha]; intros [| i] [| j] Hij Hi Hj; try done; try lia.
  - injection Hi as ->. cbn in Hj. rewrite list.Forall_forall in Ha. apply Ha. by eapply list_elem_of_lookup_2.
  - apply (IH i j); [lia | done | done].
Qed.

Lemma aStringCmp_hash x y : aStringCmp x y ≠ 1 ↔ hash x ≤ hash y.
Proof.
  unfold aStringCmp. destruct (Z.ltb_spec (hash x) (hash y)); [split; intros; lia |].
  destruct (Z.eqb_spec (hash x) (hash y)); split; intros; lia.
Qed.

Lemma aStringCmp_compare x y : (aStringCmp x y ?= 0) = (hash x ?= hash y).
Proof.
  unfold aStringCmp. destruct (Z.ltb_spec (hash x) (hash y)).
  - by rewrite (proj2 (Z.compare_lt_iff _ _)).
  - destruct (Z.eqb_spec (hash x) (hash y)) as [-> |]; [by rewrite !Z.compare_refl |].
    by rewrite (proj2 (Z.compare_gt_iff (hash x) (hash y))) by lia.
Qed.

(** The translation a table gives. *)
Definition translate (ts : list translation) (s : bytes) : bytes :=
  match list_find (λ t, fst t = string_hash s) ts with Some (_, t) => snd t | None => s end.

Lemma translateString_table qsort ts s : sorts qsort → Forall translation_ok ts → NoDup (fst <$> ts) →
  translateString (qsort (loaded <$> ts)) s = translate ts s.
Proof.
  intros [Hperm Hsort] Hts Hnd. set (l := qsort (loaded <$> ts)) in *.
  assert (Hin : ∀ x, x ∈ l ↔ ∃ t, x = loaded t ∧ t ∈ ts).
  { intros x. unfold l. rewrite (Hperm (loaded <$> ts)). apply list_elem_of_fmap. }
  set (cmp := λ x, aStringCmp (mkAString (string_hash s) 0 []) x ?= 0).
  assert (Hcmp : ∀ x, cmp x = (string_hash s ?= hash x)) by (intros x; apply aStringCmp_compare).
  assert (Hmono : ∀ i j x y, (i < j)%nat → l !! i = Some x → l !! j = Some y →
    (cmp x = Eq → cmp y ≠ Gt) ∧ (cmp y = Eq → cmp x ≠ Lt)).
  { intros i j x y Hij Hx Hy. pose proof (strongly_sorted_lookup _ l i j x y (Hsort _) Hij Hx Hy) as H.
    apply aStringCmp_hash in H. rewrite !Hcmp, !Z.compare_eq_iff, Z.compare_gt_iff, Z.compare_lt_iff. lia. }
  unfold translateString, translate. fold cmp.
  destruct (list_find (λ t, fst t = string_hash s) ts) as [[i t] |] eqn:Ef.
  - apply list_find_Some in Ef as (Hi & Ht & _). assert (Hel : t ∈ ts) by (by eapply list_elem_of_lookup_2).
    destruct (bsearch_by_finds cmp l Hmono (loaded t)) as (y & -> & Hy & Ey);
      [apply Hin; eauto | rewrite Hcmp; by apply Z.compare_eq_iff |].
    apply Hin in Hy as (t' & -> & Ht'). rewrite Hcmp in Ey. apply Z.compare_eq_iff in Ey. cbn in Ey.
    assert (t' = t) as ->.
    { apply list_elem_of_lookup_1 in Hel as [a Ha], Ht' as [b Hb].
      assert (a = b) as <-; [| congruence]. eapply NoDup_lookup; [exact Hnd | |]; rewrite list_lookup_fmap, ?Ha, ?Hb; cbn;
        [reflexivity | congruence]. }
    cbn [loaded a_str]. rewrite list.Forall_forall in Hts. apply until_nul_app_nul. by apply (tr_nul t (Hts t Hel)).
  - destruct (bsearch_by cmp l) as [y |] eqn:Ey; [| done]. apply bsearch_by_some in Ey as [Hy Ey].
    apply Hin in Hy as (t & -> & Ht). rewrite Hcmp in Ey. apply Z.compare_eq_iff in Ey. cbn in Ey.
    apply list_find_None in Ef. rewrite list.Forall_forall in Ef. by destruct (Ef t Ht).
Qed.

Lemma archive_member_long pre e post : (length (e_data e) ≤ length (archive (pre ++ e :: post)))%nat.
Proof.
  rewrite archive_body, body_app, body_cons, !length_app. unfold entry_bytes. rewrite !length_app. lia.
Qed.

(** ** Loading *)

(** open(2) for reading on the file system in memory. *)
Definition fs_open_read (fs : memfs) (p : bytes) : option regfile :=
  match fs_lookup fs p with
  | Some (_, i) => match i_kind i with KReg c => Some (mkFile c 0) | _ => None end
  | None => None
  end.

Lemma unlink_file fs p n i : fs_lookup fs p = Some (n, i) → i_kind i ≠ KDir →
  s_unlink fs p = (0, set_names (delete p (fs_names fs)) fs).
Proof. cbn. unfold fs_unlink. intros -> Hk. by destruct (i_kind i). Qed.

Lemma lookup_unlinked fs p q : fs_lookup (set_names (delete p (fs_names fs)) fs) q =
  if bool_decide (q = p) then None else fs_lookup fs q.
Proof.
  unfold fs_lookup. cbn [set_names fs_names fs_inodes]. case_bool_decide as E.
  - subst q. by rewrite lookup_delete_eq.
  - by rewrite lookup_delete_ne.
Qed.

(** An archive that has a table of translations under a name. *)
Record has_table (pre : list entry) (e : entry) (post : list entry) (name : bytes) (ts : list translation) : Prop := {
  ht_members : Forall member_ok (pre ++ e :: post);
  ht_plain : plain_file e;
  ht_others : Forall (λ e', e_name e' ≠ name) (pre ++ post);
  ht_name : e_name e = name;
  ht_data : e_data e = encode_table ts;
  ht_table : Forall translation_ok ts;
  ht_unique : NoDup (fst <$> ts) }.

Lemma encode_table_long ts : (length ts ≤ length (encode_table ts))%nat.
Proof.
  induction ts as [| t ts IH]; [done |]. change (encode_table (t :: ts)) with (encode_string t ++ encode_table ts).
  unfold encode_string. rewrite !length_app, length_rev, length_le_bytes. cbn [length]. lia.
Qed.

Lemma installed_data fs e : i_kind (installed fs e) = KReg (e_data e).
Proof. reflexivity. Qed.

(** loadLanguage and translateString together: when loader.tr is an
    archive with a table for the language, every string whose hash is in the
    table is replaced by its translation and every other one is left alone;
    the temporary file is gone and no other name is changed. *)
Theorem loaded_table_translates junk qsort gunzip_open fuel flags key pre e post tail o ts fs last
    (Hq : sorts qsort) (Harch : has_table pre e post (key ++ str ".tr") ts) (Hkey : key ≠ str "en")
    (Hlen : (length key < 197)%nat) (Hfl : FL flags LOADER_FLAGS_TESTING = false)
    (Hopen : gunzip_open (str "/etc/loader.tr") = Some (mkGz (archive (pre ++ e :: post) ++ tail) o))
    (Hok : fs_ok fs) (Hplace : placeable fs (str "/tmp/translation")) (Hroom : fs_full fs = false)
    (Hfd : fs_fds fs !! S (fs_next fs) = None) (Hfuel : (length (archive (pre ++ e :: post)) < fuel)%nat) :
  ∃ strings fs', loadLanguage junk gunzip_open fs_open_read qsort fuel flags (Some key) None last fs = Ret (strings, fs') ∧
    (∀ s, translateString strings s = translate ts s) ∧
    fs_lookup fs' (str "/tmp/translation") = None ∧
    ∀ q, q ≠ str "/tmp/translation" → fs_lookup fs' q = fs_lookup fs q.
Proof.
  destruct Harch as [Hm Hp Ho Hn Hd Ht Hu]. unfold loadLanguage. cbn [checked]. rewrite outcome_bind_ret.
  destruct (streq key (str "en")) eqn:E; [by apply streq_spec in E |]. rewrite Hfl, Hopen.
  assert (Hl : (length (key ++ str ".tr") <? 200)%nat = true)
    by (apply Nat.ltb_lt; rewrite length_app; change (length (str ".tr")) with 3%nat; lia).
  rewrite Hl. cbn [defined_if]. rewrite outcome_bind_ret.
  set (out := str "/tmp/translation") in *. unfold installCpioFile. cbn [fmap option_fmap option_map].
  set (m := mkMapping (key ++ str ".tr") out 0 0 0 CPIO_MAP_PATH).
  rewrite (install_one junk fuel m pre e post tail o fs last tt) by done. rewrite !outcome_bind_ret.
  cbn [fsPath m]. set (fs1 := with_file fs out (installed fs e) (fs_fds fs)).
  pose proof (lookup_with_file fs out (installed fs e) (fs_fds fs)) as Hout. fold fs1 in Hout.
  assert (Hacc : s_access fs1 out = 0).
  { change (s_access fs1 out) with (match fs_lookup fs1 out with Some _ => 0 | None => ENOENT end). by rewrite Hout. }
  rewrite Hacc. change ((0 =? 0)) with true. cbn [negb orb].
  change (0 =? 0) with true. cbn [negb orb].
  unfold fs_open_read at 1. rewrite Hout, installed_data, Hd.
  destruct (strings_loop_table junk fuel (encode_table ts) 0 ts [] Ht eq_refl) as [f ->].
  { pose proof (encode_table_long ts). rewrite <- Hd in H.
    pose proof (archive_member_long pre e post). lia. }
  rewrite outcome_bind_ret. cbn [app].
  rewrite (unlink_file fs1 out _ _ Hout) by (by rewrite installed_data).
  eexists _, _. split; [reflexivity |]. split_and!.
  - intros s. by apply translateString_table.
  - rewrite lookup_unlinked. by rewrite bool_decide_eq_true_2.
  - intros q Hq'. rewrite lookup_unlinked, bool_decide_eq_false_2 by done. by apply lookup_with_file_ne.
Qed.

(** qsort as a merge sort. *)
Definition string_le (x y : aString) : Prop := aStringCmp x y ≠ 1.
#[local] Instance string_le_dec : RelDecision string_le.
Proof. intros x y. unfold string_le. apply _. Defined.
#[local] Instance string_le_trans : Transitive string_le.
Proof. intros x y z. unfold string_le. rewrite !aStringCmp_hash. lia. Qed.
#[local] Instance string_le_total : Total string_le.
Proof. intros x y. unfold string_le. rewrite !aStringCmp_hash. lia. Qed.

Definition sample_qsort : list aString → list aString := merge_sort string_le.
Lemma sample_qsort_sorts : sorts sample_qsort.
Proof. constructor; intros l; [apply merge_sort_Permutation | apply (StronglySorted_merge_sort string_le)]. Qed.

Definition sample_table : list translation :=
  [(string_hash (str "Retry"), str "Wiederholen"); (string_hash (str "OK"), str "Gut")].
Definition sample_tr : entry := sample_entry (str "de.tr") (encode_table sample_table).
Definition tmp_fs : memfs := dir_fs (str "/tmp") 0x1ff.
Definition sample_gunzip (f : bytes) : option memgz :=
  if streq f (str "/etc/loader.tr") then Some (mkGz (archive ([] ++ [sample_tr]) ++ []) []) else None.

Lemma tmp_fs_ok : fs_ok tmp_fs.
Proof. apply dir_fs_ok. Qed.
Lemma tmp_is_dir : is_dir tmp_fs (str "/tmp").
Proof. by apply dir_fs_is_dir. Qed.

Lemma tmp_placeable : placeable tmp_fs (str "/tmp/translation").
Proof.
  constructor.
  - discriminate.
  - intros i Hi. assert (i = 3%nat) as -> by (vm_compute in Hi; congruence).
    apply list.Forall_cons. split; [exact tmp_is_dir | constructor].
  - intros q Hq. assert (q = str "/tmp") as -> by (vm_compute in Hq; vm_compute; congruence). exact tmp_is_dir.
  - intros n i Hl. vm_compute in Hl. discriminate.
Qed.

Lemma sample_has_table : has_table [] sample_tr [] (str "de.tr") sample_table.
Proof.
  constructor.
  - apply list.Forall_cons. split; [| constructor].
    split; [apply sample_entry_ok; [by repeat constructor | cbn; lia | cbn; lia] | discriminate].
  - split; [reflexivity | vm_compute; discriminate].
  - constructor.
  - reflexivity.
  - reflexivity.
  - repeat (apply list.Forall_cons; split); [| | constructor];
      (constructor; [vm_compute; intuition discriminate | cbn; lia | vm_compute; repeat constructor; discriminate]).
  - vm_compute. repeat (apply list.NoDup_cons; split); [| | constructor];
      rewrite ?list_elem_of_singleton, ?not_elem_of_nil; try discriminate; apply not_elem_of_nil.
Qed.

Lemma loaded_table_translates_witness :
  ∃ strings fs', loadLanguage 0 sample_gunzip fs_open_read sample_qsort (Z.to_nat 1000) 0 (Some (str "de")) None [] tmp_fs =
      Ret (strings, fs') ∧
    translateString strings (str "OK") = str "Gut" ∧ translateString strings (str "Cancel") = str "Cancel" ∧
    fs_lookup fs' (str "/tmp/translation") = None.
Proof.
  destruct (loaded_table_translates 0 sample_qsort sample_gunzip (Z.to_nat 1000) 0 (str "de") [] sample_tr [] [] []
    sample_table tmp_fs []) as (strings & fs' & E & T & U & _).
  - exact sample_qsort_sorts.
  - exact sample_has_table.
  - discriminate.
  - cbn. lia.
  - reflexivity.
  - reflexivity.
  - exact tmp_fs_ok.
  - exact tmp_placeable.
  - reflexivity.
  - reflexivity.
  - assert (length (archive ([] ++ sample_tr :: [])) = Z.to_nat 268) as -> by (vm_compute; reflexivity). lia.
  - exists strings, fs'. split; [exact E |]. rewrite !T. split; [reflexivity |]. split; [reflexivity | exact U].
Defined.

(** ** Choosing a language *)

(** How well a language answers a key. *)
Definition rank (k : bytes) (l : langInfo) : nat :=
  if decide (lc_all l = k) then 3
  else if decide (getLangShortForm (lc_all l) = k) then 2
  else if decide (getLangNick (lc_all l) = k) then 1 else 0.

(** The first of those that answer best. *)
Record best_match (languages : list langInfo) (k : bytes) (i : nat) (l : langInfo) : Prop := {
  bm_here : languages !! i = Some l;
  bm_answers : (0 < rank k l)%nat;
  bm_best j l' : languages !! j = Some l' → (rank k l' ≤ rank k l)%nat;
  bm_first j l' : (j < i)%nat → languages !! j = Some l' → (rank k l' < rank k l)%nat }.

Definition env_of (l : langInfo) : langEnv := mkEnv (Some (lc_all l)) (Some (key l)) (Some (lang l)).

(** The console of a screen, where only some fonts can be loaded. *)
Definition screen (flags : Z) (isVioConsole : bool) : bool :=
  negb (FL flags LOADER_FLAGS_SERIAL) && negb (FL flags LOADER_FLAGS_VIRTPCONSOLE) && negb isVioConsole.

(** What choosing [l] does to the environment, and whether its table is loaded. *)
Definition chosen_env (flags : Z) (isVioConsole forced : bool) (l english : langInfo) (env : langEnv) : langEnv * bool :=
  if displayable l then (env_of l, true)
  else if screen flags isVioConsole && negb forced && FL flags LOADER_FLAGS_KICKSTART then (env_of english, true)
  else (env, false).

Lemma lang_index_first form languages k i l : languages !! i = Some l → form (lc_all l) = k →
  (∀ j l', (j < i)%nat → languages !! j = Some l' → form (lc_all l') ≠ k) → lang_index form languages k = Some i.
Proof.
  intros Hi Hl Hj. unfold lang_index.
  assert (list_find (λ l, form (lc_all l) = k) languages = Some (i, l)) as ->; [| done].
  apply list_find_Some. split_and!; [done | done |]. intros j y Hy Hlt. by eapply Hj.
Qed.

Lemma lang_index_none form languages k : (∀ j l', languages !! j = Some l' → form (lc_all l') ≠ k) →
  lang_index form languages k = None.
Proof.
  intros Hj. unfold lang_index.
  assert (list_find (λ l, form (lc_all l) = k) languages = None) as ->; [| done].
  apply list_find_None, list.Forall_forall. intros x [j Hx]%list_elem_of_lookup_1. by eapply Hj.
Qed.

(** The three searches together look for the best rank. *)
Lemma search_best {A} (f : nat → A) (d : A) languages k i l : best_match languages k i l →
  match lang_index id languages k with
  | Some i => f i
  | None => match lang_index getLangShortForm languages k with
            | Some i => f i
            | None => match lang_index getLangNick languages k with Some i => f i | None => d end
            end
  end = f i.
Proof.
  intros [Hi Ha Hb Hf]. unfold rank in *. destruct (decide (lc_all l = k)) as [E3 | N3].
  - erewrite (lang_index_first id _ _ i); [done | done | done |].
    intros j l' Hlt Hj E. specialize (Hf j l' Hlt Hj). rewrite decide_True in Hf by done. lia.
  - rewrite (lang_index_none id); cycle 1.
    { intros j l' Hj E. specialize (Hb j l' Hj). rewrite decide_True in Hb by done. repeat case_decide; lia. }
    destruct (decide (getLangShortForm (lc_all l) = k)) as [E2 | N2].
    + erewrite (lang_index_first getLangShortForm _ _ i); [done | done | done |].
      intros j l' Hlt Hj E. specialize (Hf j l' Hlt Hj). repeat case_decide; (done || lia).
    + rewrite (lang_index_none getLangShortForm); cycle 1.
      { intros j l' Hj E. specialize (Hb j l' Hj). repeat case_decide; (done || lia). }
      destruct (decide (getLangNick (lc_all l) = k)) as [E1 | N1]; [| lia].
      erewrite (lang_index_first getLangNick _ _ i); [done | done | done |].
      intros j l' Hlt Hj E. specialize (Hf j l' Hlt Hj). repeat case_decide; (done || lia).
Qed.

Lemma setLangEnv_at languages i l env : languages !! i = Some l →
  setLangEnv languages i env = Ret (if displayable l then (env_of l, true) else (env, false)).
Proof.
  intros Hl. unfold setLangEnv. pose proof (lookup_lt_Some _ _ _ Hl).
  rewrite (proj2 (Nat.ltb_ge _ _)) by lia. rewrite Hl. cbn [checked]. rewrite outcome_bind_ret.
  by destruct (displayable l).
Qed.

Lemma setupLanguage_at flags vio languages english e i l forced env : languages !! i = Some l →
  languages !! english = Some e → displayable e = true →
  setupLanguage flags vio languages english i (forced || negb (FL flags LOADER_FLAGS_KICKSTART)) env =
  Ret (0, (chosen_env flags vio forced l e env).1, (chosen_env flags vio forced l e env).2).
Proof.
  intros Hl He Hd. unfold setupLanguage, chosen_env, screen. rewrite Hl. cbn [checked]. rewrite outcome_bind_ret.
  rewrite (setLangEnv_at _ _ _ _ Hl), (setLangEnv_at _ _ _ _ He), Hd, !outcome_bind_ret.
  by destruct (displayable l), (FL flags LOADER_FLAGS_SERIAL), (FL flags LOADER_FLAGS_VIRTPCONSOLE), vio, forced,
    (FL flags LOADER_FLAGS_KICKSTART).
Qed.

(** C12: setLanguage takes the first of the languages that answer the key
    best: by the whole code, by the code without encoding and modifier, or by
    the language alone.  It then sets the environment for that language when
    its font can be shown; when it cannot, an unforced kickstart on a screen
    gets English and everything else is left as it was, although 0 is
    returned.  Without an answer the result is -1 and nothing changes. *)
Theorem setLanguage_best_match flags vio languages english e k forced env
    (He : languages !! english = Some e) (Hd : displayable e = true) :
  (∀ i l, best_match languages k i l →
    setLanguage flags vio languages english k forced env =
      Ret (0, (chosen_env flags vio forced l e env).1, (chosen_env flags vio forced l e env).2)) ∧
  ((∀ l, l ∈ languages → rank k l = 0%nat) → setLanguage flags vio languages english k forced env = Ret (-1, env, false)).
Proof.
  split.
  - intros i l Hb. unfold setLanguage. rewrite (search_best _ _ _ _ i l Hb).
    destruct Hb as [Hi _ _ _]. by apply setupLanguage_at.
  - intros Hr. unfold setLanguage. unfold rank in Hr.
    rewrite !lang_index_none; try done; intros j l Hj E; apply list_elem_of_lookup_2 in Hj; specialize (Hr l Hj);
      repeat case_decide; done.
Qed.

Definition english : langInfo := mkLang (str "English") (str "en") (str "latarcyrheb-sun16") (str "en_US.UTF-8") (str "us").
Definition japanese : langInfo := mkLang (str "Japanese") (str "ja") (str "none") (str "ja_JP.UTF-8") (str "jp106").
Definition german : langInfo := mkLang (str "German") (str "de") (str "latarcyrheb-sun16") (str "de_DE.UTF-8") (str "de-latin1").
Definition swiss : langInfo := mkLang (str "Swiss German") (str "de") (str "latarcyrheb-sun16") (str "de_CH.UTF-8") (str "sg-latin1").
Definition sample_languages : list langInfo := [english; japanese; german; swiss].

Lemma german_best : best_match sample_languages (str "de") 2 german.
Proof.
  constructor; [reflexivity | vm_compute; lia | |].
  - intros [| [| [| [| j]]]] l' [= <-]; vm_compute; lia.
  - intros [| [| j]] l' Hlt; [| | lia]; intros [= <-]; vm_compute; lia.
Qed.

Lemma japanese_best : best_match sample_languages (str "ja_JP") 1 japanese.
Proof.
  constructor; [reflexivity | vm_compute; lia | |].
  - intros [| [| [| [| j]]]] l' [= <-]; vm_compute; lia.
  - intros [| j] l' Hlt; [| lia]; intros [= <-]; vm_compute; lia.
Qed.

Lemma setLanguage_best_match_witness :
  setLanguage 0 false sample_languages 0 (str "de") true (mkEnv None None None) = Ret (0, env_of german, true) ∧
  setLanguage 0 false sample_languages 0 (str "ja_JP") true (mkEnv None None None) =
    Ret (0, mkEnv None None None, false).
Proof.
  split.
  - apply (proj1 (setLanguage_best_match 0 false sample_languages 0 english (str "de") true (mkEnv None None None)
      eq_refl eq_refl) 2%nat german german_best).
  - apply (proj1 (setLanguage_best_match 0 false sample_languages 0 english (str "ja_JP") true (mkEnv None None None)
      eq_refl eq_refl) 1%nat japanese japanese_best).
Defined.
