(* ===== verification/Popt.v ===== *)
(** * Command lines (the popt library)

    What the sources use of popt: a word list is parsed against a table of
    options.  The parsers themselves are parameters of the model. *)

From S2P Require Import Prelude CLib.

Inductive popt_kind := POPT_ARG_NONE | POPT_ARG_STRING | POPT_ARG_INT.

(** [val] is what poptGetNextOpt returns for an option; options with a [val]
    of 0 it stores itself. *)
Record poptOption := mkOpt { longName : bytes; shortName : Z; argInfo : popt_kind; opt_val : Z }.

Inductive popt_value := PSet | PStr (s : bytes) | PInt (z : Z).

(** The options met, in order, what the last call of poptGetNextOpt returned,
    and the words that are no options, for poptGetArg. *)
Record popt_result := mkPopt { p_options : list (bytes * popt_value); p_rc : Z; p_args : list bytes }.

(** poptGetContext and poptGetNextOpt until it returns a negative number; and
    poptParseArgvString, which fails or gives the words of a line. *)
Class PoptLib := {
  popt : list poptOption → list bytes → popt_result;
  poptParseArgvString : bytes → option (list bytes)
}.

(** The value an option leaves in its variable: the last one. *)
Definition opt_last (name : string) (r : popt_result) : option popt_value :=
  snd <$> list.last (List.filter (λ o, streq (fst o) (str name)) (p_options r)).
Definition opt_string (name : string) (r : popt_result) : option bytes :=
  match opt_last name r with Some (PStr s) => Some s | _ => None end.
Definition opt_set (name : string) (r : popt_result) : bool := bool_decide (is_Some (opt_last name r)).
Definition opt_int (name : string) (r : popt_result) (d : Z) : Z :=
  match opt_last name r with Some (PInt z) => z | _ => d end.

Definition string_opt (name : string) : poptOption := mkOpt (str name) 0 POPT_ARG_STRING 0.
Definition flag_opt (name : string) (short : Z) : poptOption := mkOpt (str name) short POPT_ARG_NONE 0.
Definition int_opt (name : string) : poptOption := mkOpt (str name) 0 POPT_ARG_INT 0.
Definition val_opt (name : string) (val : Z) : poptOption := mkOpt (str name) 0 POPT_ARG_STRING val.
