(* ===== verification/Modules.v ===== *)
(** * Kernel modules (stage-1/modules.c)

    Options and blacklists from the kernel's command line, the file
    /etc/modprobe.d/anaconda, and loading modules.  The child that runs
    modprobe has a copy of the data; what it does to them is lost.  modprobe,
    the kernel's command line and its list of modules are parameters. *)

From S2P Require Import Prelude CLib Posix Sys Popt.

(** numopts is the number of options. *)
Record moduleOptions := mkOpts { mo_name : bytes; mo_options : list bytes }.

(** modopts, [None] while nummodopts is -1, and blacklists, where a removed
    entry is null. *)
Record ml_state := mkMl { modopts : option (list moduleOptions); blacklists : list (option bytes) }.

(** [modopts[i].name] is looked for as a prefix. *)
Fixpoint add_option (l : list moduleOptions) (module option : bytes) : list moduleOptions :=
  match l with
  | [] => [mkOpts module [option]]
  | m :: l =>
      if starts_with (mo_name m) module then mkOpts (mo_name m) (mo_options m ++ [option]) :: l
      else m :: add_option l module option
  end.
(** An entry is written in front of the array when nummodopts is -1. *)
Definition addOption (st : ml_state) (module option : bytes) : outcome ml_state :=
  l ← checked (modopts st); Ret (mkMl (Some (add_option l module option)) (blacklists st)).

(** The contents of modules.dep are mapped into memory in pages: behind the last
    page nothing may be read. *)
Definition page : nat := Z.to_nat 4096.
Definition dep_search (buf module : bytes) (suffix : string) : outcome bool :=
  match strstr (until_nul buf) (snprintf_ 64 (str "/" ++ module ++ str suffix)) with
  | Some _ => Ret true
  | None => _ ← defined_if (negb (length buf mod page =? 0)%nat || bool_decide (0 ∈ buf)); Ret false
  end.
(** [None] when there is no such file; an empty one cannot be mapped. *)
Definition isValidModule (modules_dep : option bytes) (module : bytes) : outcome bool :=
  match modules_dep with
  | None | Some [] => Ret false
  | Some buf =>
      found ← dep_search buf module ".ko.gz:";
      if (found : bool) then Ret true else dep_search buf module ".ko:"
  end.

(** /proc/cmdline as read into a buffer of 1024 bytes: the words between the
    blanks.  A failing read would end the text in front of the buffer. *)
Definition cmdline_words {F} `{FileOps F} (cmdline : option F) : outcome (option (list bytes)) :=
  match cmdline with
  | None => Ret None
  | Some f =>
      let '(n, d, _) := f_read f 1023 in
      _ ← defined_if (0 <=? n);
      Ret (Some (split_on 32 (until_nul (d ++ [0]))))
  end.

(** One word: [strncmp(start, "blacklist=", 10)]. *)
Definition blacklist_word (w : bytes) (st : ml_state) : ml_state :=
  if starts_with (str "blacklist=") w then mkMl (modopts st) (blacklists st ++ [Some (drop 10 w)]) else st.
Definition readBlacklist {F} `{FileOps F} (cmdline : option F) (st : ml_state) : outcome ml_state :=
  ws ← cmdline_words cmdline;
  match ws with
  | None => Ret st
  | Some ws => Ret (fold_left (λ st w, blacklist_word w st) ws st)
  end.

(** A word with an equals sign and a dot: a module and an option. *)
Definition option_word (w : bytes) : option (bytes * bytes) :=
  match strchr w 61, strchr w 46 with
  | Some _, Some sep => Some (before w sep, tail sep)
  | _, _ => None
  end.
Fixpoint opts_loop (modules_dep : option bytes) (ws : list bytes) (st : ml_state) : outcome ml_state :=
  match ws with
  | [] => Ret st
  | w :: ws =>
      st ← (match option_word w with
            | None => Ret st
            | Some (module, option) =>
                valid ← isValidModule modules_dep module;
                if (valid : bool) then addOption st module option else Ret st
            end);
      opts_loop modules_dep ws st
  end.
(** The array itself is kept; only its length starts again at 0. *)
Definition readModuleOpts {F} `{FileOps F} (cmdline : option F) (modules_dep : option bytes) (st : ml_state) :
    outcome ml_state :=
  let st := mkMl (Some []) (blacklists st) in
  ws ← cmdline_words cmdline;
  match ws with
  | None => Ret st
  | Some ws => opts_loop modules_dep ws st
  end.

Fixpoint mlRemoveBlacklist_loop (l : list (option bytes)) (module : bytes) : outcome (list (option bytes)) :=
  match l with
  | [] => Ret []
  | b :: l =>
      b ← checked b;
      l ← mlRemoveBlacklist_loop l module;
      Ret ((if streq b module then None else Some b) :: l)
  end.
(** strcmp is called on the null pointer of an entry removed before. *)
Definition mlRemoveBlacklist (st : ml_state) (module : bytes) : outcome ml_state :=
  l ← mlRemoveBlacklist_loop (blacklists st) module; Ret (mkMl (modopts st) l).

(** ** The configuration file *)

Definition options_line (m : moduleOptions) : bytes :=
  str "options " ++ mo_name m ++ mjoin ((λ o, str " " ++ o) <$> mo_options m) ++ [10].
Definition blacklist_line (b : option bytes) : bytes :=
  match b with Some b => str "blacklist " ++ b ++ [10] | None => [] end.
Definition conf_text (st : ml_state) : bytes :=
  str "# Module options and blacklists written by anaconda" ++ [10] ++
  mjoin (options_line <$> default [] (modopts st)) ++ mjoin (blacklist_line <$> blacklists st).

Definition ANACONDA_CONF : bytes := str "/etc/modprobe.d/anaconda".

Section system.
Context {S : Type} `{SysOps S}.
(** What the uninitialised buffer of 16384 bytes holds. *)
Context (buf : bytes).

(** The text is appended to what the buffer holds, and the file keeps what is
    behind the bytes written. *)
Definition writeModulesConf (st : ml_state) (conf : option bytes) (s : S) : outcome (Z * S) :=
  let conf := default (str "/tmp/modprobe.conf") conf in
  match s_creat s conf 0x1a4 with
  | (inl _, s) => Ret (0, s)
  | (inr fd, s) =>
      let text := until_nul buf ++ conf_text st in
      _ ← defined_if (length text <? length buf)%nat;
      let '(rc, s) := s_write s fd text in
      Ret (if rc =? Z.of_nat (length text) then 0 else 1, s_close s fd)
  end.

Definition mlAddBlacklist (st : ml_state) (module : bytes) (s : S) : outcome (ml_state * S) :=
  let st := mkMl (modopts st) (blacklists st ++ [Some module]) in
  '(_, s) ← writeModulesConf st (Some ANACONDA_CONF) s;
  Ret (st, s).

Definition mlInitModuleConfig {F} `{FileOps F} (cmdline : option F) (modules_dep : option bytes) (st : ml_state) (s : S) :
    outcome (ml_state * S) :=
  st ← readModuleOpts cmdline modules_dep st;
  st ← readBlacklist cmdline st;
  '(_, s) ← writeModulesConf st (Some ANACONDA_CONF) s;
  Ret (st, s).

(** modprobe of a module: its exit status ([None]: it was killed). *)
Context (modprobe : bytes → S → option Z * S).

Fixpoint add_options (st : ml_state) (module : bytes) (args : list bytes) : outcome ml_state :=
  match args with
  | [] => Ret st
  | a :: args => st ← addOption st module a; add_options st module args
  end.

(** The child's part writes the file; the parent's data are as before.  The
    child is killed when it writes outside its memory, which is not told from
    other undefined behaviour here. *)
Definition doLoadModule (st : ml_state) (module : bytes) (args : option (list bytes)) (s : S) : outcome (Z * S) :=
  s ← (match args with
       | None => Ret s
       | Some args =>
           st ← add_options st module args;
           '(_, s) ← writeModulesConf st (Some ANACONDA_CONF) s;
           Ret s
       end);
  let '(status, s) := modprobe module s in
  Ret (match status with Some 0 => 0 | _ => 1 end, s).

Definition mlLoadModule (st : ml_state) (module : bytes) (args : option (list bytes)) (s : S) : outcome (Z * S) :=
  doLoadModule st module args s.

Fixpoint load_all (st : ml_state) (names : list bytes) (rc : Z) (s : S) : outcome (Z * S) :=
  match names with
  | [] => Ret (rc, s)
  | name :: names => '(r, s) ← doLoadModule st name None s; load_all st names (Z.lor rc r) s
  end.
(** The names between the colons. *)
Definition mlLoadModuleSet (st : ml_state) (modNames : option bytes) (s : S) : outcome (Z * S) :=
  match modNames with
  | None => Ret (1, s)
  | Some names => load_all st (split_on 58 names) 0 s
  end.
End system.

(** ** The device command of a kickstart file *)

Fixpoint word_length (s : bytes) : nat :=
  match s with b :: r => if isspace b || (b =? 0) then O else S (word_length r) | [] => O end.

(** [while (start && *start)]: the end of a word is made a blank, so the blank
    that is looked for next is always there, at the end of the word, and behind
    the last word it replaces the end of the string. *)
Fixpoint split_opts (fuel : nat) (buf : bytes) (start : nat) : outcome (list bytes) :=
  match fuel with
  | O => NoFuel
  | S fuel =>
      c ← checked (buf !! start);
      if c =? 0 then Ret []
      else
        let e := (start + word_length (drop start buf))%nat in
        _ ← checked (buf !! e);
        args ← split_opts fuel (<[e := 32]> buf) (S e);
        Ret (slice start (e - start) buf :: args)
  end.

Section device.
Context `{PoptLib} {S : Type} `{SysOps S} (buf : bytes) (modprobe : bytes → S → option Z * S).

(** The return value of mlLoadModule is not used. *)
Definition loadKickstartModule (st : ml_state) (argv : list bytes) (s : S) : outcome S :=
  let r := popt [string_opt "opts"] argv in
  if p_rc r <? -1 then Ret s
  else
    match head (p_args r) with
    | None => Ret s
    | Some module =>
        args ← (match opt_string "opts" r with
                | Some opts => a ← split_opts (Datatypes.S (length opts)) (opts ++ [0]) 0; Ret (Some a)
                | None => Ret None
                end);
        '(_, s) ← mlLoadModule buf modprobe st module args s;
        Ret s
    end.
End device.
