(* ===== verification/ModulesFacts.v ===== *)
(** * Kernel modules: facts (stage-1/modules.c)

    The options of the kernel's command line, grouped by module, are what
    mlInitModuleConfig writes. *)

From S2P Require Import Prelude CLib Posix Sys Popt CpioInstallFacts Modules.
Open Scope Z_scope.

(** ** Grouping the options *)

(** A module and an option for it. *)
Abbreviation modopt := (bytes * bytes)%type.

(** Without repetitions, each at its first place. *)
Definition distinct (l : list bytes) : list bytes :=
  fold_left (λ acc x, if bool_decide (x ∈ acc) then acc else acc ++ [x]) l [].
Definition options_for (os : list modopt) (m : bytes) : list bytes := (filter (λ o, fst o = m) os).*2.
Definition grouped (os : list modopt) : list moduleOptions :=
  (λ m, mkOpts m (options_for os m)) <$> distinct os.*1.

(** No name of a module begins with the name of another one. *)
Definition prefix_free (l : list bytes) : Prop := ∀ x y, x ∈ l → y ∈ l → starts_with x y = true → x = y.

Lemma distinct_snoc l x : distinct (l ++ [x]) = if bool_decide (x ∈ distinct l) then distinct l else distinct l ++ [x].
Proof. unfold distinct. by rewrite fold_left_app. Qed.

Lemma elem_of_distinct l x : x ∈ distinct l ↔ x ∈ l.
Proof.
  induction l as [| y l IH] using rev_ind; [done |]. rewrite distinct_snoc, elem_of_app, list_elem_of_singleton.
  case_bool_decide as Hy; rewrite ?elem_of_app, ?list_elem_of_singleton, IH; [| done].
  split; [by left | intros [? | ->]; [done | by apply IH]].
Qed.

Lemma NoDup_distinct l : NoDup (distinct l).
Proof.
  induction l as [| y l IH] using rev_ind; [constructor |]. rewrite distinct_snoc. case_bool_decide; [done |].
  apply list.NoDup_app. split; [done |]. split; [| by apply NoDup_singleton]. by intros z Hz ->%list_elem_of_singleton.
Qed.

Lemma starts_with_refl s : starts_with s s = true.
Proof. apply starts_with_spec. exists []. by rewrite app_nil_r. Qed.

(** What adding an option does to a list of modules given by their names. *)
Lemma add_option_old (f : bytes → moduleOptions) ns m o : (∀ n, mo_name (f n) = n) → NoDup ns → prefix_free (m :: ns) →
  m ∈ ns → add_option (f <$> ns) m o = (λ n, if decide (n = m) then mkOpts m (mo_options (f m) ++ [o]) else f n) <$> ns.
Proof.
  intros Hf Hnd Hp Hm. induction ns as [| n ns IH]; [by apply not_elem_of_nil in Hm |].
  apply list.NoDup_cons in Hnd as [Hn Hnd]. cbn [fmap list_fmap add_option]. rewrite Hf.
  destruct (decide (n = m)) as [-> | Hne].
  - rewrite starts_with_refl. f_equal. apply list_fmap_ext. intros i x Hi.
    destruct (decide (x = m)) as [-> |]; [| done]. by apply list_elem_of_lookup_2 in Hi.
  - destruct (starts_with n m) eqn:E; [apply Hp in E; [done | right; left | left] |].
    f_equal. apply IH; [done | | by apply elem_of_cons in Hm as [-> |]].
    intros x y Hx Hy. apply Hp; rewrite elem_of_cons in *; rewrite elem_of_cons; tauto.
Qed.

Lemma add_option_new (f : bytes → moduleOptions) ns m o : (∀ n, mo_name (f n) = n) → prefix_free (m :: ns) → m ∉ ns →
  add_option (f <$> ns) m o = (f <$> ns) ++ [mkOpts m [o]].
Proof.
  intros Hf Hp Hm. induction ns as [| n ns IH]; [done |]. cbn [fmap list_fmap add_option app]. rewrite Hf.
  rewrite not_elem_of_cons in Hm. destruct Hm as [Hne Hm].
  destruct (starts_with n m) eqn:E; [apply Hp in E; [done | right; left | left] |].
  f_equal. apply IH; [| done]. intros x y Hx Hy. apply Hp; rewrite elem_of_cons in *; rewrite elem_of_cons; tauto.
Qed.

Lemma options_for_snoc os m o n : options_for (os ++ [(m, o)]) n = options_for os n ++ if decide (m = n) then [o] else [].
Proof.
  unfold options_for. rewrite list.filter_app, fmap_app, list.filter_cons. cbn [fst].
  by destruct (decide (m = n)).
Qed.

Lemma add_option_grouped os m o : prefix_free (m :: os.*1) → add_option (grouped os) m o = grouped (os ++ [(m, o)]).
Proof.
  intros Hp. unfold grouped. rewrite fmap_app. cbn [fmap list_fmap fst]. rewrite distinct_snoc.
  assert (Hp' : prefix_free (m :: distinct os.*1)).
  { intros x y Hx Hy. apply Hp; rewrite elem_of_cons, ?elem_of_distinct in *; done. }
  case_bool_decide as Hm.
  - rewrite add_option_old; [| done | apply NoDup_distinct | done | done]. apply list_fmap_ext. intros i n Hi.
    rewrite options_for_snoc. destruct (decide (n = m)) as [-> |]; [by rewrite decide_True | rewrite decide_False by done].
    by rewrite app_nil_r.
  - rewrite add_option_new by done. rewrite fmap_app. cbn [fmap list_fmap]. f_equal.
    + apply list_fmap_ext. intros i n Hi. rewrite options_for_snoc, decide_False; [by rewrite app_nil_r |].
      intros <-. by apply list_elem_of_lookup_2 in Hi.
    + rewrite options_for_snoc, decide_True by done. do 2 f_equal. unfold options_for.
      assert (filter (λ o', o'.1 = m) os = []) as ->; [| done].
      apply elem_of_nil_inv. intros [m' o'] [Em Hin]%list_elem_of_filter. cbn in Em. subst m'.
      apply Hm, elem_of_distinct, list_elem_of_fmap. by exists (m, o').
Qed.

(** ** Reading the command line *)

(** The options of the words that name a valid module. *)
Definition word_options (valid : bytes → bool) (ws : list bytes) : list modopt :=
  filter (λ o, valid o.1 = true) (omap option_word ws).
Definition blacklisted (ws : list bytes) : list bytes := drop 10 <$> filter (λ w, starts_with (str "blacklist=") w = true) ws.

Lemma blacklist_words ws st : fold_left (λ st w, blacklist_word w st) ws st =
  mkMl (modopts st) (blacklists st ++ (Some <$> blacklisted ws)).
Proof.
  revert st. induction ws as [| w ws IH]; intros st; [destruct st; cbn; by rewrite app_nil_r |].
  cbn [fold_left]. rewrite IH. unfold blacklist_word, blacklisted. rewrite list.filter_cons.
  destruct (starts_with (str "blacklist=") w) eqn:E.
  - rewrite decide_True by done. cbn [modopts blacklists fmap list_fmap]. by rewrite <- (assoc_L (++)).
  - by rewrite decide_False.
Qed.

Lemma opts_loop_grouped dep valid ws os bl : (∀ m, isValidModule dep m = Ret (valid m)) →
  prefix_free (os ++ word_options valid ws).*1 →
  opts_loop dep ws (mkMl (Some (grouped os)) bl) = Ret (mkMl (Some (grouped (os ++ word_options valid ws))) bl).
Proof.
  intros Hv. revert os. induction ws as [| w ws IH]; intros os Hp; [cbn; by rewrite app_nil_r |].
  cbn [opts_loop]. unfold word_options in *. cbn [omap list_omap] in *. destruct (option_word w) as [[m o] |] eqn:Ew.
  - rewrite Hv, outcome_bind_ret. rewrite list.filter_cons in Hp |- *. cbn [fst] in Hp |- *. destruct (valid m) eqn:Em.
    + rewrite decide_True in Hp |- * by done. unfold addOption. cbn [modopts blacklists checked]. rewrite outcome_bind_ret.
      rewrite (cons_middle (m, o) os) in Hp |- *. rewrite (assoc_L (++)) in Hp |- *.
      rewrite add_option_grouped.
      * rewrite outcome_bind_ret. by apply IH.
      * intros x y Hx Hy. apply Hp; rewrite !fmap_app, !elem_of_app; cbn [fmap list_fmap fst];
          rewrite list_elem_of_singleton; rewrite elem_of_cons in Hx, Hy; tauto.
    + rewrite decide_False in Hp |- * by done. rewrite outcome_bind_ret. by apply IH.
  - rewrite outcome_bind_ret. by apply IH.
Qed.

(** ** Writing the file *)

(** What a file holds; nothing when there is none. *)
Definition file_text (fs : memfs) (p : bytes) : bytes :=
  match fs_lookup fs p with Some (_, i) => match i_kind i with KReg c => c | _ => [] end | None => [] end.

(** A regular file or a new one in a directory, on a system with room. *)
Record writable (fs : memfs) (p : bytes) : Prop := {
  wr_ok : fs_ok fs;
  wr_room : fs_full fs = false;
  wr_file : match fs_lookup fs p with Some (_, i) => ∃ c, i_kind i = KReg c | None => parent_ok fs p = true end }.

(** open and write of a file the descriptor of which is new. *)
Lemma fs_write_new fs n i c fd text : fs_full fs = false → fs_inodes fs !! n = Some i → i_kind i = KReg c →
  fs_fds fs !! fd = Some (n, 0%nat) →
  ∃ fs', fs_write fs fd text = (Z.of_nat (length text), fs') ∧ fs_names fs' = fs_names fs ∧
    fs_inodes fs' = <[n := mkInode (KReg (text ++ drop (length text) c)) (i_perm i) (i_uid i) (i_gid i) (i_mtime i)]> (fs_inodes fs).
Proof.
  intros Hr Hi Hk Hfd. unfold fs_write. rewrite Hr, Hfd, Hi, Hk. cbn [Nat.sub replicate]. rewrite app_nil_r.
  eexists. split; [reflexivity |]. split; [reflexivity |]. cbn. unfold splice. by rewrite take_0.
Qed.

Lemma lookup_closed (fs : memfs) fd p : fs_lookup (s_close fs fd) p = fs_lookup fs p.
Proof. reflexivity. Qed.

Lemma create_new fs p k perm : fs_lookup fs p = None → parent_ok fs p = true →
  fs_create fs p k perm = (0, mkFs (<[p := fs_next fs]> (fs_names fs)) (<[fs_next fs := mkInode k perm 0 0 0]> (fs_inodes fs))
    (fs_fds fs) (S (fs_next fs)) (fs_uid fs) (fs_full fs)).
Proof. intros Hl Hp. unfold fs_create. rewrite Hl, bool_decide_eq_false_2 by (by intros []). by rewrite Hp. Qed.

Lemma creat_writable fs p perm : writable fs p → ∃ fs1 fd n i, fs_creat fs p perm = (inr fd, fs1) ∧
  fs_full fs1 = false ∧ fs_names fs1 !! p = Some n ∧ fs_inodes fs1 !! n = Some i ∧ i_kind i = KReg (file_text fs p) ∧
  fs_fds fs1 !! fd = Some (n, 0%nat).
Proof.
  intros [Hok Hr Hf]. unfold fs_creat, file_text. destruct (fs_lookup fs p) as [[n i] |] eqn:El.
  - destruct Hf as [c Hk]. rewrite bool_decide_eq_true_2 by eauto. cbn zeta. rewrite Hk.
    eexists _, _, n, i. split; [reflexivity |]. cbn [fs_full fs_names fs_inodes fs_fds].
    unfold fs_lookup in El. destruct (fs_names fs !! p) as [n' |]; [cbn in El | done].
    destruct (fs_inodes fs !! n') as [i' |] eqn:Ei; [cbn in El | done]. injection El as <- <-.
    split_and!; try done. by rewrite lookup_insert_eq.
  - rewrite bool_decide_eq_false_2 by (by intros []). rewrite (create_new _ _ _ _ El Hf). change (0 =? 0) with true. cbn iota zeta.
    unfold fs_lookup. cbn [fs_names fs_inodes]. rewrite lookup_insert_eq. cbn [mbind option_bind]. rewrite lookup_insert_eq.
    cbn. eexists _, _, _, _. split; [reflexivity |]. cbn [fs_full fs_names fs_inodes fs_fds]. rewrite !lookup_insert_eq. done.
Qed.

Section write.
Context (buf : bytes).

Lemma writeModulesConf_text st conf fs : until_nul buf = [] → (length (conf_text st) < length buf)%nat → writable fs conf →
  ∃ fs', writeModulesConf buf st (Some conf) fs = Ret (0, fs') ∧
    file_text fs' conf = conf_text st ++ drop (length (conf_text st)) (file_text fs conf).
Proof.
  intros Hb Hl Hw. destruct (creat_writable fs conf 0x1a4 Hw) as (fs1 & fd & n & i & Ec & Hr & Hn & Hi & Hk & Hfd).
  unfold writeModulesConf. cbn [from_option default]. cbn [s_creat s_write memfs_ops]. cbn [from_option id]. rewrite Ec, Hb.
  cbn [app]. rewrite (proj2 (Nat.ltb_lt _ _) Hl). cbn [defined_if]. rewrite outcome_bind_ret.
  destruct (fs_write_new fs1 n i _ fd (conf_text st) Hr Hi Hk Hfd) as (fs2 & -> & Hn2 & Hi2). rewrite Z.eqb_refl.
  eexists. split; [reflexivity |]. unfold file_text at 1. rewrite lookup_closed. unfold fs_lookup. rewrite Hn2, Hn. cbn [mbind option_bind].
  rewrite Hi2, lookup_insert_eq. done.
Qed.

(** C18: mlInitModuleConfig reads the kernel's command line (up to 1023 bytes of
    it) and writes a line of options for every valid module that a word
    module.option=value names, in the order of their first words and with all
    their options in order, and the blacklisted modules, when no name of a module
    begins with the name of another one and the buffer on the stack is empty at
    first.  What the file held behind the new text stays in it. *)
Theorem mlInitModuleConfig_writes (cmdline dep : bytes) valid st0 fs
    (Hbuf : until_nul buf = []) (Hcmd : (length cmdline < 1024)%nat) (Hnul : Forall (λ b, b ≠ 0) cmdline)
    (Hvalid : ∀ m, isValidModule (Some dep) m = Ret (valid m))
    (Hprefix : prefix_free (word_options valid (split_on 32 cmdline)).*1)
    (Hfs : writable fs ANACONDA_CONF) :
  let ws := split_on 32 cmdline in
  let st := mkMl (Some (grouped (word_options valid ws))) (blacklists st0 ++ (Some <$> blacklisted ws)) in
  (length (conf_text st) < length buf)%nat →
  ∃ fs', mlInitModuleConfig buf (Some (mkFile cmdline 0)) (Some dep) st0 fs = Ret (st, fs') ∧
    file_text fs' ANACONDA_CONF = conf_text st ++ drop (length (conf_text st)) (file_text fs ANACONDA_CONF).
Proof.
  cbn zeta. intros Hfit.
  assert (Hw : cmdline_words (Some (mkFile cmdline 0)) = Ret (Some (split_on 32 cmdline))).
  { unfold cmdline_words. cbn [f_read regfile_ops]. unfold reg_read. cbn [fpos contents]. unfold slice. rewrite drop_0.
    rewrite take_ge by lia. rewrite (proj2 (Z.leb_le 0 _)) by lia. cbn [defined_if]. rewrite outcome_bind_ret.
    by rewrite until_nul_app_nul. }
  unfold mlInitModuleConfig, readModuleOpts, readBlacklist. rewrite Hw, !outcome_bind_ret.
  change (Some []) with (Some (grouped [])). rewrite (opts_loop_grouped _ valid _ [] _ Hvalid Hprefix), outcome_bind_ret.
  rewrite ?Hw, ?outcome_bind_ret, blacklist_words.
  cbn [modopts blacklists app]. rewrite ?outcome_bind_ret.
  destruct (writeModulesConf_text _ ANACONDA_CONF fs Hbuf Hfit Hfs) as (fs' & -> & Ht). rewrite outcome_bind_ret.
  by exists fs'.
Qed.
End write.

(** A kernel with two modules, and a directory for the file. *)
Definition sample_dep : bytes :=
  str "/lib/modules/2.6/e100.ko.gz:" ++ [10] ++ str "/lib/modules/2.6/aic7xxx.ko: /lib/modules/2.6/scsi_mod.ko" ++ [10].
Definition sample_cmdline : bytes :=
  str "ro e100.debug=3 ks=nfs:10.0.0.1:/ks aic7xxx.verbose=1 blacklist=usb e100.eeprom=1 foo.bar=1".
Definition modprobe_fs : memfs := dir_fs (str "/etc/modprobe.d") 0x1ed.
Definition sample_valid (m : bytes) : bool := match isValidModule (Some sample_dep) m with Ret b => b | _ => false end.

Lemma dep_search_ends buf m suffix : negb (length buf mod page =? 0)%nat = true → ∃ b, dep_search buf m suffix = Ret b.
Proof. intros Hp. unfold dep_search. destruct (strstr _ _); [by eexists |]. rewrite Hp. by eexists. Qed.

(** A list of modules that does not fill its pages is searched to an end. *)
Lemma isValidModule_ends buf m : negb (length buf mod page =? 0)%nat = true → ∃ b, isValidModule (Some buf) m = Ret b.
Proof.
  intros Hp. unfold isValidModule. destruct buf as [| c buf]; [by eexists |].
  destruct (dep_search_ends _ m ".ko.gz:" Hp) as [[] ->]; rewrite outcome_bind_ret; [by eexists |].
  by apply dep_search_ends.
Qed.

Lemma sample_valid_ok m : isValidModule (Some sample_dep) m = Ret (sample_valid m).
Proof. unfold sample_valid. by destruct (isValidModule_ends sample_dep m eq_refl) as [b ->]. Qed.

Lemma modprobe_fs_writable : writable modprobe_fs ANACONDA_CONF.
Proof. constructor; [apply dir_fs_ok | reflexivity | vm_compute; reflexivity]. Qed.

Definition sample_text : bytes :=
  str "# Module options and blacklists written by anaconda" ++ [10] ++ str "options e100 debug=3 eeprom=1" ++ [10] ++
  str "options aic7xxx verbose=1" ++ [10] ++ str "blacklist usb" ++ [10].

Lemma mlInitModuleConfig_writes_witness :
  ∃ st fs', mlInitModuleConfig (replicate (Z.to_nat 16384) 0) (Some (mkFile sample_cmdline 0)) (Some sample_dep) (mkMl None [])
      modprobe_fs = Ret (st, fs') ∧ file_text fs' ANACONDA_CONF = sample_text.
Proof.
  destruct (mlInitModuleConfig_writes (replicate (Z.to_nat 16384) 0) sample_cmdline sample_dep sample_valid (mkMl None []) modprobe_fs)
    as (fs' & E & T).
  - reflexivity.
  - apply Nat.ltb_lt. vm_compute. reflexivity.
  - apply list.Forall_forall. intros x Hx. vm_compute in Hx. repeat (apply elem_of_cons in Hx as [-> | Hx]; [discriminate |]).
    by apply not_elem_of_nil in Hx.
  - exact sample_valid_ok.
  - assert ((word_options sample_valid (split_on 32 sample_cmdline)).*1 = [str "e100"; str "aic7xxx"; str "e100"]) as ->
      by (vm_compute; reflexivity).
    intros x y Hx Hy. rewrite !elem_of_cons in Hx, Hy.
    destruct Hx as [-> | [-> | [-> | Hx%not_elem_of_nil]]], Hy as [-> | [-> | [-> | Hy%not_elem_of_nil]]]; done.
  - exact modprobe_fs_writable.
  - rewrite length_replicate. apply Nat.ltb_lt. vm_compute. reflexivity.
  - eexists _, fs'. split; [exact E |]. rewrite T. vm_compute. reflexivity.
Defined.
