(* ===== verification/Kickstart.v ===== *)
(** * Kickstart files (stage-1/kickstart.c and the handlers of its commands)

    ksReadCommands on its buffer, the commands it finds, and runKickstart with
    the handlers of the table: those of kickstart.c and setKickstartNfs,
    setKickstartCD, setKickstartHD, setKickstartUrl, setKickstartNetwork,
    setKickstartKeyboard, setKickstartLanguage and useKickstartDD.  What a
    handler does besides setting data is a call that the environment performs. *)

From S2P Require Import Prelude CLib Posix Loader Popt.

Definition KS_CMD_NONE : Z := 0.
Definition KS_CMD_NFS : Z := 1.
Definition KS_CMD_CDROM : Z := 2.
Definition KS_CMD_HD : Z := 3.
Definition KS_CMD_URL : Z := 4.
Definition KS_CMD_NETWORK : Z := 5.
Definition KS_CMD_TEXT : Z := 6.
Definition KS_CMD_KEYBOARD : Z := 7.
Definition KS_CMD_LANG : Z := 8.
Definition KS_CMD_DD : Z := 9.
Definition KS_CMD_DEVICE : Z := 10.
Definition KS_CMD_CMDLINE : Z := 11.
Definition KS_CMD_GRAPHICAL : Z := 12.
Definition KS_CMD_SELINUX : Z := 13.
Definition KS_CMD_POWEROFF : Z := 14.
Definition KS_CMD_HALT : Z := 15.
Definition KS_CMD_SHUTDOWN : Z := 16.
Definition KS_CMD_MEDIACHECK : Z := 17.
Definition KS_CMD_UPDATES : Z := 18.

(** stage-1/method.h *)
Definition METHOD_CDROM : Z := 0.
Definition METHOD_HD : Z := 1.
Definition METHOD_NFS : Z := 2.
Definition METHOD_URL : Z := 3.

(** argc is the length of [ks_argv]; every command has an array of its own, so
    the place of a command stands for the pointer to it. *)
Record ksCommand := mkKs { ks_code : Z; ks_argv : list bytes }.

(** The names and codes of the table, in its order. *)
Definition ksNames : list (Z * bytes) :=
  [(KS_CMD_NFS, str "nfs"); (KS_CMD_CDROM, str "cdrom"); (KS_CMD_HD, str "harddrive"); (KS_CMD_TEXT, str "text");
   (KS_CMD_GRAPHICAL, str "graphical"); (KS_CMD_URL, str "url"); (KS_CMD_NETWORK, str "network");
   (KS_CMD_KEYBOARD, str "keyboard"); (KS_CMD_LANG, str "lang"); (KS_CMD_DD, str "driverdisk");
   (KS_CMD_DEVICE, str "device"); (KS_CMD_CMDLINE, str "cmdline"); (KS_CMD_SELINUX, str "selinux");
   (KS_CMD_POWEROFF, str "poweroff"); (KS_CMD_HALT, str "halt"); (KS_CMD_SHUTDOWN, str "shutdown");
   (KS_CMD_MEDIACHECK, str "mediacheck"); (KS_CMD_UPDATES, str "updates")].

(** ** Reading the file *)

Fixpoint skip_white (s : bytes) : nat :=
  match s with b :: r => if isspace b then S (skip_white r) else O | [] => O end.

(** [while (chptr > start && isspace( *chptr)) chptr--;] *)
Fixpoint white_back (buf : bytes) (start chptr : nat) : outcome nat :=
  match chptr with
  | O => Ret O
  | S i =>
      if (start <? chptr)%nat then
        b ← checked (buf !! chptr);
        if isspace b then white_back buf start i else Ret chptr
      else Ret chptr
  end.

(** Cut off the line at [start]: the buffer, where the text of the line starts
    and ends, and where the next line starts.  A line that ends at the first
    byte of the buffer makes [chptr] point in front of it. *)
Definition ks_cut (buf : bytes) (start : nat) : outcome (bytes * nat * nat * nat) :=
  let s := until_nul (drop start buf) in
  let e := (start + length (match strchr s 10 with Some t => before s t | None => s end))%nat in
  oldch ← checked (buf !! e);
  let buf := <[e := 0]> buf in
  let start := (start + skip_white (drop start buf))%nat in
  chptr ← (match e with O => Undef | S i => white_back buf start i end);
  c ← checked (buf !! chptr);
  let buf := if isspace c then <[chptr := 0]> buf else <[S chptr := 0]> buf in
  Ret (buf, start, chptr, if oldch =? 0 then e else S e).

Section read.
Context `{PoptLib}.

(** What a line with a command does: the new command, and [argv], which stays
    as it was (or uninitialised) when the line cannot be parsed. *)
Definition ks_command (s : bytes) (argv : option (list bytes)) : outcome (option ksCommand * option (list bytes)) :=
  match poptParseArgvString s with
  | None => _ ← checked argv; Ret (None, argv)
  | Some [] => Ret (None, Some [])
  | Some ((name :: _) as a) =>
      match list_find (λ c, snd c = name) ksNames with
      | Some (_, (code, _)) => Ret (Some (mkKs code a), Some a)
      | None => Ret (None, Some a)
      end
  end.

(** [while ( *start && !inSection)] *)
Fixpoint ks_loop (fuel : nat) (buf : bytes) (start : nat) (argv : option (list bytes)) (commands : list ksCommand) :
    outcome (list ksCommand) :=
  match fuel with
  | O => NoFuel
  | S fuel =>
      c ← checked (buf !! start);
      if c =? 0 then Ret commands
      else
        '(buf, start, chptr, next) ← ks_cut buf start;
        let s := until_nul (drop start buf) in
        if bool_decide (s = []) || bool_decide (head s = Some 35) || starts_with (str "%include") s then
          ks_loop fuel buf next argv commands
        else if bool_decide (head s = Some 37) then Ret commands
        else
          last ← checked (buf !! chptr);
          if last =? 92 then ks_loop fuel buf next argv commands
          else
            '(cmd, argv) ← ks_command s argv;
            ks_loop fuel buf next argv (commands ++ option_list cmd)
  end.

(** On the opened file with its size; [commands] is empty before. *)
Definition ksReadCommands {F} `{FileOps F} (fuel : nat) (file : option (F * Z)) : outcome (Z * list ksCommand) :=
  match file with
  | None => Ret (LOADER_ERROR, [])
  | Some (f, st_size) =>
      let '(n, d, _) := f_read f st_size in
      if negb (n =? st_size) then Ret (LOADER_ERROR, [])
      else commands ← ks_loop fuel (d ++ [0]) 0 None []; Ret (0, commands)
  end.
End read.

Definition ksHasCommand (commands : list ksCommand) (cmd : Z) : Z :=
  if existsb (λ c, ks_code c =? cmd) commands then 1 else 0.

(** The next command with a code behind [last], the place of one (or null):
    its place and its arguments, or null when the result is 1. *)
Definition ksGetCommand (commands : list ksCommand) (cmd : Z) (last : option nat) : option (nat * list bytes) :=
  let i :=
    match last with
    | None => O
    | Some j => if (j <? length commands)%nat then S j else S (length commands)
    end in
  match list_find (λ c, ks_code c = cmd) (drop i commands) with
  | Some (k, c) => Some ((i + k)%nat, ks_argv c)
  | None => None
  end.

(** ** The handlers *)

(** What stage2Data points to, by installation method. *)
Inductive stage2Data_ :=
  | nfsInstallData (host : bytes) (directory mountOpts : option bytes)
  | hdInstallData (partition directory : option bytes)
  | urlInstallData (url : bytes).

(** Work of other parts of the loader. *)
Inductive ks_call :=
  | Call_network            (* kickstartNetworkUp *)
  | Call_dd_dev (dev : bytes) (fstype : option bytes)
  | Call_dd_source (src : bytes)
  | Call_device (argv : list bytes).   (* loadKickstartModule *)

Record ks_state := mkKst {
  kst_ld : loaderData_s; kst_flags : Z; kst_stage2 : option stage2Data_; kst_calls : list ks_call }.

Definition on_ld (f : loaderData_s → loaderData_s) (st : ks_state) : ks_state :=
  mkKst (f (kst_ld st)) (kst_flags st) (kst_stage2 st) (kst_calls st).
Definition on_flag (bit : Z) (st : ks_state) : ks_state :=
  mkKst (kst_ld st) (flag_or (kst_flags st) bit) (kst_stage2 st) (kst_calls st).
Definition set_stage2 (d : stage2Data_) (st : ks_state) : ks_state :=
  mkKst (kst_ld st) (kst_flags st) (Some d) (kst_calls st).

(** calloc is given the size of a pointer, so of the members, pointers all,
    only the first is inside the memory it returns. *)
Definition calloced : nat := 8.
Definition member_fits (i : nat) : outcome unit := defined_if (8 * S i <=? calloced)%nat.

(** [substr = strstr(s, ".img"); substr && substr[4] == '\0'] *)
Definition is_img (s : bytes) : bool :=
  match strstr s (str ".img") with Some t => bool_decide (length t = 4%nat) | None => false end.

Section handlers.
Context `{PoptLib}.
(** getBiosDisk, and what a call does to the data and the flags. *)
Context (getBiosDisk : bytes → option bytes) (perform : ks_call → loaderData_s * Z → loaderData_s * Z).

Definition call (c : ks_call) (st : ks_state) : ks_state :=
  let '(ld, flags) := perform c (kst_ld st, kst_flags st) in
  mkKst ld flags (kst_stage2 st) (kst_calls st ++ [c]).

Definition setKickstartNfs (argv : list bytes) (st : ks_state) : outcome ks_state :=
  let r := popt [string_opt "server"; string_opt "dir"; string_opt "opts"] argv in
  if p_rc r <? -1 then Ret st
  else
    match opt_string "server" r, opt_string "dir" r with
    | Some host, Some dir =>
        let st := on_ld (set_ldi L_method METHOD_NFS) st in
        if is_img dir then
          _ ← member_fits 0; _ ← member_fits 1; _ ← member_fits 2;
          Ret (set_stage2 (nfsInstallData host (Some dir) (opt_string "opts" r)) st)
        else Ret (on_ld (set_lds L_instRepo (Some (str "nfs:" ++ host ++ str ":" ++ dir))) st)
    | _, _ => Ret st
    end.

Definition setKickstartCD (argv : list bytes) (st : ks_state) : outcome ks_state :=
  Ret (on_ld (set_ldi L_method METHOD_CDROM) st).

(** [biospart]: a BIOS number, [p], and a partition number. *)
Definition bios_partition (biospart : bytes) : option bytes :=
  match strchr biospart 112 with
  | Some p => dev ← getBiosDisk (before biospart p); Some (dev ++ tail p)
  | None => None
  end.

(** The members that were not given stay null: calloc clears. *)
Definition setKickstartHD (argv : list bytes) (st : ks_state) : outcome ks_state :=
  let r := popt [string_opt "biospart"; string_opt "partition"; string_opt "dir"] argv in
  if p_rc r <? -1 then Ret st
  else
    let fill (partition : option bytes) :=
      let st := on_ld (set_ldi L_method METHOD_HD) st in
      _ ← (if partition is Some _ then member_fits 0 else Ret ());
      _ ← (if opt_string "dir" r is Some _ then member_fits 1 else Ret ());
      Ret (set_stage2 (hdInstallData partition (opt_string "dir" r)) st) in
    match opt_string "biospart" r with
    | Some biospart =>
        match bios_partition biospart with Some partition => fill (Some partition) | None => Ret st end
    | None => fill (opt_string "partition" r)
    end.

Definition setKickstartUrl (argv : list bytes) (st : ks_state) : outcome ks_state :=
  let r := popt [string_opt "url"] argv in
  if p_rc r <? -1 then Ret st
  else
    match opt_string "url" r with
    | None => Ret st
    | Some url =>
        if bool_decide (is_Some (strstr url (str "http://"))) || bool_decide (is_Some (strstr url (str "ftp://"))) then
          let st := on_ld (set_ldi L_method METHOD_URL) st in
          if is_img url then _ ← member_fits 0; Ret (set_stage2 (urlInstallData url) st)
          else Ret (on_ld (set_lds L_instRepo (Some url)) st)
        else Ret st
    end.

Definition setKickstartKeyboard (argv : list bytes) (st : ks_state) : outcome ks_state :=
  match argv with
  | _ :: kbd :: _ => Ret (on_ld (λ ld, set_ldi L_kbd_set 1 (set_lds L_kbd (Some kbd) ld)) st)
  | _ => Ret st
  end.

Definition setKickstartLanguage (argv : list bytes) (st : ks_state) : outcome ks_state :=
  match argv with
  | _ :: lang :: _ => Ret (on_ld (λ ld, set_ldi L_lang_set 1 (set_lds L_lang (Some lang) ld)) st)
  | _ => Ret st
  end.

(** strchr is called on a null name when there is only a source. *)
Definition useKickstartDD (argv : list bytes) (st : ks_state) : outcome ks_state :=
  let r := popt [string_opt "type"; string_opt "source"; flag_opt "biospart" 0] argv in
  if p_rc r <? -1 then Ret st
  else
    let fstype := opt_string "type" r in
    match head (p_args r), opt_string "source" r with
    | None, None => Ret st
    | None, Some src => if opt_set "biospart" r then Undef else Ret (call (Call_dd_source src) st)
    | Some dev, _ =>
        if opt_set "biospart" r then
          match bios_partition dev with Some dev => Ret (call (Call_dd_dev dev fstype) st) | None => Ret st end
        else Ret (call (Call_dd_dev dev fstype) st)
    end.

Definition loadKickstartModule_call (argv : list bytes) (st : ks_state) : outcome ks_state :=
  Ret (call (Call_device argv) st).

Definition setTextMode (argv : list bytes) (st : ks_state) : outcome ks_state := Ret (on_flag LOADER_FLAGS_TEXT st).
Definition setGraphicalMode (argv : list bytes) (st : ks_state) : outcome ks_state := Ret (on_flag LOADER_FLAGS_GRAPHICAL st).
Definition setCmdlineMode (argv : list bytes) (st : ks_state) : outcome ks_state := Ret (on_flag LOADER_FLAGS_CMDLINE st).
Definition setSELinux (argv : list bytes) (st : ks_state) : outcome ks_state := Ret (on_flag LOADER_FLAGS_SELINUX st).
Definition setPowerOff (argv : list bytes) (st : ks_state) : outcome ks_state := Ret (on_flag LOADER_FLAGS_POWEROFF st).
Definition setHalt (argv : list bytes) (st : ks_state) : outcome ks_state := Ret (on_flag LOADER_FLAGS_HALT st).
Definition setMediaCheck (argv : list bytes) (st : ks_state) : outcome ks_state := Ret (on_flag LOADER_FLAGS_MEDIACHECK st).

Definition setShutdown (argv : list bytes) (st : ks_state) : outcome ks_state :=
  let r := popt [flag_opt "eject" 101; flag_opt "reboot" 114; flag_opt "halt" 104; flag_opt "poweroff" 112] argv in
  if p_rc r <? -1 then Ret st
  else
    let poweroff := opt_set "poweroff" r in
    let st := if poweroff then on_flag LOADER_FLAGS_POWEROFF st else st in
    Ret (if negb poweroff && negb (opt_set "reboot" r) || opt_set "halt" r then on_flag LOADER_FLAGS_HALT st else st).

Definition setUpdates (argv : list bytes) (st : ks_state) : outcome ks_state :=
  match argv with
  | [_] => Ret (on_flag LOADER_FLAGS_UPDATES st)
  | [_; src] => Ret (on_ld (set_lds L_updatessrc (Some src)) st)
  | _ => Ret st
  end.

(** The options poptGetNextOpt returns to the switch. *)
Definition network_option (o : bytes * popt_value) (ld : loaderData_s) : loaderData_s :=
  match o with
  | (name, PStr arg) =>
      if streq name (str "gateway") then set_lds L_gateway (Some arg) ld
      else if streq name (str "ip") then set_lds L_ipv4 (Some arg) ld
      else if streq name (str "nameserver") then set_lds L_dns (Some arg) ld
      else if streq name (str "netmask") then set_lds L_netmask (Some arg) ld
      else if streq name (str "hostname") then set_lds L_hostname (Some arg) ld
      else ld
  | _ => ld
  end.

Definition network_options : list poptOption :=
  [string_opt "bootproto"; string_opt "device"; string_opt "dhcpclass"; val_opt "gateway" 103; val_opt "ip" 105;
   int_opt "mtu"; val_opt "nameserver" 110; val_opt "netmask" 109; flag_opt "noipv4" 0; flag_opt "noipv6" 0;
   flag_opt "nodns" 0; val_opt "hostname" 104; string_opt "ethtool"; string_opt "essid"; string_opt "wepkey";
   string_opt "onboot"; flag_opt "notksdevice" 0; int_opt "dhcptimeout"].

Definition network_bootproto (bootProto : option bytes) (ld : loaderData_s) : loaderData_s :=
  let dhcp := match bootProto with
              | Some b => starts_with (str "dhcp") b || starts_with (str "bootp") b
              | None => negb (bool_decide (is_Some (ld_s ld L_ipv4)))
              end in
  if dhcp then set_ldi L_ipinfo_set 1 (set_lds L_ipv4 (Some (str "dhcp")) ld)
  else if bool_decide (is_Some (ld_s ld L_ipv4)) then set_ldi L_ipinfo_set 1 ld
  else ld.

Definition when_some (o : option bytes) (f : bytes → loaderData_s → loaderData_s) (ld : loaderData_s) : loaderData_s :=
  match o with Some v => f v ld | None => ld end.

(** What is not set with --notksdevice. *)
Definition network_device (r : popt_result) (ld : loaderData_s) : loaderData_s :=
  let ld := when_some (opt_string "device" r) (λ v ld, set_ldi L_netDev_set 1 (set_lds L_netDev (Some v) ld)) ld in
  let ld := when_some (opt_string "dhcpclass" r) (λ v ld, set_ldi L_netCls_set 1 (set_lds L_netCls (Some v) ld)) ld in
  let ld := when_some (opt_string "ethtool" r) (λ v, set_lds L_ethtool (Some v)) ld in
  let ld := when_some (opt_string "essid" r) (λ v, set_lds L_essid (Some v)) ld in
  let ld := when_some (opt_string "wepkey" r) (λ v, set_lds L_wepkey (Some v)) ld in
  let mtu := opt_int "mtu" r 1500 in
  if mtu =? 0 then ld else set_ldi L_mtu mtu ld.

Definition setKickstartNetwork (argv : list bytes) (st : ks_state) : outcome ks_state :=
  let r := popt network_options argv in
  let st := on_ld (λ ld, fold_left (λ ld o, network_option o ld) (p_options r) ld) st in
  let st := on_ld (network_bootproto (opt_string "bootproto" r)) st in
  let st :=
    if opt_set "notksdevice" r then st
    else
      let st := on_ld (network_device r) st in
      if opt_set "noipv4" r then on_flag LOADER_FLAGS_NOIPV4 st else st in
  let st := if opt_set "nodns" r then on_ld (set_ldi L_noDns 1) st else st in
  let method := ld_i (kst_ld st) L_method in
  Ret (if negb (method =? METHOD_NFS) && negb (method =? METHOD_URL) then call Call_network st else st).

(** ** Running the commands *)

(** A handler: [setupData] of the table. *)
Abbreviation handler := (list bytes → ks_state → outcome ks_state).
Definition ksTable : list (Z * handler) :=
  [(KS_CMD_NFS, setKickstartNfs); (KS_CMD_CDROM, setKickstartCD); (KS_CMD_HD, setKickstartHD);
   (KS_CMD_TEXT, setTextMode); (KS_CMD_GRAPHICAL, setGraphicalMode); (KS_CMD_URL, setKickstartUrl);
   (KS_CMD_NETWORK, setKickstartNetwork); (KS_CMD_KEYBOARD, setKickstartKeyboard);
   (KS_CMD_LANG, setKickstartLanguage); (KS_CMD_DD, useKickstartDD); (KS_CMD_DEVICE, loadKickstartModule_call);
   (KS_CMD_CMDLINE, setCmdlineMode); (KS_CMD_SELINUX, setSELinux); (KS_CMD_POWEROFF, setPowerOff);
   (KS_CMD_HALT, setHalt); (KS_CMD_SHUTDOWN, setShutdown); (KS_CMD_MEDIACHECK, setMediaCheck);
   (KS_CMD_UPDATES, setUpdates)].

Fixpoint run_table (commands : list ksCommand) (table : list (Z * handler)) (st : ks_state) : outcome ks_state :=
  match table with
  | [] => Ret st
  | (code, setupData) :: table =>
      match ksGetCommand commands code None with
      | Some (_, argv) => st ← setupData argv st; run_table commands table st
      | None => run_table commands table st
      end
  end.
Definition runKickstart (commands : list ksCommand) (st : ks_state) : outcome ks_state :=
  run_table commands ksTable st.
End handlers.

(** ** Finding the file *)

(** ksFile without "ks=" in front leaves [location] null. *)
Definition isKickstartFileRemote (ksFile : option bytes) : outcome Z :=
  match ksFile with
  | None => Ret 0
  | Some s =>
      location ← checked (if starts_with (str "ks=") s then Some (drop 3 s) else None);
      Ret (if starts_with (str "ks") location || starts_with (str "http://") location ||
              starts_with (str "ftp://") location || starts_with (str "nfs:") location then 1 else 0)
  end.

(** The host, the file, the login and the password.  Without a slash the last
    character of an empty file name is looked at, in front of it. *)
Definition getHostPathandLogin (ksSource ip : bytes) : outcome (bytes * bytes * bytes * bytes) :=
  let '(host, file) :=
    match strchr ksSource 47 with
    | Some tmp => (before ksSource tmp, tmp)
    | None => (ksSource, [])
    end in
  c ← checked (list.last file);
  let file := if (c =? 47) || (c =? 0) then file ++ ip ++ str "-kickstart" else file in
  match strchr host 64 with
  | Some tmp =>
      let login := before host tmp in
      match strchr login 58 with
      | Some colon => Ret (tail tmp, file, before login colon, tail colon)
      | None => Ret (tail tmp, file, login, [])
      end
  | None => Ret (host, file, [], [])
  end.

Section find.
(** getKickstartFromBlockDevice; the removable disks of getDevices, in order
    (null for no disks); the CD drives, some of which have no device name;
    kickstartFromNfs and kickstartFromUrl. *)
Context (getBiosDisk : bytes → option bytes) (block_device : bytes → bytes → Z)
  (disks : option (list (bytes * bool))) (cdroms : option (list (option bytes)))
  (from_nfs : option bytes → loaderData_s → Z * loaderData_s) (from_url : bytes → loaderData_s → Z * loaderData_s).

(** [prefix:[/path/to/ks.cfg]] *)
Definition source_path (kssrc : bytes) : bytes :=
  match strchr kssrc 58 with
  | Some (_ :: ((_ :: _) as kspath)) => kspath
  | _ => str "/ks.cfg"
  end.

Definition kickstartFromRemovable (kssrc : bytes) : Z :=
  match disks with
  | None => 1
  | Some l =>
      match list_find (λ d, snd d = true) l with
      | Some (_, (device, _)) => if block_device device (source_path kssrc) =? 0 then 0 else 1
      | None => 1
      end
  end.

Fixpoint try_cdroms (l : list (option bytes)) (kspath : bytes) : Z :=
  match l with
  | [] => 1
  | None :: l => try_cdroms l kspath
  | Some d :: l => if block_device d kspath =? 0 then 0 else try_cdroms l kspath
  end.
Definition kickstartFromCD (kssrc : bytes) : Z :=
  match cdroms with None => 1 | Some l => try_cdroms l (source_path kssrc) end.

(** hd:[device]:/path/to/ks.cfg, or a slash for the second colon; without a
    first colon the search starts at the address 1. *)
Definition kickstartFromHD (kssrc : bytes) : outcome Z :=
  p ← checked (strchr kssrc 58);
  let rest := tail p in
  match (match strchr rest 58 with Some np => Some np | None => strchr rest 47 end) with
  | None => Ret 1
  | Some np => Ret (if block_device (before rest np) (tail np) =? 0 then 0 else 1)
  end.

(** bd:[device]:/path/to/ks.cfg; there is room for two characters of the
    partition behind the name of the disk. *)
Definition kickstartFromBD (kssrc : bytes) : outcome Z :=
  match strchr kssrc 58 with
  | None => Ret 1
  | Some p =>
      let rest := tail p in
      match strchr rest 58 with
      | None => Ret 1
      | Some np =>
          let dev := before rest np in
          match strchr dev 112 with
          | None => Ret 1
          | Some r =>
              match getBiosDisk (before dev r) with
              | None => Ret 1
              | Some disk =>
                  _ ← defined_if (length (tail r) <=? 2)%nat;
                  Ret (if block_device (disk ++ tail r) (tail np) =? 0 then 0 else 1)
              end
          end
      end
  end.

(** One turn of the loop: the result, whether the file is a local one, and the
    data; [rc] stays when no prefix fits. *)
Definition fetch_file (c : bytes) (rc : Z) (ld : loaderData_s) : outcome (Z * bool * loaderData_s) :=
  let found rc := Ret (rc, false, set_lds L_ksFile (Some (str "/tmp/ks.cfg")) ld) in
  let net '((rc, ld) : Z * loaderData_s) := Ret (rc, false, set_lds L_ksFile (Some (str "/tmp/ks.cfg")) ld) in
  if starts_with (str "ks") c then net (from_nfs None ld)
  else if starts_with (str "http://") c || starts_with (str "ftp://") c then net (from_url c ld)
  else if starts_with (str "nfs:") c then net (from_nfs (Some (drop 4 c)) ld)
  else if starts_with (str "floppy") c then found (kickstartFromRemovable c)
  else if starts_with (str "hd:") c then rc ← kickstartFromHD c; found rc
  else if starts_with (str "bd:") c then rc ← kickstartFromBD c; found rc
  else if starts_with (str "cdrom") c then found (kickstartFromCD c)
  else if starts_with (str "file:") c then Ret (rc, true, set_lds L_ksFile (Some (drop 5 c)) ld)
  else Ret (rc, false, ld).

(** [answers] are what the user enters when a file could not be fetched (null
    for a cancel).  The loop is left by its first turn: with a result of 0, by
    the break, or by one of the returns.  The last component of the result says
    whether ksFile has been freed and still points to the memory. *)
Fixpoint getKickstartFile (answers : list (option bytes)) (ld : loaderData_s) (flags : Z) :
    outcome (loaderData_s * Z * bool) :=
  ksFile ← checked (ld_s ld L_ksFile);
  let c := if starts_with (str "ks=") ksFile then drop 3 ksFile else ksFile in
  '(rc, local, ld) ← fetch_file c 1 ld;
  if local || (rc =? 0) then Ret (ld, flag_or flags LOADER_FLAGS_KICKSTART, false)
  else
    match answers with
    | [] => NoFuel
    | None :: _ => Ret (ld, flags, true)
    | Some newLocation :: answers => getKickstartFile answers (set_lds L_ksFile (Some newLocation) ld) flags
    end.
End find.
