(* ===== verification/KickstartFacts.v ===== *)
(** * Kickstart files: facts (stage-1/kickstart.c)

    ksReadCommands gives the commands of the lines in front of the first
    section; runKickstart settles the installation method in the order of the
    table, whatever the order of the lines. *)

From S2P Require Import Prelude CLib Posix Loader Popt Kickstart.
Open Scope Z_scope.

(** ** Lines without the white space around them *)

Abbreviation white := (Forall (λ b, isspace b = true)).

Definition trim (l : bytes) : bytes := rev (skip_space (rev (skip_space l))).

Lemma skip_space_split s : ∃ a, s = a ++ skip_space s ∧ white a ∧
  (∀ b, head (skip_space s) = Some b → isspace b = false).
Proof.
  induction s as [| b s (a & E & Ha & Hh)]; [by exists [] |]. cbn [skip_space]. destruct (isspace b) eqn:Eb.
  - exists (b :: a). cbn [app]. rewrite <- E. split; [done |]. split; [by apply list.Forall_cons | done].
  - exists []. split; [done |]. split; [constructor |]. by intros ? [= <-].
Qed.

(** The text of a line: white space, the text, white space. *)
Lemma trim_split l : ∃ a b, l = a ++ trim l ++ b ∧ white a ∧ white b ∧ (trim l = [] → b = []) ∧
  (∀ c, head (trim l) = Some c → isspace c = false) ∧ (∀ c, list.last (trim l) = Some c → isspace c = false).
Proof.
  destruct (skip_space_split l) as (a & E & Ha & Hh).
  destruct (skip_space_split (rev (skip_space l))) as (r & E' & Hr & Hl).
  assert (E2 : skip_space l = trim l ++ rev r).
  { apply (f_equal (@rev Z)) in E'. rewrite rev_involutive in E'. rewrite E' at 1. by rewrite rev_app_distr. }
  assert (Hr' : white (rev r)) by (by apply List.Forall_rev).
  destruct (decide (trim l = [])) as [Et | Et].
  - exists l, []. rewrite Et. split_and!; try done; [by rewrite app_nil_r |].
    rewrite E, E2, Et. apply list.Forall_app. by split.
  - exists a, (rev r). rewrite <- E2. split_and!; try done.
    + intros c Hc. apply Hh. rewrite E2. by destruct (trim l).
    + intros c Hc. apply Hl. unfold trim in Hc. rewrite rev_alt in Hc. by rewrite <- (last_reverse (skip_space _)).
Qed.

Lemma skip_white_app a r : white a → (∀ b, head r = Some b → isspace b = false) → skip_white (a ++ r) = length a.
Proof.
  intros Ha Hr. induction Ha as [| b a Hb _ IH]; cbn [app skip_white length].
  - destruct r as [| c r]; [done |]. cbn [skip_white]. by rewrite (Hr c).
  - by rewrite Hb, IH.
Qed.

Lemma white_back_run buf start t x b r : drop start buf = t ++ x :: b ++ r → white b → isspace x = false →
  white_back buf start (start + length t + length b) = Ret (start + length t)%nat.
Proof.
  intros E Hb Hx. revert r E. induction b as [| c b IH] using rev_ind; intros r E.
  - cbn [length]. rewrite Nat.add_0_r. destruct (start + length t)%nat as [| i] eqn:Ei; [done |]. cbn [white_back].
    destruct (Nat.ltb_spec start (S i)); [| done]. rewrite <- Ei at 1.
    rewrite (drop_lookup_app buf start t x ([] ++ r) E). cbn [checked]. by rewrite outcome_bind_ret, Hx.
  - apply list.Forall_app in Hb as [Hb Hc]. apply list.Forall_cons in Hc as [Hc _].
    rewrite length_app. cbn [length]. replace (start + length t + (length b + 1))%nat with (S (start + length t + length b)) by lia.
    cbn [white_back]. rewrite (proj2 (Nat.ltb_lt _ _)) by lia.
    replace (S (start + length t + length b)) with (start + length (t ++ x :: b))%nat by (rewrite length_app; cbn; lia).
    rewrite (drop_lookup_app buf start (t ++ x :: b) c r).
    + cbn [checked]. rewrite outcome_bind_ret, Hc. apply (IH Hb (c :: r)). by rewrite E, <- !(assoc_L (++)).
    + rewrite E. by rewrite <- !(assoc_L (++)), <- app_comm_cons.
Qed.

Lemma drop_set_head {A} (l : list A) n x y r : drop n l = y :: r → drop n (<[n := x]> l) = x :: r.
Proof. intros E. rewrite <- (Nat.add_0_r n) at 2. by apply (drop_set l n [] x y r). Qed.

(** One line: [l] up to the newline or the end of the buffer ([x]). *)
Lemma ks_cut_run buf start l x rest : drop start buf = l ++ x :: rest → x = 10 ∨ x = 0 →
  Forall (λ b, b ≠ 0) l → Forall (λ b, b ≠ 10) l → (0 < start + length l)%nat →
  ∃ buf' start' chptr, ks_cut buf start = Ret (buf', start', chptr, start + length l + if (x =? 0)%Z then 0 else 1)%nat ∧
    until_nul (drop start' buf') = trim l ∧ (trim l ≠ [] → buf' !! chptr = list.last (trim l)) ∧
    drop (start + length l) buf' = 0 :: rest.
Proof.
  intros E Hx Hn0 Hnl Hpos. destruct (trim_split l) as (a & b & El & Ha & Hb & Htb & Hh & Hl).
  set (t := trim l) in *. unfold ks_cut.
  assert (Hend : let s := until_nul (drop start buf) in
    length (match strchr s 10 with Some t => before s t | None => s end) = length l).
  { rewrite E. destruct Hx as [-> | ->]; cbn zeta.
    - assert (∃ r, until_nul (l ++ 10 :: rest) = l ++ 10 :: r) as [r ->].
      { clear -Hn0. induction Hn0 as [| c l Hc _ [r IH]]; cbn [app until_nul].
        - change (10 =? 0) with false. by eexists.
        - destruct (Z.eqb_spec c 0); [done |]. rewrite IH. by exists r. }
      by rewrite strchr_app, before_app.
    - rewrite until_nul_app_nul by done. apply strchr_none in Hnl. by rewrite Hnl. }
  cbn zeta in Hend. rewrite Hend. clear Hend. rewrite (drop_lookup_app _ _ _ _ _ E). cbn [checked]. rewrite outcome_bind_ret.
  set (buf1 := <[(start + length l)%nat := 0]> buf). pose proof (drop_set _ _ _ 0 _ _ E) as E1. fold buf1 in E1.
  assert (Hw : skip_white (drop start buf1) = length a).
  { rewrite E1, El, <- !(assoc_L (++)). apply skip_white_app; [done |]. intros c.
    destruct t as [| c' t']; [rewrite (Htb eq_refl); by intros [= <-] | apply Hh]. }
  rewrite Hw. set (start' := (start + length a)%nat).
  assert (E2 : drop start' buf1 = t ++ b ++ 0 :: rest).
  { unfold start'. rewrite <- drop_drop, E1, El, <- !(assoc_L (++)). apply drop_app_length. }
  assert (Lab : length l = (length a + length t + length b)%nat) by (rewrite El, !length_app; lia).
  destruct (start + length l)%nat as [| e] eqn:Ee; [lia |].
  destruct (decide (t = [])) as [Et | Et].
  - rewrite (Htb Et), Et in *. cbn [length app] in *.
    assert (Hst : start' = S e) by (unfold start'; lia).
    assert (white_back buf1 start' e = Ret e) as ->.
    { destruct e; cbn [white_back]; [done |]. rewrite (proj2 (Nat.ltb_ge _ _)); [done | lia]. }
    rewrite outcome_bind_ret. rewrite Hst in E2.
    assert (is_Some (buf1 !! e)) as [c Hc].
    { apply lookup_lt_is_Some. pose proof (f_equal length E2) as L. rewrite length_drop in L. cbn [length] in L. lia. }
    rewrite Hc. cbn [checked]. rewrite outcome_bind_ret. eexists _, start', e. split; [| split; [| split]].
    + f_equal. f_equal. by destruct (x =? 0); lia.
    + rewrite Hst. destruct (isspace c); [rewrite drop_insert_lt by lia; by rewrite E2 |].
      by rewrite (drop_set_head _ _ 0 _ _ E2).
    + by intros [].
    + destruct (isspace c); [rewrite drop_insert_lt by lia; by rewrite E2 |].
      by rewrite (drop_set_head _ _ 0 _ _ E2).
  - destruct (list.last t) as [c |] eqn:Ec; [| by apply list.last_None in Ec].
    pose proof (Hl c eq_refl) as Hcw. apply last_Some in Ec as [t0 Et0]. rewrite Et0 in *. clear Et0 Et.
    rewrite length_app in Lab. cbn [length] in Lab.
    assert (white_back buf1 start' e = Ret (start' + length t0)%nat) as ->.
    { replace e with (start' + length t0 + length b)%nat by (unfold start'; lia).
      apply (white_back_run _ _ _ c b (0 :: rest)); [| done | done]. by rewrite E2, <- !(assoc_L (++)). }
    rewrite outcome_bind_ret.
    assert (buf1 !! (start' + length t0)%nat = Some c) as ->.
    { apply (drop_lookup_app _ _ _ _ (b ++ 0 :: rest)). by rewrite E2, <- !(assoc_L (++)). }
    cbn [checked]. rewrite outcome_bind_ret, Hcw. eexists _, start', (start' + length t0)%nat.
    destruct (b ++ 0 :: rest) as [| y r] eqn:Ebr; [by destruct b |].
    pose proof (drop_set _ _ _ 0 _ _ E2) as E3. rewrite length_app in E3. cbn [length] in E3.
    replace (start' + (length t0 + 1))%nat with (S (start' + length t0)) in E3 by lia.
    split; [| split; [| split]].
    + f_equal. f_equal. by destruct (x =? 0); lia.
    + rewrite E3. apply until_nul_app_nul. rewrite El in Hn0. apply list.Forall_app in Hn0 as [_ Hn0].
      by apply list.Forall_app in Hn0 as [Hn0 _].
    + intros _. rewrite <- (assoc_L (++)) in E3. cbn [app] in E3.
      by rewrite (drop_lookup_app _ _ _ _ _ E3).
    + assert (E4 : drop (S e) buf1 = 0 :: rest).
      { rewrite <- Ee in *. rewrite <- drop_drop, E1. apply drop_app_length. }
      destruct (decide (b = [])) as [-> | Hb0].
      * cbn [app length] in *. assert (S (start' + length t0) = S e) as -> by (unfold start'; lia).
        by rewrite (drop_set_head _ _ 0 _ _ E4).
      * rewrite drop_insert_lt; [done |]. destruct b; [done |]. cbn [length] in Lab. unfold start'. lia.
Qed.

(** ** All lines *)

Section read_facts.
Context `{PoptLib}.

(** Blank lines, comments and %include lines. *)
Definition ignored (s : bytes) : bool :=
  bool_decide (s = []) || bool_decide (head s = Some 35) || starts_with (str "%include") s.

(** What the lines give, one after the other. *)
Fixpoint read_lines (ls : list bytes) (argv : option (list bytes)) : outcome (list ksCommand) :=
  match ls with
  | [] => Ret []
  | l :: ls =>
      let s := trim l in
      if ignored s then read_lines ls argv
      else if bool_decide (head s = Some 37) then Ret []
      else if bool_decide (list.last s = Some 92) then read_lines ls argv
      else
        '(cmd, argv) ← ks_command s argv;
        cmds ← read_lines ls argv;
        Ret (option_list cmd ++ cmds)
  end.

Lemma ks_loop_lines u : Forall (λ b, b ≠ 0) u → ∀ fuel buf start rest argv acc, drop start buf = u ++ 0 :: rest →
  (0 < start)%nat ∨ head u ≠ Some 10 → (length u < fuel)%nat →
  ks_loop fuel buf start argv acc = (cmds ← read_lines (split_on 10 u) argv; Ret (acc ++ cmds)).
Proof.
  induction u as [u IH] using (induction_ltof1 _ length); unfold ltof in IH. intros Hu [| fuel] buf start rest argv acc E Hs Hf; [lia |].
  destruct u as [| c0 u0] eqn:Eu.
  { cbn [ks_loop]. rewrite (drop_lookup _ _ _ _ E). cbn [checked]. rewrite outcome_bind_ret. change (0 =? 0) with true.
    cbn iota. cbn [split_on read_lines]. change (ignored (trim [])) with true. cbn iota. rewrite outcome_bind_ret.
    by rewrite app_nil_r. }
  assert (Hsplit : ∃ l x t, u = l ++ (if x =? 10 then x :: t else []) ∧ u ++ 0 :: rest = l ++ x :: (if x =? 10 then t ++ 0 :: rest else rest) ∧
     (x = 10 ∨ x = 0) ∧ Forall (λ b, b ≠ 10) l ∧ split_on 10 u = l :: (if x =? 10 then split_on 10 t else [])).
  { destruct (strchr u 10) as [t |] eqn:Et.
    - destruct (strchr_suffix _ _ _ Et) as [E1 E2]. pose proof (strchr_before_not _ _ _ Et) as Hb.
      destruct t as [| x t]; [done |]. injection E2 as ->. exists (before u (10 :: t)), 10, t. change (10 =? 10) with true. cbn iota.
      split_and!; [done | | by left | done |].
      + rewrite E1 at 1. by rewrite <- (assoc_L (++)).
      + rewrite E1 at 1. by apply split_on_app.
    - apply strchr_none in Et. exists u, 0, []. change (0 =? 10) with false. cbn iota. rewrite app_nil_r.
      split_and!; [done | done | by right | done |]. by apply split_on_none. }
  rewrite <- Eu in *. destruct Hsplit as (l & x & t & E1 & E2 & Hx & Hl & ->). rewrite E2 in E.
  assert (Hl0 : Forall (λ b, b ≠ 0) l) by (rewrite E1 in Hu; by apply list.Forall_app in Hu as [? _]).
  assert (Hpos : (0 < start + length l)%nat).
  { destruct Hs as [? | Hs]; [lia |]. rewrite Eu in E1. destruct l as [| b l]; [| cbn; lia].
    destruct Hx as [-> | ->]; cbn in E1; [injection E1 as -> _; by rewrite Eu in Hs | done]. }
  destruct (ks_cut_run buf start l x _ E Hx Hl0 Hl Hpos) as (buf' & start' & chptr & Ecut & Es & Elast & Ed).
  cbn [ks_loop]. rewrite (drop_lookup _ _ c0 (u0 ++ 0 :: rest)) by (by rewrite E, <- E2, Eu). cbn [checked]. rewrite outcome_bind_ret.
  assert (c0 <> 0) by (rewrite Eu in Hu; by apply list.Forall_cons in Hu as [? _]).
  rewrite (proj2 (Z.eqb_neq c0 0)) by done. rewrite Ecut, outcome_bind_ret, Es. cbn [read_lines]. fold (ignored (trim l)).
  assert (Hnext : ∀ argv acc, ks_loop fuel buf' (start + length l + if (x =? 0)%Z then 0 else 1)%nat argv acc =
    (cmds ← read_lines (if x =? 10 then split_on 10 t else []) argv; Ret (acc ++ cmds))).
  { intros argv' acc'. destruct Hx as [-> | ->].
    - change (10 =? 0) with false. change (10 =? 10) with true in *. cbn iota in *. apply (IH t) with (rest := rest).
      + rewrite E1, length_app. cbn. lia.
      + rewrite E1 in Hu. apply list.Forall_app in Hu as [_ Hu]. by apply list.Forall_cons in Hu as [_ ?].
      + by rewrite <- drop_drop, Ed.
      + left. lia.
      + rewrite E1, length_app in Hf. cbn in Hf. lia.
    - change (0 =? 0) with true. change (0 =? 10) with false in *. cbn iota in *. rewrite Nat.add_0_r.
      destruct fuel as [| fuel]; [rewrite Eu in Hf; cbn in Hf; lia |]. cbn [ks_loop].
      rewrite (drop_lookup _ _ _ _ Ed). cbn [checked read_lines]. rewrite !outcome_bind_ret. change (0 =? 0) with true.
      by rewrite app_nil_r. }
  destruct (ignored (trim l)) eqn:Eig; [by rewrite Hnext |]. destruct (bool_decide (head (trim l) = Some 37)).
  { rewrite outcome_bind_ret. by rewrite app_nil_r. }
  assert (Ht : trim l ≠ []) by (intros Et; by rewrite Et in Eig). rewrite (Elast Ht).
  destruct (list.last (trim l)) as [c |] eqn:Ec; [| by apply list.last_None in Ec].
  cbn [checked]. rewrite outcome_bind_ret. destruct (Z.eqb_spec c 92) as [-> | Hc].
  - rewrite bool_decide_eq_true_2 by done. by rewrite Hnext.
  - rewrite bool_decide_eq_false_2 by congruence. rewrite outcome_bind_assoc.
    destruct (ks_command (trim l) argv) as [[cmd argv'] | |]; [| done | done]. rewrite !outcome_bind_ret, Hnext, outcome_bind_assoc.
    destruct (read_lines _ argv'); [| done | done]. by rewrite !outcome_bind_ret, (assoc_L (++)).
Qed.

(** The lines with commands: those in front of the first section that are
    neither ignored nor continued. *)
Fixpoint command_lines (ls : list bytes) : list bytes :=
  match ls with
  | [] => []
  | l :: ls =>
      let s := trim l in
      if ignored s then command_lines ls
      else if bool_decide (head s = Some 37) then []
      else if bool_decide (list.last s = Some 92) then command_lines ls
      else s :: command_lines ls
  end.

(** The command of a line whose first word is in the table. *)
Definition command_of (s : bytes) : option ksCommand :=
  match poptParseArgvString s with
  | Some ((name :: _) as a) => (λ '(_, (code, _)), mkKs code a) <$> list_find (λ c, snd c = name) ksNames
  | _ => None
  end.

Lemma ks_command_parses s argv : is_Some (poptParseArgvString s) →
  ∃ argv', ks_command s argv = Ret (command_of s, argv').
Proof.
  intros [[| name a] Ea]; unfold ks_command, command_of; rewrite Ea; [by eexists |].
  destruct (list_find _ ksNames) as [[? []] |]; by eexists.
Qed.

Lemma read_lines_commands ls argv : Forall (λ s, is_Some (poptParseArgvString s)) (command_lines ls) →
  read_lines ls argv = Ret (omap command_of (command_lines ls)).
Proof.
  revert argv. induction ls as [| l ls IH]; intros argv Hp; [done |]. cbn [read_lines command_lines] in *.
  destruct (ignored (trim l)); [by apply IH |]. destruct (bool_decide _); [done |]. destruct (bool_decide _); [by apply IH |].
  apply list.Forall_cons in Hp as [Hs Hp]. destruct (ks_command_parses (trim l) argv Hs) as [argv' ->].
  rewrite outcome_bind_ret, IH, outcome_bind_ret by done. cbn [omap list_omap]. by destruct (command_of (trim l)).
Qed.

Lemma read_lines_unparsed ls s rest : command_lines ls = s :: rest → poptParseArgvString s = None → read_lines ls None = Undef.
Proof.
  induction ls as [| l ls IH]; [done |]. cbn [read_lines command_lines]. intros E Hs.
  destruct (ignored (trim l)); [by apply IH |]. destruct (bool_decide _); [done |]. destruct (bool_decide _); [by apply IH |].
  injection E as -> _. unfold ks_command. by rewrite Hs.
Qed.

Definition lines_of (c : bytes) : list bytes := split_on 10 (until_nul c).

Lemma until_nul_split c : ∃ r, c ++ [0] = until_nul c ++ 0 :: r ∧ Forall (λ b, b ≠ 0) (until_nul c).
Proof.
  induction c as [| b c (r & E & Hn)]; [by exists [] |]. cbn [app until_nul]. destruct (Z.eqb_spec b 0) as [-> | Hb].
  - by exists (c ++ [0]).
  - exists r. rewrite E. split; [done |]. by apply list.Forall_cons.
Qed.

Lemma ksReadCommands_lines fuel c : head c ≠ Some 10 → (length c < fuel)%nat →
  ksReadCommands fuel (Some (mkFile c 0, Z.of_nat (length c))) =
  (commands ← read_lines (lines_of c) None; Ret (0, commands)).
Proof.
  intros Hh Hf. unfold ksReadCommands. rewrite reg_read_all by (cbn [fpos contents]; lia). cbn [fpos contents].
  rewrite Nat2Z.id, slice_all by done. rewrite Z.eqb_refl. cbn [negb].
  destruct (until_nul_split c) as (r & E & Hn). rewrite E, (ks_loop_lines _ Hn fuel _ 0 r); [| done | |].
  - unfold lines_of. rewrite outcome_bind_assoc. destruct (read_lines _ None); [| done | done]. by rewrite !outcome_bind_ret.
  - right. destruct c as [| b c]; [done |]. cbn [until_nul]. by destruct (b =? 0).
  - apply (f_equal length) in E. rewrite !length_app in E. cbn [length] in E. lia.
Qed.

(** C17: ksReadCommands on a file that does not begin with an empty line gives,
    when the lines can be split into words, the commands of the table among
    the trimmed lines in front of the first section, in order, leaving out
    comments, %include lines and lines that end with a backslash.  When the
    first command line cannot be split, the message reads an uninitialised
    variable, and a file that begins with an empty line is read in front of the
    buffer. *)
Theorem ksReadCommands_commands fuel c (Hfuel : (length c < fuel)%nat) :
  let read := ksReadCommands fuel (Some (mkFile c 0, Z.of_nat (length c))) in
  (head c ≠ Some 10 → Forall (λ s, is_Some (poptParseArgvString s)) (command_lines (lines_of c)) →
    read = Ret (0, omap command_of (command_lines (lines_of c)))) ∧
  (∀ s rest, head c ≠ Some 10 → command_lines (lines_of c) = s :: rest → poptParseArgvString s = None → read = Undef) ∧
  (head c = Some 10 → read = Undef).
Proof.
  cbn zeta. split_and!.
  - intros Hh Hp. by rewrite ksReadCommands_lines, read_lines_commands, outcome_bind_ret.
  - intros s rest Hh El Hs. by rewrite ksReadCommands_lines, (read_lines_unparsed _ s rest).
  - destruct c as [| b c]; [done |]. intros [= ->]. unfold ksReadCommands.
    rewrite reg_read_all by (cbn [fpos contents]; lia). cbn [fpos contents]. rewrite Nat2Z.id, slice_all, Z.eqb_refl by done.
    destruct fuel as [| fuel]; [lia |]. cbn [negb ks_loop app lookup list_lookup checked]. rewrite outcome_bind_ret.
    change (10 =? 0) with false. cbn iota. unfold ks_cut. cbn [drop until_nul app]. change (10 =? 0) with false. cbn iota.
    cbn [strchr]. change (10 =? 10) with true. cbn iota. unfold before. rewrite Nat.sub_diag. reflexivity.
Qed.
End read_facts.

(** Words between single spaces; a lone quote does not parse. *)
Definition words (s : bytes) : option (list bytes) :=
  if bool_decide (34 ∈ s) then None else Some (List.filter (λ w, negb (bool_decide (w = []))) (split_on 32 s)).
(** Options of the forms --name and --name=value. *)
Definition parse_options (table : list poptOption) (argv : list bytes) : popt_result :=
  fold_left (λ r w,
    let '(name, value) := match strchr w 61 with
                          | Some v => (before w v, Some (tail v))
                          | None => (w, None)
                          end in
    if starts_with (str "--") w then
      match List.find (λ o, streq (longName o) (drop 2 name)) table, value with
      | Some o, Some v => mkPopt (p_options r ++ [(longName o, PStr v)]) (p_rc r) (p_args r)
      | Some o, None => mkPopt (p_options r ++ [(longName o, PSet)]) (p_rc r) (p_args r)
      | None, _ => mkPopt (p_options r) (-11) (p_args r)
      end
    else mkPopt (p_options r) (p_rc r) (p_args r ++ [w])) (tail argv) (mkPopt [] (-1) []).
#[local] Instance sample_popt : PoptLib := {| popt := parse_options; poptParseArgvString := words |}.

Definition nl : bytes := [10].
Definition sample_ks : bytes :=
  str "# sample" ++ nl ++ str "  network --bootproto=static --ip=10.0.0.2 " ++ nl ++ nl ++ str "url --url=http://host/tree" ++ nl ++
  str "text" ++ nl ++ str "unknown word" ++ nl ++ str "%packages" ++ nl ++ str "halt" ++ nl.

Lemma ksReadCommands_commands_witness :
  ksReadCommands (Z.to_nat 200) (Some (mkFile sample_ks 0, Z.of_nat (length sample_ks))) =
    Ret (0, [mkKs KS_CMD_NETWORK [str "network"; str "--bootproto=static"; str "--ip=10.0.0.2"];
             mkKs KS_CMD_URL [str "url"; str "--url=http://host/tree"]; mkKs KS_CMD_TEXT [str "text"]]) ∧
  ksReadCommands (H := sample_popt) 10 (Some (mkFile (nl ++ str "text") 0, Z.of_nat (length (nl ++ str "text")))) = Undef.
Proof.
  split.
  - refine (eq_trans (proj1 (ksReadCommands_commands (Z.to_nat 200) sample_ks _) _ _) _).
    + apply Nat.ltb_lt. vm_compute. reflexivity.
    + discriminate.
    + assert (command_lines (lines_of sample_ks) = [str "network --bootproto=static --ip=10.0.0.2"; str "url --url=http://host/tree"; str "text"; str "unknown word"]) as -> by (vm_compute; reflexivity). repeat (apply list.Forall_cons; split; [by eexists |]). constructor.
    + vm_compute. reflexivity.
  - apply (proj2 (proj2 (ksReadCommands_commands 10 (nl ++ str "text") ltac:(cbn; lia)))). reflexivity.
Defined.

(** ** Running the commands *)

(** The arguments of the first command with a code. *)
Definition first_command (commands : list ksCommand) (code : Z) : option (list bytes) :=
  snd <$> ksGetCommand commands code None.

Section run.
Context `{PoptLib}.
Context (getBiosDisk : bytes → option bytes) (perform : ks_call → loaderData_s * Z → loaderData_s * Z).

Definition method_of (st : ks_state) : Z := ld_i (kst_ld st) L_method.

(** The other parts of the loader leave the method alone. *)
Definition keeps_method : Prop :=
  ∀ c ld flags, ld_i (fst (perform c (ld, flags))) L_method = ld_i ld L_method.

(** Whether a command chooses its installation method. *)
Definition nfs_chosen (argv : list bytes) : bool :=
  let r := popt [string_opt "server"; string_opt "dir"; string_opt "opts"] argv in
  negb (p_rc r <? -1) && bool_decide (is_Some (opt_string "server" r)) && bool_decide (is_Some (opt_string "dir" r)).
Definition hd_chosen (argv : list bytes) : bool :=
  let r := popt [string_opt "biospart"; string_opt "partition"; string_opt "dir"] argv in
  negb (p_rc r <? -1) &&
  match opt_string "biospart" r with Some b => bool_decide (is_Some (bios_partition getBiosDisk b)) | None => true end.
Definition url_chosen (argv : list bytes) : bool :=
  let r := popt [string_opt "url"] argv in
  negb (p_rc r <? -1) &&
  match opt_string "url" r with
  | Some url => bool_decide (is_Some (strstr url (str "http://"))) || bool_decide (is_Some (strstr url (str "ftp://")))
  | None => false
  end.

(** What stays inside the memory of stage2Data and has a name to search. *)
Definition command_defined (code : Z) (argv : list bytes) : Prop :=
  (code = KS_CMD_NFS →
    let r := popt [string_opt "server"; string_opt "dir"; string_opt "opts"] argv in
    ∀ dir, opt_string "dir" r = Some dir → is_img dir = false) ∧
  (code = KS_CMD_HD →
    opt_string "dir" (popt [string_opt "biospart"; string_opt "partition"; string_opt "dir"] argv) = None) ∧
  (code = KS_CMD_DD →
    let r := popt [string_opt "type"; string_opt "source"; flag_opt "biospart" 0] argv in
    opt_set "biospart" r = true → p_args r ≠ []).

(** The method after a command, and whether it brings the network up. *)
Definition method_after (code : Z) (argv : list bytes) (m : Z) : Z :=
  if code =? KS_CMD_NFS then if nfs_chosen argv then METHOD_NFS else m
  else if code =? KS_CMD_CDROM then METHOD_CDROM
  else if code =? KS_CMD_HD then if hd_chosen argv then METHOD_HD else m
  else if code =? KS_CMD_URL then if url_chosen argv then METHOD_URL else m
  else m.
Definition network_after (code m : Z) : Prop := code = KS_CMD_NETWORK ∧ m ≠ METHOD_NFS ∧ m ≠ METHOD_URL.

(** A command did to the method and the network what it is to do. *)
Definition handled (code : Z) (argv : list bytes) (st : ks_state) (r : outcome ks_state) : Prop :=
  ∃ st' new, r = Ret st' ∧ method_of st' = method_after code argv (method_of st) ∧
    kst_calls st' = kst_calls st ++ new ∧ (Call_network ∈ new ↔ network_after code (method_of st)).

Lemma handled_silent code argv st st' : method_of st' = method_after code argv (method_of st) →
  kst_calls st' = kst_calls st → code ≠ KS_CMD_NETWORK → handled code argv st (Ret st').
Proof.
  intros Hm Hc Hn. exists st', []. rewrite app_nil_r. split_and!; try done.
  split; [by intros ?%not_elem_of_nil | by intros [? _]].
Qed.

Lemma method_call c st : keeps_method → method_of (call perform c st) = method_of st.
Proof.
  intros Hk. unfold call. destruct (perform c (kst_ld st, kst_flags st)) as [ld fl] eqn:E.
  unfold method_of. cbn [kst_ld]. pose proof (Hk c (kst_ld st) (kst_flags st)) as K. by rewrite E in K.
Qed.

Lemma calls_call c st : kst_calls (call perform c st) = kst_calls st ++ [c].
Proof. unfold call. by destruct (perform c (kst_ld st, kst_flags st)). Qed.

Lemma handled_call code argv c st : keeps_method → c ≠ Call_network → method_after code argv (method_of st) = method_of st →
  code ≠ KS_CMD_NETWORK → handled code argv st (Ret (call perform c st)).
Proof.
  intros Hk Hc Hm Hn. exists (call perform c st), [c]. rewrite Hm, (method_call c st Hk), calls_call. split_and!; try done.
  rewrite list_elem_of_singleton. split; [by intros <- | by intros [? _]].
Qed.

Lemma handled_nfs argv st : command_defined KS_CMD_NFS argv → handled KS_CMD_NFS argv st (setKickstartNfs argv st).
Proof.
  intros [Hd _]. specialize (Hd eq_refl). cbn zeta in Hd. unfold setKickstartNfs.
  assert (Hm : ∀ m, method_after KS_CMD_NFS argv m = if nfs_chosen argv then METHOD_NFS else m) by done.
  unfold nfs_chosen in Hm. set (r := popt _ argv) in *. cbn zeta in Hm.
  destruct (p_rc r <? -1); [by apply handled_silent; rewrite ?Hm |].
  destruct (opt_string "server" r); [| by apply handled_silent; rewrite ?Hm].
  destruct (opt_string "dir" r) as [dir |]; [| by apply handled_silent; rewrite ?Hm].
  rewrite (Hd dir eq_refl). by apply handled_silent; rewrite ?Hm.
Qed.

Lemma handled_hd argv st : command_defined KS_CMD_HD argv → handled KS_CMD_HD argv st (setKickstartHD getBiosDisk argv st).
Proof.
  intros (_ & Hd & _). specialize (Hd eq_refl). unfold setKickstartHD.
  assert (Hm : ∀ m, method_after KS_CMD_HD argv m = if hd_chosen argv then METHOD_HD else m) by done.
  unfold hd_chosen in Hm. set (r := popt _ argv) in *. cbn zeta in Hm.
  destruct (p_rc r <? -1); [by apply handled_silent; rewrite ?Hm |]. rewrite Hd.
  destruct (opt_string "biospart" r) as [b |].
  - destruct (bios_partition getBiosDisk b); cbn [member_fits]; by apply handled_silent; rewrite ?Hm.
  - destruct (opt_string "partition" r); by apply handled_silent; rewrite ?Hm.
Qed.

Lemma handled_url argv st : handled KS_CMD_URL argv st (setKickstartUrl argv st).
Proof.
  unfold setKickstartUrl.
  assert (Hm : ∀ m, method_after KS_CMD_URL argv m = if url_chosen argv then METHOD_URL else m) by done.
  unfold url_chosen in Hm. set (r := popt _ argv) in *. cbn zeta in Hm.
  destruct (p_rc r <? -1); [by apply handled_silent; rewrite ?Hm |].
  destruct (opt_string "url" r) as [url |]; [| by apply handled_silent; rewrite ?Hm].
  destruct (bool_decide (is_Some (strstr url (str "http://"))) || _); [| by apply handled_silent; rewrite ?Hm].
  destruct (is_img url); by apply handled_silent; rewrite ?Hm.
Qed.

Lemma handled_dd argv st : keeps_method → command_defined KS_CMD_DD argv →
  handled KS_CMD_DD argv st (useKickstartDD getBiosDisk perform argv st).
Proof.
  intros Hk (_ & _ & Hd). specialize (Hd eq_refl). cbn zeta in Hd. unfold useKickstartDD. set (r := popt _ argv) in *. cbn zeta.
  destruct (p_rc r <? -1); [by apply handled_silent |].
  destruct (head (p_args r)) as [dev |] eqn:Eh.
  - destruct (opt_set "biospart" r); [| by apply handled_call].
    destruct (bios_partition getBiosDisk dev); [by apply handled_call | by apply handled_silent].
  - destruct (opt_string "source" r); [| by apply handled_silent].
    destruct (opt_set "biospart" r); [by destruct (p_args r), (Hd eq_refl) | by apply handled_call].
Qed.

Lemma network_keeps_method r ld : ld_i (network_device r ld) L_method = ld_i ld L_method.
Proof.
  unfold network_device, when_some. destruct (opt_string "device" r), (opt_string "dhcpclass" r), (opt_string "ethtool" r),
    (opt_string "essid" r), (opt_string "wepkey" r), (opt_int "mtu" r 1500 =? 0); reflexivity.
Qed.
Lemma options_keep_method os ld : ld_i (fold_left (λ ld o, network_option o ld) os ld) L_method = ld_i ld L_method.
Proof.
  revert ld. induction os as [| [n v] os IH]; intros ld; [done |]. cbn [fold_left]. rewrite IH. unfold network_option.
  destruct v as [| arg |]; try done. destruct (streq n (str "gateway")), (streq n (str "ip")), (streq n (str "nameserver")),
    (streq n (str "netmask")), (streq n (str "hostname")); reflexivity.
Qed.
Lemma bootproto_keeps_method b ld : ld_i (network_bootproto b ld) L_method = ld_i ld L_method.
Proof.
  unfold network_bootproto. destruct (match b with Some b => _ | None => _ end); [done |].
  by destruct (bool_decide _).
Qed.
Lemma nodns_keeps_method ld : ld_i (set_ldi L_noDns 1 ld) L_method = ld_i ld L_method.
Proof. reflexivity. Qed.

Lemma handled_network argv st : keeps_method → handled KS_CMD_NETWORK argv st (setKickstartNetwork perform argv st).
Proof.
  intros Hk. unfold setKickstartNetwork. set (r := popt _ argv). cbn zeta.
  match goal with |- context [call perform Call_network ?s] => set (st3 := s) end.
  assert (Hm : method_of st3 = method_of st ∧ kst_calls st3 = kst_calls st).
  { unfold st3. destruct (opt_set "nodns" r), (opt_set "notksdevice" r), (opt_set "noipv4" r);
      unfold method_of; cbn [kst_ld kst_calls on_ld on_flag]; (split; [| reflexivity]);
      rewrite ?nodns_keeps_method, ?network_keeps_method, bootproto_keeps_method; apply options_keep_method. }
  destruct Hm as [Hm Hc]. change (ld_i (kst_ld st3) L_method) with (method_of st3). rewrite Hm.
  assert (Hn : network_after KS_CMD_NETWORK (method_of st) ↔
    negb (method_of st =? METHOD_NFS) && negb (method_of st =? METHOD_URL) = true).
  { unfold network_after. rewrite andb_true_iff, !negb_true_iff, !Z.eqb_neq. split; [by intros (_ & ? & ?) | done]. }
  destruct (negb _ && _) eqn:E.
  - exists (call perform Call_network st3), [Call_network]. rewrite (method_call _ st3 Hk), calls_call, Hc, Hn.
    split_and!; [done | done | done |]. rewrite list_elem_of_singleton. done.
  - exists st3, []. rewrite app_nil_r, Hn. split_and!; [done | done | done |]. split; [by intros ?%not_elem_of_nil | done].
Qed.

(** The method and the network calls over the codes of a table. *)
Definition method_step (cs : list ksCommand) (code m : Z) : Z :=
  match first_command cs code with Some argv => method_after code argv m | None => m end.
Fixpoint network_in (cs : list ksCommand) (codes : list Z) (m : Z) : Prop :=
  match codes with
  | [] => False
  | code :: codes =>
      (is_Some (first_command cs code) ∧ network_after code m) ∨ network_in cs codes (method_step cs code m)
  end.

Lemma run_table_handled cs table st : keeps_method →
  Forall (λ '(code, h), ∀ argv st, first_command cs code = Some argv → handled code argv st (h argv st)) table →
  ∃ st' new, run_table cs table st = Ret st' ∧
    method_of st' = fold_left (λ m code, method_step cs code m) table.*1 (method_of st) ∧
    kst_calls st' = kst_calls st ++ new ∧ (Call_network ∈ new ↔ network_in cs table.*1 (method_of st)).
Proof.
  intros Hk Ht. revert st. induction Ht as [| [code h] table Hh _ IH]; intros st.
  - exists st, []. rewrite app_nil_r. split_and!; try done. split; [by intros ?%not_elem_of_nil | done].
  - cbn [run_table fmap list_fmap fold_left network_in fst]. unfold method_step at 2. unfold method_step at 2.
    unfold first_command in *. destruct (ksGetCommand cs code None) as [[k argv] |]; cbn [fmap option_fmap option_map snd] in *.
    + destruct (Hh argv st eq_refl) as (st1 & n1 & -> & Em & Ec & En). rewrite outcome_bind_ret, <- Em.
      destruct (IH st1) as (st2 & n2 & -> & Em2 & Ec2 & En2). exists st2, (n1 ++ n2).
      split; [done |]. split; [done |]. split; [by rewrite Ec2, Ec, (assoc_L (++)) |]. rewrite elem_of_app, En, En2.
      split; intros [Hx | Hx]; [left; by split | by right | left; by destruct Hx | by right].
    + destruct (IH st) as (st2 & n2 & -> & Em2 & Ec2 & En2). exists st2, n2. split; [done |]. split; [done |]. split; [done |].
      rewrite En2. split; [by right | by intros [[[? ?] _] | ?]].
Qed.

(** The method the commands settle on: a URL before a disk before a CD before NFS. *)
Definition settled_method (cs : list ksCommand) (m : Z) : Z :=
  if default false (url_chosen <$> first_command cs KS_CMD_URL) then METHOD_URL
  else if default false (hd_chosen <$> first_command cs KS_CMD_HD) then METHOD_HD
  else if bool_decide (is_Some (first_command cs KS_CMD_CDROM)) then METHOD_CDROM
  else if default false (nfs_chosen <$> first_command cs KS_CMD_NFS) then METHOD_NFS
  else m.

Lemma table_handled cs : keeps_method → (∀ code argv, first_command cs code = Some argv → command_defined code argv) →
  Forall (λ '(code, h), ∀ argv st, first_command cs code = Some argv → handled code argv st (h argv st))
    (ksTable getBiosDisk perform).
Proof.
  intros Hk Hd. unfold ksTable. repeat (apply list.Forall_cons; split); [..| by constructor]; intros argv st E; specialize (Hd _ _ E);
    try (by apply handled_silent);
    first [by apply handled_nfs | by apply handled_hd | by apply handled_url | by apply handled_network |
           by apply handled_dd | by apply handled_call | idtac].
  - unfold setKickstartKeyboard. destruct argv as [| ? [| ? ?]]; by apply handled_silent.
  - unfold setKickstartLanguage. destruct argv as [| ? [| ? ?]]; by apply handled_silent.
  - unfold setShutdown. set (r := popt _ argv). cbn zeta.
    destruct (p_rc r <? -1), (opt_set "poweroff" r), (opt_set "reboot" r), (opt_set "halt" r); by apply handled_silent.
  - unfold setUpdates. destruct argv as [| ? [| ? [| ? ?]]]; by apply handled_silent.
Qed.

Lemma method_step_quiet cs code m : (∀ argv, method_after code argv m = m) → method_step cs code m = m.
Proof. intros Hm. unfold method_step. by destruct (first_command cs code). Qed.

Lemma settled_fold cs m : fold_left (λ m code, method_step cs code m) (ksTable getBiosDisk perform).*1 m = settled_method cs m.
Proof.
  cbn [ksTable fmap list_fmap fst fold_left]. unfold settled_method.
  repeat match goal with
  | |- method_step cs ?c ?x = _ => rewrite (method_step_quiet cs c x) by done
  end.
  rewrite (method_step_quiet cs KS_CMD_TEXT), (method_step_quiet cs KS_CMD_GRAPHICAL) by done. unfold method_step.
  destruct (first_command cs KS_CMD_URL), (first_command cs KS_CMD_HD), (first_command cs KS_CMD_CDROM),
    (first_command cs KS_CMD_NFS); cbn [default fmap option_fmap option_map from_option id]; unfold method_after; cbn;
    repeat case_match; try done.
Qed.

Lemma network_codes cs m : network_in cs (ksTable getBiosDisk perform).*1 m ↔
  is_Some (first_command cs KS_CMD_NETWORK) ∧ settled_method cs m ≠ METHOD_NFS ∧ settled_method cs m ≠ METHOD_URL.
Proof.
  cbn [ksTable fmap list_fmap fst network_in]. 
  assert (Hn : ∀ code m, code ≠ KS_CMD_NETWORK → (is_Some (first_command cs code) ∧ network_after code m) ↔ False).
  { intros code m' Hc. split; [by intros (_ & ? & _) | done]. }
  rewrite !Hn by done. rewrite <- (settled_fold cs m). cbn [ksTable fmap list_fmap fst fold_left].
  set (m1 := method_step cs KS_CMD_URL _).
  repeat match goal with
  | |- context [method_step cs ?c ?x] => rewrite (method_step_quiet cs c x) by done
  end.
  rewrite (Hn KS_CMD_KEYBOARD), (Hn KS_CMD_LANG), (Hn KS_CMD_DD), (Hn KS_CMD_DEVICE), (Hn KS_CMD_CMDLINE),
    (Hn KS_CMD_SELINUX), (Hn KS_CMD_POWEROFF), (Hn KS_CMD_HALT), (Hn KS_CMD_SHUTDOWN), (Hn KS_CMD_MEDIACHECK),
    (Hn KS_CMD_UPDATES) by done.
  unfold network_after. tauto.
Qed.

(** C11: runKickstart runs the first command of every kind, and whatever the
    order of the lines, the installation method is that of the url command
    when that names a server, else that of harddrive, cdrom or nfs, in this
    order.  The network is brought up for a network command exactly when the
    method is neither NFS nor a URL. *)
Theorem runKickstart_settles cs st (Hk : keeps_method)
    (Hd : ∀ code argv, first_command cs code = Some argv → command_defined code argv) :
  ∃ st' new, runKickstart getBiosDisk perform cs st = Ret st' ∧
    method_of st' = settled_method cs (method_of st) ∧ kst_calls st' = kst_calls st ++ new ∧
    (Call_network ∈ new ↔ is_Some (first_command cs KS_CMD_NETWORK) ∧
       method_of st' ≠ METHOD_NFS ∧ method_of st' ≠ METHOD_URL).
Proof.
  destruct (run_table_handled cs (ksTable getBiosDisk perform) st Hk (table_handled cs Hk Hd)) as (st' & new & E & Em & Ec & En).
  rewrite settled_fold in Em. rewrite network_codes, <- Em in En. by exists st', new.
Qed.
End run.

(** A network that is not brought up here, and calls that do nothing. *)
Definition idle (c : ks_call) (d : loaderData_s * Z) : loaderData_s * Z := d.
Definition sample_commands : list ksCommand :=
  [mkKs KS_CMD_NETWORK [str "network"; str "--ip=10.0.0.2"];
   mkKs KS_CMD_URL [str "url"; str "--url=http://host/tree"]; mkKs KS_CMD_CDROM [str "cdrom"]].

Lemma runKickstart_settles_witness :
  ∃ st' new, runKickstart (H := sample_popt) (λ _, None) idle sample_commands (mkKst zero_ld 0 None []) = Ret st' ∧
    method_of st' = METHOD_URL ∧ kst_calls st' = new ∧ Call_network ∉ new.
Proof.
  destruct (runKickstart_settles (H := sample_popt) (λ _, None) idle sample_commands (mkKst zero_ld 0 None []))
    as (st' & new & E & Em & Ec & En).
  - intros c ld flags. reflexivity.
  - intros code argv Ha. unfold command_defined. cbn zeta. split_and!; intros ->; vm_compute in Ha; discriminate.
  - assert (Hm : method_of st' = METHOD_URL) by (rewrite Em; vm_compute; reflexivity).
    exists st', new. split; [exact E |]. split; [exact Hm |]. split; [exact Ec |].
    intros Hin. apply En in Hin as (_ & _ & Hu). by rewrite Hm in Hu.
Defined.
