(* ===== verification/CmdLine.v ===== *)
(** * The kernel's command line (stage-1/loader.c, setStage2LocFromCmdline of method.c)

    parseCmdLineFlags with what it calls: parseCmdLineIp, readNetInfo,
    setStage2LocFromCmdline, and mlAddBlacklist of [Modules].  The chain of
    comparisons is a list of rules, of which the first that fits is carried out;
    words are told apart without regard to case unless the rule says otherwise.
    The build is the one without ENABLE_IPV6. *)

From S2P Require Import Prelude CLib Posix Sys Loader Popt Net Modules Kickstart.

Definition MAX_EXTRA_ARGS : nat := 128.

(** log.h *)
Definition DEBUGLVL : Z := 10.
Definition INFO : Z := 20.
Definition WARNING : Z := 30.
Definition ERROR : Z := 40.
Definition CRITICAL : Z := 50.

Section system.
Context {S : Type} `{SysOps S}.

(** What the arguments change: the data and the flags, extraArgs, the data of
    modules.c and the system, the level of the log, the variable DISPLAY,
    num_link_checks and post_link_sleep, and the contents of
    /tmp/vncpassword.dat. *)
Record cmd_state := mkCmd {
  c_ld : loaderData_s; c_flags : Z; c_stage2 : option stage2Data_; c_extra : list bytes;
  c_ml : ml_state; c_sys : S; c_level : Z; c_display : option bytes;
  c_checks : Z; c_sleep : Z; c_vnc : option bytes }.

Definition with_ld (f : loaderData_s → loaderData_s) (st : cmd_state) : cmd_state :=
  mkCmd (f (c_ld st)) (c_flags st) (c_stage2 st) (c_extra st) (c_ml st) (c_sys st) (c_level st) (c_display st)
    (c_checks st) (c_sleep st) (c_vnc st).
Definition with_flags (f : Z → Z) (st : cmd_state) : cmd_state :=
  mkCmd (c_ld st) (f (c_flags st)) (c_stage2 st) (c_extra st) (c_ml st) (c_sys st) (c_level st) (c_display st)
    (c_checks st) (c_sleep st) (c_vnc st).
Definition with_stage2 (d : stage2Data_) (st : cmd_state) : cmd_state :=
  mkCmd (c_ld st) (c_flags st) (Some d) (c_extra st) (c_ml st) (c_sys st) (c_level st) (c_display st)
    (c_checks st) (c_sleep st) (c_vnc st).
Definition add_extra (a : bytes) (st : cmd_state) : cmd_state :=
  mkCmd (c_ld st) (c_flags st) (c_stage2 st) (c_extra st ++ [a]) (c_ml st) (c_sys st) (c_level st) (c_display st)
    (c_checks st) (c_sleep st) (c_vnc st).
Definition with_ml (ml : ml_state) (s : S) (st : cmd_state) : cmd_state :=
  mkCmd (c_ld st) (c_flags st) (c_stage2 st) (c_extra st) ml s (c_level st) (c_display st)
    (c_checks st) (c_sleep st) (c_vnc st).
Definition with_level (l : Z) (st : cmd_state) : cmd_state :=
  mkCmd (c_ld st) (c_flags st) (c_stage2 st) (c_extra st) (c_ml st) (c_sys st) l (c_display st)
    (c_checks st) (c_sleep st) (c_vnc st).
Definition with_display (d : bytes) (st : cmd_state) : cmd_state :=
  mkCmd (c_ld st) (c_flags st) (c_stage2 st) (c_extra st) (c_ml st) (c_sys st) (c_level st) (Some d)
    (c_checks st) (c_sleep st) (c_vnc st).
Definition with_checks (n : Z) (st : cmd_state) : cmd_state :=
  mkCmd (c_ld st) (c_flags st) (c_stage2 st) (c_extra st) (c_ml st) (c_sys st) (c_level st) (c_display st)
    n (c_sleep st) (c_vnc st).
Definition with_sleep (n : Z) (st : cmd_state) : cmd_state :=
  mkCmd (c_ld st) (c_flags st) (c_stage2 st) (c_extra st) (c_ml st) (c_sys st) (c_level st) (c_display st)
    (c_checks st) n (c_vnc st).
Definition with_vnc (p : bytes) (st : cmd_state) : cmd_state :=
  mkCmd (c_ld st) (c_flags st) (c_stage2 st) (c_extra st) (c_ml st) (c_sys st) (c_level st) (c_display st)
    (c_checks st) (c_sleep st) (Some p).
End system.
Arguments cmd_state : clear implicits.

(** ** Rules *)

(** [strcasecmp], [strncasecmp] and [strncmp] with the length of a literal;
    [Longer] asks for something behind the literal too. *)
Inductive pattern :=
  | Exactly (s : string) | Starts (s : string) | StartsCase (s : string) | Longer (s : string).
Definition lower (a : bytes) : bytes := tolower <$> a.
Definition fits (p : pattern) (a : bytes) : bool :=
  match p with
  | Exactly s => streq (lower a) (str s)
  | Starts s => starts_with (str s) (lower a)
  | StartsCase s => starts_with (str s) a
  | Longer s => starts_with (str s) (lower a) && (String.length s <? length a)%nat
  end.

Inductive rule_action :=
  | SetFlag (bit : Z) | ClearFlag (bit : Z) | TextMode
  | SetString (f : ld_string) (n : nat)              (* strdup(argv[i] + n) *)
  | SetBoth (f : ld_string) (n : nat) (g : ld_int)   (* the same, and g = 1 *)
  | SetInt (g : ld_int) (n : nat)                    (* strtol(argv[i] + n) *)
  | DriverDisk | Blacklist (modules : list string) | LogLevel | BootIf | Display | Stage2 | Ip | LinkSleep | NicDelay.

Definition cmd_rules : list (list pattern * rule_action) :=
  [([Exactly "askmethod"], SetFlag LOADER_FLAGS_ASKMETHOD);
   ([Exactly "asknetwork"], SetFlag LOADER_FLAGS_ASKNETWORK);
   ([Exactly "noshell"], SetFlag LOADER_FLAGS_NOSHELL);
   ([Exactly "mediacheck"], SetFlag LOADER_FLAGS_MEDIACHECK);
   ([Exactly "allowwireless"], SetFlag LOADER_FLAGS_ALLOW_WIRELESS);
   ([Exactly "telnet"], SetFlag LOADER_FLAGS_TELNETD);
   ([Exactly "inter"], SetFlag LOADER_FLAGS_INTERACTIVE);
   ([Exactly "noprobe"], SetFlag LOADER_FLAGS_NOPROBE);
   ([Exactly "text"], TextMode);
   ([Exactly "graphical"], SetFlag LOADER_FLAGS_GRAPHICAL);
   ([Exactly "cmdline"], SetFlag LOADER_FLAGS_CMDLINE);
   ([Starts "updates="], SetString L_updatessrc 8);
   ([Starts "updates"], SetFlag LOADER_FLAGS_UPDATES);
   ([Starts "dogtail="], SetString L_dogtailurl 8);
   ([Starts "dd="; Starts "driverdisk="], DriverDisk);
   ([Exactly "dd"; Exactly "driverdisk"], SetFlag LOADER_FLAGS_MODDISK);
   ([Exactly "rescue"], SetFlag LOADER_FLAGS_RESCUE);
   ([Exactly "nopass"], SetFlag LOADER_FLAGS_NOPASS);
   ([Exactly "serial"], SetFlag LOADER_FLAGS_SERIAL);
   ([Exactly "noipv4"], SetFlag LOADER_FLAGS_NOIPV4);
   ([Exactly "kssendmac"], SetFlag LOADER_FLAGS_KICKSTART_SEND_MAC);
   ([Exactly "nousbstorage"], Blacklist ["usb-storage"%string]);
   ([Exactly "nousb"], Blacklist ["ehci-hcd"; "ohci-hcd"; "uhci-hcd"]%string);
   ([Exactly "nofirewire"], Blacklist ["firewire-ohci"%string]);
   ([Starts "loglevel="], LogLevel);
   ([Starts "ksdevice="], SetBoth L_netDev 9 L_netDev_set);
   ([StartsCase "BOOTIF="], BootIf);
   ([Starts "dhcpclass="], SetBoth L_netCls 10 L_netCls_set);
   ([Exactly "ks"; Starts "ks="], SetString L_ksFile 0);
   ([Starts "display="], Display);
   ([Longer "lang="], SetBoth L_lang 5 L_lang_set);
   ([Longer "keymap="], SetBoth L_kbd 7 L_kbd_set);
   ([Starts "method="], SetString L_instRepo 7);
   ([Starts "repo="], SetString L_instRepo 5);
   ([Starts "stage2="], Stage2);
   ([Starts "hostname="], SetString L_hostname 9);
   ([Starts "ip="], Ip);
   ([Starts "netmask="], SetString L_netmask 8);
   ([Starts "gateway="], SetString L_gateway 8);
   ([Starts "dns="], SetString L_dns 4);
   ([Starts "ethtool="], SetString L_ethtool 8);
   ([Starts "essid="], SetString L_essid 6);
   ([Starts "mtu="], SetInt L_mtu 4);
   ([Starts "wepkey="], SetString L_wepkey 7);
   ([Starts "linksleep="], LinkSleep);
   ([Starts "nicdelay="], NicDelay);
   ([Starts "dhcptimeout="], SetInt L_dhcpTimeout 12);
   ([Starts "selinux=0"], ClearFlag LOADER_FLAGS_SELINUX);
   ([Starts "selinux"], SetFlag LOADER_FLAGS_SELINUX);
   ([Starts "gdb="], SetString L_gdbServer 4)].

(** Options that are handed on to the second stage; the length of the
    comparison with "nompath" takes its end in. *)
Definition extra_options : list pattern :=
  [Starts "resolution="; Starts "lowres"; Starts "nomount"; Starts "vnc"; Starts "vncconnect="; Starts "headless";
   Starts "usefbx"; Starts "mpath"; Exactly "nompath"; Starts "dmraid"; Starts "nodmraid"; Starts "xdriver=";
   Starts "vesa"; Starts "syslog="].

(** The first rule that fits. *)
Definition rule_for (a : bytes) : option rule_action :=
  snd <$> List.find (λ r, existsb (λ p, fits p a) (fst r)) cmd_rules.

(** ** Single arguments *)

(** strtol into an int: [None] when the result is tested to abort; an int is
    never LONG_MIN or LONG_MAX. *)
Definition strtol_erange (s : bytes) : bool :=
  match read_number 10 s with
  | Some (neg, v, _) => if neg : bool then 2 ^ 63 <? v else 2 ^ 63 <=? v
  | None => false
  end.
Definition strtol_int (s : bytes) : option Z :=
  let v := s32 (fst (strtol 10 s)) in
  if strtol_erange s && ((v =? - 2 ^ 63) || (v =? 2 ^ 63 - 1) || (v =? 0)) then None else Some v.

(** The copy of [argv[i] + n]; behind the end of a string nothing may be read. *)
Definition after (n : nat) (a : bytes) : outcome bytes := _ ← defined_if (n <=? length a)%nat; Ret (drop n a).

(** The client, the boot server, the gateway and the netmask.  The tests
    [end + 1 == '\0'] compare a pointer with null and never hold; when an early
    return is taken the flag is not set. *)
Definition parseCmdLineIp (ld : loaderData_s) (flags : Z) (argv : bytes) : outcome (loaderData_s * Z) :=
  start ← after 3 argv;
  let done ld := Ret (ld, if ld_i ld L_ipinfo_set =? 0 then flags else flag_or flags LOADER_FLAGS_IP_PARAM) in
  if bool_decide (is_Some (strchr argv 58)) then
    end1 ← checked (strchr start 58);
    let ld := set_ldi L_ipinfo_set 1 (set_lds L_ipv4 (Some (before start end1)) ld) in
    match strchr (tail end1) 58 with
    | None => Ret (ld, flags)
    | Some end2 =>
        let start := tail end2 in
        match strchr start 58 with
        | None => Ret (set_lds L_gateway (Some start) ld, flags)
        | Some end3 => done (set_lds L_netmask (Some (tail end3)) (set_lds L_gateway (Some (before start end3)) ld))
        end
    end
  else done (set_ldi L_ipinfo_set 1 (set_lds L_ipv4 (Some start) ld)).

(** [stage2=]: the members behind the first one are written outside what calloc
    was asked for. *)
Definition setStage2LocFromCmdline {S : Type} (arg : bytes) (st : cmd_state S) : outcome (cmd_state S) :=
  let '(c, buf, p) := strtok 58 (arg ++ [0]) 0 in
  match c with
  | None => Ret st
  | Some _ =>
      let '(c, buf, p) := strtok 58 buf p in
      let word (c : option nat) : outcome (option bytes) :=
        match c with Some o => s ← cstr buf o; Ret (Some s) | None => Ret None end in
      if starts_with (str "nfs:") arg then
        let st := with_ld (set_ldi L_method METHOD_NFS) st in
        _ ← member_fits 2;
        host ← word c;
        host ← checked host;
        let '(c, buf, p) := strtok 58 buf p in
        dir ← word c;
        _ ← member_fits 1;
        Ret (with_stage2 (nfsInstallData host dir None) st)
      else if starts_with (str "ftp:") arg || starts_with (str "http:") arg then
        let st := with_ld (set_ldi L_method METHOD_URL) st in
        _ ← member_fits 0;
        Ret (with_stage2 (urlInstallData arg) st)
      else if starts_with (str "cdrom:") arg then Ret (with_ld (set_ldi L_method METHOD_CDROM) st)
      else if starts_with (str "harddrive:") arg || starts_with (str "hd:") arg then
        let st := with_ld (set_ldi L_method METHOD_HD) st in
        partition ← word c;
        partition ← checked partition;
        let '(c, buf, p) := strtok 58 buf p in
        dir ← word c;
        _ ← member_fits 1;
        Ret (with_stage2 (hdInstallData (Some partition) dir) st)
      else Ret st
  end.

(** ** The loop *)

Definition levels : list (string * Z) :=
  [("debug", DEBUGLVL); ("info", INFO); ("warning", WARNING); ("error", ERROR); ("critical", CRITICAL)]%string.

Section parse.
Context `{PoptLib} {S : Type} `{SysOps S}.
(** The buffer of writeModulesConf, and whether /tmp/vncpassword.dat can be
    opened. *)
Context (junk : bytes) (vnc_opens : bool).

(** [None] when the process is aborted. *)
Abbreviation result := (outcome (option (cmd_state S))).

Fixpoint blacklist_all (modules : list string) (st : cmd_state S) : outcome (cmd_state S) :=
  match modules with
  | [] => Ret st
  | m :: modules =>
      '(ml, s) ← mlAddBlacklist junk (c_ml st) (str m) (c_sys st);
      blacklist_all modules (with_ml ml s st)
  end.

Definition do_action (r : rule_action) (a : bytes) (st : cmd_state S) : result :=
  match r with
  | SetFlag bit => Ret (Some (with_flags (λ f, flag_or f bit) st))
  | ClearFlag bit => Ret (Some (with_flags (λ f, Z.land f (w64 (Z.lnot bit))) st))
  | TextMode =>
      Ret (Some (with_flags (λ f, Z.land (flag_or f LOADER_FLAGS_TEXT) (w64 (Z.lnot LOADER_FLAGS_GRAPHICAL))) st))
  | SetString f n => v ← after n a; Ret (Some (with_ld (set_lds f (Some v)) st))
  | SetBoth f n g => v ← after n a; Ret (Some (with_ld (λ ld, set_ldi g 1 (set_lds f (Some v) ld)) st))
  | SetInt g n =>
      v ← after n a;
      Ret (match strtol_int v with Some z => Some (with_ld (set_ldi g z) st) | None => None end)
  | LinkSleep => v ← after 10 a; Ret (match strtol_int v with Some z => Some (with_checks z st) | None => None end)
  | NicDelay => v ← after 9 a; Ret (match strtol_int v with Some z => Some (with_sleep z st) | None => None end)
  | DriverDisk =>
      v ← after (if bool_decide (a !! 1%nat = Some 114) then 11 else 3) a;
      Ret (Some (with_ld (set_lds L_ddsrc (Some v)) st))
  | Blacklist modules => st ← blacklist_all modules st; Ret (Some st)
  | LogLevel =>
      v ← after 9 a;
      Ret (Some (match List.find (λ l, streq (lower v) (str (fst l))) levels with
                 | Some (_, level) => with_level level (with_ld (set_lds L_logLevel (Some v)) st)
                 | None => st
                 end))
  | BootIf =>
      v ← after 10 a;
      Ret (Some (with_ld (λ ld, set_ldi L_bootIf_set 1
                                  (set_lds L_bootIf (Some ((λ b, if b =? 45 then 58 else b) <$> v)) ld)) st))
  | Display => v ← after 8 a; Ret (Some (with_display v st))
  | Stage2 => v ← after 7 a; st ← setStage2LocFromCmdline v st; Ret (Some st)
  | Ip =>
      '(ld, flags) ← parseCmdLineIp (c_ld st) (c_flags st) a;
      Ret (Some (with_ld (λ _, ld) (with_flags (λ _, flags) st)))
  end.

(** The last branch; isKickstartFileRemote is asked only when the option is
    neither syslog nor vnc. *)
Definition extra_option (a : bytes) (st : cmd_state S) : result :=
  if fits (Starts "vncpassword=") a then
    if FL (c_flags st) LOADER_FLAGS_TESTING then Ret (Some st)
    else _ ← defined_if vnc_opens; Ret (Some (with_vnc (drop 12 a ++ [10]) st))
  else if existsb (λ p, fits p a) extra_options then
    let vnc := fits (Starts "vnc") a in
    let st := if vnc then with_flags (λ f, flag_or f LOADER_FLAGS_GRAPHICAL) st else st in
    early ← (if fits (Starts "syslog") a || vnc then Ret true
             else r ← isKickstartFileRemote (ld_s (c_ld st) L_ksFile); Ret (negb (r =? 0)));
    let st := if (early : bool) then with_flags (λ f, flag_or f LOADER_FLAGS_EARLY_NETWORKING) st else st in
    Ret (Some (add_extra (if fits (Starts "vesa") a then str "--xdriver=vesa" else str "--" ++ a) st))
  else Ret (Some st).

Definition parse_argument (a : bytes) (st : cmd_state S) : result :=
  match rule_for a with
  | Some r => do_action r a st
  | None => if (length (c_extra st) <? MAX_EXTRA_ARGS - 1)%nat then extra_option a st else Ret (Some st)
  end.

Fixpoint parse_arguments (argv : list bytes) (st : cmd_state S) : result :=
  match argv with
  | [] => Ret (Some st)
  | a :: argv =>
      r ← parse_argument a st;
      match r with Some st => parse_arguments argv st | None => Ret None end
  end.

(** ** readNetInfo *)

(** One name and its value: comparisons with the length of the literal, that
    with SUBCHANNELS one longer. *)
Definition netinfo_string (vname vparm : bytes) (ld : loaderData_s) : loaderData_s :=
  let set (name : string) (f : ld_string) ld :=
    if starts_with (str name) vname then set_lds f (Some vparm) ld else ld in
  let ld := set "IPADDR"%string L_ipv4 ld in
  let ld := set "NETMASK"%string L_netmask ld in
  let ld := set "GATEWAY"%string L_gateway ld in
  let ld := set "DNS"%string L_dns ld in
  let ld := set "PEERID"%string L_peerid ld in
  let ld := if streq vname (str "SUBCHANNELS") then set_lds L_subchannels (Some vparm) ld else ld in
  let ld := set "PORTNAME"%string L_portname ld in
  let ld := set "NETTYPE"%string L_nettype ld in
  let ld := set "CTCPROT"%string L_ctcprot ld in
  let ld := set "LAYER2"%string L_layer2 ld in
  let ld := set "MACADDR"%string L_macaddr ld in
  set "HOSTNAME"%string L_hostname ld.
Definition netinfo_value (vname vparm : bytes) (ld : loaderData_s) : option loaderData_s :=
  if starts_with (str "MTU") vname then
    match strtol_int vparm with
    | Some z => Some (netinfo_string vname vparm (set_ldi L_mtu z ld))
    | None => None
    end
  else Some (netinfo_string vname vparm ld).

(** The first white space in the buffer or its last byte becomes the end. *)
Fixpoint space_at (n : nat) (buf : bytes) : nat :=
  match n, buf with
  | Datatypes.S n, b :: r => if isspace b then O else Datatypes.S (space_at n r)
  | _, _ => O
  end.

(** [while(fgets(buf, bufsiz, f))], for the buffer of 100 bytes. *)
Fixpoint netinfo_loop (fuel : nat) (buf f : bytes) (ld : loaderData_s) : outcome (option loaderData_s) :=
  match fuel with
  | O => NoFuel
  | Datatypes.S fuel =>
      match fgets 100 f with
      | None => Ret (Some ld)
      | Some (l, f) =>
          let buf := splice 0 (l ++ [0]) buf in
          let buf := <[space_at 99 buf := 0]> buf in
          if bool_decide (is_Some (strstr (until_nul buf) (str "="))) then
            let '(vname, buf, p) := strtok 61 buf 0 in
            match vname with
            | None => netinfo_loop fuel buf f ld
            | Some o =>
                vname ← cstr buf o;
                let '(vparm, buf, p) := strtok 61 buf p in
                match vparm with
                | None => netinfo_loop fuel buf f ld
                | Some o =>
                    vparm ← cstr buf o;
                    match netinfo_value vname vparm ld with
                    | Some ld => netinfo_loop fuel buf f ld
                    | None => Ret None
                    end
                end
            end
          else netinfo_loop fuel buf f ld
      end
  end.

(** The members cleared before anything is read. *)
Definition netinfo_clear (ld : loaderData_s) : loaderData_s :=
  fold_left (λ ld f, set_lds f None ld)
    [L_ipv4; L_netmask; L_gateway; L_dns; L_peerid; L_subchannels; L_portname; L_nettype; L_ctcprot; L_layer2; L_macaddr] ld.

(** The first ifcfg file of the directory, [None] when there is none or it
    cannot be opened; what the stack holds. *)
Definition readNetInfo (stack : bytes) (cfgfile : option bytes) (st : cmd_state S) : result :=
  match cfgfile with
  | None => Ret (Some st)
  | Some f =>
      r ← netinfo_loop (Datatypes.S (length f)) stack f (netinfo_clear (c_ld st));
      match r with
      | None => Ret None
      | Some ld =>
          let st := with_ld (λ _, ld) st in
          Ret (Some (if bool_decide (is_Some (ld_s ld L_ipv4)) && bool_decide (is_Some (ld_s ld L_netmask))
                     then with_flags (λ f, flag_or f LOADER_FLAGS_HAVE_CMSCONF) st else st))
      end
  end.

(** [cmdLine] is null outside of the test mode. *)
Definition parseCmdLineFlags {F} `{FileOps F} (stack : bytes) (cmdLine : option bytes) (cmdline : option F)
    (cfgfile : option bytes) (st : cmd_state S) : result :=
  let st := with_flags (λ f, flag_or f LOADER_FLAGS_GRAPHICAL) st in
  let line :=
    match cmdLine with
    | Some l => Some l
    | None =>
        match cmdline with
        | None => None
        | Some f => let '(len, d, _) := f_read f 1023 in if len <=? 0 then None else Some (until_nul (d ++ [0]))
        end
    end in
  match line with
  | None => Ret (Some st)
  | Some line =>
      match poptParseArgvString line with
      | None => Ret (Some st)
      | Some argv =>
          r ← parse_arguments argv st;
          match r with Some st => readNetInfo stack cfgfile st | None => Ret None end
      end
  end.
End parse.
