(* ===== verification/CmdLineFacts.v ===== *)
(** * The kernel's command line: facts (stage-1/loader.c)

    Each word is for the first rule that fits it; of the values the words give a
    member of loaderData the last one counts. *)

From S2P Require Import Prelude CLib Posix Sys Loader Popt Net Modules ModulesFacts Kickstart KickstartFacts CmdLine.
Open Scope Z_scope.

(** ** Which rule a word is for *)

#[export] Instance pattern_eq_dec : EqDecision pattern.
Proof. solve_decision. Defined.

Definition literal (p : pattern) : bytes :=
  match p with Exactly s | Starts s | StartsCase s | Longer s => str s end.

(** Whether a word that fits [p] may fit [q] too. *)
Definition is_exact (p : pattern) : bool := match p with Exactly _ => true | _ => false end.
Definition conflict (p q : pattern) : bool :=
  let k := lower (literal p) in let l := lower (literal q) in
  (negb (is_exact q) || starts_with k l) && (negb (is_exact p) || starts_with l k) && (starts_with k l || starts_with l k).

Lemma starts_with_both k l a : starts_with k a = true → starts_with l a = true → starts_with k l || starts_with l k = true.
Proof.
  revert l a. induction k as [| x k IH]; intros [| y l] [| z a]; cbn; try done.
  destruct (Z.eqb_spec x z) as [-> |]; [| done]. destruct (Z.eqb_spec y z) as [-> |]; [| done].
  rewrite Z.eqb_refl. apply IH.
Qed.

Lemma starts_with_fmap f k a : starts_with k a = true → starts_with (f <$> k) (f <$> a) = true.
Proof. rewrite !starts_with_spec. intros [r ->]. exists (f <$> r). apply fmap_app. Qed.

Lemma tolower_idemp c : tolower (tolower c) = tolower c.
Proof. unfold tolower. destruct ((65 <=? c) && (c <=? 90)) eqn:E; [| by rewrite E]. case_match; lia. Qed.
Lemma lower_idemp a : lower (lower a) = lower a.
Proof. unfold lower. rewrite <- list_fmap_compose. apply list_fmap_ext. intros i x _. apply tolower_idemp. Qed.

Lemma fits_literal p a : fits p a = true → starts_with (lower (literal p)) (lower a) = true.
Proof.
  destruct p as [s | s | s | s]; cbn [fits literal].
  - intros E%streq_spec. rewrite <- E, lower_idemp. apply starts_with_refl.
  - intros E. apply (starts_with_fmap tolower) in E. by fold (lower (lower a)) in E; rewrite lower_idemp in E.
  - apply (starts_with_fmap tolower).
  - intros [E _]%andb_true_iff. apply (starts_with_fmap tolower) in E. by fold (lower (lower a)) in E; rewrite lower_idemp in E.
Qed.

Lemma fits_exact p a : is_exact p = true → fits p a = true → lower (literal p) = lower a.
Proof. destruct p; try done. cbn [fits literal]. intros _ E%streq_spec. by rewrite <- E, lower_idemp. Qed.
Lemma fits_conflict p q a : fits p a = true → fits q a = true → conflict p q = true.
Proof.
  intros Hp Hq. pose proof (fits_literal _ _ Hp) as Lp. pose proof (fits_literal _ _ Hq) as Lq. unfold conflict.
  rewrite !andb_true_iff, !orb_true_iff. split_and!; [| | apply orb_true_iff; by eapply starts_with_both].
  - destruct (is_exact q) eqn:E; [right; by rewrite (fits_exact q a) | by left].
  - destruct (is_exact p) eqn:E; [right; by rewrite (fits_exact p a) | by left].
Qed.

(** The first rule with a pattern, when no earlier one is in its way. *)
Fixpoint pattern_rule (p : pattern) (l : list (list pattern * rule_action)) : option rule_action :=
  match l with
  | [] => None
  | (ps, act) :: l =>
      if bool_decide (p ∈ ps) then Some act else if existsb (conflict p) ps then None else pattern_rule p l
  end.

Lemma pattern_rule_find p l act a : pattern_rule p l = Some act → fits p a = true →
  snd <$> List.find (λ r, existsb (λ p, fits p a) (fst r)) l = Some act.
Proof.
  intros Hr Hf. induction l as [| [ps act'] l IH]; [done |]. cbn [pattern_rule List.find fst] in *.
  case_bool_decide as Hp.
  - injection Hr as ->. assert (existsb (λ p, fits p a) ps = true) as ->; [| done].
    apply existsb_exists. exists p. split; [by apply list_elem_of_In | done].
  - destruct (existsb (conflict p) ps) eqn:Ec; [done |].
    destruct (existsb (λ p, fits p a) ps) eqn:Ef; [| by apply IH].
    apply existsb_exists in Ef as (q & Hq & Hqa). assert (existsb (conflict p) ps = true) as E'; [| congruence].
    apply existsb_exists. exists q. split; [done | by eapply fits_conflict].
Qed.

Lemma rule_for_in a act : rule_for a = Some act →
  ∃ ps p, (ps, act) ∈ cmd_rules ∧ p ∈ ps ∧ fits p a = true.
Proof.
  unfold rule_for. intros E. destruct (List.find _ cmd_rules) as [[ps act'] |] eqn:Ef; [| done]. injection E as ->.
  apply find_some in Ef as [Hin (p & Hp & Hf)%existsb_exists]. exists ps, p.
  split; [by apply list_elem_of_In | split; [by apply list_elem_of_In | done]].
Qed.

(** ** Values *)

(** What the options with a string are for: a member of loaderData or the
    variable DISPLAY. *)
Inductive target := Member (f : ld_string) | DisplayVariable.
Definition value_of {S : Type} (t : target) (st : cmd_state S) : option bytes :=
  match t with Member f => ld_s (c_ld st) f | DisplayVariable => c_display st end.

(** What is behind [n] colons, and what is in front of the next. *)
Fixpoint after_colons (n : nat) (s : bytes) : option bytes :=
  match n with O => Some s | Datatypes.S n => t ← strchr s 58; after_colons n (tail t) end.
Definition to_colon (s : bytes) : bytes := match strchr s 58 with Some t => before s t | None => s end.

(** What an option gives: what is behind its name, the whole word, what is
    behind the name of a driver disk, the name of a level, the card a boot loader
    has used, and the parts of ip=<client>:<server>:<gateway>:<netmask>. *)
Inductive given := Rest | Whole | RestOfDisk | Level | Card | Client | Router | Mask.
Definition given_value (p : pattern) (g : given) (a : bytes) : option bytes :=
  let rest := drop (length (literal p)) a in
  match g with
  | Rest => Some rest
  | Whole => Some a
  | RestOfDisk => Some (drop (if bool_decide (a !! 1%nat = Some 114) then 11 else 3) a)
  | Level => if bool_decide (lower rest ∈ (str ∘ fst) <$> levels) then Some rest else None
  | Card => Some ((λ b, if b =? 45 then 58 else b) <$> drop 3 rest)
  | Client => Some (to_colon rest)
  | Router => to_colon <$> after_colons 2 rest
  | Mask => after_colons 3 rest
  end.

(** The options of each target; no word writes the members that have none. *)
Definition options_of (t : target) : list (pattern * given) :=
  match t with
  | Member L_updatessrc => [(Starts "updates=", Rest)]
  | Member L_dogtailurl => [(Starts "dogtail=", Rest)]
  | Member L_ddsrc => [(Starts "dd=", RestOfDisk); (Starts "driverdisk=", RestOfDisk)]
  | Member L_logLevel => [(Starts "loglevel=", Level)]
  | Member L_netDev => [(Starts "ksdevice=", Rest)]
  | Member L_bootIf => [(StartsCase "BOOTIF=", Card)]
  | Member L_netCls => [(Starts "dhcpclass=", Rest)]
  | Member L_ksFile => [(Exactly "ks", Whole); (Starts "ks=", Whole)]
  | Member L_lang => [(Longer "lang=", Rest)]
  | Member L_kbd => [(Longer "keymap=", Rest)]
  | Member L_instRepo => [(Starts "method=", Rest); (Starts "repo=", Rest)]
  | Member L_hostname => [(Starts "hostname=", Rest)]
  | Member L_ipv4 => [(Starts "ip=", Client)]
  | Member L_gateway => [(Starts "ip=", Router); (Starts "gateway=", Rest)]
  | Member L_netmask => [(Starts "ip=", Mask); (Starts "netmask=", Rest)]
  | Member L_dns => [(Starts "dns=", Rest)]
  | Member L_ethtool => [(Starts "ethtool=", Rest)]
  | Member L_essid => [(Starts "essid=", Rest)]
  | Member L_wepkey => [(Starts "wepkey=", Rest)]
  | Member L_gdbServer => [(Starts "gdb=", Rest)]
  | Member (L_peerid | L_subchannels | L_portname | L_nettype | L_ctcprot | L_layer2 | L_macaddr) => []
  | DisplayVariable => [(Starts "display=", Rest)]
  end.
(** The value a word gives a target. *)
Definition option_value (t : target) (a : bytes) : option bytes :=
  o ← List.find (λ o, fits (fst o) a) (options_of t); given_value (fst o) (snd o) a.

(** The value an action writes to a target. *)
Definition action_value (t : target) (act : rule_action) (a : bytes) : option bytes :=
  match act, t with
  | (SetString g n | SetBoth g n _), Member f => if decide (g = f) then Some (drop n a) else None
  | DriverDisk, Member L_ddsrc => Some (drop (if bool_decide (a !! 1%nat = Some 114) then 11 else 3) a)
  | LogLevel, Member L_logLevel => if bool_decide (lower (drop 9 a) ∈ (str ∘ fst) <$> levels) then Some (drop 9 a) else None
  | BootIf, Member L_bootIf => Some ((λ b, if b =? 45 then 58 else b) <$> drop 10 a)
  | Ip, Member L_ipv4 => Some (to_colon (drop 3 a))
  | Ip, Member L_gateway => to_colon <$> after_colons 2 (drop 3 a)
  | Ip, Member L_netmask => after_colons 3 (drop 3 a)
  | Display, DisplayVariable => Some (drop 8 a)
  | _, _ => None
  end.
Definition string_written (t : target) (a : bytes) : option bytes := rule_for a ≫= λ act, action_value t act a.

(** Whether an action gives a target what an option is said to give. *)
Definition action_gives (t : target) (p : pattern) (g : given) (act : rule_action) : bool :=
  let long := length (literal p) in
  match g, act, t with
  | Rest, (SetString h n | SetBoth h n _), Member f => bool_decide (h = f) && (n =? long)%nat
  | Whole, (SetString h n | SetBoth h n _), Member f => bool_decide (h = f) && (n =? 0)%nat
  | Rest, Display, DisplayVariable => (long =? 8)%nat
  | RestOfDisk, DriverDisk, Member L_ddsrc => true
  | Level, LogLevel, Member L_logLevel => (long =? 9)%nat
  | Card, BootIf, Member L_bootIf => (long =? 7)%nat
  | Client, Ip, Member L_ipv4 | Router, Ip, Member L_gateway | Mask, Ip, Member L_netmask => (long =? 3)%nat
  | _, _, _ => false
  end.
Definition writes (t : target) (act : rule_action) : bool :=
  match act, t with
  | (SetString g _ | SetBoth g _ _), Member f => bool_decide (g = f)
  | DriverDisk, Member L_ddsrc | LogLevel, Member L_logLevel | BootIf, Member L_bootIf
  | Ip, Member (L_ipv4 | L_gateway | L_netmask) | Display, DisplayVariable => true
  | _, _ => false
  end.

Lemma action_gives_value t p g act a : action_gives t p g act = true → action_value t act a = given_value p g a.
Proof.
  intros E. destruct g, act; try discriminate E; (destruct t as [mf |]; [| try discriminate E]);
    try (destruct mf; discriminate E); try (destruct mf; try discriminate E; []); cbn [action_gives] in E;
    rewrite ?andb_true_iff, ?bool_decide_eq_true, ?Nat.eqb_eq in E; destruct_and? E; subst;
    cbn [action_value given_value]; rewrite ?decide_True by done; try done;
    try match goal with H : length (literal p) = _ |- _ => rewrite ?H end; rewrite ?drop_drop; done.
Qed.
Lemma writes_none t act a : writes t act = false → action_value t act a = None.
Proof.
  intros E. destruct act, t as [mf |]; try done; cbn [writes action_value] in *; try (by destruct mf);
    apply bool_decide_eq_false in E; by rewrite decide_False.
Qed.

(** What the table has to look like for a target and its options. *)
Definition option_checked (t : target) : bool :=
  forallb (λ o, match pattern_rule (fst o) cmd_rules with
                | Some act => action_gives t (fst o) (snd o) act
                | None => false
                end) (options_of t) &&
  forallb (λ r, negb (writes t (snd r)) || forallb (λ p, bool_decide (p ∈ fst <$> options_of t)) (fst r)) cmd_rules.
Lemma options_checked t : option_checked t = true.
Proof. destruct t as [f |]; [destruct f |]; vm_compute; reflexivity. Qed.

Lemma string_written_option t a : string_written t a = option_value t a.
Proof.
  pose proof (options_checked t) as C. apply andb_true_iff in C as [C1 C2].
  rewrite forallb_forall in C1, C2. unfold option_value. destruct (List.find (λ o, fits (fst o) a) (options_of t)) as [[p g] |] eqn:Ef.
  - apply find_some in Ef as [Hp Hf]. specialize (C1 _ Hp). cbn [fst snd] in *. unfold string_written, rule_for.
    destruct (pattern_rule p cmd_rules) as [act |] eqn:Er; [| done].
    rewrite (pattern_rule_find p cmd_rules act a Er Hf). cbn [mbind option_bind fst snd]. by apply action_gives_value.
  - unfold string_written. destruct (rule_for a) as [act |] eqn:Er; [| done]. cbn [mbind option_bind].
    destruct (rule_for_in a act Er) as (ps & p & Hr & Hp & Hf). apply writes_none.
    specialize (C2 (ps, act) (proj1 (list_elem_of_In _ _) Hr)). cbn [fst snd] in C2. apply orb_true_iff in C2 as [C2 | C2]; [by apply negb_true_iff |].
    rewrite forallb_forall in C2. specialize (C2 p (proj1 (list_elem_of_In _ _) Hp)).
    apply bool_decide_eq_true, list_elem_of_fmap in C2 as (o & -> & Ho).
    exfalso. apply find_none with (x := o) in Ef; [by rewrite Hf in Ef | by apply list_elem_of_In].
Qed.

(** ** One word *)

Section parse_facts.
Context {S : Type} `{SysOps S}.
Context (junk : bytes).

(** Words the loader takes without harm: no number below the range of long, no
    stage2= whose second member is written outside its memory, no ks without
    its prefix in small letters, a BOOTIF with its three characters, and none of
    the deprecated words that write a file. *)
Definition word_ok (a : bytes) : Prop :=
  match rule_for a with
  | Some (Blacklist _) => False
  | Some BootIf => (10 ≤ length a)%nat
  | Some (SetInt _ n) => is_Some (strtol_int (drop n a))
  | Some LinkSleep => is_Some (strtol_int (drop 10 a))
  | Some NicDelay => is_Some (strtol_int (drop 9 a))
  | Some Stage2 =>
      starts_with (str "nfs:") (drop 7 a) = false ∧ starts_with (str "harddrive:") (drop 7 a) = false ∧
      starts_with (str "hd:") (drop 7 a) = false
  | Some (SetString L_ksFile n) => starts_with (str "ks=") (drop n a) = true
  | _ => True
  end.

Definition ks_known (st : cmd_state S) : Prop :=
  match ld_s (c_ld st) L_ksFile with Some k => starts_with (str "ks=") k = true | None => True end.

(** How much of a word its rule leaves out. *)
Definition skipped (act : rule_action) : nat :=
  match act with
  | SetString _ n | SetBoth _ n _ | SetInt _ n => n
  | LinkSleep => 10 | NicDelay => 9 | LogLevel => 9 | Display => 8 | Stage2 => 7 | Ip => 3 | DriverDisk => 3
  | _ => 0
  end%nat.
Lemma skipped_checked :
  forallb (λ r, forallb (λ p, (skipped (snd r) <=? length (literal p))%nat) (fst r)) cmd_rules = true.
Proof. vm_compute. reflexivity. Qed.

Lemma starts_with_length k a : starts_with k a = true → (length k ≤ length a)%nat.
Proof. intros [r ->]%starts_with_spec. rewrite length_app. lia. Qed.

Lemma fits_length p a : fits p a = true → (length (literal p) ≤ length a)%nat.
Proof. intros Hf%fits_literal%starts_with_length. unfold lower in Hf. by rewrite !length_fmap in Hf. Qed.

Lemma rule_long a act : rule_for a = Some act → (skipped act ≤ length a)%nat.
Proof.
  intros Hr. destruct (rule_for_in a act Hr) as (ps & p & Hin & Hp & Hf). pose proof skipped_checked as C.
  rewrite forallb_forall in C. specialize (C _ (proj1 (list_elem_of_In _ _) Hin)). rewrite forallb_forall in C.
  specialize (C _ (proj1 (list_elem_of_In _ _) Hp)). apply Nat.leb_le in C. cbn [snd] in C. apply fits_length in Hf. lia.
Qed.

Lemma after_ok n a : (n ≤ length a)%nat → after n a = Ret (drop n a).
Proof. intros Hn. unfold after. rewrite (proj2 (Nat.leb_le _ _) Hn). cbn [defined_if]. by rewrite outcome_bind_ret. Qed.

(** A word is carried out and leaves every target it gives no value. *)
Definition step_ok (a : bytes) (st : cmd_state S) (r : outcome (option (cmd_state S))) : Prop :=
  ∃ st', r = Ret (Some st') ∧ ks_known st' ∧
    ∀ t, value_of t st' = match string_written t a with Some v => Some v | None => value_of t st end.

Lemma strchr_skip c k a : Forall (λ b, b ≠ c) k → strchr (k ++ a) c = strchr a c.
Proof. induction 1 as [| b k Hb _ IH]; [done |]. cbn [app strchr]. by destruct (Z.eqb_spec b c). Qed.

Lemma parseCmdLineIp_members ld flags a : starts_with (str "ip=") (lower a) = true →
  ∃ ld' flags', parseCmdLineIp ld flags a = Ret (ld', flags') ∧
    ∀ f, ld_s ld' f = match action_value (Member f) Ip a with Some v => Some v | None => ld_s ld f end.
Proof.
  intros Hs. unfold parseCmdLineIp. pose proof (starts_with_length _ _ Hs) as Hl. unfold lower in Hl. rewrite length_fmap in Hl.
  rewrite after_ok, outcome_bind_ret by exact Hl.
  assert (strchr a 58 = strchr (drop 3 a) 58) as ->.
  { destruct a as [| x [| y [| z a]]]; cbn in Hl; try lia. cbn [drop]. apply starts_with_spec in Hs as [r Hs].
    cbn in Hs. injection Hs as Hx Hy Hz _. apply (strchr_skip 58 [x; y; z]).
    repeat (apply list.Forall_cons; split); [intros -> .. | constructor]; [by vm_compute in Hx | by vm_compute in Hy | by vm_compute in Hz]. }
  unfold action_value, to_colon. cbn [after_colons]. destruct (strchr (drop 3 a) 58) as [t |];
    [rewrite bool_decide_eq_true_2 by done; cbn [checked mbind outcome_bind option_bind] |
     rewrite bool_decide_eq_false_2 by (by intros []); cbn [mbind option_bind]].
  2: { eexists _, _. split; [reflexivity |]. intros f. by destruct f. }
  destruct (strchr (tail t) 58) as [t2 |]; cbn [mbind option_bind]; [| eexists _, _; split; [reflexivity |]; intros f; by destruct f].
  destruct (strchr (tail t2) 58) as [t3 |] eqn:E3; cbn [mbind option_bind fmap option_fmap option_map];
    eexists _, _; (split; [reflexivity |]); intros f; destruct f; cbn; rewrite ?E3; done.
Qed.

Lemma stage2_members v (st : cmd_state S) : starts_with (str "nfs:") v = false → starts_with (str "harddrive:") v = false →
  starts_with (str "hd:") v = false → ∃ st', setStage2LocFromCmdline v st = Ret st' ∧ ∀ t, value_of t st' = value_of t st.
Proof.
  intros Hn Hh Hd. unfold setStage2LocFromCmdline. destruct (strtok 58 (v ++ [0]) 0) as [[[o |] buf] p]; [| by eexists].
  destruct (strtok 58 buf p) as [[c buf2] p2]. rewrite Hn, Hh, Hd. destruct (_ || _); [eexists; split; [reflexivity | by intros []] |].
  destruct (starts_with (str "cdrom:") v); (eexists; split; [reflexivity | by intros []]).
Qed.

(** ** Every word *)

#[local] Instance rule_action_eq_dec : EqDecision rule_action.
Proof. solve_decision. Defined.

(** The patterns of an action that has one rule only. *)
Lemma only_rule act ps a : forallb (λ r, negb (bool_decide (snd r = act)) || bool_decide (fst r = ps)) cmd_rules = true →
  rule_for a = Some act → existsb (λ p, fits p a) ps = true.
Proof.
  intros C Hr. destruct (rule_for_in a act Hr) as (ps' & p & Hin & Hp & Hf). rewrite forallb_forall in C.
  specialize (C _ (proj1 (list_elem_of_In _ _) Hin)). cbn [fst snd] in C. rewrite bool_decide_eq_true_2 in C by done.
  apply bool_decide_eq_true in C as <-. apply existsb_exists. exists p. split; [by apply list_elem_of_In | done].
Qed.

Lemma driver_disk_long a : rule_for a = Some DriverDisk →
  ((if bool_decide (a !! 1%nat = Some 114%Z) then 11 else 3) ≤ length a)%nat.
Proof.
  intros Hr. pose proof (rule_long a _ Hr) as Hl. cbn [skipped] in Hl. case_bool_decide as Hb; [| done].
  apply (only_rule _ [Starts "dd="; Starts "driverdisk="]) in Hr; [| vm_compute; reflexivity].
  cbn [existsb] in Hr. rewrite orb_false_r in Hr. apply orb_true_iff in Hr as [Hf | Hf].
  - cbn [fits] in Hf. apply starts_with_spec in Hf as [r E]. destruct a as [| x [| y a]]; try done.
    injection Hb as ->. by apply (f_equal (λ l : bytes, l !! 1%nat)) in E.
  - by apply fits_length in Hf.
Qed.

Lemma ip_prefix a : rule_for a = Some Ip → starts_with (str "ip=") (lower a) = true.
Proof.
  intros Hr. apply (only_rule _ [Starts "ip="]) in Hr; [| vm_compute; reflexivity]. cbn [existsb] in Hr.
  by rewrite orb_false_r in Hr.
Qed.

Lemma ks_not_both a n g : rule_for a ≠ Some (SetBoth L_ksFile n g).
Proof.
  intros Hr. destruct (rule_for_in a _ Hr) as (ps & p & Hin & _).
  assert (forallb (λ r, match snd r with SetBoth L_ksFile _ _ => false | _ => true end) cmd_rules = true) as C
    by (vm_compute; reflexivity).
  rewrite forallb_forall in C. by specialize (C _ (proj1 (list_elem_of_In _ _) Hin)).
Qed.

(** A word whose action leaves what it is said to leave. *)
Lemma step_from a act st st' : rule_for a = Some act → word_ok a → ks_known st →
  (∀ t, value_of t st' = match action_value t act a with Some v => Some v | None => value_of t st end) → step_ok a st (Ret (Some st')).
Proof.
  intros Hr Hw Hk Hf. exists st'. split; [done |]. split.
  - unfold ks_known, word_ok in *. rewrite Hr in Hw. pose proof (Hf (Member L_ksFile)) as E. cbn [value_of] in E. rewrite E.
    destruct act; cbn [action_value]; try exact Hk; case_decide; try exact Hk; subst; [exact Hw |]. by apply ks_not_both in Hr.
  - intros t. unfold string_written. rewrite Hr. apply Hf.
Qed.

Lemma string_target g v (st st' : cmd_state S) a act : (∀ f, ld_s (c_ld st') f = upd g (Some v) (ld_s (c_ld st)) f) → c_display st' = c_display st →
  (∀ t, action_value t act a = match t with Member f => if decide (g = f) then Some v else None | DisplayVariable => None end) →
  ∀ t, value_of t st' = match action_value t act a with Some v => Some v | None => value_of t st end.
Proof.
  intros Hf Hd Ha [f |]; rewrite Ha; cbn [value_of]; [| exact Hd]. rewrite Hf. unfold upd.
  destruct (decide (g = f)) as [-> | Hne]; [by rewrite decide_True | by rewrite decide_False by congruence].
Qed.
Lemma level_known v : is_Some (List.find (λ l : string * Z, streq (lower v) (str (fst l))) levels) ↔ lower v ∈ (str ∘ fst) <$> levels.
Proof.
  split.
  - intros [l Hl]. apply find_some in Hl as [Hin E%streq_spec]. rewrite E. apply list_elem_of_fmap. exists l. split; [done | by apply list_elem_of_In].
  - intros (l & E & Hin)%list_elem_of_fmap. destruct (List.find _ levels) eqn:Ef; [by eexists |]. exfalso.
    apply find_none with (x := l) in Ef; [| by apply list_elem_of_In]. rewrite E in Ef. cbn in Ef.
    rewrite (proj2 (streq_spec _ _) eq_refl) in Ef. done.
Qed.

Lemma do_action_ok a r st : rule_for a = Some r → word_ok a → ks_known st → step_ok a st (do_action junk r a st).
Proof.
  intros Hr Hw Hk. pose proof (rule_long a r Hr) as Hl. pose proof Hw as Hw'. unfold word_ok in Hw. rewrite Hr in Hw.
  destruct r as [bit | bit | | g n | g n h | g n | | ms | | | | | | |]; cbn [do_action skipped] in *;
    rewrite ?after_ok, ?outcome_bind_ret by done; try (by eapply step_from; [exact Hr | done | done | by intros [f |]]).
  - eapply step_from; [exact Hr | done | done |]. by apply (string_target g (drop n a)); [| | intros []].
  - eapply step_from; [exact Hr | done | done |]. by apply (string_target g (drop n a)); [| | intros []].
  - destruct Hw as [z ->]. eapply step_from; [exact Hr | done | done | by intros [f |]].
  - rewrite after_ok, outcome_bind_ret by (by apply driver_disk_long). eapply step_from; [exact Hr | done | done |]. intros [f |]; [by destruct f | done].
  - done.
  - eapply step_from; [exact Hr | done | done |]. pose proof (level_known (drop 9 a)) as Hlv.
    destruct (List.find _ levels) as [[nm lv] |].
    + intros [f |]; [| done]. destruct f; try done. cbn [action_value]. rewrite bool_decide_eq_true_2 by (apply Hlv; by eexists). done.
    + intros [f |]; [| done]. destruct f; try done. cbn [action_value]. rewrite bool_decide_eq_false_2; [done |]. intros []%Hlv. done.
  - eapply step_from; [exact Hr | done | done |]. intros [f |]; [by destruct f | done].
  - destruct Hw as (Hn & Hh & Hd). destruct (stage2_members _ st Hn Hh Hd) as (st' & -> & Hs). rewrite outcome_bind_ret.
    eapply step_from; [exact Hr | done | done |]. intros t. rewrite Hs. by destruct t as [f |]; [destruct f |].
  - destruct (parseCmdLineIp_members (c_ld st) (c_flags st) a (ip_prefix a Hr)) as (ld' & fl & -> & Hs). rewrite outcome_bind_ret.
    eapply step_from; [exact Hr | done | done |]. intros [f |]; [apply Hs | done].
  - destruct Hw as [z ->]. eapply step_from; [exact Hr | done | done | by intros [f |]].
  - destruct Hw as [z ->]. eapply step_from; [exact Hr | done | done | by intros [f |]].
Qed.

(** Words no rule fits. *)
Lemma extra_option_ok a st : rule_for a = None → ks_known st → step_ok a st (extra_option true a st).
Proof.
  intros Hr Hk.
  assert (Hsame : ∀ st', c_ld st' = c_ld st → c_display st' = c_display st → step_ok a st (Ret (Some st'))).
  { intros st' E Ed. exists st'. split; [done |]. split; [unfold ks_known; by rewrite E |].
    intros t. unfold string_written. rewrite Hr. cbn [mbind option_bind]. destruct t; cbn [value_of]; by rewrite ?E, ?Ed. }
  unfold extra_option. destruct (fits (Starts "vncpassword=") a).
  { destruct (FL _ _); [by apply Hsame |]. cbn [defined_if]. rewrite outcome_bind_ret. by apply Hsame. }
  destruct (existsb _ extra_options); [| by apply Hsame]. cbn zeta. set (vnc := fits (Starts "vnc") a).
  assert (∃ early, (if fits (Starts "syslog") a || vnc then Ret true
     else r ← isKickstartFileRemote (ld_s (c_ld (if vnc then with_flags (λ f, flag_or f LOADER_FLAGS_GRAPHICAL) st else st)) L_ksFile);
          Ret (negb (r =? 0))) = Ret early) as [early Ee].
  { destruct (_ || vnc); [by exists true |]. unfold ks_known, isKickstartFileRemote in *.
    assert (ld_s (c_ld (if vnc then with_flags (λ f, flag_or f LOADER_FLAGS_GRAPHICAL) st else st)) L_ksFile = ld_s (c_ld st) L_ksFile) as ->
      by (by destruct vnc).
    destruct (ld_s (c_ld st) L_ksFile) as [k |]; [rewrite Hk; cbn [checked] |]; rewrite !outcome_bind_ret; by eexists. }
  rewrite Ee, outcome_bind_ret. apply Hsame; by destruct early, vnc.
Qed.

Lemma parse_argument_ok a st : word_ok a → ks_known st → step_ok a st (parse_argument junk true a st).
Proof.
  intros Hw Hk. unfold parse_argument. destruct (rule_for a) as [r |] eqn:Hr; [by apply do_action_ok |].
  destruct (_ <? _)%nat; [by apply extra_option_ok |]. exists st. split; [done |]. split; [done |].
  intros t. unfold string_written. by rewrite Hr.
Qed.

Lemma parse_arguments_strings argv st : Forall word_ok argv → ks_known st →
  ∃ st', parse_arguments junk true argv st = Ret (Some st') ∧
    ∀ t, value_of t st' = match list.last (omap (string_written t) argv) with Some v => Some v | None => value_of t st end.
Proof.
  intros Hw. revert st. induction Hw as [| a argv Ha _ IH]; intros st Hk; [by exists st |]. cbn [parse_arguments].
  destruct (parse_argument_ok a st Ha Hk) as (st1 & -> & Hk1 & Hf1). rewrite outcome_bind_ret.
  destruct (IH st1 Hk1) as (st2 & -> & Hf2). exists st2. split; [done |]. intros t. rewrite (Hf2 t), (Hf1 t).
  cbn [omap list_omap]. destruct (string_written t a) as [v |]; [| done]. rewrite list.last_cons.
  by destruct (list.last (omap (string_written t) argv)).
Qed.

(** C14: Every string member of loaderData, and the variable DISPLAY, has after
    parseCmdLineFlags the last value that a word of the kernel command line gives
    it, in any mixture of letters, and is as it was when no word gives one.
    [options_of] names the options of each and [option_value] what they give, with
    the parts of ip= among them.  The line may hold any other words too, but none
    that ends or harms the loader ([word_ok]): numbers out of range, stage2= for
    NFS or a hard drive, a ks without the prefix ks= in small letters, a BOOTIF=
    shorter than its three characters, and the words nousb, nousbstorage and
    nofirewire; and no file with the configuration of the network is there. *)
Theorem parseCmdLineFlags_last_value `{PoptLib} {F} `{FileOps F} stack line (cmdline : option F) argv st
    (Hwords : poptParseArgvString line = Some argv) (Hok : Forall word_ok argv) (Hks : ks_known st) :
  ∃ st', parseCmdLineFlags junk true stack (Some line) cmdline None st = Ret (Some st') ∧
    ∀ t, value_of t st' = match list.last (omap (option_value t) argv) with Some v => Some v | None => value_of t st end.
Proof.
  unfold parseCmdLineFlags. rewrite Hwords. set (st0 := with_flags _ st).
  destruct (parse_arguments_strings argv st0 Hok Hks) as (st' & -> & Hf). rewrite outcome_bind_ret. exists st'. split; [done |].
  intros t. rewrite Hf. assert (omap (string_written t) argv = omap (option_value t) argv) as ->; [| by destruct t].
  clear. induction argv as [| a argv IH]; [done |]. cbn [omap list_omap]. by rewrite string_written_option, IH.
Qed.
End parse_facts.

(** A command line. *)
Definition sample_line : bytes :=
  str "ro ksdevice=eth0 DNS=10.0.0.1 vnc lang=de text gateway=10.0.0.9 dns=10.0.0.2,10.0.0.3 Repo=http://host/ method=nfs:host:/dir ip=10.0.0.5::10.0.0.254:255.0.0.0 dd=a DRIVERDISK=nfs:b display=c BOOTIF=01-00-11 loglevel=none".
Definition sample_cmd : cmd_state memfs :=
  mkCmd zero_ld 0 None [] (mkMl (Some []) []) modprobe_fs INFO None 5 0 None.

Lemma parseCmdLineFlags_last_value_witness :
  ∃ st', parseCmdLineFlags (H := sample_popt) [] true [] (Some sample_line) (None : option regfile) None sample_cmd = Ret (Some st') ∧
    (λ t, value_of t st') <$> [Member L_dns; Member L_instRepo; Member L_lang; Member L_essid; Member L_ipv4; Member L_gateway; Member L_netmask;
      Member L_ddsrc; DisplayVariable; Member L_bootIf; Member L_logLevel] =
    [Some (str "10.0.0.2,10.0.0.3"); Some (str "nfs:host:/dir"); Some (str "de"); None; Some (str "10.0.0.5"); Some (str "10.0.0.254");
     Some (str "255.0.0.0"); Some (str "VERDISK=nfs:b"); Some (str "c"); Some (str "00:11"); None].
Proof.
  destruct (parseCmdLineFlags_last_value (H0 := sample_popt) [] [] sample_line (None : option regfile)
    (split_on 32 sample_line) sample_cmd) as (st' & E & Hf).
  - vm_compute. reflexivity.
  - unfold word_ok. apply list.Forall_forall. intros a Ha.
    assert (split_on 32 sample_line = [str "ro"; str "ksdevice=eth0"; str "DNS=10.0.0.1"; str "vnc"; str "lang=de"; str "text";
      str "gateway=10.0.0.9"; str "dns=10.0.0.2,10.0.0.3"; str "Repo=http://host/"; str "method=nfs:host:/dir";
      str "ip=10.0.0.5::10.0.0.254:255.0.0.0"; str "dd=a"; str "DRIVERDISK=nfs:b"; str "display=c"; str "BOOTIF=01-00-11"; str "loglevel=none"]) as Es
      by (vm_compute; reflexivity).
    rewrite Es in Ha. repeat (apply elem_of_cons in Ha as [-> | Ha]; [vm_compute; first [exact I | lia] |]). by apply not_elem_of_nil in Ha.
  - exact I.
  - exists st'. split; [exact E |]. cbn [fmap list_fmap]. rewrite !Hf. vm_compute. reflexivity.
Defined.
