(* ===== verification/Steps.v ===== *)
(** * The steps of the loader (doLoaderMain of stage-1/loader.c)

    The loop of doLoaderMain, one definition per step, on the data the command
    line has left.  The dialogues, the drivers and the other parts of the loader
    are calls that an environment answers; the calls are kept in order.  What
    the uninitialised [rc] holds is a parameter. *)

From S2P Require Import Prelude CLib Loader Net Kickstart CmdLine.

(** ** The table of methods (method.h, devices.h) *)

Definition DEVICE_ANY : Z := -1.
Definition DEVICE_NETWORK : Z := 1.
Definition DEVICE_DISK : Z := 2.
Definition DEVICE_CDROM : Z := 4.

Inductive mount_image := mountCdromImage | mountHardDrive | mountNfsImage | mountUrlImage.
Record installMethod := mkMethod { im_name : bytes; im_network : Z; im_type : Z; im_mountImage : mount_image }.
Definition installMethods : list installMethod :=
  [mkMethod (str "Local CD/DVD") 0 DEVICE_CDROM mountCdromImage;
   mkMethod (str "Hard drive") 0 DEVICE_DISK mountHardDrive;
   mkMethod (str "NFS directory") 1 DEVICE_NETWORK mountNfsImage;
   mkMethod (str "URL") 1 DEVICE_NETWORK mountUrlImage].

(** [installMethods[validMethods[i]]]; validMethods is the identity on the
    methods there are, and its other entries are not set. *)
Definition method_at (i : Z) : outcome installMethod :=
  _ ← defined_if (0 <=? i); checked (installMethods !! Z.to_nat i).

(** ** The calls *)

(** The members that take loaderData get the state of the command line; those
    that show a dialogue may change it. *)
Inductive call :=
  | Call_findAnacondaCD                                  (* the URL or null *)
  | Call_setLanguage (lang : bytes)
  | Call_chooseLanguage
  | Call_loadKeymap (kbd : bytes)                        (* 0 or an error *)
  | Call_chooseKeyboard
  | Call_menu                                            (* newtWinMenu on &loaderData->method *)
  | Call_haveDevice (type : Z)                           (* getDevices(type) *)
  | Call_noDriver                                        (* newtWinTernary *)
  | Call_chooseManualDriver (type : Z)
  | Call_loadDriverFromMedia (class : Z)
  | Call_chooseNetworkInterface
  | Call_ethtool (calls : list ethcall)
  | Call_readNetConfig (dev : option bytes) (i : iface_t) (netCls : option bytes) (method : Z)
  | Call_sethostname (name : bytes)
  | Call_netinfo (acts : list action)                    (* the actions of writeEnabledNetInfo *)
  | Call_mountImage (m : mount_image).
Definition answer (c : call) : Type :=
  match c with
  | Call_findAnacondaCD | Call_mountImage _ => option bytes
  | Call_haveDevice _ => bool
  | Call_readNetConfig _ _ _ _ => Z * iface_t
  | Call_loadKeymap _ | Call_chooseKeyboard | Call_menu | Call_noDriver | Call_loadDriverFromMedia _
  | Call_chooseNetworkInterface => Z
  | _ => unit
  end.

Class LoaderEnv (S E : Type) := {
  env_call : ∀ c : call, cmd_state S → E → answer c * cmd_state S * E;
  (* what writeEnabledNetInfo meets *)
  env_action : E → action → bool;
  env_mac : E → bytes → option bytes;
  (* inet_pton(AF_INET6, ...) succeeds *)
  env_pton6 : bytes → bool
}.

(** ** The state of the loop *)

Inductive loader_step :=
  | STEP_LANG | STEP_KBD | STEP_METHOD | STEP_DRIVER | STEP_DRIVERDISK | STEP_NETWORK | STEP_IFACE
  | STEP_IP | STEP_STAGE2 | STEP_DONE.
#[export] Instance loader_step_eq_dec : EqDecision loader_step.
Proof. solve_decision. Defined.

(** [m_log] are the calls so far; the answer of readNetConfig is kept with it,
    as the calls behind it depend on it. *)
Inductive event := Ev (c : call) | Ev_netConfig (rc : Z).
Record locals := mkLocals {
  m_step : loader_step; m_dir : Z; m_rc : Z; m_needsNetwork : bool; m_class : Z;
  m_skipMethodDialog : bool; m_skipLangKbd : bool; m_url : option bytes; m_dev : option bytes; m_iface : iface_t }.
Definition to_step (s : loader_step) (dir : Z) (l : locals) : locals :=
  mkLocals s dir (m_rc l) (m_needsNetwork l) (m_class l) (m_skipMethodDialog l) (m_skipLangKbd l) (m_url l) (m_dev l) (m_iface l).
Definition set_rc (rc : Z) (l : locals) : locals :=
  mkLocals (m_step l) (m_dir l) rc (m_needsNetwork l) (m_class l) (m_skipMethodDialog l) (m_skipLangKbd l) (m_url l) (m_dev l) (m_iface l).
Definition set_needs (b : bool) (l : locals) : locals :=
  mkLocals (m_step l) (m_dir l) (m_rc l) b (m_class l) (m_skipMethodDialog l) (m_skipLangKbd l) (m_url l) (m_dev l) (m_iface l).
Definition set_class (c : Z) (l : locals) : locals :=
  mkLocals (m_step l) (m_dir l) (m_rc l) (m_needsNetwork l) c (m_skipMethodDialog l) (m_skipLangKbd l) (m_url l) (m_dev l) (m_iface l).
Definition set_skip_method (b : bool) (l : locals) : locals :=
  mkLocals (m_step l) (m_dir l) (m_rc l) (m_needsNetwork l) (m_class l) b (m_skipLangKbd l) (m_url l) (m_dev l) (m_iface l).
Definition set_skip_lang (b : bool) (l : locals) : locals :=
  mkLocals (m_step l) (m_dir l) (m_rc l) (m_needsNetwork l) (m_class l) (m_skipMethodDialog l) b (m_url l) (m_dev l) (m_iface l).
Definition set_url (u : option bytes) (l : locals) : locals :=
  mkLocals (m_step l) (m_dir l) (m_rc l) (m_needsNetwork l) (m_class l) (m_skipMethodDialog l) (m_skipLangKbd l) u (m_dev l) (m_iface l).
Definition set_iface (d : option bytes) (i : iface_t) (l : locals) : locals :=
  mkLocals (m_step l) (m_dir l) (m_rc l) (m_needsNetwork l) (m_class l) (m_skipMethodDialog l) (m_skipLangKbd l) (m_url l) d i.

(** The loader goes on, returns its URL, or exits. *)
Inductive main_end := Running (l : locals) | Returned (url : option bytes) | Exited.

Section steps.
Context {S E : Type} `{LoaderEnv S E}.

Record world := mkWorld { w_cmd : cmd_state S; w_env : E; w_log : list event }.
Abbreviation ld w := (c_ld (w_cmd w)).
Abbreviation flag w bit := (FL (c_flags (w_cmd w)) bit).
Abbreviation method w := (ld_i (ld w) L_method).
Abbreviation result := (outcome (main_end * world)).

Definition do_call (c : call) (w : world) : answer c * world :=
  let '(a, st, e) := env_call c (w_cmd w) (w_env w) in (a, mkWorld st e (w_log w ++ [Ev c])).
Definition log_netConfig (rc : Z) (w : world) : world := mkWorld (w_cmd w) (w_env w) (w_log w ++ [Ev_netConfig rc]).
Definition on_cmd (f : cmd_state S → cmd_state S) (w : world) : world := mkWorld (f (w_cmd w)) (w_env w) (w_log w).
Definition on_data (f : loaderData_s → loaderData_s) : world → world := on_cmd (with_ld f).
Definition next (s : loader_step) (dir : Z) (l : locals) (w : world) : result := Ret (Running (to_step s dir l), w).

(** extraArgs is terminated by a null unless it is full. *)
Definition hasGraphicalOverride (st : cmd_state S) : outcome bool :=
  match c_display st with
  | Some _ => Ret true
  | None =>
      if existsb (fits (Starts "--vnc")) (c_extra st) then Ret true
      else _ ← defined_if (length (c_extra st) <? MAX_EXTRA_ARGS)%nat; Ret false
  end.

Definition step_lang (l : locals) (w : world) : result :=
  let '(_, w) :=
    match ld_s (ld w) L_lang, ld_i (ld w) L_lang_set =? 1 with
    | Some lang, true => do_call (Call_setLanguage lang) w
    | _, _ => if flag w LOADER_FLAGS_RESCUE || negb (m_skipLangKbd l) then do_call Call_chooseLanguage w else (tt, w)
    end in
  next STEP_KBD 1 l w.

(** The end of [STEP_KBD], on what [rc] holds. *)
Definition kbd_rc (l : locals) (w : world) : result :=
  if m_rc l =? LOADER_NOOP then next (if m_dir l =? -1 then STEP_LANG else STEP_METHOD) (m_dir l) l w
  else if m_rc l =? LOADER_BACK then next STEP_LANG (-1) l w
  else next STEP_METHOD 1 l w.

Definition step_kbd (l : locals) (w : world) : result :=
  match ld_s (ld w) L_kbd, ld_i (ld w) L_kbd_set =? 1 with
  | Some kbd, true =>
      let '(failed, w) := do_call (Call_loadKeymap kbd) w in
      if negb (failed =? 0) then Ret (Running l, on_data (set_ldi L_kbd_set 0 ∘ set_lds L_kbd None) w)
      else kbd_rc (set_rc LOADER_NOOP l) w
  | _, _ =>
      if flag w LOADER_FLAGS_RESCUE || negb (m_skipLangKbd l) then
        if negb (flag w LOADER_FLAGS_CMDLINE) then
          let '(rc, w) := do_call Call_chooseKeyboard w in kbd_rc (set_rc rc l) w
        else kbd_rc (set_rc LOADER_NOOP l) w
      else kbd_rc (to_step STEP_METHOD 1 l) w
  end.

Definition step_method (l : locals) (w : world) : result :=
  let given := negb (method w =? -1) || bool_decide (is_Some (c_stage2 (w_cmd w))) in
  if negb given && flag w LOADER_FLAGS_CMDLINE then Ret (Exited, w)
  else
    let l := if given then set_skip_method true l else l in
    let '(rc, w) := if m_skipMethodDialog l then (if m_dir l =? 1 then 1 else -1, w) else do_call Call_menu w in
    let l := set_rc rc l in
    if negb (rc =? 0) && negb (rc =? 1) then next STEP_KBD (-1) l w
    else m ← method_at (method w); next STEP_DRIVER 1 (set_class (im_type m) l) w.

(** [FL_EARLY_NETWORKING(flags) && haveDeviceOfType(DEVICE_NETWORK) || class ==
    -1 || haveDeviceOfType(class)] *)
Definition driver_found (l : locals) (w : world) : bool * world :=
  let '(early, w) := if flag w LOADER_FLAGS_EARLY_NETWORKING then do_call (Call_haveDevice DEVICE_NETWORK) w else (false, w) in
  if early then (true, w)
  else if m_class l =? -1 then (true, w)
  else do_call (Call_haveDevice (m_class l)) w.

Definition step_driver (l : locals) (w : world) : result :=
  let '(found, w) := driver_found l w in
  if found : bool then next STEP_NETWORK 1 (set_class (-1) l) w
  else if m_skipLangKbd l then next STEP_KBD (m_dir l) (set_skip_lang false l) w
  else
    let '(rc, w) := do_call Call_noDriver w in
    let l := set_rc rc l in
    if rc =? 2 then next STEP_DRIVERDISK 1 l w
    else if rc =? 3 then next STEP_METHOD (-1) l w
    else
      m ← method_at (method w);
      let '(_, w) := do_call (Call_chooseManualDriver (im_type m)) w in
      next STEP_DRIVER (m_dir l) l w.

Definition step_driverdisk (l : locals) (w : world) : result :=
  if m_skipLangKbd l then next STEP_KBD (m_dir l) (set_skip_lang false l) w
  else
    let '(rc, w) := do_call (Call_loadDriverFromMedia (m_class l)) w in
    let l := set_rc rc l in
    next STEP_DRIVER (if rc =? LOADER_BACK then -1 else m_dir l) l w.

(** [rc] is LOADER_BACK or LOADER_ERROR, or LOADER_NOOP on the way back. *)
Definition goes_back (rc dir : Z) : bool :=
  (rc =? LOADER_BACK) || (rc =? LOADER_ERROR) || ((dir =? -1) && (rc =? LOADER_NOOP)).

Definition step_iface (l : locals) (w : world) : result :=
  let w := if bool_decide (is_Some (ld_s (ld w) L_ksFile))
           then on_cmd (with_flags (λ f, flag_or f LOADER_FLAGS_IS_KICKSTART)) w else w in
  let w := if flag w LOADER_FLAGS_HAVE_CMSCONF then on_data (set_ldi L_ipinfo_set 1) w else w in
  let '(rc, w) := do_call Call_chooseNetworkInterface w in
  let l := set_rc rc l in
  if goes_back rc (m_dir l) then next STEP_METHOD (-1) l w
  else
    dev ← checked (ld_s (ld w) L_netDev);
    _ ← defined_if (length dev <? 16)%nat;
    let i := m_iface l in
    next STEP_IP 1 (set_iface (Some dev) (set_device dev i) l) w.

(** memset clears the interface before the case falls through. *)
Definition step_network (l : locals) (w : world) : result :=
  m ← method_at (method w);
  override ← (if im_type m =? DEVICE_NETWORK then Ret true else hasGraphicalOverride (w_cmd w));
  if negb override && negb (flag w LOADER_FLAGS_ASKNETWORK) && negb (flag w LOADER_FLAGS_EARLY_NETWORKING) then
    let l := set_needs false l in
    next (if m_dir l =? 1 then STEP_STAGE2 else if m_dir l =? -1 then STEP_METHOD else m_step l) (m_dir l) l w
  else
    let l := set_needs true l in
    let '(have, w) := do_call (Call_haveDevice DEVICE_NETWORK) w in
    if negb have then next STEP_DRIVER (m_dir l) (set_class DEVICE_NETWORK l) w
    else step_iface (set_iface (m_dev l) iface_init_iface_t l) w.

Definition step_ip (fuel : nat) (l : locals) (w : world) : result :=
  if negb (m_needsNetwork l) || (m_dir l =? -1) then next STEP_METHOD (m_dir l) l w
  else
    let w := if flag w LOADER_FLAGS_HAVE_CMSCONF then on_data (set_ldi L_ipinfo_set 1) w else w in
    '(i, d, calls) ← setupIfaceStruct env_pton6 fuel (m_iface l) (ld w);
    let w := on_data (λ _, d) w in
    let '(_, w) := do_call (Call_ethtool calls) w in
    let '((rc, i), w) := do_call (Call_readNetConfig (m_dev l) i (ld_s (ld w) L_netCls) (method w)) w in
    let w := log_netConfig rc w in
    let l := set_rc rc (set_iface (m_dev l) i l) in
    let '(_, w) := match ld_s (ld w) L_hostname with
                   | Some h => do_call (Call_sethostname h) w
                   | None => (tt, w)
                   end in
    if goes_back rc (m_dir l) then next STEP_IFACE (-1) (set_needs true l) w
    else
      '(_, acts) ← writeEnabledNetInfo (env_action (w_env w)) (env_mac (w_env w)) (c_flags (w_cmd w)) i;
      let '(_, w) := do_call (Call_netinfo acts) w in
      next STEP_STAGE2 1 l w.

(** [repo=] is corrected by the URL the image was found at. *)
Definition correct_repo (url : bytes) (w : world) : world :=
  if ld_i (ld w) L_invalidRepoParam =? 0 then w
  else match strstr url (str "/images") with
       | None => w
       | Some t => on_data (set_lds L_instRepo (Some (before url t))) w
       end.

Definition step_stage2 (l : locals) (w : world) : result :=
  match m_url l with
  | Some url => Ret (Returned (Some url), w)
  | None =>
      m ← method_at (method w);
      let '(url, w) := do_call (Call_mountImage (im_mountImage m)) w in
      match url with
      | None =>
          next STEP_IP (-1) (set_skip_method false l) (on_data (set_ldi L_method (-1) ∘ set_ldi L_ipinfo_set 0) w)
      | Some url => next STEP_DONE 1 (set_url (Some url) l) (correct_repo url w)
      end
  end.

Definition main_step (fuel : nat) (l : locals) (w : world) : result :=
  match m_step l with
  | STEP_LANG => step_lang l w
  | STEP_KBD => step_kbd l w
  | STEP_METHOD => step_method l w
  | STEP_DRIVER => step_driver l w
  | STEP_DRIVERDISK => step_driverdisk l w
  | STEP_NETWORK => step_network l w
  | STEP_IFACE => step_iface l w
  | STEP_IP => step_ip fuel l w
  | STEP_STAGE2 => step_stage2 l w
  | STEP_DONE => Ret (Returned (m_url l), w)
  end.

(** [while (step != STEP_DONE)] *)
Fixpoint main_loop (fuel : nat) (l : locals) (w : world) : outcome (main_end * world) :=
  match fuel with
  | O => NoFuel
  | Datatypes.S fuel =>
      '(r, w) ← main_step fuel l w;
      match r with Running l => main_loop fuel l w | _ => Ret (r, w) end
  end.

Definition start (rc : Z) : locals := mkLocals STEP_LANG 1 rc false (-1) false false None None iface_init_iface_t.

(** What comes before the loop: a CD with the image, or a guess from [repo=]. *)
Definition find_media (rc : Z) (w : world) : outcome (locals * world) :=
  if negb (flag w LOADER_FLAGS_ASKMETHOD) && bool_decide (c_stage2 (w_cmd w) = None) then
    let '(url, w) := do_call Call_findAnacondaCD w in
    match url with
    | Some url =>
        st ← setStage2LocFromCmdline url (w_cmd w);
        Ret (set_skip_lang true (set_skip_method true (set_url (Some url) (start rc))),
             on_cmd (λ _, with_flags (λ f, flag_or f LOADER_FLAGS_NOPASS) st) w)
    | None =>
        match ld_s (ld w) L_instRepo with
        | Some repo =>
            st ← setStage2LocFromCmdline (repo ++ str "/images/install.img") (w_cmd w);
            Ret (start rc, on_cmd (λ _, with_ld (set_ldi L_inferredStage2 1) st) w)
        | None => Ret (start rc, w)
        end
    end
  else Ret (start rc, w).

(** [rc] is what the variable holds before it is set. *)
Definition doLoaderMain (fuel : nat) (rc : Z) (w : world) : outcome (main_end * world) :=
  '(l, w) ← find_media rc w; main_loop fuel l w.
End steps.
Arguments world : clear implicits.
