(* ===== verification/StepsFacts.v ===== *)
(** * Properties of the steps of the loader

    The state the loop keeps, what its calls are preceded by, an installation
    that asks nothing, and the ways in which the loop goes wrong. *)

From S2P Require Import Prelude CLib Loader Net NetFacts Kickstart CmdLine Steps.

Section steps.
Context {S E : Type} `{LoaderEnv S E}.
Notation ld w := (c_ld (w_cmd w)).
Notation method w := (ld_i (c_ld (w_cmd w)) L_method).
Notation stage2 w := (c_stage2 (w_cmd w)).

(** ** Reachable states *)

(** The states of the loop, from the state the command line has left. *)
Inductive reachable (rc : Z) (st : cmd_state S) (e : E) : locals → world S E → Prop :=
  | reach_start l w : find_media rc (mkWorld st e []) = Ret (l, w) → reachable rc st e l w
  | reach_step fuel l w l' w' : reachable rc st e l w → main_step fuel l w = Ret (Running l', w') → reachable rc st e l' w'.

(** What a call leaves of the method and the data that was given for it. *)
Definition call_keeps (c : call) : Prop :=
  ∀ st e, let '(_, st', _) := env_call c st e in
    ld_i (c_ld st') L_method = ld_i (c_ld st) L_method ∧ c_stage2 st' = c_stage2 st.
(** Only the menu and the methods themselves change the method: the menu to an
    entry of the table, a method to none. *)
Record methods_kept : Prop := {
  mk_others : ∀ c, c ≠ Call_menu → (∀ m, c ≠ Call_mountImage m) → call_keeps c;
  mk_menu : ∀ st e, let '(_, st', _) := env_call Call_menu st e in 0 ≤ ld_i (c_ld st') L_method < 4;
  mk_mount : ∀ m st e, let '(_, st', _) := env_call (Call_mountImage m) st e in
    ld_i (c_ld st') L_method = ld_i (c_ld st) L_method ∨ ld_i (c_ld st') L_method = -1 }.

(** The steps behind the choice of a method. *)
Definition behind_method (l : locals) : bool :=
  match m_step l with
  | STEP_LANG | STEP_KBD | STEP_METHOD | STEP_DONE => false
  | STEP_IP => m_dir l =? 1
  | _ => true
  end.
Record typed (l : locals) (w : world S E) : Prop := {
  ty_dir : m_dir l = 1 ∨ m_dir l = -1;
  ty_class : m_class l ∈ [-1; DEVICE_NETWORK; DEVICE_DISK; DEVICE_CDROM];
  ty_method : -1 ≤ method w < 4;
  ty_chosen : behind_method l = true → 0 ≤ method w;
  ty_url : m_step l = STEP_DONE → is_Some (m_url l) }.

Lemma method_at_inv i m : method_at i = Ret m → 0 ≤ i < 4 ∧ installMethods !! Z.to_nat i = Some m.
Proof.
  unfold method_at. destruct (Z.leb_spec 0 i); [| done]. cbn [defined_if mbind outcome_bind].
  destruct (installMethods !! Z.to_nat i) eqn:Em; [| done]. cbn [checked]. intros [= ->]. split; [| done].
  apply lookup_lt_Some in Em. cbn in Em. lia.
Qed.
Lemma method_type i m : method_at i = Ret m → im_type m ∈ [-1; DEVICE_NETWORK; DEVICE_DISK; DEVICE_CDROM].
Proof.
  intros Hm. apply method_at_inv in Hm as [_ Em]. apply list_elem_of_lookup_2 in Em.
  unfold installMethods in Em. rewrite !elem_of_cons, elem_of_nil in Em.
  destruct_or! Em; subst; cbn; rewrite !elem_of_cons; tauto.
Qed.

(** ** Steps that leave the method alone *)

Definition is_mount (ev : event) : Prop := match ev with Ev (Call_mountImage _) => True | _ => False end.
(** The method and its data are as they were, and no image was mounted. *)
Definition same (w w' : world S E) : Prop :=
  method w' = method w ∧ stage2 w' = stage2 w ∧
  ∃ evs, w_log w' = w_log w ++ evs ∧ Forall (λ ev, ¬ is_mount ev) evs.

Lemma same_refl w : same w w.
Proof. split_and!; [done | done |]. exists []. by rewrite app_nil_r. Qed.
Lemma same_trans w w1 w2 : same w w1 → same w1 w2 → same w w2.
Proof.
  intros (E1 & F1 & l1 & L1 & N1) (E2 & F2 & l2 & L2 & N2). split_and!; [congruence | congruence |].
  exists (l1 ++ l2). rewrite L2, L1, app_assoc. split; [done |]. by apply Forall_app.
Qed.

Context (Hkept : methods_kept).

Lemma do_call_same c w : c ≠ Call_menu → (∀ m, c ≠ Call_mountImage m) → same w (do_call c w).2.
Proof.
  intros Hc Hm. pose proof (mk_others Hkept c Hc Hm (w_cmd w) (w_env w)) as Hk. unfold do_call.
  destruct (env_call c (w_cmd w) (w_env w)) as [[a st] e]. destruct Hk as [Hk1 Hk2].
  split_and!; [done | done |]. exists [Ev c]. split; [done |]. constructor; [| constructor]. by destruct c; try naive_solver.
Qed.
Lemma on_cmd_same f w : ld_i (c_ld (f (w_cmd w))) L_method = method w → c_stage2 (f (w_cmd w)) = stage2 w → same w (on_cmd f w).
Proof. intros. split_and!; [done | done |]. exists []. by rewrite app_nil_r. Qed.
End steps.

(** ** One step *)

Section moves.
Context {S E : Type} `{LoaderEnv S E}.
Notation ld w := (c_ld (w_cmd w)).
Notation method w := (ld_i (c_ld (w_cmd w)) L_method).
Notation stage2 w := (c_stage2 (w_cmd w)).
Context (Hkept : methods_kept).

Lemma do_call_log c (w : world S E) a w' : do_call c w = (a, w') → w_log w' = w_log w ++ [Ev c].
Proof. unfold do_call. destruct (env_call c (w_cmd w) (w_env w)) as [[a0 st] e]. by intros [= <- <-]. Qed.

(** The calls before a network method is mounted: the configuration of the
    interface was read without error and has been written. *)
Definition configured (log : list event) : Prop :=
  ∃ pre dev i cls meth rc hs acts,
    log = pre ++ Ev (Call_readNetConfig dev i cls meth) :: Ev_netConfig rc :: hs ++ [Ev (Call_netinfo acts)] ∧
    rc ≠ LOADER_BACK ∧ rc ≠ LOADER_ERROR ∧ (hs = [] ∨ ∃ h, hs = [Ev (Call_sethostname h)]).
Definition local_method (w : world S E) : Prop :=
  ∃ m, method_at (method w) = Ret m ∧ im_type m ≠ DEVICE_NETWORK.

Definition dir_ok (d : Z) : Prop := d = 1 ∨ d = -1.
Definition class_ok (c : Z) : Prop := c ∈ [-1; DEVICE_NETWORK; DEVICE_DISK; DEVICE_CDROM].

(** What a step other than the choice of a method and its mount does to the
    variables. *)
Record move (l l' : locals) (w' : world S E) : Prop := {
  mv_dir : dir_ok (m_dir l) → dir_ok (m_dir l');
  mv_class : class_ok (m_class l) → class_ok (m_class l');
  mv_url : m_url l' = m_url l;
  mv_behind : behind_method l' = true → behind_method l = true;
  mv_done : m_step l' ≠ STEP_DONE;
  mv_stage2 : m_step l' = STEP_STAGE2 → local_method w' ∨ configured (w_log w') }.
Definition moves (l : locals) (w : world S E) (r : outcome (main_end * world S E)) : Prop :=
  ∀ e w', r = Ret (e, w') → same w w' ∧ ∃ l', e = Running l' ∧ move l l' w'.

Lemma next_moves l0 s d l w w1 : same w w1 → move l0 (to_step s d l) w1 → moves l0 w (next s d l w1).
Proof. intros Hs Hm e w' [= <- <-]. split; [done |]. by eexists. Qed.

Lemma class_none : class_ok (-1).
Proof. unfold class_ok. rewrite elem_of_cons. by left. Qed.
Lemma class_network : class_ok DEVICE_NETWORK.
Proof. unfold class_ok. rewrite !elem_of_cons. by right; left. Qed.

Ltac same_call c w :=
  let Hs := fresh "Hs" in
  pose proof (do_call_same Hkept c w ltac:(discriminate) ltac:(discriminate)) as Hs;
  destruct (do_call c w) as [? ?]; cbn [snd] in Hs.
Ltac calls :=
  repeat match goal with
  | |- context [do_call ?c ?w] => same_call c w
  end.
Ltac sames := repeat (first [eassumption | apply same_refl | eapply same_trans; [eassumption |]]).
Ltac next_move :=
  apply next_moves; [sames | constructor; cbn [to_step set_rc set_needs set_class set_skip_lang set_iface
    m_dir m_class m_url m_step behind_method]; unfold dir_ok; try tauto; try done; auto using class_none, class_network].

Lemma step_lang_moves l w : m_step l = STEP_LANG → moves l w (step_lang l w).
Proof.
  intros Hl. unfold step_lang. destruct (ld_s (ld w) L_lang); [destruct (_ =? 1) |].
  all: try (destruct (_ || _)); calls; try next_move.
Qed.

Lemma kbd_rc_moves l0 l w w1 : same w w1 → m_class l = m_class l0 → m_url l = m_url l0 →
  (dir_ok (m_dir l0) → dir_ok (m_dir l)) → moves l0 w (kbd_rc l w1).
Proof.
  intros Hs Hc Hu Hd. unfold kbd_rc.
  destruct (m_rc l =? LOADER_NOOP); [destruct (m_dir l =? -1) |
    destruct (m_rc l =? LOADER_BACK)]; apply next_moves; try done; constructor;
    cbn [to_step m_dir m_class m_url m_step behind_method]; rewrite ?Hc, ?Hu; unfold dir_ok in *; auto; done.
Qed.

Lemma step_kbd_moves l w : m_step l = STEP_KBD → moves l w (step_kbd l w).
Proof.
  intros Hl. unfold step_kbd.
  assert (moves l w (if FL (c_flags (w_cmd w)) LOADER_FLAGS_RESCUE || negb (m_skipLangKbd l) then
        if negb (FL (c_flags (w_cmd w)) LOADER_FLAGS_CMDLINE) then
          let '(rc, w) := do_call Call_chooseKeyboard w in kbd_rc (set_rc rc l) w
        else kbd_rc (set_rc LOADER_NOOP l) w
      else kbd_rc (to_step STEP_METHOD 1 l) w)) as Hask.
  { destruct (_ || _); [destruct (negb _) |]; calls; apply kbd_rc_moves; try done; [apply same_refl | apply same_refl |].
    by left. }
  destruct (ld_s (ld w) L_kbd) as [kbd |]; [| exact Hask]. destruct (_ =? 1); [| exact Hask].
  clear Hask. calls. destruct (negb (a =? 0)).
  - intros e w' [= <- <-]. split; [eapply same_trans; [eassumption |]; by apply on_cmd_same |].
    eexists. split; [done |]. constructor; try done; rewrite Hl; done.
  - by apply kbd_rc_moves.
Qed.

Lemma driver_found_same l w : same w (driver_found l w).2.
Proof.
  unfold driver_found. destruct (FL _ _).
  - calls. destruct a; [done |]. destruct (_ =? -1); [done |]. cbn [snd]. calls. cbn [snd]. sames.
  - destruct (_ =? -1); [apply same_refl |]. calls. cbn [snd]. sames.
Qed.

Lemma step_driver_moves l w : m_step l = STEP_DRIVER → moves l w (step_driver l w).
Proof.
  intros Hl. unfold step_driver. pose proof (driver_found_same l w) as Hf. destruct (driver_found l w) as [found w1]. cbn [snd] in Hf.
  assert (behind_method l = true) as Hb by (unfold behind_method; by rewrite Hl).
  destruct found; [next_move |]. destruct (m_skipLangKbd l); [next_move |]. calls.
  destruct (_ =? 2); [next_move |]. destruct (_ =? 3); [next_move |].
  destruct (method_at _) as [m | |] eqn:Hm; [| done | done]. cbn [mbind outcome_bind]. calls. next_move.
Qed.

Lemma step_driverdisk_moves l w : m_step l = STEP_DRIVERDISK → moves l w (step_driverdisk l w).
Proof.
  intros Hl. unfold step_driverdisk. assert (behind_method l = true) as Hb by (unfold behind_method; by rewrite Hl).
  destruct (m_skipLangKbd l); [next_move |]. calls. destruct (_ =? LOADER_BACK); next_move.
Qed.

Lemma step_iface_moves l0 l w0 w : same w0 w → class_ok (m_class l) → m_url l = m_url l0 →
  behind_method l0 = true → moves l0 w0 (step_iface l w).
Proof.
  intros Hs Hc Hu Hb. unfold step_iface.
  set (w1 := if bool_decide _ then _ else _). assert (same w0 w1) as H1.
  { unfold w1. destruct (bool_decide _); [| done]. eapply same_trans; [exact Hs |]. by apply on_cmd_same. }
  clearbody w1. set (w2 := if FL _ _ then _ else _). assert (same w0 w2) as H2.
  { unfold w2. destruct (FL _ _); [| done]. eapply same_trans; [exact H1 |]. by apply on_cmd_same. }
  clearbody w2. calls. destruct (goes_back _ _).
  - apply next_moves; [by eapply same_trans |]. constructor; cbn; unfold dir_ok; auto; done.
  - destruct (ld_s _ L_netDev) as [dev |]; [| done]. cbn [checked mbind outcome_bind].
    destruct (_ <? 16)%nat; [| done]. cbn [defined_if mbind outcome_bind].
    apply next_moves; [by eapply same_trans |]. constructor; cbn; unfold dir_ok; auto; done.
Qed.

Lemma step_network_moves l w : m_step l = STEP_NETWORK → class_ok (m_class l) → m_dir l = 1 ∨ m_dir l = -1 →
  moves l w (step_network l w).
Proof.
  intros Hl Hc Hd. unfold step_network. assert (behind_method l = true) as Hb by (unfold behind_method; by rewrite Hl).
  destruct (method_at _) as [m | |] eqn:Hm; [| done | done]. cbn [mbind outcome_bind].
  destruct (if im_type m =? DEVICE_NETWORK then Ret true else hasGraphicalOverride (w_cmd w)) as [o | |] eqn:Ho; [| done | done].
  cbn [mbind outcome_bind]. destruct (_ && _) eqn:Hlocal.
  - assert (local_method w) as Hloc.
    { exists m. split; [done |]. destruct (Z.eqb_spec (im_type m) DEVICE_NETWORK); [| done]. by injection Ho as <-. }
    cbn [set_needs m_dir]. destruct Hd as [Hd | Hd]; rewrite Hd; cbn [Z.eqb];
      (apply next_moves; [apply same_refl |]; constructor; cbn; unfold dir_ok; auto; done).
  - calls. destruct (negb a).
    + apply next_moves; [sames |]. constructor; cbn; unfold dir_ok; auto using class_network; done.
    + by apply step_iface_moves.
Qed.

Lemma setup_method pton6 fuel i l i' l' cs : setupIfaceStruct pton6 fuel i l = Ret (i', l', cs) →
  ld_i l' L_method = ld_i l L_method.
Proof.
  unfold setupIfaceStruct. intros Hs.
  apply outcome_bind_inv in Hs as (c1 & _ & Hs).
  destruct (setup_ipv4 _ l) as [i1 l1] eqn:E1.
  apply outcome_bind_inv in Hs as (i2 & _ & Hs). apply outcome_bind_inv in Hs as (c2 & _ & Hs).
  injection Hs as _ <- _. unfold setup_ipv4 in E1.
  destruct (ld_s l L_ipv4); [| by injection E1 as _ <-].
  destruct (negb _); [| by injection E1 as _ <-]. destruct (starts_with _ _); [by injection E1 as _ <- |].
  destruct (inet_pton4 _); injection E1 as _ <-; done.
Qed.

Lemma step_ip_moves fuel l w : m_step l = STEP_IP → dir_ok (m_dir l) → moves l w (step_ip fuel l w).
Proof.
  intros Hl Hdir. unfold step_ip. destruct (negb (m_needsNetwork l) || (m_dir l =? -1)) eqn:Hd; [next_move |].
  apply orb_false_elim in Hd as [_ Hd]. assert (m_dir l = 1) as Hd1 by (unfold dir_ok in Hdir; lia).
  assert (behind_method l = true) as Hb by (unfold behind_method; by rewrite Hl, Hd1).
  set (w1 := if FL _ _ then _ else _). assert (same w w1) as H1.
  { unfold w1. destruct (FL _ _); [by apply on_cmd_same | apply same_refl]. }
  clearbody w1. destruct (setupIfaceStruct _ _ _ _) as [[[i d] cs] | |] eqn:Hset; [| done | done]. cbn [mbind outcome_bind].
  assert (same w (on_data (λ _, d) w1)) as H2.
  { eapply same_trans; [exact H1 |]. apply on_cmd_same; [| done]. cbn. by apply setup_method in Hset. }
  set (w2 := on_data (λ _, d) w1) in *. clearbody w2. clear Hset H1.
  same_call (Call_ethtool cs) w2. rename w0 into v1.
  set (c := Call_readNetConfig _ _ _ _). assert (Ev c = Ev c) as _ by done.
  pose proof (do_call_log c v1) as Hlog. pose proof (do_call_same Hkept c v1 ltac:(discriminate) ltac:(discriminate)) as Hs1.
  destruct (do_call c v1) as [[rc i'] v2] eqn:Ec. specialize (Hlog _ _ eq_refl). cbn [snd] in Hs1.
  set (v3 := log_netConfig rc v2).
  assert (same w v3) as H3.
  { eapply same_trans; [exact H2 |]. eapply same_trans; [exact Hs |]. eapply same_trans; [exact Hs1 |].
    split_and!; [done | done |]. exists [Ev_netConfig rc]. split; [done |]. apply list.Forall_singleton. intros []. }
  assert (w_log v3 = w_log v1 ++ [Ev c; Ev_netConfig rc]) as L3 by (cbn; by rewrite Hlog, <- app_assoc).
  clearbody v3.
  assert (∃ hs, let v4 := snd (match ld_s (ld v3) L_hostname with
     | Some h => do_call (Call_sethostname h) v3 | None => (tt, v3) end) in
     same w v4 ∧ w_log v4 = w_log v3 ++ hs ∧ (hs = [] ∨ ∃ h, hs = [Ev (Call_sethostname h)])) as (hs & Hs4).
  { destruct (ld_s (ld v3) L_hostname) as [h |].
    - exists [Ev (Call_sethostname h)].
      pose proof (do_call_same Hkept (Call_sethostname h) v3 ltac:(discriminate) ltac:(discriminate)) as Hs4.
      pose proof (do_call_log (Call_sethostname h) v3) as Hlog4.
      destruct (do_call (Call_sethostname h) v3) as [u v4]. specialize (Hlog4 _ _ eq_refl). cbn [snd] in *.
      split_and!; [by eapply same_trans | done | right; by eexists].
    - exists []. cbn [snd]. rewrite app_nil_r. split_and!; auto. }
  destruct (match ld_s (ld v3) L_hostname with Some h => _ | None => _ end) as [u v4]. cbn [snd] in Hs4.
  destruct Hs4 as (H4 & L4 & Hhs). destruct (goes_back rc (m_dir _)) eqn:Hback.
  { next_move. }
  destruct (writeEnabledNetInfo _ _ _ _) as [[r acts] | |]; [| done | done]. cbn [mbind outcome_bind].
  pose proof (do_call_same Hkept (Call_netinfo acts) v4 ltac:(discriminate) ltac:(discriminate)) as Hs5.
  pose proof (do_call_log (Call_netinfo acts) v4) as Hlog5.
  destruct (do_call (Call_netinfo acts) v4) as [u5 v5]. specialize (Hlog5 _ _ eq_refl). cbn [snd] in Hs5.
  apply next_moves; [by eapply same_trans |]. constructor; cbn; unfold dir_ok; auto; try done.
  intros _. right. rewrite Hlog5, L4, L3. unfold c.
  exists (w_log v1), (m_dev l), i, (ld_s (ld v1) L_netCls), (method v1), rc, hs, acts.
  split_and!; [by rewrite <- !app_assoc | | | done].
  - intros ->. discriminate.
  - intros ->. discriminate.
Qed.

(** ** The choice of a method and its mount *)

(** The methods in the log are all mounted behind a configured network. *)
Definition mounts_ok (log : list event) : Prop :=
  ∀ pre m post, log = pre ++ Ev (Call_mountImage m) :: post → m = mountNfsImage ∨ m = mountUrlImage → configured pre.
Record good (l : locals) (w : world S E) : Prop := {
  gd_dir : dir_ok (m_dir l);
  gd_class : class_ok (m_class l);
  gd_method : -1 ≤ method w < 4;
  gd_chosen : behind_method l = true → 0 ≤ method w;
  gd_url : m_step l = STEP_DONE → is_Some (m_url l);
  gd_stage2 : m_step l = STEP_STAGE2 → local_method w ∨ configured (w_log w);
  gd_mounts : mounts_ok (w_log w) }.

Lemma mounts_ok_app log evs : mounts_ok log → Forall (λ ev, ¬ is_mount ev) evs → mounts_ok (log ++ evs).
Proof.
  intros Hok Hevs pre m post Heq Hm.
  apply app_eq_inv in Heq as [(k & Hk & Hp) | (k & Hk & Hp)].
  - destruct k as [| ev k]; [| by injection Hp as <- ->; eapply Hok].
    exfalso. cbn in Hp. rewrite <- Hp in Hevs. inversion Hevs as [| ? ? Hev]. by apply Hev.
  - exfalso. subst evs. apply Forall_app in Hevs as [_ Hevs]. inversion Hevs as [| ? ? Hev]. by apply Hev.
Qed.

Lemma good_moves l w r l' w' : good l w → moves l w r → r = Ret (Running l', w') → good l' w'.
Proof.
  intros [Hd Hc Hm Hch Hu Hs2 Hmo] Hmv Hr. destruct (Hmv _ _ Hr) as [(E1 & E2 & evs & E3 & E4) (l1 & [= <-] & [Md Mc Mu Mb Mdone Ms2])].
  constructor; auto; try done.
  - by rewrite E1.
  - intros Hb. rewrite E1. auto.
  - rewrite E3. by apply mounts_ok_app.
Qed.

Lemma step_method_good l w l' w' : good l w → step_method l w = Ret (Running l', w') → good l' w'.
Proof.
  intros [Hd Hc Hm Hch Hu Hs2 Hmo]. unfold step_method.
  set (given := _ || _). destruct (negb given && _); [done |].
  set (l1 := if given then _ else l). 
  assert (m_class l1 = m_class l ∧ m_url l1 = m_url l) as [Ec Eu] by (by unfold l1; destruct given).
  clearbody l1 given.
  destruct (if m_skipMethodDialog l1 then _ else _) as [rc w1] eqn:Hask.
  assert (-1 ≤ method w1 < 4 ∧ mounts_ok (w_log w1)) as [Hm1 Hmo1].
  { destruct (m_skipMethodDialog l1); [by injection Hask as _ <- |].
    pose proof (mk_menu Hkept (w_cmd w) (w_env w)) as Hmenu. unfold do_call in Hask.
    destruct (env_call Call_menu (w_cmd w) (w_env w)) as [[a st] e]. injection Hask as _ <-. cbn [w_cmd w_log].
    split; [lia |]. apply mounts_ok_app; [done |]. apply list.Forall_singleton. intros []. }
  destruct (negb (rc =? 0) && negb (rc =? 1)).
  - intros [= <- <-]. constructor; cbn; unfold dir_ok; rewrite ?Ec; auto; done.
  - destruct (method_at (method w1)) as [m | |] eqn:Em; [| done | done]. cbn [mbind outcome_bind].
    intros [= <- <-]. pose proof (method_at_inv _ _ Em) as [? _].
    constructor; cbn; unfold dir_ok; auto; try done; [by eapply method_type | lia].
Qed.

Lemma mounts_ok_mount log m : mounts_ok log → (m = mountNfsImage ∨ m = mountUrlImage → configured log) →
  mounts_ok (log ++ [Ev (Call_mountImage m)]).
Proof.
  intros Hok Hm pre m' post Heq Hm'.
  destruct post as [| ev post _] using rev_ind.
  - apply app_inj_tail in Heq as [-> [= ->]]. by apply Hm.
  - rewrite app_comm_cons, app_assoc in Heq. apply app_inj_tail in Heq as [-> _]. by eapply Hok.
Qed.

Lemma step_stage2_good l w l' w' : good l w → m_step l = STEP_STAGE2 → step_stage2 l w = Ret (Running l', w') → good l' w'.
Proof.
  intros [Hd Hc Hm Hch Hu Hs2 Hmo] Hl. unfold step_stage2. destruct (m_url l) as [u |]; [done |].
  destruct (method_at (method w)) as [m | |] eqn:Em; [| done | done]. cbn [mbind outcome_bind].
  pose proof (mk_mount Hkept (im_mountImage m) (w_cmd w) (w_env w)) as Hmount. unfold do_call.
  destruct (env_call (Call_mountImage (im_mountImage m)) (w_cmd w) (w_env w)) as [[url st] e].
  pose proof (method_at_inv _ _ Em) as [Hi Hlook].
  assert (mounts_ok (w_log w ++ [Ev (Call_mountImage (im_mountImage m))])) as Hmo'.
  { apply mounts_ok_mount; [done |]. intros Hnet. destruct (Hs2 Hl) as [(m1 & Em1 & Ht) | Hconf]; [| done]. exfalso.
    rewrite Em in Em1. injection Em1 as <-. apply list_elem_of_lookup_2 in Hlook.
    unfold installMethods in Hlook. rewrite !elem_of_cons, elem_of_nil in Hlook.
    destruct_or! Hlook; subst m; cbn in *; destruct_or! Hnet; done. }
  destruct url as [u |]; intros [= <- <-]; constructor; cbn; unfold dir_ok; auto; try done.
  - unfold correct_repo. cbn. destruct (_ =? 0); cbn; [lia |]. destruct (strstr _ _); cbn; lia.
  - unfold correct_repo. cbn. destruct (_ =? 0); cbn; [done |]. by destruct (strstr _ _).
Qed.

Lemma main_step_good fuel l w l' w' : good l w → main_step fuel l w = Ret (Running l', w') → good l' w'.
Proof.
  intros Hg. pose proof (gd_dir _ _ Hg) as Hd. pose proof (gd_class _ _ Hg) as Hc.
  unfold main_step. destruct (m_step l) eqn:Hl.
  - eapply good_moves; [exact Hg |]. by apply step_lang_moves.
  - eapply good_moves; [exact Hg |]. by apply step_kbd_moves.
  - by apply step_method_good.
  - eapply good_moves; [exact Hg |]. by apply step_driver_moves.
  - eapply good_moves; [exact Hg |]. by apply step_driverdisk_moves.
  - eapply good_moves; [exact Hg |]. by apply step_network_moves.
  - eapply good_moves; [exact Hg |]. apply step_iface_moves; try done; [apply same_refl |]. unfold behind_method. by rewrite Hl.
  - eapply good_moves; [exact Hg |]. by apply step_ip_moves.
  - by apply step_stage2_good.
  - done.
Qed.

(** ** All reachable states *)

Lemma setStage2_method (arg : bytes) (st st' : cmd_state S) : setStage2LocFromCmdline arg st = Ret st' →
  ld_i (c_ld st') L_method = ld_i (c_ld st) L_method ∨ 0 ≤ ld_i (c_ld st') L_method < 4.
Proof.
  unfold setStage2LocFromCmdline. destruct (strtok 58 (arg ++ [0]) 0) as [[c buf] p].
  destruct c; [| intros [= <-]; by left]. destruct (strtok 58 buf p) as [[c' buf'] p'].
  assert (∀ k (s : cmd_state S), ld_i (c_ld (with_ld (set_ldi L_method k) s)) L_method = k) as Hset by done.
  destruct (starts_with (str "nfs:") arg).
  { intros Hs. right. do 3 (apply outcome_bind_inv in Hs as (? & _ & Hs)).
    destruct (strtok 58 buf' p') as [[? ?] ?]. do 2 (apply outcome_bind_inv in Hs as (? & _ & Hs)).
    injection Hs as <-. change (0 ≤ METHOD_NFS < 4); unfold METHOD_NFS; lia. }
  destruct (starts_with (str "ftp:") arg || starts_with (str "http:") arg).
  { intros Hs. right. apply outcome_bind_inv in Hs as (? & _ & Hs). injection Hs as <-. change (0 ≤ METHOD_URL < 4); unfold METHOD_URL; lia. }
  destruct (starts_with (str "cdrom:") arg).
  { intros [= <-]. right. change (0 ≤ METHOD_CDROM < 4); unfold METHOD_CDROM; lia. }
  destruct (starts_with (str "harddrive:") arg || starts_with (str "hd:") arg).
  { intros Hs. right. do 2 (apply outcome_bind_inv in Hs as (? & _ & Hs)).
    destruct (strtok 58 buf' p') as [[? ?] ?]. do 2 (apply outcome_bind_inv in Hs as (? & _ & Hs)).
    injection Hs as <-. change (0 ≤ METHOD_HD < 4); unfold METHOD_HD; lia. }
  intros [= <-]. by left.
Qed.

Lemma mounts_ok_none evs : Forall (λ ev, ¬ is_mount ev) evs → mounts_ok evs.
Proof. intros Hevs. apply (mounts_ok_app []); [| done]. intros pre m post Heq. by destruct pre. Qed.

Lemma find_media_good rc st e l w : -1 ≤ ld_i (c_ld st) L_method < 4 →
  find_media rc (mkWorld st e []) = Ret (l, w) → good l w.
Proof.
  intros Hst. unfold find_media.
  assert (∀ l1 (w1 : world S E), m_step l1 = STEP_LANG → m_dir l1 = 1 → m_class l1 = -1 → -1 ≤ method w1 < 4 →
    Forall (λ ev, ¬ is_mount ev) (w_log w1) → good l1 w1) as Hstart.
  { intros l1 w1 E1 E2 E3 Hm Hlog. constructor; unfold behind_method; rewrite ?E1, ?E2, ?E3; auto using class_none, mounts_ok_none; try done.
    by left. }
  destruct (_ && _); [| intros [= <- <-]; by apply Hstart].
  pose proof (do_call_same Hkept Call_findAnacondaCD (mkWorld st e []) ltac:(discriminate) ltac:(discriminate)) as (E1 & E2 & evs & E3 & E4).
  destruct (do_call Call_findAnacondaCD (mkWorld st e [])) as [url w1]. cbn in E1, E2, E3, E4.
  assert (∀ arg st', setStage2LocFromCmdline arg (w_cmd w1) = Ret st' → -1 ≤ ld_i (c_ld st') L_method < 4) as Hset.
  { intros arg st' Hs. apply setStage2_method in Hs. rewrite E1 in Hs. lia. }
  destruct url as [u |].
  - destruct (setStage2LocFromCmdline u (w_cmd w1)) as [st' | |] eqn:Es; [| done | done]. cbn [mbind outcome_bind].
    intros [= <- <-]. apply Hstart; try done; [by apply (Hset _ _ Es) | by rewrite <- E3 in E4].
  - destruct (ld_s _ L_instRepo) as [repo |].
    + destruct (setStage2LocFromCmdline _ _) as [st' | |] eqn:Es; [| done | done]. cbn [mbind outcome_bind].
      intros [= <- <-]. apply Hstart; try done; [by apply (Hset _ _ Es) | by rewrite <- E3 in E4].
    + intros [= <- <-]. apply Hstart; try done; [by rewrite E1 | by rewrite <- E3 in E4].
Qed.

Lemma reachable_good rc st e l w : -1 ≤ ld_i (c_ld st) L_method < 4 → reachable rc st e l w → good l w.
Proof.
  intros Hst. induction 1 as [l w Hf | fuel l w l' w' _ IH Hs]; [by eapply find_media_good | by eapply main_step_good].
Qed.

(** C21: The variables of doLoaderMain are what they are meant to be in every
    state of its loop, whatever the dialogues and the other parts of the loader
    answer: dir is 1 or -1, class is none or a kind of device, the method is none
    or an entry of the table; in the steps behind the choice of a method it is an
    entry, so that the table is only left at the choice itself; and the loop ends
    with a URL. *)
Theorem loader_state_typed rc st e l w (Hst : -1 ≤ ld_i (c_ld st) L_method < 4) (Hr : reachable rc st e l w) :
  (m_dir l = 1 ∨ m_dir l = -1) ∧ m_class l ∈ [-1; DEVICE_NETWORK; DEVICE_DISK; DEVICE_CDROM] ∧
  -1 ≤ method w < 4 ∧ (behind_method l = true → ∃ m, method_at (method w) = Ret m) ∧
  (m_step l = STEP_DONE → is_Some (m_url l)).
Proof.
  destruct (reachable_good _ _ _ _ _ Hst Hr) as [Hd Hc Hm Hch Hu _ _]. split_and!; try done; try lia.
  intros Hb. specialize (Hch Hb). unfold method_at. destruct (Z.leb_spec 0 (method w)); [| lia].
  cbn [defined_if mbind outcome_bind]. destruct (lookup_lt_is_Some_2 installMethods (Z.to_nat (method w))) as [m Em].
  { cbn. lia. }
  exists m. by rewrite Em.
Qed.

(** C22: An image is mounted over the network only behind a network that was
    configured: in every run of doLoaderMain each call of mountNfsImage and
    mountUrlImage comes directly after a readNetConfig that did not fail and the
    writing of that configuration, with nothing but the host name set between
    them. *)
Theorem network_before_mount rc st e l w pre m post (Hst : -1 ≤ ld_i (c_ld st) L_method < 4) (Hr : reachable rc st e l w)
  (Hlog : w_log w = pre ++ Ev (Call_mountImage m) :: post) (Hm : m = mountNfsImage ∨ m = mountUrlImage) :
  ∃ pre' dev i cls meth r hs acts,
    pre = pre' ++ Ev (Call_readNetConfig dev i cls meth) :: Ev_netConfig r :: hs ++ [Ev (Call_netinfo acts)] ∧
    r ≠ LOADER_BACK ∧ r ≠ LOADER_ERROR ∧ (hs = [] ∨ ∃ h, hs = [Ev (Call_sethostname h)]).
Proof. exact (gd_mounts _ _ (reachable_good _ _ _ _ _ Hst Hr) _ _ _ Hlog Hm). Qed.

(** ** A method that failed with its data still given *)

Definition stuck (l : locals) (w : world S E) : Prop :=
  method w = -1 ∧ is_Some (stage2 w) ∧ dir_ok (m_dir l) ∧ behind_method l = false ∧ m_step l ≠ STEP_DONE.

Lemma stuck_moves l w r : stuck l w → moves l w r → ∀ e w', r = Ret (e, w') → ∃ l', e = Running l' ∧ stuck l' w'.
Proof.
  intros (Hm & Hs & Hd & Hb & Hdone) Hmv e w' Hr.
  destruct (Hmv _ _ Hr) as [(E1 & E2 & _) (l' & -> & [Md _ _ Mb Mdone _])]. exists l'. split; [done |].
  split_and!; auto; [congruence | by rewrite E2 |]. destruct (behind_method l'); [| done]. by rewrite Mb in Hb.
Qed.

Lemma main_step_stuck fuel l w : stuck l w → ∀ e w', main_step fuel l w = Ret (e, w') → ∃ l', e = Running l' ∧ stuck l' w'.
Proof.
  intros Hst e w' Hr. pose proof Hst as (Hm & Hs & Hd & Hb & Hdone). unfold main_step in Hr.
  destruct (m_step l) eqn:Hl; try (unfold behind_method in Hb; rewrite Hl in Hb; done).
  - eapply stuck_moves; [done | by apply step_lang_moves | done].
  - eapply stuck_moves; [done | by apply step_kbd_moves | done].
  - unfold step_method in Hr. rewrite Hm, (bool_decide_true _ Hs) in Hr. change (negb (-1 =? -1) || true) with true in Hr. cbv zeta in Hr. cbn [negb andb] in Hr.
    cbn [set_skip_method m_skipMethodDialog m_dir] in Hr.
    destruct Hd as [Hd | Hd]; rewrite Hd in Hr; cbn in Hr; rewrite ?Hm in Hr; [done |].
    injection Hr as <- <-. eexists. split; [done |]. split_and!; try done. by right.
  - eapply stuck_moves; [done | by apply step_ip_moves | done].
Qed.

(** When an image cannot be mounted although its place was given with
    stage2=, repo= or a kickstart file, and the method leaves this data (as
    mountUrlImage does when its panel is left), doLoaderMain never comes to a
    result: the dialogue of the methods is not shown, since there is data, and
    its table is accessed at -1, or languages and keyboards are asked for ever. *)
Theorem failed_mount_never_returns l w m st e (Hstep : m_step l = STEP_STAGE2) (Hurl : m_url l = None)
  (Hm : method_at (method w) = Ret m) (Hmount : env_call (Call_mountImage (im_mountImage m)) (w_cmd w) (w_env w) = (None, st, e))
  (Hgiven : is_Some (c_stage2 st)) fuel r :
  main_loop fuel l w ≠ Ret r.
Proof.
  assert (∀ fuel l w r, stuck l w → main_loop fuel l w ≠ Ret r) as Hstuck.
  { clear -Hkept. intros fuel. induction fuel as [| fuel IH]; intros l w r Hst; [done |]. cbn [main_loop].
    destruct (main_step fuel l w) as [[e w'] | |] eqn:Es; [| done | done]. cbn [mbind outcome_bind].
    destruct (main_step_stuck _ _ _ Hst _ _ Es) as (l' & -> & Hst'). by apply IH. }
  destruct fuel as [| fuel]; [done |]. cbn [main_loop]. unfold main_step. rewrite Hstep. unfold step_stage2.
  rewrite Hurl, Hm. cbn [mbind outcome_bind]. unfold do_call. rewrite Hmount. unfold next. cbn [mbind outcome_bind].
  apply Hstuck. split_and!; try done. by right.
Qed.

(** ** A disc in the drive *)

Lemma setStage2_cdrom rest (st : cmd_state S) :
  setStage2LocFromCmdline (str "cdrom:" ++ rest) st = Ret (with_ld (set_ldi L_method METHOD_CDROM) st).
Proof.
  unfold setStage2LocFromCmdline. 
  assert (∃ buf p, strtok 58 ((str "cdrom:" ++ rest) ++ [0]) 0 = (Some O, buf, p)) as (buf & p & ->).
  { unfold strtok. cbn. eauto. }
  destruct (strtok 58 buf p) as [[c buf'] p']. reflexivity.
Qed.

(** Nothing was said about language, keyboard, method and network. *)
Record plain_boot (st : cmd_state S) : Prop := {
  pb_askmethod : FL (c_flags st) LOADER_FLAGS_ASKMETHOD = false;
  pb_rescue : FL (c_flags st) LOADER_FLAGS_RESCUE = false;
  pb_network : FL (c_flags st) LOADER_FLAGS_ASKNETWORK = false;
  pb_early : FL (c_flags st) LOADER_FLAGS_EARLY_NETWORKING = false;
  pb_stage2 : c_stage2 st = None;
  pb_lang : ld_i (c_ld st) L_lang_set = 0;
  pb_kbd : ld_i (c_ld st) L_kbd_set = 0;
  pb_extra : hasGraphicalOverride st = Ret false }.
(** The drive has the disc. *)
Definition finds_disc (url : bytes) : Prop :=
  (∀ st e, ∃ e', env_call Call_findAnacondaCD st e = (Some url, st, e')) ∧
  (∀ st e, ∃ e', env_call (Call_haveDevice DEVICE_CDROM) st e = (true, st, e')).

Lemma FL_or flags a b : 0 ≤ a → 0 ≤ b → a ≠ b → FL (flag_or flags (Z.shiftl 1 a)) (Z.shiftl 1 b) = FL flags (Z.shiftl 1 b).
Proof.
  intros Ha Hb Hab. unfold FL, flag_or. do 2 f_equal. apply Z.bits_inj'. intros n Hn.
  rewrite !Z.land_spec, Z.lor_spec, !Z.shiftl_1_l, !Z.pow2_bits_eqb by lia.
  destruct (Z.eqb_spec a n), (Z.eqb_spec b n); try lia; by rewrite ?orb_false_r, ?andb_false_r.
Qed.

(** What [plain_boot] leaves for the loop behind the CD that was found. *)
Record disc_boot (st : cmd_state S) : Prop := {
  db_rescue : FL (c_flags st) LOADER_FLAGS_RESCUE = false;
  db_network : FL (c_flags st) LOADER_FLAGS_ASKNETWORK = false;
  db_early : FL (c_flags st) LOADER_FLAGS_EARLY_NETWORKING = false;
  db_lang : ld_i (c_ld st) L_lang_set = 0;
  db_kbd : ld_i (c_ld st) L_kbd_set = 0;
  db_method : ld_i (c_ld st) L_method = METHOD_CDROM;
  db_extra : hasGraphicalOverride st = Ret false }.

Lemma plain_disc st : plain_boot st →
  disc_boot (with_flags (λ f, flag_or f LOADER_FLAGS_NOPASS) (with_ld (set_ldi L_method METHOD_CDROM) st)).
Proof.
  intros [Ha Hr Hn He Hs Hl Hk Hx].
  unfold LOADER_FLAGS_RESCUE, LOADER_FLAGS_ASKNETWORK, LOADER_FLAGS_EARLY_NETWORKING in *.
  constructor; cbn; unfold LOADER_FLAGS_NOPASS, LOADER_FLAGS_RESCUE, LOADER_FLAGS_ASKNETWORK, LOADER_FLAGS_EARLY_NETWORKING;
    rewrite ?FL_or by lia; done.
Qed.

Lemma disc_lang l w : disc_boot (w_cmd w) → m_skipLangKbd l = true → step_lang l w = next STEP_KBD 1 l w.
Proof.
  intros [] Hs. unfold step_lang. rewrite db_lang0, db_rescue0, Hs. by destruct (ld_s _ L_lang).
Qed.
Lemma disc_kbd l w : disc_boot (w_cmd w) → m_skipLangKbd l = true → step_kbd l w = kbd_rc (to_step STEP_METHOD 1 l) w.
Proof.
  intros [] Hs. unfold step_kbd. rewrite db_kbd0, db_rescue0, Hs. by destruct (ld_s _ L_kbd).
Qed.
Lemma disc_method l w : disc_boot (w_cmd w) → m_dir l = 1 →
  step_method l w = next STEP_DRIVER 1 (set_class DEVICE_CDROM (set_rc 1 (set_skip_method true l))) w.
Proof. intros [] Hd. unfold step_method. rewrite db_method0. cbn. by rewrite Hd, db_method0. Qed.
Lemma disc_driver url l w : finds_disc url → disc_boot (w_cmd w) → m_class l = DEVICE_CDROM →
  ∃ e, step_driver l w = next STEP_NETWORK 1 (set_class (-1) l) (mkWorld (w_cmd w) e (w_log w ++ [Ev (Call_haveDevice DEVICE_CDROM)])).
Proof.
  intros [_ Hdev] [] Hc. destruct (Hdev (w_cmd w) (w_env w)) as [e He]. exists e. unfold step_driver, driver_found.
  rewrite db_early0, Hc. change (DEVICE_CDROM =? -1) with false. unfold do_call. cbv iota. by rewrite He.
Qed.
Lemma disc_network l w : disc_boot (w_cmd w) → m_dir l = 1 → step_network l w = next STEP_STAGE2 1 (set_needs false l) w.
Proof.
  intros [] Hd. unfold step_network. rewrite db_method0. unfold METHOD_CDROM. cbn. rewrite db_extra0. cbn.
  by rewrite db_network0, db_early0, Hd.
Qed.

Lemma main_loop_step fuel l w l' w' : main_step fuel l w = Ret (Running l', w') →
  main_loop (Datatypes.S fuel) l w = main_loop fuel l' w'.
Proof. intros Hs. cbn [main_loop]. by rewrite Hs. Qed.

(** A CD with the installer in the drive, and nothing said on the command
    line: doLoaderMain answers with the URL of the CD and asks nothing, unless
    the variable rc, which it reads at the keyboard step before it has set it,
    happens to hold LOADER_BACK: then it goes back and forth between language and
    keyboard for ever. *)
Theorem disc_is_taken_or_hangs st e rc url (Hboot : plain_boot st) (Hdisc : finds_disc (str "cdrom:" ++ url)) :
  (rc ≠ LOADER_BACK → ∀ fuel, (6 <= fuel)%nat → ∃ w', doLoaderMain fuel rc (mkWorld st e []) = Ret (Returned (Some (str "cdrom:" ++ url)), w') ∧
     w_log w' = [Ev Call_findAnacondaCD; Ev (Call_haveDevice DEVICE_CDROM)]) ∧
  (rc = LOADER_BACK → ∀ fuel, doLoaderMain fuel rc (mkWorld st e []) = NoFuel).
Proof.
  pose proof (plain_disc st Hboot) as Hst. set (st' := with_flags _ _) in Hst.
  assert (∃ e1, find_media rc (mkWorld st e []) =
    Ret (set_skip_lang true (set_skip_method true (set_url (Some (str "cdrom:" ++ url)) (start rc))),
         mkWorld st' e1 [Ev Call_findAnacondaCD])) as [e1 Efind].
  { destruct Hdisc as [Hcd _]. destruct (Hcd st e) as [e1 He]. exists e1. unfold find_media.
    cbn [w_cmd]. rewrite (pb_askmethod _ Hboot), (pb_stage2 _ Hboot), (bool_decide_true (None = None)) by done.
    cbn [negb andb]. unfold do_call. cbn [w_cmd w_env w_log]. rewrite He. cbn [w_cmd]. by rewrite setStage2_cdrom. }
  unfold doLoaderMain. rewrite Efind. cbn [mbind outcome_bind]. clear Efind.
  set (l := set_skip_lang _ _). set (w1 := mkWorld st' e1 _). split.
  - intros Hrc fuel Hf. do 6 (destruct fuel as [| fuel]; [lia |]).
    assert (kbd_rc (to_step STEP_METHOD 1 (to_step STEP_KBD 1 l)) w1 =
      next STEP_METHOD 1 (to_step STEP_KBD 1 l) w1) as Ekbd.
    { unfold kbd_rc. cbn. destruct (rc =? LOADER_NOOP); [done |]. destruct (Z.eqb_spec rc LOADER_BACK); done. }
    rewrite (main_loop_step _ l w1 _ w1 (disc_lang l w1 Hst eq_refl)).
    rewrite (main_loop_step _ (to_step STEP_KBD 1 l) w1 _ w1 (eq_trans (disc_kbd (to_step STEP_KBD 1 l) w1 Hst eq_refl) Ekbd)).
    rewrite (main_loop_step _ (to_step STEP_METHOD 1 l) w1 _ w1 (disc_method (to_step STEP_METHOD 1 l) w1 Hst eq_refl)).
    set (l3 := to_step STEP_DRIVER 1 _). destruct (disc_driver _ l3 w1 Hdisc Hst eq_refl) as [e2 Edrv].
    rewrite (main_loop_step _ l3 w1 _ _ Edrv). set (w2 := mkWorld (w_cmd w1) e2 _). set (l4 := to_step STEP_NETWORK 1 _).
    rewrite (main_loop_step _ l4 w2 _ w2 (disc_network l4 w2 Hst eq_refl)).
    eexists. split; [reflexivity |]. reflexivity.
  - intros -> fuel.
    assert (∀ fuel l w, disc_boot (w_cmd w) → m_skipLangKbd l = true → m_rc l = LOADER_BACK →
      m_step l = STEP_LANG ∨ m_step l = STEP_KBD → main_loop fuel l w = NoFuel) as Hloop; [| by apply Hloop; auto].
    clear. induction fuel as [| fuel IH]; intros l w Hst Hs Hrc Hl; [done |]. cbn [main_loop]. unfold main_step.
    destruct Hl as [-> | ->].
    + rewrite disc_lang by done. unfold next. cbn [mbind outcome_bind]. apply IH; auto.
    + rewrite disc_kbd by done. unfold kbd_rc. cbn [to_step m_rc]. rewrite Hrc. unfold next.
      change (LOADER_BACK =? LOADER_NOOP) with false. change (LOADER_BACK =? LOADER_BACK) with true. cbv iota.
      cbn [mbind outcome_bind]. apply IH; auto.
Qed.
(** ** An installation that asks nothing *)

(** Language, keyboard, method and the place of the image were given. *)
Record all_given (st : cmd_state S) (lang kbd : bytes) (m : installMethod) : Prop := {
  ag_lang : ld_s (c_ld st) L_lang = Some lang ∧ ld_i (c_ld st) L_lang_set = 1;
  ag_kbd : ld_s (c_ld st) L_kbd = Some kbd ∧ ld_i (c_ld st) L_kbd_set = 1;
  ag_method : method_at (ld_i (c_ld st) L_method) = Ret m;
  ag_stage2 : is_Some (c_stage2 st);
  ag_network : FL (c_flags st) LOADER_FLAGS_ASKNETWORK = false;
  ag_early : FL (c_flags st) LOADER_FLAGS_EARLY_NETWORKING = false;
  ag_extra : hasGraphicalOverride st = Ret false }.
(** A call that is answered with [a] and changes no data. *)
Definition gives (c : call) (a : answer c) : Prop := ∀ st e, ∃ e', env_call c st e = (a, st, e').

Lemma gives_call c a w : gives c a → ∃ e', do_call c w = (a, mkWorld (w_cmd w) e' (w_log w ++ [Ev c])).
Proof. intros Hg. destruct (Hg (w_cmd w) (w_env w)) as [e' He]. exists e'. unfold do_call. by rewrite He. Qed.

(** The way to the choice of a driver. *)
Lemma given_front st lang kbd m e rc fuel : all_given st lang kbd m → im_type m ≠ -1 →
  gives (Call_setLanguage lang) tt → gives (Call_loadKeymap kbd) 0 → gives (Call_haveDevice (im_type m)) true →
  ∃ e' l, doLoaderMain (4 + fuel) rc (mkWorld st e []) =
    main_loop fuel l (mkWorld st e' [Ev (Call_setLanguage lang); Ev (Call_loadKeymap kbd); Ev (Call_haveDevice (im_type m))]) ∧
    m_step l = STEP_NETWORK ∧ m_dir l = 1 ∧ m_url l = None ∧ m_class l = -1.
Proof.
  intros [[Hl Hl1] [Hk Hk1] Hm Hs _ He _] Ht Glang Gkbd Gdev.
  unfold doLoaderMain, find_media. cbn [w_cmd].
  assert (bool_decide (c_stage2 st = None) = false) as -> by (apply bool_decide_false; by destruct Hs as [? ->]).
  rewrite andb_false_r. cbn [mbind outcome_bind]. set (l0 := start rc). set (w0 := mkWorld st e []).
  destruct (gives_call _ _ w0 Glang) as [e1 E1]. set (w1 := mkWorld _ e1 _) in E1.
  destruct (gives_call _ _ w1 Gkbd) as [e2 E2]. set (w2 := mkWorld _ e2 _) in E2.
  destruct (gives_call _ _ w2 Gdev) as [e3 E3].
  assert (step_lang l0 w0 = next STEP_KBD 1 l0 w1) as S1.
  { unfold step_lang. cbn [w0 w_cmd]. rewrite Hl, Hl1. cbn [Z.eqb]. by rewrite E1. }
  change (4 + fuel)%nat with (Datatypes.S (Datatypes.S (Datatypes.S (Datatypes.S fuel)))).
  rewrite (main_loop_step _ l0 w0 _ w1 S1). set (l1 := to_step STEP_KBD 1 l0).
  assert (step_kbd l1 w1 = next STEP_METHOD 1 (set_rc LOADER_NOOP l1) w2) as S2.
  { unfold step_kbd. cbn [w1 w_cmd w0]. rewrite Hk, Hk1. cbn [Z.eqb]. by rewrite E2. }
  rewrite (main_loop_step _ l1 w1 _ w2 S2). set (l2 := to_step STEP_METHOD 1 _).
  assert (∃ l3, step_method l2 w2 = next STEP_DRIVER 1 (set_class (im_type m) l3) w2 ∧ m_url l3 = None) as (l3 & S3 & U3).
  { eexists. split; [unfold step_method |]. 
    - cbn [w2 w1 w0 w_cmd]. rewrite (bool_decide_true _ Hs), orb_true_r. cbn. rewrite Hm. reflexivity.
    - reflexivity. }
  rewrite (main_loop_step _ l2 w2 _ w2 S3). set (l4 := to_step STEP_DRIVER 1 _).
  assert (step_driver l4 w2 = next STEP_NETWORK 1 (set_class (-1) l4)
    (mkWorld (w_cmd w2) e3 (w_log w2 ++ [Ev (Call_haveDevice (im_type m))]))) as S4.
  { unfold step_driver, driver_found. cbn [w2 w1 w0 w_cmd]. rewrite He. cbn [l4 to_step m_class set_class].
    destruct (Z.eqb_spec (im_type m) (-1)); [done |]. by rewrite E3. }
  rewrite (main_loop_step _ l4 w2 _ _ S4). eexists e3, _. split; [reflexivity |]. done.
Qed.

(** The image itself. *)
Lemma given_stage2 st e log l m url fuel : method_at (ld_i (c_ld st) L_method) = Ret m → m_url l = None → m_step l = STEP_STAGE2 →
  gives (Call_mountImage (im_mountImage m)) (Some url) →
  ∃ w', main_loop (2 + fuel) l (mkWorld st e log) = Ret (Returned (Some url), w') ∧
    w_log w' = log ++ [Ev (Call_mountImage (im_mountImage m))].
Proof.
  intros Hm Hu Hs Gm. destruct (gives_call _ _ (mkWorld st e log) Gm) as [e1 E1].
  assert (step_stage2 l (mkWorld st e log) = next STEP_DONE 1 (set_url (Some url) l)
    (correct_repo url (mkWorld st e1 (log ++ [Ev (Call_mountImage (im_mountImage m))])))) as S1.
  { unfold step_stage2. rewrite Hu. cbn [w_cmd]. rewrite Hm. cbn [mbind outcome_bind]. by rewrite E1. }
  unfold next in S1. eexists. split.
  - change (2 + fuel)%nat with (Datatypes.S (Datatypes.S fuel)). rewrite (main_loop_step _ l _ _ _ (eq_trans
      (ltac:(unfold main_step; by rewrite Hs) : main_step (Datatypes.S fuel) l (mkWorld st e log) = step_stage2 l (mkWorld st e log)) S1)).
    reflexivity.
  - unfold correct_repo. cbn. destruct (_ =? 0); [done |]. by destruct (strstr _ _).
Qed.
(** The network is to be configured with fixed addresses, and its calls succeed:
    chooseNetworkInterface answers LOADER_NOOP when it finds the card that was
    named, and readNetConfig when it configures an interface whose method is
    known and connects it; only windows make them answer LOADER_OK. *)
Record network_given (st : cmd_state S) (dev mac : bytes) (ip mask gw : Z) (ds : list bytes) : Prop := {
  ng_dev : ld_s (c_ld st) L_netDev = Some dev ∧ (length dev < 16)%nat ∧ ld_i (c_ld st) L_netDev_set = 1;
  ng_static : static_ld env_pton6 (c_ld st) ip mask gw ds;
  ng_flags : FL (c_flags st) LOADER_FLAGS_NOIPV4 = false ∧ FL (c_flags st) LOADER_FLAGS_HAVE_CMSCONF = false;
  ng_choose : gives Call_chooseNetworkInterface LOADER_NOOP;
  ng_ethtool : gives (Call_ethtool []) tt;
  ng_config : ∀ i cls meth, 0 < if_i i I_ipv4method → gives (Call_readNetConfig (Some dev) i cls meth) (LOADER_NOOP, i);
  ng_hostname : ∀ h, gives (Call_sethostname h) tt;
  ng_info : ∀ acts, gives (Call_netinfo acts) tt;
  ng_files : ∀ e, env_action e = (λ _, true) ∧ env_mac e dev = Some mac }.

Definition kickstarted (st : cmd_state S) : cmd_state S :=
  if bool_decide (is_Some (ld_s (c_ld st) L_ksFile)) then with_flags (λ f, flag_or f LOADER_FLAGS_IS_KICKSTART) st else st.
Lemma kickstarted_ld st : c_ld (kickstarted st) = c_ld st.
Proof. unfold kickstarted. by destruct (bool_decide _). Qed.
Lemma kickstarted_flag st b : 0 ≤ b → b ≠ 35 → FL (c_flags (kickstarted st)) (Z.shiftl 1 b) = FL (c_flags st) (Z.shiftl 1 b).
Proof.
  intros. unfold kickstarted. destruct (bool_decide _); [| done]. cbn [with_flags c_flags].
  unfold LOADER_FLAGS_IS_KICKSTART. by rewrite FL_or by lia.
Qed.

(** The file of the interface, as [setupIfaceStruct] and [writeEnabledNetInfo] make it. *)
Definition static_file (dev mac : bytes) (ip mask gw : Z) (ds : list bytes) (rest : bytes) : bytes :=
  line (str "DEVICE=") dev ++ line (str "HWADDR=") mac ++ str "ONBOOT=yes" ++ [10] ++
  str "BOOTPROTO=static" ++ [10] ++ line (str "IPADDR=") (inet_ntop4 ip) ++
  line (str "NETMASK=") (inet_ntop4 mask) ++ line (str "GATEWAY=") (inet_ntop4 gw) ++ dns_lines 1 ds ++ rest.

(** On the way forwards LOADER_NOOP does not go back. *)
Lemma goes_back_noop : goes_back LOADER_NOOP 1 = false.
Proof. done. Qed.
(** The host name is set when there is one. *)
Definition hostname_call (st : cmd_state S) : list event :=
  match ld_s (c_ld st) L_hostname with Some name => [Ev (Call_sethostname name)] | None => [] end.

(** The interface is chosen: from [STEP_NETWORK] to [STEP_IP]. *)
Lemma given_iface st e log l lang kbd m dev mac ip mask gw ds : all_given st lang kbd m → network_given st dev mac ip mask gw ds →
  im_type m = DEVICE_NETWORK → m_dir l = 1 → gives (Call_haveDevice DEVICE_NETWORK) true →
  ∃ e' l', step_network l (mkWorld st e log) =
      next STEP_IP 1 l' (mkWorld (kickstarted st) e' (log ++ [Ev (Call_haveDevice DEVICE_NETWORK); Ev Call_chooseNetworkInterface])) ∧
    m_needsNetwork l' = true ∧ m_dev l' = Some dev ∧ m_iface l' = set_device dev iface_init_iface_t ∧ m_url l' = m_url l.
Proof.
  intros [_ _ Hm _ Hn He _] [(Hdev & Hlen & _) _ [_ Hcms] Gch _ _ _ _ _] Ht Hd Ghave.
  destruct (gives_call _ _ (mkWorld st e log) Ghave) as [e1 E1]. set (w1 := mkWorld _ e1 _) in E1.
  set (w2 := mkWorld (kickstarted st) e1 (w_log w1)). destruct (gives_call _ _ w2 Gch) as [e2 E2].
  exists e2. eexists. split.
  - unfold step_network. cbn [w_cmd]. rewrite Hm. cbn [mbind outcome_bind]. rewrite Ht. cbn [Z.eqb DEVICE_NETWORK Pos.eqb].
    cbn [mbind outcome_bind negb andb]. rewrite E1. cbn [negb]. unfold step_iface.
    assert ((if bool_decide (is_Some (ld_s (c_ld (w_cmd w1)) L_ksFile))
             then on_cmd (with_flags (λ f, flag_or f LOADER_FLAGS_IS_KICKSTART)) w1 else w1) = w2) as ->.
    { unfold w2, kickstarted. cbn [w1 w_cmd]. by destruct (bool_decide _). }
    assert (FL (c_flags (w_cmd w2)) LOADER_FLAGS_HAVE_CMSCONF = false) as ->.
    { change (w_cmd w2) with (kickstarted st). unfold LOADER_FLAGS_HAVE_CMSCONF. by rewrite kickstarted_flag by lia. }
    cbn [set_iface set_needs set_rc m_dir]. rewrite E2, Hd, goes_back_noop. assert (c_ld (w_cmd w2) = c_ld st) as Eld by apply kickstarted_ld.
    cbn [w_cmd]. rewrite Eld, Hdev. cbn [checked mbind outcome_bind].
    destruct (Nat.ltb_spec (length dev) 16); [| lia]. cbn [defined_if mbind outcome_bind].
    assert (w_log w2 ++ [Ev Call_chooseNetworkInterface] = log ++ [Ev (Call_haveDevice DEVICE_NETWORK); Ev Call_chooseNetworkInterface]) as ->
      by (cbn [w2 w1 w_log]; by rewrite <- app_assoc).
    reflexivity.
  - done.
Qed.

(** The interface is configured. *)
Lemma given_ip st e log l dev mac ip mask gw ds fuel : network_given st dev mac ip mask gw ds →
  m_needsNetwork l = true → m_dev l = Some dev → m_iface l = set_device dev iface_init_iface_t → m_dir l = 1 → (length ds < fuel)%nat →
  ∃ e' l' i acts rest, step_ip fuel l (mkWorld (kickstarted st) e log) = next STEP_STAGE2 1 l'
      (mkWorld (kickstarted st) e' (log ++ [Ev (Call_ethtool []);
         Ev (Call_readNetConfig (Some dev) i (ld_s (c_ld st) L_netCls) (ld_i (c_ld st) L_method)); Ev_netConfig LOADER_NOOP] ++
         hostname_call st ++ [Ev (Call_netinfo acts)])) ∧
    m_url l' = m_url l ∧
    setupIfaceStruct env_pton6 fuel (set_device dev iface_init_iface_t) (c_ld st) = Ret (i, c_ld st, []) ∧
    A_fclose (NETWORK_SCRIPTS_PATH ++ str "/.ifcfg-" ++ dev) (static_file dev mac ip mask gw ds rest) ∈ acts ∧
    A_rename (NETWORK_SCRIPTS_PATH ++ str "/.ifcfg-" ++ dev) (NETWORK_SCRIPTS_PATH ++ str "/ifcfg-" ++ dev) ∈ acts.
Proof.
  intros [_ Hst [Hv4 Hcms] _ Geth Gcfg Ghost Ginfo Hfiles] Hn Hdev Hi Hd Hf.
  set (i0 := set_device dev iface_init_iface_t) in *.
  destruct (setup_static env_pton6 fuel i0 (c_ld st) ip mask gw ds Hst Hf eq_refl eq_refl) as (i' & Eset & _ & _ & Emeth & _).
  set (w0 := mkWorld (kickstarted st) e log).
  destruct (gives_call _ _ w0 Geth) as [e1 E1]. set (w1 := mkWorld _ e1 _) in E1.
  destruct (gives_call _ _ w1 (Gcfg i' (ld_s (c_ld st) L_netCls) (ld_i (c_ld st) L_method) ltac:(rewrite Emeth; done))) as [e2 E2].
  set (c2 := Call_readNetConfig _ _ _ _) in E2. set (w2 := log_netConfig LOADER_NOOP (mkWorld (w_cmd w1) e2 (w_log w1 ++ [Ev c2]))).
  assert (∃ e3, (match ld_s (c_ld (w_cmd w2)) L_hostname with
    | Some h => do_call (Call_sethostname h) w2 | None => (tt, w2) end) = (tt, mkWorld (w_cmd w2) e3 (w_log w2 ++ hostname_call st))) as (e3 & E3).
  { unfold hostname_call. change (w_cmd w2) with (kickstarted st). rewrite kickstarted_ld. destruct (ld_s (c_ld st) L_hostname) as [h |].
    - destruct (gives_call _ _ w2 (Ghost h)) as [e3 E3]. by exists e3.
    - exists e2. rewrite app_nil_r. done. }
  set (w3 := mkWorld _ e3 _) in E3.
  assert (∃ acts rest, writeEnabledNetInfo (env_action (w_env w3)) (env_mac (w_env w3)) (c_flags (w_cmd w3)) i' = Ret (0, acts) ∧
    A_fclose (NETWORK_SCRIPTS_PATH ++ str "/.ifcfg-" ++ dev) (static_file dev mac ip mask gw ds rest) ∈ acts ∧
    A_rename (NETWORK_SCRIPTS_PATH ++ str "/.ifcfg-" ++ dev) (NETWORK_SCRIPTS_PATH ++ str "/ifcfg-" ++ dev) ∈ acts)
    as (acts & rest & Ewrite & Hclose & Hren).
  { destruct (static_config_run env_pton6 (env_mac (w_env w3)) (c_flags (w_cmd w3)) i0 (c_ld st)
      ip mask gw ds mac fuel Hst Hf eq_refl eq_refl) as (i2 & acts & rest & Eset2 & Ewrite & Hclose & Hren).
    - change (w_cmd w3) with (kickstarted st). unfold LOADER_FLAGS_NOIPV4. by rewrite kickstarted_flag by lia.
    - apply (Hfiles e3).
    - rewrite Eset in Eset2. injection Eset2 as <-. exists acts, rest. rewrite (proj1 (Hfiles (w_env w3))). done. }
  destruct (gives_call _ _ w3 (Ginfo acts)) as [e4 E4].
  exists e4. eexists _, i', acts, rest. split_and!.
  - unfold step_ip. rewrite Hn, Hd. change (negb true || (1 =? -1)) with false. cbv iota.
    assert (FL (c_flags (w_cmd w0)) LOADER_FLAGS_HAVE_CMSCONF = false) as ->.
    { cbn [w0 w_cmd]. unfold LOADER_FLAGS_HAVE_CMSCONF. by rewrite kickstarted_flag by lia. }
    assert (c_ld (w_cmd w0) = c_ld st) as -> by apply kickstarted_ld. rewrite Hi, Eset. cbn [mbind outcome_bind].
    assert (on_data (λ _, c_ld st) w0 = w0) as ->.
    { unfold w0, on_data, on_cmd, with_ld. cbn [w_cmd w_env w_log]. f_equal. rewrite <- (kickstarted_ld st). by destruct (kickstarted st). }
    rewrite E1. assert (c_ld (w_cmd w1) = c_ld st) as -> by apply kickstarted_ld. rewrite Hdev. fold c2. rewrite E2. fold w2.
    cbn [set_iface set_rc m_dir]. rewrite E3, Hd, goes_back_noop. rewrite Ewrite. cbn [mbind outcome_bind]. rewrite E4.
    assert (w_log w3 ++ [Ev (Call_netinfo acts)] = log ++ [Ev (Call_ethtool []); Ev c2; Ev_netConfig LOADER_NOOP] ++ hostname_call st ++ [Ev (Call_netinfo acts)]) as ->.
    { cbn [w3 w2 w1 w0 log_netConfig w_log]. rewrite <- !app_assoc. reflexivity. }
    reflexivity.
  - done.
  - exact Eset.
  - exact Hclose.
  - exact Hren.
Qed.
Lemma given_local st e log l lang kbd m : all_given st lang kbd m → im_type m ≠ DEVICE_NETWORK → m_dir l = 1 →
  step_network l (mkWorld st e log) = next STEP_STAGE2 1 (set_needs false l) (mkWorld st e log).
Proof.
  intros [_ _ Hm _ Hn He Hx] Ht Hd. unfold step_network. cbn [w_cmd]. rewrite Hm. cbn [mbind outcome_bind].
  destruct (Z.eqb_spec (im_type m) DEVICE_NETWORK); [done |]. rewrite Hx, Hn, He. cbn [mbind outcome_bind negb andb].
  unfold next. cbn [set_needs m_dir]. by rewrite Hd.
Qed.

(** C23: When language, keyboard, method and the place of the image are given and
    the calls succeed, doLoaderMain comes to the URL of the image after at most
    nine steps, and these are all the calls it makes.  For a local medium:
    setLanguage, the keymap, the check for a device and the mount.  For a network
    method with a card and fixed addresses given, where chooseNetworkInterface and
    readNetConfig answer LOADER_NOOP, as they do without a window: the check for a
    card once more, the choice of the card, its configuration, the host name when
    there is one, and in front of the mount the file of the interface, with the
    addresses, the gateway and the name servers that were given. *)
Theorem unattended_installation st e lang kbd m url rc fuel (Hgiven : all_given st lang kbd m)
  (Glang : gives (Call_setLanguage lang) tt) (Gkbd : gives (Call_loadKeymap kbd) 0)
  (Gdev : gives (Call_haveDevice (im_type m)) true) (Gmount : gives (Call_mountImage (im_mountImage m)) (Some url)) :
  (im_type m ≠ DEVICE_NETWORK → ∃ w', doLoaderMain (7 + fuel) rc (mkWorld st e []) = Ret (Returned (Some url), w') ∧
     w_log w' = [Ev (Call_setLanguage lang); Ev (Call_loadKeymap kbd); Ev (Call_haveDevice (im_type m));
                 Ev (Call_mountImage (im_mountImage m))]) ∧
  (∀ dev mac ip mask gw ds, im_type m = DEVICE_NETWORK → network_given st dev mac ip mask gw ds → (length ds ≤ fuel)%nat →
     ∃ w' i acts rest, doLoaderMain (9 + fuel) rc (mkWorld st e []) = Ret (Returned (Some url), w') ∧
       w_log w' = [Ev (Call_setLanguage lang); Ev (Call_loadKeymap kbd); Ev (Call_haveDevice DEVICE_NETWORK);
                   Ev (Call_haveDevice DEVICE_NETWORK); Ev Call_chooseNetworkInterface; Ev (Call_ethtool []);
                   Ev (Call_readNetConfig (Some dev) i (ld_s (c_ld st) L_netCls) (ld_i (c_ld st) L_method)); Ev_netConfig LOADER_NOOP] ++
                  hostname_call st ++ [Ev (Call_netinfo acts); Ev (Call_mountImage (im_mountImage m))] ∧
       setupIfaceStruct env_pton6 (3 + fuel) (set_device dev iface_init_iface_t) (c_ld st) = Ret (i, c_ld st, []) ∧
       A_fclose (NETWORK_SCRIPTS_PATH ++ str "/.ifcfg-" ++ dev) (static_file dev mac ip mask gw ds rest) ∈ acts ∧
       A_rename (NETWORK_SCRIPTS_PATH ++ str "/.ifcfg-" ++ dev) (NETWORK_SCRIPTS_PATH ++ str "/ifcfg-" ++ dev) ∈ acts).
Proof.
  assert (im_type m ≠ -1) as Hno.
  { pose proof (method_at_inv _ _ (ag_method _ _ _ _ Hgiven)) as [_ Hlook]. apply list_elem_of_lookup_2 in Hlook.
    unfold installMethods in Hlook. rewrite !elem_of_cons, elem_of_nil in Hlook. by destruct_or! Hlook; subst m. }
  split.
  - intros Ht. destruct (given_front st lang kbd m e rc (3 + fuel) Hgiven Hno Glang Gkbd Gdev) as (e1 & l1 & E1 & Hs1 & Hd1 & Hu1 & _).
    change (7 + fuel)%nat with (4 + (3 + fuel))%nat. rewrite E1. set (log := [_; _; _]) in *.
    pose proof (given_local st e1 log l1 lang kbd m Hgiven Ht Hd1) as S1.
    change (3 + fuel)%nat with (Datatypes.S (2 + fuel)).
    rewrite (main_loop_step _ l1 _ _ _ (eq_trans
      (ltac:(unfold main_step; by rewrite Hs1) : main_step (2 + fuel) l1 (mkWorld st e1 log) = step_network l1 (mkWorld st e1 log)) S1)).
    destruct (given_stage2 st e1 log (to_step STEP_STAGE2 1 (set_needs false l1)) m url fuel (ag_method _ _ _ _ Hgiven) Hu1 eq_refl Gmount)
      as (w' & E2 & Hlog).
    exists w'. split; [exact E2 | exact Hlog].
  - intros dev mac ip mask gw ds Ht Hnet Hf. rewrite Ht in Gdev.
    assert (gives (Call_haveDevice (im_type m)) true) as Gdev' by (by rewrite Ht).
    destruct (given_front st lang kbd m e rc (5 + fuel) Hgiven Hno Glang Gkbd Gdev') as (e1 & l1 & E1 & Hs1 & Hd1 & Hu1 & _).
    change (9 + fuel)%nat with (4 + (5 + fuel))%nat. rewrite E1. set (log := [_; _; _]) in *.
    destruct (given_iface st e1 log l1 lang kbd m dev mac ip mask gw ds Hgiven Hnet Ht Hd1 Gdev) as (e2 & l2 & S1 & Hn2 & Hdev2 & Hi2 & Hu2).
    change (5 + fuel)%nat with (Datatypes.S (Datatypes.S (2 + Datatypes.S fuel))).
    rewrite (main_loop_step _ l1 _ _ _ (eq_trans
      (ltac:(unfold main_step; by rewrite Hs1) : main_step (Datatypes.S (2 + Datatypes.S fuel)) l1 (mkWorld st e1 log) = step_network l1 (mkWorld st e1 log)) S1)).
    set (log2 := log ++ _). set (l3 := to_step STEP_IP 1 l2).
    destruct (given_ip st e2 log2 l3 dev mac ip mask gw ds (2 + Datatypes.S fuel) Hnet Hn2 Hdev2 Hi2 eq_refl ltac:(lia))
      as (e3 & l4 & i & acts & rest & S2 & Hu4 & Hset & Hclose & Hren).
    match type of S2 with _ = next _ _ _ (mkWorld _ _ ?x) => set (log3 := x) in S2 end.
    rewrite (main_loop_step _ l3 _ _ _ S2).
    assert (m_url (to_step STEP_STAGE2 1 l4) = None) as Hu5 by (cbn; rewrite Hu4; cbn; congruence).
    destruct (given_stage2 (kickstarted st) e3 log3 (to_step STEP_STAGE2 1 l4) m url (Datatypes.S fuel))
      as (w' & E2 & Hlog); [rewrite kickstarted_ld; apply (ag_method _ _ _ _ Hgiven) | exact Hu5 | done | exact Gmount |].
    exists w', i, acts, rest. split_and!; [exact E2 | | exact Hset | exact Hclose | exact Hren].
    rewrite Hlog. unfold log3, log2, log. rewrite Ht, <- !app_assoc. reflexivity.
Qed.
End moves.

(** ** An environment to run the loader in *)

(** What findAnacondaCD and the methods answer stays as it is. *)
Definition fixed_env {T : Type} (cd image : option bytes) (c : call) (st : cmd_state unit) (t : T) : answer c * cmd_state unit * T :=
  match c return answer c * cmd_state unit * T with
  | Call_findAnacondaCD => (cd, st, t)
  | Call_setLanguage _ | Call_chooseLanguage | Call_chooseManualDriver _ | Call_ethtool _ | Call_sethostname _
  | Call_netinfo _ => (tt, st, t)
  | Call_loadKeymap _ | Call_chooseKeyboard => (0, st, t)
  | Call_chooseNetworkInterface => (LOADER_NOOP, st, t)
  | Call_menu => (1, with_ld (set_ldi L_method METHOD_URL) st, t)
  | Call_haveDevice _ => (true, st, t)
  | Call_noDriver => (3, st, t)
  | Call_loadDriverFromMedia _ => (LOADER_BACK, st, t)
  | Call_readNetConfig _ i _ _ => ((LOADER_NOOP, i), st, t)
  | Call_mountImage _ => (image, st, t)
  end.
Definition fixed_loader {T : Type} (cd image : option bytes) : LoaderEnv unit T := {|
  env_call := fixed_env cd image; env_action := λ _ _, true; env_mac := λ _ _, Some (str "00:11"); env_pton6 := λ _, false |}.

(** A mirror with the image, a CD in the drive, and nothing at all. *)
Inductive mirror := Mirror.
Inductive drive := Drive.
Inductive nowhere := Nowhere.
Definition image_url : bytes := str "http://10.0.0.9/images/install.img".
Definition cd_url : bytes := str "///dev/sr0:/mnt/stage2".
#[export] Instance mirror_loader : LoaderEnv unit mirror := fixed_loader None (Some image_url).
#[export] Instance drive_loader : LoaderEnv unit drive := fixed_loader (Some (str "cdrom:" ++ cd_url)) None.
#[export] Instance nowhere_loader : LoaderEnv unit nowhere := fixed_loader None None.

Lemma fixed_kept T cd image : @methods_kept unit T (fixed_loader cd image).
Proof.
  constructor.
  - intros c Hmenu Hmount st e. destruct c; cbn; try done.
  - intros st e. change (0 ≤ METHOD_URL < 4). unfold METHOD_URL. lia.
  - intros m st e. cbn. by left.
Qed.

(** Everything on the command line: language, keyboard, a URL and a static address. *)
Definition given_ld : loaderData_s :=
  set_lds L_lang (Some (str "en_US")) (set_ldi L_lang_set 1 (set_lds L_kbd (Some (str "us")) (set_ldi L_kbd_set 1
    (set_lds L_netDev (Some (str "eth0")) (set_ldi L_netDev_set 1 (set_ldi L_method METHOD_URL sample_static)))))).
Definition given_cmd (ld : loaderData_s) (d : option stage2Data_) : cmd_state unit :=
  mkCmd ld 0 d [] (Modules.mkMl None []) tt 0 None 5 0 None.
Definition given_state : cmd_state unit := given_cmd given_ld (Some (urlInstallData image_url)).

Lemma given_all : all_given given_state (str "en_US") (str "us") (mkMethod (str "URL") 1 DEVICE_NETWORK mountUrlImage).
Proof. constructor; try reflexivity; [split; reflexivity | split; reflexivity | by eexists]. Qed.

Definition plain_state : cmd_state unit := given_cmd (set_ldi L_method (-1) zero_ld) None.
Lemma plain_state_ok : plain_boot plain_state.
Proof. by constructor. Qed.

(** The states the loader of [mirror] reaches. *)
Fixpoint run_steps (k : nat) (l : locals) (w : world unit mirror) : option (locals * world unit mirror) :=
  match k with
  | O => Some (l, w)
  | S k => match main_step 10 l w with Ret (Running l, w) => run_steps k l w | _ => None end
  end.
Lemma run_reachable k rc st e l w : reachable rc st e l w → ∀ l' w', run_steps k l w = Some (l', w') → reachable rc st e l' w'.
Proof.
  revert l w. induction k as [| k IH]; intros l w Hr l' w'; [by intros [= <- <-] |]. cbn [run_steps].
  destruct (main_step 10 l w) as [[[l1 | u |] w1] | |] eqn:Es; try done. apply IH. by eapply reach_step.
Qed.

Definition given_end : locals * world unit mirror :=
  match run_steps 7 (start 5) (mkWorld given_state Mirror []) with Some r => r | None => (start 0, mkWorld given_state Mirror []) end.
Lemma given_end_reachable : reachable 5 given_state Mirror given_end.1 given_end.2.
Proof.
  apply (run_reachable 7 5 given_state Mirror (start 5) (mkWorld given_state Mirror [])); [by apply reach_start |]. vm_compute. reflexivity.
Qed.

Lemma loader_state_typed_witness : 
  (m_dir given_end.1 = 1 ∨ m_dir given_end.1 = -1) ∧
  m_class given_end.1 ∈ [-1; DEVICE_NETWORK; DEVICE_DISK; DEVICE_CDROM] ∧
  -1 ≤ ld_i (c_ld (w_cmd given_end.2)) L_method < 4 ∧
  (behind_method given_end.1 = true → ∃ m, method_at (ld_i (c_ld (w_cmd given_end.2)) L_method) = Ret m) ∧
  (m_step given_end.1 = STEP_DONE → is_Some (m_url given_end.1)).
Proof.
  apply (loader_state_typed (fixed_kept mirror None (Some image_url)) 5 given_state Mirror given_end.1 given_end.2).
  - change (-1 ≤ METHOD_URL < 4). unfold METHOD_URL. lia.
  - exact given_end_reachable.
Defined.

Lemma network_before_mount_witness : ∃ pre' dev i cls meth r hs acts,
  take 9 (w_log given_end.2) = pre' ++ Ev (Call_readNetConfig dev i cls meth) :: Ev_netConfig r :: hs ++ [Ev (Call_netinfo acts)] ∧
  r ≠ LOADER_BACK ∧ r ≠ LOADER_ERROR ∧ (hs = [] ∨ ∃ h, hs = [Ev (Call_sethostname h)]).
Proof.
  apply (network_before_mount (fixed_kept mirror None (Some image_url)) 5 given_state Mirror given_end.1 given_end.2 (take 9 (w_log given_end.2)) mountUrlImage []).
  - change (-1 ≤ METHOD_URL < 4). unfold METHOD_URL. lia.
  - exact given_end_reachable.
  - vm_compute. reflexivity.
  - by right.
Defined.

(** The panel of mountUrlImage was left, and the URL is still there. *)
Definition at_stage2 : locals := to_step STEP_STAGE2 1 (start 0).
Lemma failed_mount_never_returns_witness : ∀ fuel r, main_loop fuel at_stage2 (mkWorld given_state Nowhere []) ≠ Ret r.
Proof.
  intros fuel r.
  apply (failed_mount_never_returns (fixed_kept nowhere None None) at_stage2 (mkWorld given_state Nowhere [])
    (mkMethod (str "URL") 1 DEVICE_NETWORK mountUrlImage) given_state Nowhere); [reflexivity | reflexivity | reflexivity | reflexivity |].
  by eexists.
Defined.

Lemma drive_has_disc : finds_disc (E := drive) (S := unit) (str "cdrom:" ++ cd_url).
Proof. split; intros st e; eexists; reflexivity. Qed.
Lemma disc_is_taken_or_hangs_witness :
  (5 ≠ LOADER_BACK → ∀ fuel, (6 <= fuel)%nat → ∃ w', doLoaderMain fuel 5 (mkWorld plain_state Drive []) =
     Ret (Returned (Some (str "cdrom:" ++ cd_url)), w') ∧
     w_log w' = [Ev Call_findAnacondaCD; Ev (Call_haveDevice DEVICE_CDROM)]) ∧
  (1 = LOADER_BACK → ∀ fuel, doLoaderMain fuel 1 (mkWorld plain_state Drive []) = NoFuel).
Proof.
  split.
  - apply (disc_is_taken_or_hangs plain_state Drive 5 cd_url plain_state_ok drive_has_disc).
  - apply (disc_is_taken_or_hangs plain_state Drive 1 cd_url plain_state_ok drive_has_disc).
Defined.

Lemma sample_static_ok : static_ld (λ _, false) given_ld 83886090 255 16777226 [str "10.0.0.2"; str "10.0.0.3"].
Proof.
  constructor; try reflexivity; try discriminate.
  - repeat constructor; cbn; discriminate.
  - constructor; [left; eexists; vm_compute; reflexivity |]. constructor; [left; eexists; vm_compute; reflexivity | constructor].
  - cbn. unfold MAXNS. lia.
  - change (2 ^ 32) with 4294967296. lia.
Qed.
Lemma given_network : network_given (E := mirror) given_state (str "eth0") (str "00:11") 83886090 255 16777226 [str "10.0.0.2"; str "10.0.0.3"].
Proof.
  constructor.
  - split; [reflexivity | split; [cbn; lia | reflexivity]].
  - exact sample_static_ok.
  - split; reflexivity.
  - intros st e; eexists; reflexivity.
  - intros st e; eexists; reflexivity.
  - intros i cls meth _ st e; eexists; reflexivity.
  - intros h st e; eexists; reflexivity.
  - intros acts st e; eexists; reflexivity.
  - intros e; split; reflexivity.
Qed.

Lemma unattended_installation_witness : ∃ w' i acts rest,
  doLoaderMain 11 5 (mkWorld given_state Mirror []) = Ret (Returned (Some image_url), w') ∧
  w_log w' = [Ev (Call_setLanguage (str "en_US")); Ev (Call_loadKeymap (str "us")); Ev (Call_haveDevice DEVICE_NETWORK);
              Ev (Call_haveDevice DEVICE_NETWORK); Ev Call_chooseNetworkInterface; Ev (Call_ethtool []);
              Ev (Call_readNetConfig (Some (str "eth0")) i (ld_s given_ld L_netCls) METHOD_URL); Ev_netConfig LOADER_NOOP] ++
             hostname_call given_state ++ [Ev (Call_netinfo acts); Ev (Call_mountImage mountUrlImage)] ∧
  setupIfaceStruct (λ _, false) 5 (set_device (str "eth0") iface_init_iface_t) given_ld = Ret (i, given_ld, []) ∧
  A_fclose (NETWORK_SCRIPTS_PATH ++ str "/.ifcfg-eth0")
    (static_file (str "eth0") (str "00:11") 83886090 255 16777226 [str "10.0.0.2"; str "10.0.0.3"] rest) ∈ acts ∧
  A_rename (NETWORK_SCRIPTS_PATH ++ str "/.ifcfg-eth0") (NETWORK_SCRIPTS_PATH ++ str "/ifcfg-eth0") ∈ acts.
Proof.
  apply (unattended_installation given_state Mirror (str "en_US") (str "us") (mkMethod (str "URL") 1 DEVICE_NETWORK mountUrlImage)
    image_url 5 2 given_all); try (intros st e; eexists; reflexivity); [reflexivity | exact given_network | cbn; lia].
Defined.
