(* ===== verification/Host.v ===== *)
(** * The calls the loader makes to mount and to copy

    [HostOps] adds to the calls of [SysOps] those on other programs, loop
    devices, directories and files open for reading. *)

From S2P Require Import Prelude CLib Sys Cpio.

(** What waitpid reports of a child. *)
Inductive wait_status := WExited (code : Z) | WSignaled.

Class HostOps (W G : Type) := {
  h_sys :: SysOps W;
  h_gz :: GzOps G;
  (* access(path, F_OK) and access(path, X_OK): 0 or errno *)
  h_exists : W → bytes → Z;
  h_searchable : W → bytes → Z;
  (* pipe succeeds *)
  h_pipe : W → bool;
  (* a child that executes the program of a list of words; what it wrote to its
     standard error *)
  h_run : W → list bytes → wait_status * bytes * W;
  h_umount : W → bytes → W;
  (* LOOP_CLR_FD on a device *)
  h_loop_clear : W → bytes → W;
  (* open(path, O_RDONLY): a descriptor or errno *)
  h_open : W → bytes → (Z + nat) * W;
  (* read(fd, buf, n): the result and the bytes *)
  h_read : W → nat → Z → Z * bytes * W;
  (* open(path, O_RDWR | O_TRUNC | O_CREAT, 0644) *)
  h_creat_empty : W → bytes → (Z + nat) * W;
  h_fchmod : W → nat → Z → W;
  (* the contents of a file opened with fopen *)
  h_contents : W → bytes → option bytes;
  (* the names readdir gives for a directory, or null *)
  h_readdir : W → bytes → option (list bytes);
  (* chdir: 0 or -1; getcwd *)
  h_chdir : W → bytes → Z * W;
  h_getcwd : W → bytes;
  (* gunzip_open *)
  h_gunzip_open : W → bytes → option G
}.

(** ** A host in memory

    Files of [memfs]; a child is /bin/mount, which changes no file.  It succeeds
    when what it is asked to mount is mountable and nothing is busy: the same
    source must not be what is mounted on the same directory last, and the loop
    device that is asked for must be free.  The calls of mount, the mounts in
    force (directory and source, the last one first) and the loop devices in use
    are kept. *)

Record host := mkHost {
  hs_fs : memfs; hs_mountable : list bytes → bool; hs_error : bytes; hs_log : list (list bytes);
  hs_table : list (bytes * bytes); hs_loops : list bytes }.
Definition with_fs (fs : memfs) (h : host) : host := mkHost fs (hs_mountable h) (hs_error h) (hs_log h) (hs_table h) (hs_loops h).

(** The words behind the options of mount, and the device of loop=. *)
Definition mount_source (argv : list bytes) : bytes := default [] (argv !! (length argv - 2)%nat).
Definition mount_point (argv : list bytes) : bytes := default [] (list.last argv).
Definition mount_loop (argv : list bytes) : option bytes :=
  if bool_decide (argv !! 4%nat = Some (str "-o"))
  then t ← argv !! 5%nat ≫= λ o, strstr o (str "loop="); let d := drop 5 t in Some (match strchr d 44 with Some r => before d r | None => d end)
  else None.
Definition mounted_on (table : list (bytes * bytes)) (dir : bytes) : option bytes := snd <$> List.find (λ e, streq (fst e) dir) table.
Definition busy (h : host) (argv : list bytes) : bool :=
  bool_decide (mounted_on (hs_table h) (mount_point argv) = Some (mount_source argv)) ||
  match mount_loop argv with Some d => bool_decide (d ∈ hs_loops h) | None => false end.
Definition mount_ok (h : host) (argv : list bytes) : bool := hs_mountable h argv && negb (busy h argv).
Definition run_mount (h : host) (argv : list bytes) : host :=
  let ok := mount_ok h argv in
  mkHost (hs_fs h) (hs_mountable h) (hs_error h) (hs_log h ++ [argv])
    (if ok then (mount_point argv, mount_source argv) :: hs_table h else hs_table h)
    (if ok then option_list (mount_loop argv) ++ hs_loops h else hs_loops h).
(** The last mount on a directory is taken away. *)
Fixpoint unmount (dir : bytes) (table : list (bytes * bytes)) : list (bytes * bytes) :=
  match table with [] => [] | e :: table => if streq (fst e) dir then table else e :: unmount dir table end.
Definition run_umount (h : host) (dir : bytes) : host :=
  mkHost (hs_fs h) (hs_mountable h) (hs_error h) (hs_log h) (unmount dir (hs_table h)) (hs_loops h).
Definition run_loop_clear (h : host) (d : bytes) : host :=
  mkHost (hs_fs h) (hs_mountable h) (hs_error h) (hs_log h) (hs_table h) (List.filter (λ x, negb (streq x d)) (hs_loops h)).

Definition lift {A} (f : memfs → A * memfs) (h : host) : A * host := let '(a, fs) := f (hs_fs h) in (a, with_fs fs h).

#[export] Instance host_sys : SysOps host := {|
  s_lstat h p := s_lstat (hs_fs h) p;
  s_stat h p := s_stat (hs_fs h) p;
  s_unlink h p := lift (λ fs, s_unlink fs p) h;
  s_mkdir h p m := lift (λ fs, s_mkdir fs p m) h;
  s_chmod h p m := lift (λ fs, s_chmod fs p m) h;
  s_chown h p u g := lift (λ fs, s_chown fs p u g) h;
  s_lchown h p u g := lift (λ fs, s_lchown fs p u g) h;
  s_utime h p t := lift (λ fs, s_utime fs p t) h;
  s_getuid h := s_getuid (hs_fs h);
  s_creat h p m := lift (λ fs, s_creat fs p m) h;
  s_write h fd d := lift (λ fs, s_write fs fd d) h;
  s_close h fd := with_fs (s_close (hs_fs h) fd) h;
  s_readlink h p n := s_readlink (hs_fs h) p n;
  s_symlink h t p := lift (λ fs, s_symlink fs t p) h;
  s_mkfifo h p m := lift (λ fs, s_mkfifo fs p m) h;
  s_mknod h p m r := lift (λ fs, s_mknod fs p m r) h;
  s_link h a b := lift (λ fs, s_link fs a b) h;
  s_access h p := s_access (hs_fs h) p
|}.

Definition fs_data (fs : memfs) (p : bytes) : option bytes :=
  match fs_lookup fs p with Some (_, i) => match i_kind i with KReg d => Some d | _ => None end | None => None end.
Definition fs_open (fs : memfs) (p : bytes) : (Z + nat) * memfs :=
  match fs_lookup fs p with
  | Some (n, _) => (inr (fs_next fs), mkFs (fs_names fs) (fs_inodes fs) (<[fs_next fs := (n, 0%nat)]> (fs_fds fs))
                                        (S (fs_next fs)) (fs_uid fs) (fs_full fs))
  | None => (inl ENOENT, fs)
  end.
Definition fs_read (fs : memfs) (fd : nat) (n : Z) : Z * bytes * memfs :=
  match fs_fds fs !! fd with
  | None => (-1, [], fs)
  | Some (k, off) =>
      match fs_inodes fs !! k with
      | Some i =>
          match i_kind i with
          | KReg c =>
              let d := slice off (Z.to_nat n) c in
              (Z.of_nat (length d), d, set_fds (<[fd := (k, (off + length d)%nat)]> (fs_fds fs)) fs)
          | _ => (-1, [], fs)
          end
      | None => (-1, [], fs)
      end
  end.
(** Change the inode of an open file. *)
Definition fs_on_fd (f : fsnode → fsnode) (fs : memfs) (fd : nat) : memfs :=
  match fs_fds fs !! fd with
  | None => fs
  | Some (k, _) => match fs_inodes fs !! k with Some i => set_inodes (<[k := f i]> (fs_inodes fs)) fs | None => fs end
  end.
Definition fs_creat_empty (fs : memfs) (p : bytes) : (Z + nat) * memfs :=
  let '(r, fs) := fs_creat fs p 0x1a4 in
  match r with
  | inr fd => (inr fd, fs_on_fd (λ i, mkInode (KReg []) (i_perm i) (i_uid i) (i_gid i) (i_mtime i)) fs fd)
  | inl e => (inl e, fs)
  end.
(** The entries of a directory, without their path. *)
Definition fs_readdir (fs : memfs) (p : bytes) : option (list bytes) :=
  match fs_lookup fs p with
  | Some (_, i) =>
      match i_kind i with
      | KDir => Some (omap (λ e : bytes * nat, if bool_decide (dirname e.1 = Some p) then tail <$> strrchr e.1 47 else None)
                           (map_to_list (fs_names fs)))
      | _ => None
      end
  | None => None
  end.

#[export] Instance host_ops : HostOps host memgz := {|
  h_exists h p := s_access (hs_fs h) p;
  h_searchable h p := s_access (hs_fs h) p;
  h_pipe h := true;
  h_run h argv := (if mount_ok h argv then WExited 0 else WExited 32, hs_error h, run_mount h argv);
  h_umount h p := run_umount h p;
  h_loop_clear h d := run_loop_clear h d;
  h_open h p := lift (λ fs, fs_open fs p) h;
  h_read h fd n := let '(r, fs) := fs_read (hs_fs h) fd n in (r, with_fs fs h);
  h_creat_empty h p := lift (λ fs, fs_creat_empty fs p) h;
  h_fchmod h fd m := with_fs (fs_on_fd (λ i, mkInode (i_kind i) m (i_uid i) (i_gid i) (i_mtime i)) (hs_fs h) fd) h;
  h_contents h p := fs_data (hs_fs h) p;
  h_readdir h p := fs_readdir (hs_fs h) p;
  h_chdir h p := (if s_access (hs_fs h) p =? 0 then 0 else -1, h);
  h_getcwd h := [47];
  h_gunzip_open h p := (λ d, mkGz d []) <$> fs_data (hs_fs h) p
|}.

(** ** The names of a file system *)

(** Inodes are numbered below the next one. *)
Definition numbered (fs : memfs) : Prop := ∀ p n, fs_names fs !! p = Some n → (n < fs_next fs)%nat.

Lemma fs_lookup_some fs p n i : fs_lookup fs p = Some (n, i) ↔ fs_names fs !! p = Some n ∧ fs_inodes fs !! n = Some i.
Proof.
  unfold fs_lookup. destruct (fs_names fs !! p) as [k |]; cbn; [| naive_solver].
  destruct (fs_inodes fs !! k) as [j |] eqn:E; cbn; naive_solver congruence.
Qed.

