(* ===== verification/Imount.v ===== *)
(** * Mounting (isys/imount.c)

    mkdirChain, doPwMount with the words it gives to /bin/mount, and
    doMultiMount, on any [HostOps].  What realloc leaves in new memory is a
    parameter. *)

From S2P Require Import Prelude CLib Posix Sys Cpio Host.

Definition IMOUNT_ERR_ERRNO : Z := 1.
Definition IMOUNT_ERR_OTHER : Z := 2.

Section imount.
Context {W G : Type} `{HostOps W G} (junk : nat → bytes).

(** ** Directories *)

Definition only_slashes (directory : bytes) : bool := forallb (Z.eqb 47) directory.

(** A name that is there is not looked at more closely. *)
Definition mkdirIfNone (directory : bytes) (w : W) : Z * W :=
  if h_searchable w directory =? 0 then (0, w)
  else if only_slashes directory then (0, w)
  else
    let '(mkerr, w) := s_mkdir w directory 0x1ed in
    (if (mkerr =? 0) || (mkerr =? EEXIST) then 0 else IMOUNT_ERR_ERRNO, w).

(** [while ((chptr = strchr(chptr, '/')))]; [chain] is what lies in front of
    [chptr]. *)
Fixpoint mkdirChain_loop (chain rest : bytes) (w : W) : Z * W :=
  match rest with
  | [] => mkdirIfNone chain w
  | c :: rest =>
      if c =? 47 then
        let '(e, w) := mkdirIfNone chain w in
        if negb (e =? 0) then (IMOUNT_ERR_ERRNO, w) else mkdirChain_loop (chain ++ [c]) rest w
      else mkdirChain_loop (chain ++ [c]) rest w
  end.
Definition mkdirChain (origChain : bytes) (w : W) : Z * W :=
  let '(e, w) := mkdirChain_loop [] origChain w in (if e =? 0 then 0 else IMOUNT_ERR_ERRNO, w).

(** ** The error messages of a child *)

(** The buffer has 4096 bytes of room behind what was read. *)
Fixpoint readFD_loop {F} `{FileOps F} (fuel : nat) (fd : F) (buf : bytes) (filesize : nat) : outcome (Z * option bytes * F) :=
  match fuel with
  | O => NoFuel
  | S fuel =>
      let '(s, d, fd) := f_read fd 4096 in
      let buf := splice filesize d buf in
      if s <? 0 then
        Ret (if bool_decide (filesize = O) then (-1, None, fd) else (Z.of_nat filesize, Some buf, fd))
      else if s =? 0 then Ret (Z.of_nat filesize, Some buf, fd)
      else readFD_loop fuel fd (buf ++ take (Z.to_nat s) (junk filesize)) (filesize + Z.to_nat s)
  end.
Definition readFD {F} `{FileOps F} (fuel : nat) (fd : F) : outcome (Z * option bytes * F) :=
  readFD_loop fuel fd (replicate 4096 0) 0.

(** ** mount *)

(** The options and the device on the command line of mount. *)
Definition mount_words (dev fs : bytes) (options : option bytes) : option bytes * bytes :=
  if bool_decide (is_Some (strstr fs (str "nfs"))) then
    (Some (match options with Some o => o ++ str ",nolock" | None => str "nolock" end), dev)
  else
    let in_dev := match options with Some o => bool_decide (strstr o (str "bind") = None) | None => false end in
    (options,
     if in_dev && negb (starts_with (str "LABEL=") dev) && negb (starts_with (str "UUID=") dev)
        && negb (bool_decide (head dev = Some 47))
     then str "/dev/" ++ dev else dev).
Definition mount_argv (device wher fs : bytes) (opts : option bytes) : list bytes :=
  [str "/bin/mount"; str "-n"; str "-t"; fs] ++ (match opts with Some o => [str "-o"; o] | None => [] end) ++ [device; wher].

(** [err] is the caller's variable for the messages: none, or its contents. *)
Definition doPwMount (fuel : nat) (dev wher fs : bytes) (options : option bytes) (err : option (option bytes)) (w : W) :
    outcome (Z * option (option bytes) * W) :=
  let '(e, w) := mkdirChain wher w in
  if negb (e =? 0) then Ret (IMOUNT_ERR_ERRNO, err, w)
  else
    let '(opts, device) := mount_words dev fs options in
    if negb (h_pipe w) then Ret (IMOUNT_ERR_ERRNO, err, w)
    else
      let '(status, text, w) := h_run w (mount_argv device wher fs opts) in
      err ← (match err with
             | Some _ => '(_, buf, _) ← readFD fuel (mkSock text []); Ret (Some buf)
             | None => Ret None
             end);
      Ret (match status with WExited c => if c =? 0 then 0 else IMOUNT_ERR_OTHER | WSignaled => IMOUNT_ERR_OTHER end, err, w).

(** [for (i = 0; fstypes[i]; i++)]; a message of an earlier type is dropped. *)
Fixpoint multi_loop (fuel : nat) (dev wher : bytes) (fstypes : list bytes) (options : option bytes) (err : option (option bytes))
    (retval : Z) (w : W) : outcome (Z * option (option bytes) * W) :=
  match fstypes with
  | [] => Ret (retval, err, w)
  | fs :: fstypes =>
      err ← (match err with
             | Some (Some m) => c ← checked (head m); Ret (if c =? 0 then err else Some None)
             | _ => Ret err
             end);
      '(retval, err, w) ← doPwMount fuel dev wher fs options err w;
      if retval =? 0 then Ret (0, err, w) else multi_loop fuel dev wher fstypes options err retval w
  end.
Definition doMultiMount (fuel : nat) (dev wher : bytes) (fstypes : list bytes) (options : option bytes)
    (err : option (option bytes)) (w : W) : outcome (Z * option (option bytes) * W) :=
  multi_loop fuel dev wher fstypes options err 0 w.
End imount.
