(* ===== verification/ImountFacts.v ===== *)
(** * Properties of the mounts

    mkdirChain makes every directory of a path and nothing else, and a second
    call finds nothing to do; doMultiMount tries its types in order up to the
    first that mounts.  All on the host in memory. *)

From S2P Require Import Prelude CLib Posix Sys Cpio Host Imount.

(** ** Directories *)

Abbreviation mkdir_if := (@mkdirIfNone host memgz host_ops).
Abbreviation chain_loop := (@mkdirChain_loop host memgz host_ops).
Abbreviation mkdirs := (@mkdirChain host memgz host_ops).

(** A call that has only made files: what was there is there, and mount was not
    run. *)
Record grown (h h' : host) : Prop := {
  gr_kept : ∀ p n i, fs_lookup (hs_fs h) p = Some (n, i) → fs_lookup (hs_fs h') p = Some (n, i);
  gr_next : (fs_next (hs_fs h) ≤ fs_next (hs_fs h'))%nat;
  gr_mountable : hs_mountable h' = hs_mountable h;
  gr_error : hs_error h' = hs_error h;
  gr_log : hs_log h' = hs_log h;
  gr_table : hs_table h' = hs_table h ∧ hs_loops h' = hs_loops h }.
#[export] Instance grown_preorder : PreOrder grown.
Proof.
  split; [intros h; by constructor |]. intros h1 h2 h3 [K1 N1 M1 E1 L1 [T1 P1]] [K2 N2 M2 E2 L2 [T2 P2]].
  constructor; [naive_solver | lia | congruence.. | split; congruence].
Qed.

Definition there (h : host) (p : bytes) : Prop := is_Some (fs_lookup (hs_fs h) p) ∨ only_slashes p = true.

Lemma access_there fs p : s_access fs p = 0 ↔ is_Some (fs_lookup fs p).
Proof.
  cbn. destruct (fs_lookup fs p) as [x |]; split; try done; by intros [].
Qed.
Lemma there_grown h h' p : grown h h' → there h p → there h' p.
Proof. intros G [[[n i] L] | ?]; [left; exists (n, i); by apply (gr_kept _ _ G) | by right]. Qed.

(** A name that is made. *)
Definition with_dir (p : bytes) (h : host) : host :=
  with_fs (mkFs (<[p := fs_next (hs_fs h)]> (fs_names (hs_fs h)))
             (<[fs_next (hs_fs h) := mkInode KDir 0x1ed 0 0 0]> (fs_inodes (hs_fs h))) (fs_fds (hs_fs h))
             (S (fs_next (hs_fs h))) (fs_uid (hs_fs h)) (fs_full (hs_fs h))) h.
Lemma with_dir_lookup p h : fs_lookup (hs_fs (with_dir p h)) p = Some (fs_next (hs_fs h), mkInode KDir 0x1ed 0 0 0).
Proof. unfold fs_lookup, with_dir. cbn. rewrite lookup_insert_eq. cbn. by rewrite lookup_insert_eq. Qed.
Lemma with_dir_other p q h : numbered (hs_fs h) → q ≠ p → fs_lookup (hs_fs (with_dir p h)) q = fs_lookup (hs_fs h) q.
Proof.
  intros Hn Hq. unfold fs_lookup, with_dir. cbn. rewrite lookup_insert_ne by done.
  destruct (fs_names (hs_fs h) !! q) as [n |] eqn:E; [| done]. cbn. pose proof (Hn _ _ E). by rewrite lookup_insert_ne by lia.
Qed.
Lemma with_dir_numbered p h : numbered (hs_fs h) → numbered (hs_fs (with_dir p h)).
Proof.
  intros Hn q n. cbn. destruct (decide (q = p)) as [-> |]; [rewrite lookup_insert_eq; intros [= <-]; lia |].
  rewrite lookup_insert_ne by done. intros E. specialize (Hn _ _ E). lia.
Qed.
Lemma with_dir_grown p h : numbered (hs_fs h) → fs_lookup (hs_fs h) p = None → grown h (with_dir p h).
Proof.
  intros Hn Hp. constructor; try done; [| cbn; lia]. intros q n i L. rewrite with_dir_other; [done.. |]. intros ->. congruence.
Qed.

Lemma mkdirIfNone_there h d : there h d → mkdir_if d h = (0, h).
Proof.
  unfold mkdirIfNone. change (h_searchable h d) with (s_access (hs_fs h) d). intros Ht.
  destruct (Z.eqb_spec (s_access (hs_fs h) d) 0) as [| Hne]; [done |]. destruct Ht as [Ht | ->]; [| done].
  by apply access_there in Ht.
Qed.
Lemma mkdirIfNone_makes h d : ¬ there h d → parent_ok (hs_fs h) d = true → mkdir_if d h = (0, with_dir d h).
Proof.
  intros Ht Hp. unfold mkdirIfNone. change (h_searchable h d) with (s_access (hs_fs h) d).
  assert (fs_lookup (hs_fs h) d = None) as L by (apply eq_None_not_Some; intros ?; apply Ht; by left).
  destruct (Z.eqb_spec (s_access (hs_fs h) d) 0) as [E%access_there | _]; [by rewrite L in E; destruct E |].
  destruct (only_slashes d) eqn:Eo; [by destruct Ht; right |].
  cbn [s_mkdir h_sys host_ops host_sys]. unfold lift. cbn [s_mkdir memfs_ops]. unfold fs_create.
  rewrite L, Hp, bool_decide_eq_false_2 by (by intros []). done.
Qed.
(** A directory that could be entered is there; no other call was made. *)
Lemma mkdirIfNone_ok h d h' : numbered (hs_fs h) → mkdir_if d h = (0, h') →
  there h' d ∧ grown h h' ∧ numbered (hs_fs h') ∧ ∀ q, q ≠ d → fs_lookup (hs_fs h') q = fs_lookup (hs_fs h) q.
Proof.
  intros Hn. destruct (decide (is_Some (fs_lookup (hs_fs h) d))) as [Hs | Hs]; [| destruct (only_slashes d) eqn:Eo].
  1, 2: rewrite mkdirIfNone_there by (unfold there; tauto); intros [= <-]; split_and!; try done; unfold there; tauto.
  destruct (parent_ok (hs_fs h) d) eqn:Hp.
  - rewrite mkdirIfNone_makes by (unfold there; naive_solver congruence). intros [= <-]. split_and!.
    + left. rewrite with_dir_lookup. by eexists.
    + apply with_dir_grown; [done | by apply eq_None_not_Some].
    + by apply with_dir_numbered.
    + intros q Hq. by apply with_dir_other.
  - unfold mkdirIfNone. change (h_searchable h d) with (s_access (hs_fs h) d).
    destruct (Z.eqb_spec (s_access (hs_fs h) d) 0) as [E%access_there | _]; [done |]. rewrite Eo.
    cbn [s_mkdir h_sys host_ops host_sys]. unfold lift. cbn [s_mkdir memfs_ops]. unfold fs_create.
    rewrite Hp. rewrite bool_decide_eq_false_2 by done. cbn. by intros [= ].
Qed.

(** The names mkdirChain tries, in their order. *)
Fixpoint tried (chain rest : bytes) : list bytes :=
  match rest with
  | [] => [chain]
  | c :: rest => if c =? 47 then chain :: tried (chain ++ [c]) rest else tried (chain ++ [c]) rest
  end.
Fixpoint make_all (ds : list bytes) (h : host) : Z * host :=
  match ds with
  | [] => (0, h)
  | d :: ds => let '(e, h) := mkdir_if d h in if e =? 0 then make_all ds h else (IMOUNT_ERR_ERRNO, h)
  end.

Lemma mkdirIfNone_rc h d : fst (mkdir_if d h) = 0 ∨ fst (mkdir_if d h) = IMOUNT_ERR_ERRNO.
Proof.
  unfold mkdirIfNone. destruct (_ =? 0); [by left |]. destruct (only_slashes d); [by left |].
  destruct (s_mkdir h d _) as [e h1]. cbn. destruct (_ || _); tauto.
Qed.
Lemma loop_tried rest : ∀ chain h, chain_loop chain rest h = make_all (tried chain rest) h.
Proof.
  induction rest as [| c rest IH]; intros chain h; cbn [mkdirChain_loop tried].
  - cbn [make_all]. pose proof (mkdirIfNone_rc h chain) as Hrc. destruct (mkdir_if chain h) as [e h1]. cbn in Hrc. by destruct Hrc as [-> | ->].
  - destruct (c =? 47); [cbn [make_all] | apply IH]. destruct (mkdir_if chain h) as [e h1]. destruct (Z.eqb_spec e 0); cbn [negb]; [apply IH | done].
Qed.
Lemma mkdirs_tried p h : mkdirs p h = make_all (tried [] p) h.
Proof.
  unfold mkdirChain. rewrite loop_tried. generalize (tried [] p) as ds. intros ds. revert h.
  induction ds as [| d ds IH]; intros h; [done |]. cbn [make_all]. destruct (mkdir_if d h) as [e h1].
  destruct (e =? 0); [apply IH | done].
Qed.

Lemma make_all_there ds h : Forall (there h) ds → make_all ds h = (0, h).
Proof. induction 1 as [| d ds Hd Hds IH]; [done |]. cbn [make_all]. rewrite mkdirIfNone_there by done. done. Qed.
Lemma make_all_ok ds : ∀ h h', numbered (hs_fs h) → make_all ds h = (0, h') →
  Forall (there h') ds ∧ grown h h' ∧ numbered (hs_fs h') ∧ ∀ q, q ∉ ds → fs_lookup (hs_fs h') q = fs_lookup (hs_fs h) q.
Proof.
  induction ds as [| d ds IH]; intros h h' Hn; cbn [make_all]; [intros [= <-]; split_and!; by auto |].
  destruct (mkdir_if d h) as [e h1] eqn:E. destruct (Z.eqb_spec e 0) as [-> |]; [| by intros [=]].
  intros E2. destruct (mkdirIfNone_ok _ _ _ Hn E) as (T & G & N & O). destruct (IH _ _ N E2) as (T2 & G2 & N2 & O2).
  split_and!; [constructor; [by eapply there_grown | done] | by etrans | done |].
  intros q [? ?]%not_elem_of_cons. by rewrite O2, O.
Qed.

(** A path of which every tried name but the slashes has its directory tried
    before, and no existing file is in the way. *)
Fixpoint parents_first (done ds : list bytes) : Prop :=
  match ds with
  | [] => True
  | d :: ds => (only_slashes d = false → match dirname d with Some q => q ∈ done ∧ only_slashes q = false | None => True end) ∧
               parents_first (d :: done) ds
  end.
Definition is_dir (fs : memfs) (d : bytes) : Prop := ∃ n i, fs_lookup fs d = Some (n, i) ∧ i_kind i = KDir.
Definition no_file (fs : memfs) (d : bytes) : Prop := fs_lookup fs d = None ∨ is_dir fs d.

Lemma is_dir_grown h h' d : grown h h' → is_dir (hs_fs h) d → is_dir (hs_fs h') d.
Proof. intros G (n & i & L & K). exists n, i. split; [by apply (gr_kept _ _ G) | done]. Qed.

Lemma make_all_makes ds : ∀ done_ h, numbered (hs_fs h) → parents_first done_ ds → Forall (no_file (hs_fs h)) ds →
  Forall (λ q, only_slashes q = false → is_dir (hs_fs h) q) done_ →
  ∃ h', make_all ds h = (0, h') ∧ Forall (λ q, only_slashes q = false → is_dir (hs_fs h') q) ds.
Proof.
  induction ds as [| d ds IH]; intros done_ h Hn Hp Hf Hd; [by exists h |]. destruct Hp as [Hp1 Hp2].
  apply list.Forall_cons in Hf as [Hf1 Hf2].
  assert (∃ h1, mkdir_if d h = (0, h1) ∧ numbered (hs_fs h1) ∧ grown h h1 ∧ Forall (no_file (hs_fs h1)) ds ∧
    (only_slashes d = false → is_dir (hs_fs h1) d)) as (h1 & E & N1 & G1 & F1 & D1).
  { destruct (only_slashes d) eqn:Eo; [exists h; rewrite mkdirIfNone_there by (by right); by split_and! |].
    destruct Hf1 as [L | D].
    - rewrite mkdirIfNone_makes; [| intros [[x Hx] |]; congruence |].
      + exists (with_dir d h). split_and!; [done | by apply with_dir_numbered | by apply with_dir_grown | |].
        * eapply list.Forall_impl; [exact Hf2 |]. intros q Hq. unfold no_file, is_dir.
          destruct (decide (q = d)) as [-> | Hne]; [right; rewrite with_dir_lookup; by eauto |]. by rewrite with_dir_other.
        * intros _. unfold is_dir. rewrite with_dir_lookup. by eauto.
      + specialize (Hp1 eq_refl). unfold parent_ok. destruct (dirname d) as [q |]; [| done]. destruct Hp1 as [Hq1 Hq2].
        rewrite list.Forall_forall in Hd. destruct (Hd q Hq1 Hq2) as (n & i & -> & ->). done.
    - exists h. split_and!; try done. destruct D as (n & i & L & _). apply mkdirIfNone_there. left. by rewrite L. }
  destruct (IH (d :: done_) h1 N1 Hp2 F1) as (h' & E' & F').
  { constructor; [done |]. eapply list.Forall_impl; [exact Hd |]. intros q Hq ?. by eapply is_dir_grown; [| apply Hq]. }
  exists h'. split; [cbn [make_all]; by rewrite E |]. constructor; [| done].
  intros Ho. destruct (make_all_ok _ _ _ N1 E') as (_ & G2 & _). eapply is_dir_grown; [exact G2 | by apply D1].
Qed.

(** A path of components. *)
Definition abs_path (cs : list bytes) : bytes := mjoin ((λ c, 47 :: c) <$> cs).
Definition component (c : bytes) : Prop := c ≠ [] ∧ Forall (λ b, b ≠ 47) c.
Definition ancestors (cs : list bytes) : list bytes := (λ k, abs_path (take k cs)) <$> seq 0 (S (length cs)).

Lemma abs_path_cons c cs : abs_path (c :: cs) = 47 :: c ++ abs_path cs.
Proof. done. Qed.
Lemma abs_path_app a b : abs_path (a ++ b) = abs_path a ++ abs_path b.
Proof. unfold abs_path. by rewrite fmap_app, join_app. Qed.
Lemma tried_component c : Forall (λ b, b ≠ 47) c → ∀ pre r, tried pre (c ++ r) = tried (pre ++ c) r.
Proof.
  induction 1 as [| b c Hb Hc IH]; intros pre r; [by rewrite app_nil_r |]. cbn [app tried].
  destruct (Z.eqb_spec b 47); [done |]. by rewrite IH, <- app_assoc.
Qed.
Lemma tried_path cs : Forall component cs → ∀ pre, tried pre (abs_path cs) = (app pre) <$> ancestors cs.
Proof.
  induction 1 as [| c cs [_ Hc] Hcs IH]; intros pre; [cbn; by rewrite app_nil_r |].
  rewrite abs_path_cons. cbn [tried]. change (47 =? 47) with true. cbn iota. rewrite tried_component by done.
  rewrite IH. unfold ancestors. cbn [length]. change (seq 0 (S (S (length cs)))) with (0%nat :: seq 1 (S (length cs))).
  rewrite !fmap_cons. change (abs_path (take 0 (c :: cs))) with (@nil Z). rewrite app_nil_r. f_equal.
  rewrite <- fmap_S_seq, <- !list_fmap_compose. apply list_fmap_ext. intros i k _. unfold compose.
  change (take (S k) (c :: cs)) with (c :: take k cs). rewrite abs_path_cons, <- !app_assoc. done.
Qed.

Lemma strrchr_last s r c : Forall (λ b, b ≠ c) r → strrchr (s ++ c :: r) c = Some (c :: r).
Proof.
  intros Hr. assert (strrchr r c = None) as Hn.
  { induction Hr as [| b r Hb Hr IH]; [done |]. cbn. rewrite IH. by destruct (Z.eqb_spec b c). }
  induction s as [| b s IH]; cbn; [by rewrite Hn, Z.eqb_refl | by rewrite IH].
Qed.
Lemma dirname_abs p c : component c → dirname (abs_path (p ++ [c])) = match p with [] => None | _ => Some (abs_path p) end.
Proof.
  intros [_ Hc]. rewrite abs_path_app. unfold dirname. replace (abs_path [c]) with (47 :: c) by (cbn; by rewrite app_nil_r).
  rewrite strrchr_last by done. rewrite before_app. destruct p; [done |]. by rewrite abs_path_cons.
Qed.
Lemma only_slashes_abs p c : component c → only_slashes (abs_path (p ++ [c])) = false.
Proof.
  intros [Hn Hc]. rewrite abs_path_app. unfold only_slashes. rewrite forallb_app. apply andb_false_iff. right.
  destruct c as [| b c]; [done |]. inversion Hc; subst. change (abs_path [b :: c]) with (47 :: b :: c ++ []).
  cbn [forallb]. destruct (Z.eqb_spec 47 b); [congruence | done].
Qed.

Lemma take_last {A} (l : list A) k : (k < length l)%nat → ∃ x, x ∈ l ∧ take (S k) l = take k l ++ [x].
Proof.
  intros Hk. destruct (lookup_lt_is_Some_2 l k Hk) as [x Hx]. exists x. split; [by eapply list_elem_of_lookup_2 |]. by apply take_S_r.
Qed.
Lemma parents_first_ancestors cs n : Forall component cs → ∀ k done_, (k + n = S (length cs))%nat →
  (∀ j, (j < k)%nat → abs_path (take j cs) ∈ done_) →
  parents_first done_ ((λ k, abs_path (take k cs)) <$> seq k n).
Proof.
  intros Hcs. induction n as [| n IH]; intros k done_ Hk Hd; [done |]. cbn [seq fmap list_fmap parents_first]. split.
  - intros Ho. destruct k as [| k]; [done |]. destruct (take_last cs k ltac:(lia)) as (c & Hc & E). rewrite E.
    rewrite list.Forall_forall in Hcs. rewrite dirname_abs by auto. destruct (take k cs) as [| c' p] eqn:Ep; [done |].
    split; [rewrite <- Ep; apply Hd; lia |]. destruct k as [| k]; [done |].
    destruct (take_last cs k ltac:(lia)) as (c2 & Hc2 & E2). rewrite <- Ep, E2. apply only_slashes_abs. auto.
  - apply IH; [lia |]. intros j Hj. apply elem_of_cons. destruct (decide (j = k)) as [-> |]; [by left | right; apply Hd; lia].
Qed.

(** mkdirChain makes every directory of a path and nothing else: when no
    file is in the way it gives 0, each part of the path is a directory
    afterwards, no other name is touched and what was there is kept; a second call
    finds nothing to do. *)
Theorem mkdirChain_makes cs h (Hnum : numbered (hs_fs h)) (Hcs : Forall component cs)
  (Hfree : Forall (no_file (hs_fs h)) (ancestors cs)) :
  ∃ h', mkdirs (abs_path cs) h = (0, h') ∧ mkdirs (abs_path cs) h' = (0, h') ∧
    (∀ k, (0 < k ≤ length cs)%nat → is_dir (hs_fs h') (abs_path (take k cs))) ∧
    (∀ q, q ∉ ancestors cs → fs_lookup (hs_fs h') q = fs_lookup (hs_fs h) q) ∧ grown h h'.
Proof.
  assert (tried [] (abs_path cs) = ancestors cs) as Et.
  { rewrite tried_path by done. apply list_fmap_id. }
  destruct (make_all_makes (ancestors cs) [] h Hnum) as (h' & E & D); [| done | constructor |].
  { apply parents_first_ancestors; [done | done |]. lia. }
  destruct (make_all_ok _ _ _ Hnum E) as (T & G & _ & O). exists h'. rewrite !mkdirs_tried, Et. split_and!; try done.
  - by apply make_all_there.
  - intros k Hk. rewrite list.Forall_forall in D. apply D.
    + apply list_elem_of_fmap. exists k. split; [done |]. apply elem_of_seq. lia.
    + destruct k as [| k]; [lia |]. destruct (take_last cs k ltac:(lia)) as (c & Hc & ->). apply only_slashes_abs.
      rewrite list.Forall_forall in Hcs. auto.
Qed.

Definition empty_host : host := mkHost (mkFs ∅ ∅ ∅ 0 0 false) (λ _, false) [] [] [] [].
Lemma mkdirChain_makes_witness :
  ∃ h', mkdirs (str "/mnt/isodir") empty_host = (0, h') ∧ mkdirs (str "/mnt/isodir") h' = (0, h') ∧
    (∀ k, (0 < k ≤ 2)%nat → is_dir (hs_fs h') (abs_path (take k [str "mnt"; str "isodir"]))) ∧
    (∀ q, q ∉ ancestors [str "mnt"; str "isodir"] → fs_lookup (hs_fs h') q = fs_lookup (hs_fs empty_host) q) ∧ grown empty_host h'.
Proof.
  apply (mkdirChain_makes [str "mnt"; str "isodir"] empty_host).
  - intros p n E. vm_compute in E. discriminate.
  - repeat constructor; discriminate.
  - repeat constructor.
Defined.

(** ** The messages of mount *)

Section mounts.
Context (junk : nat → bytes) (Hjunk : ∀ n, (4096 ≤ length (junk n))%nat).

Lemma readFD_loop_reads fuel : ∀ text out buf n, (length text < fuel)%nat → length buf = (n + 4096)%nat →
  ∃ pad, readFD_loop junk fuel (mkSock text out) buf n = Ret (Z.of_nat (n + length text), Some (take n buf ++ text ++ pad), mkSock [] out) ∧
    length pad = 4096%nat ∧ ((length text < 4096)%nat → take (4096 - length text) pad = drop (n + length text) buf).
Proof.
  induction fuel as [| fuel IH]; intros text out buf n Hf Hb; [lia |]. cbn [readFD_loop f_read sock_ops]. unfold sk_read. cbn [sk_in sk_out].
  change (Z.to_nat 4096) with 4096%nat. set (d := take 4096 text).
  assert (length d = Nat.min 4096 (length text)) as Hd by apply length_take.
  destruct (Z.ltb_spec (Z.of_nat (length d)) 0); [lia |]. destruct (Z.eqb_spec (Z.of_nat (length d)) 0) as [E | E].
  - assert (text = []) as -> by (destruct text; [done | cbn [length] in Hd; lia]). exists (drop n buf). split_and!.
    + unfold d. rewrite take_nil. unfold splice. cbn [length app]. by rewrite Nat.add_0_r, take_drop.
    + rewrite length_drop. lia.
    + intros _. cbn [length]. rewrite Nat.add_0_r, take_ge; [done |]. rewrite length_drop. lia.
  - set (buf' := splice n d buf ++ take (Z.to_nat (Z.of_nat (length d))) (junk n)).
    assert (length (splice n d buf) = (n + 4096)%nat) as Hs by (rewrite length_splice; lia).
    assert (take (n + length d) buf' = take n buf ++ d) as Et.
    { unfold buf'. rewrite take_app_le by lia. apply take_splice. lia. }
    destruct (IH (drop 4096 text) out buf' (n + Z.to_nat (Z.of_nat (length d)))%nat) as (pad & E1 & Hp1 & Hp2).
    { rewrite length_drop. lia. }
    { unfold buf'. rewrite length_app, Hs, length_take. specialize (Hjunk n). lia. }
    rewrite Nat2Z.id in E1, Hp2. rewrite Et in E1. exists pad. split_and!; [| done |].
    + rewrite Nat2Z.id, E1, <- app_assoc, (app_assoc d). unfold d. rewrite take_drop. do 3 f_equal. rewrite length_drop. unfold d in Hd. lia.
    + intros Hlt. assert (drop 4096 text = []) as E0 by (apply drop_ge; lia). rewrite E0 in Hp2. cbn [length] in Hp2.
      specialize (Hp2 ltac:(lia)). rewrite Nat.add_0_r in Hp2. rewrite (take_ge pad) in Hp2 by lia. rewrite Hp2.
      assert (length d = length text) as -> by lia. unfold buf'. rewrite drop_app_le by lia.
      assert (take (4096 - length text) (drop (n + length text) (splice n d buf) ++ take (length text) (junk n)) =
              drop (n + length text) (splice n d buf)) as E2.
      { rewrite take_app_le by (rewrite length_drop; lia). apply take_ge. rewrite length_drop. lia. }
      replace (Z.to_nat (Z.of_nat (length d))) with (length text) by lia. rewrite E2. unfold splice.
      assert (length d = length text) as -> by lia. rewrite app_assoc, drop_app_ge; rewrite length_app, length_take; [| lia].
      rewrite drop_drop. f_equal. lia.
Qed.

(** readFD gives all that a child wrote to its standard error, and ends: the
    buffer has the text and 4096 bytes behind it.  A text shorter than 4096 bytes
    is terminated by a null; behind a longer one lies what realloc left. *)
Theorem readFD_terminated text fuel (Hfuel : (length text < fuel)%nat) (Hnul : Forall (λ b, b ≠ 0) text) :
  ∃ pad, readFD junk fuel (mkSock text []) = Ret (Z.of_nat (length text), Some (text ++ pad), mkSock [] []) ∧ length pad = 4096%nat ∧
    ((length text < 4096)%nat → until_nul (text ++ pad) = text).
Proof.
  unfold readFD. destruct (readFD_loop_reads fuel text [] (replicate 4096 0) 0 Hfuel) as (pad & E & Hl & Hp).
  { by rewrite length_replicate. }
  rewrite take_0 in E. exists pad. split_and!; [done.. |]. intros Hlt. specialize (Hp Hlt).
  rewrite drop_replicate in Hp. destruct pad as [| b pad]; [cbn in Hl; lia |].
  replace (4096 - length text)%nat with (S (4095 - length text)) in Hp by lia.
  replace (4096 - (0 + length text))%nat with (S (4095 - length text)) in Hp by lia. cbn [take replicate] in Hp. injection Hp as -> _.
  by apply until_nul_app_nul.
Qed.

(** ** mount *)

Definition argv_of (dev wher : bytes) (options : option bytes) (fs : bytes) : list bytes :=
  let '(opts, device) := mount_words dev fs options in mount_argv device wher fs opts.
(** The host after [mount] was run on the words. *)
Definition ran (argvs : list (list bytes)) (h : host) : host := foldl run_mount h argvs.
Lemma ran_ran a b h : ran b (ran a h) = ran (a ++ b) h.
Proof. unfold ran. by rewrite foldl_app. Qed.
Lemma ran_nil h : ran [] h = h.
Proof. done. Qed.
(** Mounting changes no file and is written down. *)
Lemma ran_kept a : ∀ h, hs_fs (ran a h) = hs_fs h ∧ hs_mountable (ran a h) = hs_mountable h ∧ hs_error (ran a h) = hs_error h ∧
  hs_log (ran a h) = hs_log h ++ a.
Proof.
  induction a as [| x a IH]; intros h; [by rewrite app_nil_r |]. change (ran (x :: a) h) with (ran a (run_mount h x)).
  destruct (IH (run_mount h x)) as (-> & -> & -> & ->). split_and!; [done .. |]. cbn. by rewrite <- app_assoc.
Qed.
Lemma ran_fs a h : hs_fs (ran a h) = hs_fs h.
Proof. apply ran_kept. Qed.
Lemma ran_error a h : hs_error (ran a h) = hs_error h.
Proof. apply ran_kept. Qed.
Lemma there_ran a h d : there h d → there (ran a h) d.
Proof. unfold there. by rewrite ran_fs. Qed.
(** Calls that fail are only written down. *)
Definition noted (argvs : list (list bytes)) (h : host) : host :=
  mkHost (hs_fs h) (hs_mountable h) (hs_error h) (hs_log h ++ argvs) (hs_table h) (hs_loops h).
Lemma ran_refused a : ∀ h, Forall (λ x, mount_ok h x = false) a → ran a h = noted a h.
Proof.
  induction a as [| x a IH]; intros h Ha; [unfold noted; rewrite app_nil_r; by destruct h |].
  apply list.Forall_cons in Ha as [Hx Ha]. change (ran (x :: a) h) with (ran a (run_mount h x)).
  assert (run_mount h x = noted [x] h) as -> by (unfold run_mount; by rewrite Hx). rewrite IH by exact Ha.
  unfold noted. cbn. by rewrite <- app_assoc.
Qed.

(** The words of a call. *)
Lemma argv_words dev wher options fs :
  mount_source (argv_of dev wher options fs) = snd (mount_words dev fs options) ∧ mount_point (argv_of dev wher options fs) = wher.
Proof. unfold argv_of. destruct (mount_words dev fs options) as [[o |] d]; split; reflexivity. Qed.

(** What the caller's variable holds after a call. *)
Definition err_after (fuel : nat) (text : bytes) (err : option (option bytes)) : option (option bytes) :=
  match err with
  | None => None
  | Some _ => match readFD junk fuel (mkSock text []) with Ret (_, buf, _) => Some buf | _ => None end
  end.
Lemma err_after_twice fuel text e : err_after fuel text (err_after fuel text e) = err_after fuel text e.
Proof. unfold err_after. destruct e as [e |]; [| done]. by destruct (readFD junk fuel _) as [[[? ?] ?] | |]. Qed.

Abbreviation pw fuel := (@doPwMount host memgz host_ops junk fuel).
Abbreviation multi fuel := (@multi_loop host memgz host_ops junk fuel).

Lemma doPwMount_host fuel dev wher fs options err h h1 (Hdir : mkdirs wher h = (0, h1)) (Hfuel : (length (hs_error h1) < fuel)%nat) :
  pw fuel dev wher fs options err h =
  Ret (if mount_ok h1 (argv_of dev wher options fs) then 0 else IMOUNT_ERR_OTHER, err_after fuel (hs_error h1) err,
       ran [argv_of dev wher options fs] h1).
Proof.
  unfold doPwMount. rewrite Hdir. cbn [negb]. change (0 =? 0) with true. cbn [negb]. unfold argv_of.
  destruct (mount_words dev fs options) as [opts device]. cbn [h_pipe h_run host_ops negb].
  destruct (readFD_loop_reads fuel (hs_error h1) [] (replicate 4096 0) 0 Hfuel) as (pad & E & _); [by rewrite length_replicate |].
  change (readFD_loop junk fuel (mkSock (hs_error h1) []) (replicate 4096 0) 0) with (readFD junk fuel (mkSock (hs_error h1) [])) in E.
  unfold err_after. destruct err as [e |]; [rewrite E |]; cbn [mbind outcome_bind]; by destruct (mount_ok h1 _).
Qed.


(** The types that are tried: up to the first that mounts. *)
Fixpoint up_to {A} (P : A → bool) (l : list A) : list A :=
  match l with [] => [] | x :: l => if P x then [x] else x :: up_to P l end.
Definition mounts (h : host) (dev wher : bytes) (options : option bytes) (fs : bytes) : bool :=
  mount_ok h (argv_of dev wher options fs).

(** Attempts with the types of a list: the last one mounts or none does. *)
Lemma ran_types f l h src pt lp : Forall (λ x : bytes, mount_source (f x) = src ∧ mount_point (f x) = pt ∧ mount_loop (f x) = lp) l →
  ran (f <$> up_to (λ x, mount_ok h (f x)) l) h =
  if existsb (λ x, mount_ok h (f x)) l
  then mkHost (hs_fs h) (hs_mountable h) (hs_error h) (hs_log h ++ (f <$> up_to (λ x, mount_ok h (f x)) l)) ((pt, src) :: hs_table h)
         (option_list lp ++ hs_loops h)
  else noted (f <$> l) h.
Proof.
  intros Hl. revert h. induction Hl as [| x l (Hs & Hp & Hlp) Hl IH]; intros h; [unfold noted; cbn; rewrite app_nil_r; by destruct h |].
  cbn [existsb up_to]. destruct (mount_ok h (f x)) eqn:Ex; cbn [orb].
  - change (ran (f <$> [x]) h) with (run_mount h (f x)). unfold run_mount. by rewrite Ex, Hs, Hp, Hlp.
  - specialize (IH (noted [f x] h)). change (mount_ok (noted [f x] h)) with (mount_ok h) in IH.
    rewrite !fmap_cons. change (ran (f x :: ?a) h) with (ran a (run_mount h (f x))).
    assert (run_mount h (f x) = noted [f x] h) as -> by (unfold run_mount; by rewrite Ex).
    rewrite IH. destruct (existsb _ l); unfold noted; cbn; by rewrite <- app_assoc.
Qed.

Lemma err_after_some fuel text err : (length text < fuel)%nat →
  err_after fuel text err = None ∨ ∃ c m, err_after fuel text err = Some (Some (c :: m)).
Proof.
  intros Hf. unfold err_after. destruct err as [e |]; [right | by left].
  destruct (readFD_loop_reads fuel text [] (replicate 4096 0) 0 Hf) as (pad & E & Hl & _); [by rewrite length_replicate |].
  change (readFD_loop junk fuel (mkSock text []) (replicate 4096 0) 0) with (readFD junk fuel (mkSock text [])) in E. rewrite E, take_0.
  cbn [app]. destruct text as [| c text]; [destruct pad as [| c pad]; [cbn in Hl; lia |] |]; by eauto.
Qed.

Lemma multi_host fuel dev wher options fstypes : ∀ err retval h, Forall (there h) (tried [] wher) → (length (hs_error h) < fuel)%nat →
  (err = None ∨ err = Some None ∨ ∃ c m, err = Some (Some (c :: m))) →
  multi fuel dev wher fstypes options err retval h =
  Ret (if existsb (mounts h dev wher options) fstypes then 0 else if bool_decide (fstypes = []) then retval else IMOUNT_ERR_OTHER,
       if bool_decide (fstypes = []) then err else err_after fuel (hs_error h) err,
       ran (argv_of dev wher options <$> up_to (mounts h dev wher options) fstypes) h).
Proof.
  induction fstypes as [| fs fstypes IH]; intros err retval h Hd Hf He; [done |]. cbn [multi_loop existsb up_to].
  rewrite bool_decide_eq_false_2 by done.
  assert (∃ err1, (match err with
      | Some (Some m) => c ← checked (head m); Ret (if c =? 0 then err else Some None) | _ => Ret err end) = Ret err1 ∧
      err_after fuel (hs_error h) err1 = err_after fuel (hs_error h) err) as (err1 & -> & Ea).
  { destruct He as [-> | [-> | (c & m & ->)]]; [by eexists.. |]. cbn. destruct (c =? 0); by eexists. }
  cbn [mbind outcome_bind].
  rewrite (doPwMount_host fuel dev wher fs options err1 h h), Ea; [| rewrite mkdirs_tried; by apply make_all_there | done].
  cbn [mbind outcome_bind]. fold (mounts h dev wher options fs). destruct (mounts h dev wher options fs) eqn:Hno; cbn [orb Z.eqb]; [done |].
  change (IMOUNT_ERR_OTHER =? 0) with false. cbn iota.
  rewrite (IH _ _ (ran [argv_of dev wher options fs] h)); [| done | done |].
  - assert (mounts (ran [argv_of dev wher options fs] h) dev wher options = mounts h dev wher options) as ->.
    { rewrite ran_refused; [done |]. by constructor. }
    rewrite ran_ran, fmap_cons. change (hs_error (ran _ h)) with (hs_error h). rewrite err_after_twice.
    destruct (existsb _ fstypes); [| by destruct (bool_decide _)]. by destruct (bool_decide _).
  - destruct (err_after_some fuel (hs_error h) err Hf) as [-> | ?]; tauto.
Qed.

(** doMultiMount tries the types of its list in their order, each once, and
    stops behind the first that mounts; it gives 0 when one does and an error of
    mount when none does, and the message of the last attempt.  The directory is
    made once. *)
Theorem doMultiMount_first fuel dev wher fstypes options err h h1 (Hnum : numbered (hs_fs h)) (Hdir : mkdirs wher h = (0, h1))
  (Hfuel : (length (hs_error h) < fuel)%nat) (Herr : err = None ∨ err = Some None) (Htypes : fstypes ≠ []) :
  @doMultiMount host memgz host_ops junk fuel dev wher fstypes options err h =
  Ret (if existsb (mounts h dev wher options) fstypes then 0 else IMOUNT_ERR_OTHER,
       err_after fuel (hs_error h) err,
       ran (argv_of dev wher options <$> up_to (mounts h dev wher options) fstypes) h1).
Proof.
  rewrite mkdirs_tried in Hdir. destruct (make_all_ok _ _ _ Hnum Hdir) as (Ht & G & _). unfold doMultiMount.
  assert (hs_error h1 = hs_error h) as Ee by apply (gr_error _ _ G).
  assert (mounts h1 dev wher options = mounts h dev wher options) as Em by (unfold mounts, mount_ok, busy; destruct (gr_table _ _ G) as [-> ->]; by rewrite (gr_mountable _ _ G)).
  assert (∀ r, multi fuel dev wher fstypes options err r h = multi fuel dev wher fstypes options err r h1) as ->.
  { intros r. destruct fstypes as [| fs fstypes]; [done |]. cbn [multi_loop].
    assert (∀ e, pw fuel dev wher fs options e h = pw fuel dev wher fs options e h1) as Ep.
    { intros e. rewrite !(doPwMount_host _ _ _ _ _ _ _ h1) by
        (rewrite ?mkdirs_tried, ?Ee; first [done | by apply make_all_there | lia]). done. }
    destruct Herr as [-> | ->]; cbn [mbind outcome_bind]; by rewrite Ep. }
  rewrite multi_host by (rewrite ?Ee; tauto). rewrite Em, Ee, bool_decide_eq_false_2 by done.
  done.
Qed.
End mounts.

(** A host that mounts one type, and says what went wrong with the others. *)
Definition ext2_host : host := mkHost (mkFs ∅ ∅ ∅ 0 0 false) (λ argv, bool_decide (argv !! 3%nat = Some (str "ext2"))) (str "mount: failed") [] [] [].
Definition zeros (n : nat) : bytes := replicate 4096 0.
Definition dir_made : host := snd (mkdirs (str "/tmp/mnt") ext2_host).

Lemma readFD_terminated_witness :
  ∃ pad, readFD zeros 100 (mkSock (str "mount: failed") []) = Ret (13, Some (str "mount: failed" ++ pad), mkSock [] []) ∧ length pad = 4096%nat ∧
    ((13 < 4096)%nat → until_nul (str "mount: failed" ++ pad) = str "mount: failed").
Proof.
  apply (readFD_terminated zeros ltac:(intros n; unfold zeros; rewrite length_replicate; lia) (str "mount: failed") 100).
  - vm_compute. lia.
  - repeat constructor; discriminate.
Defined.

Lemma doMultiMount_first_witness :
  @doMultiMount host memgz host_ops zeros 100 (str "sda1") (str "/tmp/mnt") [str "vfat"; str "ext2"; str "iso9660"] (Some (str "ro")) None ext2_host =
  Ret (0, None, mkHost (hs_fs dir_made) (hs_mountable ext2_host) (str "mount: failed")
    [[str "/bin/mount"; str "-n"; str "-t"; str "vfat"; str "-o"; str "ro"; str "/dev/sda1"; str "/tmp/mnt"];
     [str "/bin/mount"; str "-n"; str "-t"; str "ext2"; str "-o"; str "ro"; str "/dev/sda1"; str "/tmp/mnt"]]
    [(str "/tmp/mnt", str "/dev/sda1")] []).
Proof.
  apply (doMultiMount_first zeros ltac:(intros n; unfold zeros; rewrite length_replicate; lia) 100 (str "sda1") (str "/tmp/mnt")
    [str "vfat"; str "ext2"; str "iso9660"] (Some (str "ro")) None ext2_host dir_made).
  - intros p n E. vm_compute in E. discriminate.
  - vm_compute. reflexivity.
  - vm_compute. lia.
  - by left.
  - discriminate.
Defined.
