(* ===== verification/Misc.v ===== *)
(** * Helpers of the loader (stage-1/loadermisc.c, stage-1/copy.c)

    Copying files and directories, reading a line, comparing versions, and the
    size of the memory. *)

From S2P Require Import Prelude CLib Sys Cpio Host.

(** ** Versions *)

Definition isalpha (c : Z) : bool := ((65 <=? c) && (c <=? 90)) || ((97 <=? c) && (c <=? 122)).
Definition isalnum (c : Z) : bool := isalpha c || isdigit c.
(** [while ( *s && p( *s)) s++;]: what was passed and the rest. *)
Fixpoint span (p : Z → bool) (s : bytes) : bytes * bytes :=
  match s with
  | b :: r => if p b then let '(a, t) := span p r in (b :: a, t) else ([], s)
  | [] => ([], [])
  end.
Definition skip_zeros (s : bytes) : bytes := snd (span (Z.eqb 48) s).
Definition sign_of (c : comparison) : Z := match c with Eq => 0 | Lt => -1 | Gt => 1 end.

(** Two segments of the same kind: 0 when they are equal. *)
Definition segment_cmp (isnum : bool) (one two : bytes) : Z :=
  if isnum then
    let one := skip_zeros one in
    let two := skip_zeros two in
    if (length two <? length one)%nat then 1
    else if (length one <? length two)%nat then -1
    else sign_of (strcmp one two)
  else sign_of (strcmp one two).

(** [while ( *one && *two)]; the segments are cut out of the strings and put
    back. *)
Fixpoint vercmp_loop (fuel : nat) (one two : bytes) : outcome Z :=
  match fuel with
  | O => NoFuel
  | S fuel =>
      match one, two with
      | [], [] => Ret 0
      | [], _ => Ret (-1)
      | _, [] => Ret 1
      | _, _ =>
          let one := snd (span (negb ∘ isalnum) one) in
          let two := snd (span (negb ∘ isalnum) two) in
          let isnum := isdigit (default 0 (head one)) in
          let kind := if isnum then isdigit else isalpha in
          let '(seg1, rest1) := span kind one in
          let '(seg2, rest2) := span kind two in
          if bool_decide (seg1 = []) then Ret (-1)
          else if bool_decide (seg2 = []) then Ret (if isnum then 1 else -1)
          else
            let rc := segment_cmp isnum seg1 seg2 in
            if rc =? 0 then vercmp_loop fuel rest1 rest2 else Ret rc
      end
  end.
Definition rpmvercmp (a b : bytes) : outcome Z :=
  if streq a b then Ret 0 else vercmp_loop (S (length a)) a b.
Definition simpleStringCmp (a b : bytes) : outcome Z := rpmvercmp a b.

(** ** Lines *)

(** The buffer is not set at the end of the file. *)
Definition readLine (f : bytes) : outcome (bytes * bytes) :=
  match fgets 1024 f with
  | None => Undef
  | Some (l, r) =>
      match length (until_nul l) with
      | O => Undef
      | S n => Ret (take n l, r)
      end
  end.

Section copy.
Context {W G : Type} `{HostOps W G}.

(** ** Memory *)

(** [while ( *chptr && isdigit( *chptr))] into an int. *)
Fixpoint add_digits (total : Z) (s : bytes) : outcome (Z * bytes) :=
  match s with
  | c :: r =>
      if isdigit c then
        _ ← defined_if (total * 10 + (c - 48) <? 2 ^ 31); add_digits (total * 10 + (c - 48)) r
      else Ret (total, s)
  | [] => Ret (total, [])
  end.
(** [while ( *chptr && !total)]; the line is cut off at its end. *)
Fixpoint meminfo_loop (fuel : nat) (s : bytes) : outcome Z :=
  match fuel with
  | O => NoFuel
  | S fuel =>
      match s with
      | [] => Ret 0
      | _ :: r =>
          if negb (starts_with (str "MemTotal:") s) then meminfo_loop fuel r
          else
            let line := fst (span (negb ∘ Z.eqb 10) r) in
            let start := snd (span (negb ∘ isdigit) line) in
            if bool_decide (start = []) then Ret 0
            else
              '(total, rest) ← add_digits 0 start;
              if total =? 0 then meminfo_loop fuel rest else Ret total
      end
  end.
Definition totalMemory (w : W) : outcome (Z * W) :=
  let '(fd, w) := h_open w (str "/proc/meminfo") in
  match fd with
  | inl _ => Ret (0, w)
  | inr fd =>
      let '(bytesRead, d, w) := h_read w fd 4095 in
      if bytesRead <? 0 then Ret (0, s_close w fd)
      else total ← meminfo_loop (S (length d)) (until_nul d); Ret (total, s_close w fd)
  end.

(** ** Files *)

(** The destination is opened without O_TRUNC. *)
Fixpoint copyFileFd_loop (fuel : nat) (infd outfd : nat) (w : W) : outcome (Z * W) :=
  match fuel with
  | O => NoFuel
  | S fuel =>
      let '(i, buf, w) := h_read w infd 4096 in
      if i <=? 0 then Ret (0, w)
      else
        let '(n, w) := s_write w outfd buf in
        if negb (n =? i) then Ret (1, w) else copyFileFd_loop fuel infd outfd w
  end.
Definition copyFileFd (fuel : nat) (infd : nat) (dest : bytes) (w : W) : outcome (Z * W) :=
  let '(outfd, w) := s_creat w dest 0x1b6 in
  match outfd with
  | inl _ => Ret (1, w)
  | inr outfd => '(rc, w) ← copyFileFd_loop fuel infd outfd w; Ret (rc, s_close w outfd)
  end.
Definition copyFile (fuel : nat) (source dest : bytes) (w : W) : outcome (Z * W) :=
  let '(infd, w) := h_open w source in
  match infd with
  | inl _ => Ret (1, w)
  | inr infd => '(rc, w) ← copyFileFd fuel infd dest w; Ret (rc, s_close w infd)
  end.

(** ** Directories *)

(** [while ((i = read(...)) > 0) i = write(...);] *)
Fixpoint copy_contents (fuel : nat) (fd outfd : nat) (w : W) : outcome W :=
  match fuel with
  | O => NoFuel
  | S fuel =>
      let '(i, buf, w) := h_read w fd 4096 in
      if i <=? 0 then Ret w else let '(_, w) := s_write w outfd buf in copy_contents fuel fd outfd w
  end.
(** A file that is neither a directory nor a symbolic link. *)
Definition copy_plain (fuel : nat) (filespec filespec2 : bytes) (mode : Z) (w : W) : outcome (Z * W) :=
  let '(fd, w) := h_open w filespec in
  match fd with
  | inl _ => Ret (1, w)
  | inr fd =>
      let '(outfd, w) := h_creat_empty w filespec2 in
      match outfd with
      | inl _ => Ret (0, s_close w fd)
      | inr outfd =>
          let w := h_fchmod w outfd (Z.land mode 0xfff) in
          w ← copy_contents fuel fd outfd w;
          Ret (0, s_close (s_close w outfd) fd)
      end
  end.

(** The entries of a directory.  The names are put together in buffers of 256
    bytes; [sb] keeps the last file lstat has found; a link that cannot be read
    has its terminator written in front of the buffer.  [sub] copies a directory
    in it. *)
Fixpoint copy_entries (sub : bytes → bytes → W → outcome (Z * W)) (fuel : nat) (from to : bytes) (names : list bytes)
    (sb : option stat) (w : W) : outcome (Z * W) :=
  match names with
  | [] => Ret (0, w)
  | name :: names =>
      if streq name (str ".") || streq name (str "..") then copy_entries sub fuel from to names sb w
      else
        let filespec := from ++ 47 :: name in
        let filespec2 := to ++ 47 :: name in
        _ ← defined_if (length filespec <? 256)%nat;
        _ ← defined_if (length filespec2 <? 256)%nat;
        let sb := match s_lstat w filespec with inr st => Some st | inl _ => sb end in
        st ← checked sb;
        '(rc, w) ←
          (if S_IS S_IFDIR (st_mode st) then sub filespec filespec2 w
           else if S_IS S_IFLNK (st_mode st) then
             link ← checked (s_readlink w filespec 1023);
             let '(_, w) := s_symlink w link filespec2 in Ret (0, w)
           else copy_plain fuel filespec filespec2 (st_mode st) w);
        if negb (rc =? 0) then Ret (1, w) else copy_entries sub fuel from to names sb w
  end.
(** [depth] bounds the directories inside each other, [fuel] the reads of a file. *)
Fixpoint copyDirectory (depth fuel : nat) (from to : bytes) (w : W) : outcome (Z * W) :=
  match depth with
  | O => NoFuel
  | S depth =>
      let '(_, w) := s_mkdir w to 0x1ed in
      match h_readdir w from with
      | None => Ret (1, w)
      | Some names => copy_entries (copyDirectory depth fuel) fuel from to names None w
      end
  end.
End copy.
