(* ===== verification/MiscFacts.v ===== *)
(** * Properties of the helpers of the loader

    Version strings against a comparison of their segments, the size of the
    memory, and copies of files. *)

From S2P Require Import Prelude CLib Decimal Sys Cpio Host Misc.

(** ** Versions *)

(** The number a run of digits stands for. *)
Definition dec_val (ds : bytes) : Z := foldl (λ a b, a * 10 + (b - 48)) 0 ds.
Definition digits (ds : bytes) : Prop := Forall (λ b, isdigit b = true) ds.

Lemma dec_foldl ds : ∀ a, foldl (λ a b, a * 10 + (b - 48)) a ds = a * 10 ^ Z.of_nat (length ds) + dec_val ds.
Proof.
  unfold dec_val. induction ds as [| d ds IH]; intros a; cbn [foldl length]; [rewrite Z.pow_0_r; lia |].
  rewrite IH, (IH (0 * 10 + (d - 48))), Nat2Z.inj_succ, Z.pow_succ_r by lia. lia.
Qed.
Lemma dec_val_cons d ds : dec_val (d :: ds) = (d - 48) * 10 ^ Z.of_nat (length ds) + dec_val ds.
Proof. unfold dec_val at 1. cbn [foldl]. rewrite dec_foldl. lia. Qed.
Lemma dec_val_bound ds : digits ds → 0 ≤ dec_val ds < 10 ^ Z.of_nat (length ds).
Proof.
  induction 1 as [| d ds Hd Hds IH]; [done |]. rewrite dec_val_cons. cbn [length].
  rewrite Nat2Z.inj_succ, Z.pow_succ_r by lia. unfold isdigit in Hd. nia.
Qed.

Lemma skip_zeros_val ds : dec_val (skip_zeros ds) = dec_val ds.
Proof.
  unfold skip_zeros. induction ds as [| d ds IH]; [done |]. cbn [span].
  destruct (Z.eqb_spec 48 d) as [<- |]; [| done]. destruct (span (Z.eqb 48) ds) as [a t] eqn:Es. cbn [snd] in *.
  rewrite IH, dec_val_cons. lia.
Qed.
Lemma skip_zeros_digits ds : digits ds → digits (skip_zeros ds) ∧ ∀ r, skip_zeros ds ≠ 48 :: r.
Proof.
  unfold skip_zeros. induction 1 as [| d ds Hd Hds IH]; [split; [constructor | done] |]. cbn [span].
  destruct (Z.eqb_spec 48 d) as [<- | Hne]; [| cbn [snd]; split; [by constructor | congruence]].
  destruct (span (Z.eqb 48) ds) as [a t]. exact IH.
Qed.
Lemma dec_val_lower d ds : digits (d :: ds) → d ≠ 48 → 10 ^ Z.of_nat (length ds) ≤ dec_val (d :: ds).
Proof.
  intros Hd Hne. rewrite dec_val_cons. inversion Hd as [| ? ? H1 H2]; subst. pose proof (dec_val_bound ds H2). unfold isdigit in H1. nia.
Qed.

Lemma strcmp_digits a b : digits a → digits b → length a = length b → strcmp a b = (dec_val a ?= dec_val b).
Proof.
  intros Ha. revert b. induction Ha as [| x a Hx Ha IH]; intros [| y b] Hb Hl; try done.
  inversion Hb as [| ? ? Hy Hb']; subst. cbn [strcmp]. rewrite !dec_val_cons. injection Hl as Hl.
  pose proof (dec_val_bound a Ha). pose proof (dec_val_bound b Hb'). rewrite Hl in *. unfold isdigit in Hx, Hy.
  destruct (Z.compare_spec x y) as [-> | |]; symmetry; [| apply Z.compare_lt_iff; nia | apply Z.compare_gt_iff; nia].
  rewrite IH by done. symmetry. by rewrite Z.add_compare_mono_l.
Qed.

(** Two numbers without leading zeros. *)
Lemma longer_greater a b : digits a → digits b → (∀ r, a ≠ 48 :: r) → (length b < length a)%nat → dec_val b < dec_val a.
Proof.
  intros Ha Hb Hz Hl. destruct a as [| x a]; [cbn in Hl; lia |].
  pose proof (dec_val_lower x a Ha ltac:(intros ->; by eapply Hz)). pose proof (dec_val_bound b Hb).
  assert (10 ^ Z.of_nat (length b) ≤ 10 ^ Z.of_nat (length a)) by (apply Z.pow_le_mono_r; cbn in Hl; lia). lia.
Qed.
Lemma segment_cmp_num a b : digits a → digits b → segment_cmp true a b = sign_of (dec_val a ?= dec_val b).
Proof.
  intros Ha Hb. unfold segment_cmp. rewrite <- (skip_zeros_val a), <- (skip_zeros_val b).
  destruct (skip_zeros_digits a Ha) as [Ha' Za], (skip_zeros_digits b Hb) as [Hb' Zb].
  set (x := skip_zeros a) in *. set (y := skip_zeros b) in *. clearbody x y.
  destruct (Nat.ltb_spec (length y) (length x)) as [Hl |].
  - pose proof (longer_greater x y Ha' Hb' Za Hl) as Hv. apply Z.compare_gt_iff in Hv. by rewrite Hv.
  - destruct (Nat.ltb_spec (length x) (length y)) as [Hl |].
    + pose proof (longer_greater y x Hb' Ha' Zb Hl) as Hv. apply Z.compare_lt_iff in Hv. by rewrite Hv.
    + by rewrite strcmp_digits by (done || lia).
Qed.

(** A version: numbers and words with a dot between them. *)
Inductive segment := Num (ds : bytes) | Word (w : bytes).
Definition seg_text (s : segment) : bytes := match s with Num ds => ds | Word w => w end.
Definition seg_ok (s : segment) : Prop :=
  match s with Num ds => ds ≠ [] ∧ digits ds | Word w => w ≠ [] ∧ Forall (λ b, isalpha b = true) w end.
Fixpoint dotted (v : list segment) : bytes :=
  match v with [] => [] | [s] => seg_text s | s :: v => seg_text s ++ 46 :: dotted v end.

(** Numbers by their value, words as strcmp has them, and any number is newer
    than any word. *)
Definition seg_cmp (a b : segment) : comparison :=
  match a, b with
  | Num x, Num y => dec_val x ?= dec_val y
  | Word x, Word y => strcmp x y
  | Num _, Word _ => Gt
  | Word _, Num _ => Lt
  end.
Fixpoint version_cmp (a b : list segment) : comparison :=
  match a, b with
  | [], [] => Eq
  | [], _ => Lt
  | _, [] => Gt
  | x :: a, y :: b => match seg_cmp x y with Eq => version_cmp a b | c => c end
  end.

Definition stops (p : Z → bool) (r : bytes) : Prop := ∀ c, head r = Some c → p c = false.
Lemma span_run p a r : Forall (λ b, p b = true) a → stops p r → span p (a ++ r) = (a, r).
Proof.
  intros Ha Hr. induction Ha as [| b a Hb _ IH]; cbn [app span]; [| by rewrite Hb, IH].
  destruct r as [| c r]; [done |]. cbn. by rewrite (Hr c eq_refl).
Qed.

Lemma alpha_not_digit c : isalpha c = true → isdigit c = false.
Proof. unfold isalpha, isdigit. lia. Qed.
Lemma digit_not_alpha c : isdigit c = true → isalpha c = false.
Proof. unfold isalpha, isdigit. lia. Qed.

Definition seg_kind (s : segment) : bool := match s with Num _ => true | Word _ => false end.
Lemma seg_text_head s : seg_ok s → ∃ c r, seg_text s = c :: r ∧ isalnum c = true ∧ isdigit c = seg_kind s.
Proof.
  destruct s as [[| c r] | [| c r]]; cbn; intros [Hne Hall]; try done; exists c, r; inversion Hall as [| ? ? Hc _]; subst;
    (split_and!; [done | unfold isalnum; rewrite Hc; auto using orb_true_r |]); [done | by apply alpha_not_digit].
Qed.
(** The kind of a segment takes it off its text, and takes nothing off one of the other kind. *)
Lemma span_seg s r : seg_ok s → stops isdigit r → stops isalpha r →
  span (if seg_kind s then isdigit else isalpha) (seg_text s ++ r) = (seg_text s, r) ∧
  span (if seg_kind s then isalpha else isdigit) (seg_text s ++ r) = ([], seg_text s ++ r).
Proof.
  intros Hs Hd Ha. destruct s as [[| c ds] | [| c w]]; destruct Hs as [Hne Hall]; try done; cbn [seg_kind seg_text];
    (split; [by apply span_run |]); cbn; inversion Hall as [| ? ? Hc _]; subst.
  - by rewrite digit_not_alpha.
  - by rewrite alpha_not_digit.
Qed.

Lemma dotted_cons s v : dotted (s :: v) = seg_text s ++ (match v with [] => [] | _ => 46 :: dotted v end).
Proof. destruct v; cbn; [by rewrite app_nil_r | done]. Qed.
Lemma rest_stops (v : list segment) p : p 46 = false → stops p (match v with [] => [] | _ => 46 :: dotted v end).
Proof. intros Hp. destruct v; [done |]. by intros c [= <-]. Qed.
Lemma span_none p c r : p c = false → span p (c :: r) = ([], c :: r).
Proof. intros Hp. cbn. by rewrite Hp. Qed.

Lemma vercmp_segments a b : Forall seg_ok a → Forall seg_ok b → a ≠ [] → b ≠ [] → ∀ fuel lead1 lead2,
  Forall (λ c, isalnum c = false) lead1 → Forall (λ c, isalnum c = false) lead2 → (length a < fuel)%nat →
  vercmp_loop fuel (lead1 ++ dotted a) (lead2 ++ dotted b) = Ret (sign_of (version_cmp a b)).
Proof.
  intros Ha. revert b. induction Ha as [| s a Hs Ha IH]; intros [| t b] Hb Hna Hnb fuel lead1 lead2 H1 H2 Hf; try done.
  inversion Hb as [| ? ? Ht Hb']; subst. destruct fuel as [| fuel]; [cbn in Hf; lia |].
  destruct (seg_text_head s Hs) as (c & r & Es & Hc & Kc), (seg_text_head t Ht) as (d & q & Et & Hd & Kd).
  assert (∀ lead, Forall (λ c, isalnum c = false) lead → ∀ x y, isalnum x = true →
    snd (span (negb ∘ isalnum) (lead ++ x :: y)) = x :: y) as Hskip.
  { intros lead Hlead x y Hx. rewrite span_run; [done | |].
    - eapply list.Forall_impl; [exact Hlead |]. intros z Hz. cbn. by rewrite Hz.
    - intros z [= <-]. cbn. by rewrite Hx. }
  rewrite !dotted_cons. set (ra := match a with [] => [] | _ => _ end). set (rb := match b with [] => [] | _ => _ end).
  assert (∀ (lead : bytes) x y, ∃ z l, lead ++ x :: y = z :: l) as Hcons by (intros [| z l]; cbn; eauto).
  cbn [vercmp_loop]. rewrite Es, Et. cbn [app].
  destruct (Hcons lead1 c (r ++ ra)) as (z1 & l1 & E1), (Hcons lead2 d (q ++ rb)) as (z2 & l2 & E2).
  rewrite E1, E2, <- E1, <- E2, !Hskip by done. change (default 0 (head (c :: r ++ ra))) with c. rewrite Kc.
  change (c :: r ++ ra) with ((c :: r) ++ ra). change (d :: q ++ rb) with ((d :: q) ++ rb). rewrite <- Es, <- Et.
  destruct (span_seg s ra Hs) as [S1 _]; [by apply rest_stops .. |].
  destruct (span_seg t rb Ht) as [S2 S3]; [by apply rest_stops .. |].
  rewrite S1. rewrite (bool_decide_false (seg_text s = [])) by (rewrite Es; done).
  assert (vercmp_loop fuel ra rb = Ret (sign_of (version_cmp a b))) as Hrest.
  { cbn in Hf. destruct fuel as [| fuel]; [lia |]. destruct a as [| s' a], b as [| t' b]; [done | done | done |].
    apply (IH (t' :: b) Hb' ltac:(done) ltac:(done) (S fuel) [46] [46]); [by repeat constructor .. | cbn in *; lia]. }
  destruct (seg_kind s) eqn:Ks, (seg_kind t) eqn:Kt.
  - rewrite S2, (bool_decide_false (seg_text t = [])) by (rewrite Et; done).
    destruct s as [x | x], t as [y | y]; try done. cbn [seg_text]. rewrite segment_cmp_num by (by destruct Hs, Ht).
    cbn [version_cmp seg_cmp]. destruct (dec_val x ?= dec_val y) eqn:Ec; done.
  - rewrite S3. cbn. destruct s, t; done.
  - rewrite S3. cbn. destruct s, t; done.
  - rewrite S2, (bool_decide_false (seg_text t = [])) by (rewrite Et; done).
    destruct s as [x | x], t as [y | y]; try done. cbn [seg_text]. unfold segment_cmp.
    cbn [version_cmp seg_cmp]. destruct (strcmp x y) eqn:Ec; done.
Qed.

Lemma version_cmp_same v : version_cmp v v = Eq.
Proof. induction v as [| [d | w] v IH]; [done | |]; cbn; [by rewrite Z.compare_refl | by rewrite strcmp_refl]. Qed.
Lemma dotted_head v : Forall seg_ok v → v ≠ [] → ∃ c r, dotted v = c :: r.
Proof.
  intros Hv Hne. destruct v as [| s v]; [done |]. inversion Hv as [| ? ? Hs _]; subst.
  destruct (seg_text_head s Hs) as (c & r & E & _). rewrite dotted_cons, E. cbn. eauto.
Qed.

(** Equal texts have equal segments. *)
Lemma dotted_len v : Forall seg_ok v → (length v ≤ length (dotted v))%nat.
Proof.
  induction 1 as [| s v Hs Hv IH]; [done |]. destruct (seg_text_head s Hs) as (c & r & E & _).
  rewrite dotted_cons, length_app, E. destruct v; cbn in *; lia.
Qed.

(** C24: On versions made of numbers and words with dots between them,
    rpmvercmp is the comparison segment by segment: numbers by their value,
    whatever their length and their leading zeros, words as strcmp has them,
    numbers newer than words, and of two versions of which one continues the
    other the longer one.  On strings without such segments it is no order: "-"
    is older than "+" and "+" older than "-". *)
Theorem rpmvercmp_versions a b (Ha : Forall seg_ok a) (Hb : Forall seg_ok b) (Hna : a ≠ []) (Hnb : b ≠ []) :
  rpmvercmp (dotted a) (dotted b) = Ret (sign_of (version_cmp a b)) ∧
  rpmvercmp (str "-") (str "+") = Ret (-1) ∧ rpmvercmp (str "+") (str "-") = Ret (-1).
Proof.
  split; [| done]. pose proof (vercmp_segments a b Ha Hb Hna Hnb (S (length (dotted a))) [] []
    ltac:(constructor) ltac:(constructor) ltac:(pose proof (dotted_len a Ha); lia)) as Hrun.
  pose proof (vercmp_segments a a Ha Ha Hna Hna (S (length (dotted a))) [] []
    ltac:(constructor) ltac:(constructor) ltac:(pose proof (dotted_len a Ha); lia)) as Hself.
  cbn [app] in Hrun, Hself. unfold rpmvercmp. destruct (streq (dotted a) (dotted b)) eqn:Es; [| exact Hrun].
  apply streq_spec in Es. rewrite <- Es, Hself, version_cmp_same in Hrun. exact Hrun.
Qed.

Definition ver (l : list string) : list segment :=
  (λ s : string, if isdigit (default 0 (head (str s))) then Num (str s) else Word (str s)) <$> l.
Lemma rpmvercmp_versions_witness :
  rpmvercmp (str "2.006.31.rc") (str "2.6.9") = Ret 1 ∧
  rpmvercmp (str "-") (str "+") = Ret (-1) ∧ rpmvercmp (str "+") (str "-") = Ret (-1).
Proof.
  apply (rpmvercmp_versions (ver ["2"; "006"; "31"; "rc"]%string) (ver ["2"; "6"; "9"]%string)).
  - repeat constructor; discriminate.
  - repeat constructor; discriminate.
  - discriminate.
  - discriminate.
Defined.

(** ** The size of the memory *)

Section memory.
Context {W G : Type} `{HostOps W G}.

Lemma add_digits_run ds r a : digits ds → stops isdigit r → 0 ≤ a →
  foldl (λ a b, a * 10 + (b - 48)) a ds < 2 ^ 31 → add_digits a (ds ++ r) = Ret (foldl (λ a b, a * 10 + (b - 48)) a ds, r).
Proof.
  intros Hd Hr. revert a. induction Hd as [| d ds Hd Hds IH]; intros a Ha Hlt; cbn [app add_digits foldl] in *.
  - destruct r as [| c r]; [done |]. cbn [add_digits]. by rewrite (Hr c eq_refl).
  - rewrite Hd. assert (0 ≤ d - 48) by (unfold isdigit in Hd; lia).
    assert (a * 10 + (d - 48) < 2 ^ 31).
    { rewrite dec_foldl in Hlt. pose proof (dec_val_bound ds Hds).
      assert (1 ≤ 10 ^ Z.of_nat (length ds)) by (change 1 with (10 ^ 0); apply Z.pow_le_mono_r; lia). nia. }
    destruct (Z.ltb_spec (a * 10 + (d - 48)) (2 ^ 31)); [| lia]. cbn [defined_if mbind outcome_bind].
    apply IH; [lia | done].
Qed.

Lemma add_digits_over ds r : digits ds → ∀ a, 0 ≤ a < 2 ^ 31 →
  2 ^ 31 ≤ foldl (λ a b, a * 10 + (b - 48)) a ds → add_digits a (ds ++ r) = Undef.
Proof.
  induction 1 as [| d ds Hd Hds IH]; intros a Ha Hge; cbn [app add_digits foldl] in *; [lia |].
  rewrite Hd. assert (0 ≤ d - 48) by (unfold isdigit in Hd; lia).
  destruct (Z.ltb_spec (a * 10 + (d - 48)) (2 ^ 31)); [| done]. cbn [defined_if mbind outcome_bind]. by apply IH; [lia |].
Qed.
Lemma span_app (p : Z → bool) a r : Forall (λ b, p b = true) a → fst (span p (a ++ r)) = a ++ fst (span p r).
Proof.
  induction 1 as [| b a Hb _ IH]; [done |]. cbn [app span]. rewrite Hb. destruct (span p (a ++ r)) as [x y]. cbn [fst] in *. by rewrite IH.
Qed.

(** A text in front of which there is no MemTotal. *)
Fixpoint no_tag (before_ rest : bytes) : Prop :=
  match before_ with
  | [] => True
  | c :: b => starts_with (str "MemTotal:") (c :: b ++ rest) = false ∧ no_tag b rest
  end.
Lemma meminfo_skip b rest fuel : no_tag b rest → meminfo_loop (length b + fuel) (b ++ rest) = meminfo_loop fuel rest.
Proof.
  induction b as [| c b IH]; [done |]. intros [Hc Hb]. cbn [length Nat.add app meminfo_loop]. rewrite Hc. cbn [negb]. by apply IH.
Qed.

(** totalMemory gives the number behind MemTotal in /proc/meminfo, whatever
    lines come before and after it, as long as it fits an int and the line lies
    in the first 4095 bytes; a number above the range of int is undefined. *)
Theorem totalMemory_reads w w1 w2 fd before_ blanks ds after_ (Hopen : h_open w (str "/proc/meminfo") = (inr fd, w1))
  (Hread : h_read w1 fd 4095 = (Z.of_nat (length (before_ ++ str "MemTotal:" ++ blanks ++ ds ++ after_)),
    before_ ++ str "MemTotal:" ++ blanks ++ ds ++ after_, w2))
  (Htag : no_tag before_ (str "MemTotal:" ++ blanks ++ ds ++ after_))
  (Hblank : Forall (λ b, isdigit b = false ∧ b ≠ 10 ∧ b ≠ 0) blanks) (Hne : ds ≠ []) (Hds : digits ds)
  (Hafter : stops isdigit after_) (Hnul : Forall (λ b, b ≠ 0) (before_ ++ after_)) (Hpos : 0 < dec_val ds) :
  (dec_val ds < 2 ^ 31 → totalMemory w = Ret (dec_val ds, s_close w2 fd)) ∧
  (2 ^ 31 ≤ dec_val ds → totalMemory w = Undef).
Proof.
  assert (Forall (λ b, b ≠ 0) (before_ ++ str "MemTotal:" ++ blanks ++ ds ++ after_)) as Hall.
  { apply Forall_app in Hnul as [? ?]. repeat (apply Forall_app; split); try done; [by repeat constructor | |].
    - eapply list.Forall_impl; [exact Hblank |]. by intros ? (_ & _ & ?).
    - eapply list.Forall_impl; [exact Hds |]. unfold isdigit. intros. lia. }
  unfold totalMemory. rewrite Hopen, Hread. set (text := before_ ++ _) in *.
  destruct (Z.ltb_spec (Z.of_nat (length text)) 0); [lia |]. rewrite until_nul_no_nul by done.
  assert (meminfo_loop (S (length text)) text =
    ('(total, rest) ← add_digits 0 (ds ++ fst (span (negb ∘ Z.eqb 10) after_));
     if total =? 0 then meminfo_loop (length (str "MemTotal:" ++ blanks ++ ds ++ after_)) rest else Ret total)) as ->.
  { unfold text. rewrite length_app, <- Nat.add_succ_r, meminfo_skip by done.
    set (n := length (str "MemTotal:" ++ blanks ++ ds ++ after_)).
    change (str "MemTotal:" ++ blanks ++ ds ++ after_) with (77 :: str "emTotal:" ++ blanks ++ ds ++ after_).
    cbn [meminfo_loop].
    change (77 :: str "emTotal:" ++ blanks ++ ds ++ after_) with (str "MemTotal:" ++ blanks ++ ds ++ after_).
    rewrite starts_with_app. cbn [negb].
    assert (fst (span (negb ∘ Z.eqb 10) (str "emTotal:" ++ blanks ++ ds ++ after_)) =
      str "emTotal:" ++ blanks ++ ds ++ fst (span (negb ∘ Z.eqb 10) after_)) as ->.
    { rewrite !app_assoc, span_app; [done |]. repeat (apply Forall_app; split); [by repeat constructor | |].
      - eapply list.Forall_impl; [exact Hblank |]. intros b (_ & Hb & _). unfold compose. destruct (Z.eqb_spec 10 b); [lia | done].
      - eapply list.Forall_impl; [exact Hds |]. intros b Hb. unfold isdigit in Hb. unfold compose. destruct (Z.eqb_spec 10 b); [lia | done]. }
    assert (snd (span (negb ∘ isdigit) (str "emTotal:" ++ blanks ++ ds ++ fst (span (negb ∘ Z.eqb 10) after_))) =
      ds ++ fst (span (negb ∘ Z.eqb 10) after_)) as ->.
    { rewrite (app_assoc (str "emTotal:")), span_run; [done | |].
      - apply Forall_app. split; [by repeat constructor |]. eapply list.Forall_impl; [exact Hblank |]. intros b [Hb _]. unfold compose. by rewrite Hb.
      - destruct ds as [| d ds]; [done |]. intros c [= <-]. inversion Hds as [| ? ? Hd _]; subst. unfold compose. by rewrite Hd. }
    rewrite bool_decide_false by (by destruct ds). done. }
  assert (stops isdigit (fst (span (negb ∘ Z.eqb 10) after_))) as Hstop.
  { destruct after_ as [| c after_]; [done |]. specialize (Hafter c eq_refl).
    cbn [span]. unfold compose. destruct (10 =? c); cbn [negb]; [by intros ? [=] |].
    destruct (span _ after_). by intros x [= <-]. }
  split.
  - intros Hlt. rewrite add_digits_run by done. cbn [mbind outcome_bind]. fold (dec_val ds).
    destruct (Z.eqb_spec (dec_val ds) 0); [lia | done].
  - intros Hge. by rewrite add_digits_over.
Qed.
End memory.

(** A file system with one regular file. *)
Definition one_file (p d : bytes) : memfs := mkFs {[ p := 1%nat ]} {[ 1%nat := mkInode (KReg d) 0x1a4 0 0 0 ]} ∅ 2 0 false.
Definition meminfo : bytes := str "HighTotal:     0 kB" ++ [10] ++ str "MemTotal:       515796 kB" ++ [10] ++ str "MemFree:  1 kB" ++ [10].
Definition small_host : host := mkHost (one_file (str "/proc/meminfo") meminfo) (λ _, false) [] [] [] [].
Definition small_open : host := snd (h_open small_host (str "/proc/meminfo")).
Definition small_read : host := snd (h_read small_open 2 4095).

Lemma totalMemory_reads_witness :
  (dec_val (str "515796") < 2 ^ 31 → totalMemory small_host = Ret (dec_val (str "515796"), s_close small_read 2%nat)) ∧
  (2 ^ 31 ≤ dec_val (str "515796") → totalMemory small_host = Undef).
Proof.
  apply (@totalMemory_reads host memgz host_ops small_host small_open small_read 2 (str "HighTotal:     0 kB" ++ [10]) (str "       ") (str "515796")
    (str " kB" ++ [10] ++ str "MemFree:  1 kB" ++ [10])); try reflexivity; try discriminate.
  - vm_compute. tauto.
  - repeat constructor; discriminate.
  - repeat constructor.
  - intros c [= <-]. reflexivity.
  - repeat constructor; discriminate.
Defined.

(** ** Copies of files *)

(** What a file system keeps for every file but one. *)
Definition others_kept (n : nat) (fs fs' : memfs) : Prop :=
  fs_names fs' = fs_names fs ∧ ∀ k, k ≠ n → fs_inodes fs' !! k = fs_inodes fs !! k.

Lemma others_trans n fs1 fs2 fs3 : others_kept n fs1 fs2 → others_kept n fs2 fs3 → others_kept n fs1 fs3.
Proof. intros [E1 F1] [E2 F2]. split; [congruence |]. intros k Hk. by rewrite F2, F1. Qed.

(** The loop of copyFileFd on two open files: [d] is copied from [off] on over
    what the destination has. *)
Lemma copy_loop_copies fuel : ∀ h infd outfd n1 n2 off d e i1 i2, (length d - off < fuel)%nat → (off ≤ length d)%nat → infd ≠ outfd → n1 ≠ n2 →
  fs_full (hs_fs h) = false → fs_fds (hs_fs h) !! infd = Some (n1, off) → fs_fds (hs_fs h) !! outfd = Some (n2, off) →
  fs_inodes (hs_fs h) !! n1 = Some i1 → i_kind i1 = KReg d →
  fs_inodes (hs_fs h) !! n2 = Some i2 → i_kind i2 = KReg (take off d ++ drop off e) →
  ∃ h' i2', copyFileFd_loop fuel infd outfd h = Ret (0, h') ∧ others_kept n2 (hs_fs h) (hs_fs h') ∧
    fs_inodes (hs_fs h') !! n2 = Some i2' ∧ i_kind i2' = KReg (d ++ drop (length d) e) ∧ i_perm i2' = i_perm i2.
Proof.
  induction fuel as [| fuel IH]; intros h infd outfd n1 n2 off d e i1 i2 Hf Hoff Hfd Hn Hfull Hin Hout H1 K1 H2 K2; [lia |].
  set (piece := slice off 4096 d). assert (length piece = Nat.min 4096 (length d - off)) as Hpl by apply length_slice.
  set (fs1 := set_fds (<[infd := (n1, (off + length piece)%nat)]> (fs_fds (hs_fs h))) (hs_fs h)).
  assert (h_read h infd 4096 = (Z.of_nat (length piece), piece, with_fs fs1 h)) as Er.
  { cbn [h_read host_ops]. unfold fs_read. by rewrite Hin, H1, K1. }
  cbn [copyFileFd_loop]. rewrite Er. clear Er.
  destruct (Z.leb_spec (Z.of_nat (length piece)) 0) as [Hz | Hpos].
  - assert (off = length d) as -> by lia. exists (with_fs fs1 h), i2. split_and!; try done.
    rewrite K2, take_ge by lia. done.
  - set (c := take off d ++ drop off e) in *.
    assert (length (take off d) = off) as Hto by (rewrite length_take; lia).
    set (c' := take (off + length piece) d ++ drop (off + length piece) e).
    assert (splice off piece c = c') as Ec.
    { unfold splice, c, c'. rewrite take_app_le by lia. rewrite take_ge by lia.
      assert (take (off + length piece) d = take off d ++ piece) as ->.
      { rewrite <- take_take_drop. f_equal. unfold piece, slice. rewrite length_take, length_drop.
        destruct (Nat.min_spec 4096 (length d - off)) as [[_ ->] | [? ->]]; [done |]. by rewrite !take_ge by (rewrite length_drop; lia). }
      rewrite <- app_assoc. do 2 f_equal. rewrite drop_app_ge by lia. rewrite drop_drop. f_equal. lia. }
    set (i2' := mkInode (KReg c') (i_perm i2) (i_uid i2) (i_gid i2) (i_mtime i2)).
    set (fs2 := set_fds (<[outfd := (n2, (off + length piece)%nat)]> (fs_fds fs1)) (set_inodes (<[n2 := i2']> (fs_inodes fs1)) fs1)).
    assert (@s_write host (@h_sys host memgz host_ops) (with_fs fs1 h) outfd piece = (Z.of_nat (length piece), with_fs fs2 h)) as Ew.
    { cbn [s_write h_sys host_ops host_sys]. unfold lift. cbn [s_write memfs_ops hs_fs with_fs]. unfold fs_write.
      cbn [fs_full fs_fds fs_inodes fs1 set_fds]. rewrite Hfull, lookup_insert_ne, Hout, H2, K2 by done.
      replace (off - length c)%nat with 0%nat by (unfold c; rewrite length_app; lia). cbn [replicate]. rewrite app_nil_r, Ec. done. }
    rewrite Ew. rewrite Z.eqb_refl. cbn [negb].
    destruct (IH (with_fs fs2 h) infd outfd n1 n2 (off + length piece)%nat d e i1 i2') as (h' & i3 & E & Ho & Hi & Hk & Hp); try done; try lia.
    + cbn. rewrite lookup_insert_ne by done. apply lookup_insert_eq.
    + cbn. apply lookup_insert_eq.
    + cbn. by rewrite lookup_insert_ne by done.
    + cbn. apply lookup_insert_eq.
    + exists h', i3. split_and!; try done. eapply others_trans; [| exact Ho]. split; [done |]. intros k Hk'. cbn. by rewrite lookup_insert_ne by done.
Qed.

(** The files opened one after the other: what the loop starts from. *)
Definition opened (fs : memfs) (n1 n2 : nat) : memfs :=
  mkFs (fs_names fs) (fs_inodes fs) (<[S (fs_next fs) := (n2, 0%nat)]> (<[fs_next fs := (n1, 0%nat)]> (fs_fds fs)))
    (S (S (fs_next fs))) (fs_uid fs) (fs_full fs).

Lemma copyFile_missing h src dst fuel : fs_lookup (hs_fs h) src = None → copyFile fuel src dst h = Ret (1, h).
Proof. intros L. unfold copyFile. cbn [h_open host_ops]. unfold lift, fs_open. rewrite L. by destruct h. Qed.

(** copyFile copies a regular file on [host]: over a file that is already
    there it puts the contents of the source at its beginning and leaves what was
    longer, since the destination is not truncated; where there was no file it
    makes one with exactly the contents; and no other file is touched.  A source
    that is not there gives 1 and changes nothing. *)
Theorem copyFile_copies h src dst fuel (Hfull : fs_full (hs_fs h) = false) (Hnum : numbered (hs_fs h)) :
  (∀ n1 i1 d n2 i2 e, fs_lookup (hs_fs h) src = Some (n1, i1) → i_kind i1 = KReg d → (length d < fuel)%nat →
     fs_lookup (hs_fs h) dst = Some (n2, i2) → i_kind i2 = KReg e → n1 ≠ n2 →
     ∃ h', copyFile fuel src dst h = Ret (0, h') ∧ fs_data (hs_fs h') dst = Some (d ++ drop (length d) e) ∧
       ∀ p n i, n ≠ n2 → fs_lookup (hs_fs h) p = Some (n, i) → fs_lookup (hs_fs h') p = Some (n, i)) ∧
  (∀ n1 i1 d, fs_lookup (hs_fs h) src = Some (n1, i1) → i_kind i1 = KReg d → (length d < fuel)%nat →
     fs_lookup (hs_fs h) dst = None → parent_ok (hs_fs h) dst = true →
     ∃ h', copyFile fuel src dst h = Ret (0, h') ∧ fs_data (hs_fs h') dst = Some d ∧
       ∀ p n i, fs_lookup (hs_fs h) p = Some (n, i) → fs_lookup (hs_fs h') p = Some (n, i)) ∧
  (fs_lookup (hs_fs h) src = None → copyFile fuel src dst h = Ret (1, h)).
Proof.
  split_and!.
  - intros n1 i1 d n2 i2 e L1 K1 Hf L2 K2 Hn. 
    assert (∃ h1, h_open h src = (inr (fs_next (hs_fs h)), h1) ∧
       @s_creat host (@h_sys host memgz host_ops) h1 dst 0x1b6 = (inr (S (fs_next (hs_fs h))), with_fs (opened (hs_fs h) n1 n2) h)) as (h1 & E1 & E2).
    { eexists. split; [cbn [h_open host_ops]; unfold lift, fs_open; by rewrite L1 |].
      cbn [s_creat h_sys host_ops host_sys]. unfold lift. cbn [hs_fs with_fs s_creat memfs_ops]. unfold fs_creat.
      match goal with |- context [fs_lookup ?fs' dst] => change (fs_lookup fs' dst) with (fs_lookup (hs_fs h) dst) end.
      rewrite L2, K2. done. }
    unfold copyFile. rewrite E1. unfold copyFileFd. rewrite E2.
    apply fs_lookup_some in L1 as [N1 I1], L2 as [N2 I2].
    destruct (copy_loop_copies fuel (with_fs (opened (hs_fs h) n1 n2) h) (fs_next (hs_fs h)) (S (fs_next (hs_fs h))) n1 n2 0 d e i1 i2)
      as (h' & i3 & E & Ho & Hi & Hk & _); try done; try lia.
    { cbn. rewrite lookup_insert_ne by lia. apply lookup_insert_eq. }
    { cbn. apply lookup_insert_eq. }
    rewrite E. cbn [mbind outcome_bind]. destruct Ho as [Ho1 Ho2]. eexists. split; [reflexivity |]. split.
    + unfold fs_data, fs_lookup. cbn. rewrite Ho1. cbn. rewrite N2. cbn. rewrite Hi. cbn. by rewrite Hk.
    + intros p n i Hne (Np & Ip)%fs_lookup_some. apply fs_lookup_some. cbn. rewrite Ho1, Ho2 by done. done.
  - intros n1 i1 d L1 K1 Hf L2 Hp. set (fs := hs_fs h) in *. set (nx := fs_next fs).
    set (fs1 := mkFs (fs_names fs) (fs_inodes fs) (<[nx := (n1, 0%nat)]> (fs_fds fs)) (S nx) (fs_uid fs) (fs_full fs)).
    set (fs2 := mkFs (<[dst := S nx]> (fs_names fs)) (<[S nx := mkInode (KReg []) 0x1b6 0 0 0]> (fs_inodes fs))
                  (<[S (S nx) := (S nx, 0%nat)]> (<[nx := (n1, 0%nat)]> (fs_fds fs))) (S (S (S nx))) (fs_uid fs) (fs_full fs)).
    assert (h_open h src = (inr nx, with_fs fs1 h)) as E1 by (cbn [h_open host_ops]; unfold lift, fs_open; fold fs; by rewrite L1).
    assert (@s_creat host (@h_sys host memgz host_ops) (with_fs fs1 h) dst 0x1b6 = (inr (S (S nx)), with_fs fs2 h)) as E2.
    { cbn [s_creat h_sys host_ops host_sys]. unfold lift. cbn [hs_fs with_fs s_creat memfs_ops]. unfold fs_creat, fs_create.
      change (fs_lookup fs1 dst) with (fs_lookup fs dst). change (parent_ok fs1 dst) with (parent_ok fs dst).
      rewrite L2, Hp, bool_decide_eq_false_2 by (by intros []). cbn [negb]. change (0 =? 0) with true. cbn iota.
      unfold fs_lookup. cbn [fs_names fs_inodes fs1 fs_next]. rewrite lookup_insert_eq. cbn [mbind option_bind]. rewrite lookup_insert_eq. done. }
    unfold copyFile. rewrite E1. unfold copyFileFd. rewrite E2.
    apply fs_lookup_some in L1 as [N1 I1]. pose proof (Hnum _ _ N1) as Hlt. fold fs nx in Hlt.
    destruct (copy_loop_copies fuel (with_fs fs2 h) nx (S (S nx)) n1 (S nx) 0 d [] i1 (mkInode (KReg []) 0x1b6 0 0 0))
      as (h' & i3 & E & Ho & Hi & Hk & _); try done; try lia.
    { cbn. rewrite lookup_insert_ne by lia. apply lookup_insert_eq. }
    { cbn. apply lookup_insert_eq. }
    { cbn. by rewrite lookup_insert_ne by lia. }
    { cbn. apply lookup_insert_eq. }
    rewrite E. cbn [mbind outcome_bind]. destruct Ho as [Ho1 Ho2]. cbn [hs_fs with_fs fs2 fs_names fs_inodes] in Ho1, Ho2.
    eexists. split; [reflexivity |]. split.
    + unfold fs_data, fs_lookup. cbn. rewrite Ho1, lookup_insert_eq. cbn. rewrite Hi. cbn. by rewrite Hk, drop_nil, app_nil_r.
    + intros p n i L. assert (p ≠ dst) as Hpd by (intros ->; congruence).
      apply fs_lookup_some in L as [Np Ip]. pose proof (Hnum _ _ Np) as Hlp. fold fs nx in Hlp.
      apply fs_lookup_some. cbn. rewrite Ho1, Ho2, !lookup_insert_ne by (done || lia). done.
  - apply copyFile_missing.
Qed.

Lemma copyFile_copies_witness :
  ∃ h', copyFile 64 (str "/proc/meminfo") (str "copy") small_host = Ret (0, h') ∧ fs_data (hs_fs h') (str "copy") = Some meminfo ∧
    ∀ p n i, fs_lookup (hs_fs small_host) p = Some (n, i) → fs_lookup (hs_fs h') p = Some (n, i).
Proof.
  apply (copyFile_copies small_host (str "/proc/meminfo") (str "copy") 64 eq_refl) with (n1 := 1%nat) (i1 := mkInode (KReg meminfo) 0x1a4 0 0 0); try reflexivity.
  - intros p n Hp. cbn in Hp. unfold one_file in Hp. cbn in Hp. apply lookup_singleton_Some in Hp as [_ <-]. cbn. lia.
  - vm_compute. lia.
Defined.
