(* ===== verification/Transfer.v ===== *)
(** * Transfers from a URL (stage-1/urls.c)

    urlinstStartTransfer and urlinstFinishTransfer on the client of [Ftp], and
    urlMainSetupPanel, whose form is a call of the environment. *)

From S2P Require Import Prelude CLib Loader Net Urls Ftp Kickstart CmdLine.

Section transfer.
Context {W : Type} `{NetOps W}.
(** As in [Ftp]; [junk4] is what the address of addrToIp holds. *)
Context (inet_pton6 : bytes → option bytes) (gethostbyname : bytes → option bytes) (junk6 : bytes)
  (pw_name : option bytes) (alloca : nat → nat) (junk4 : Z).

(** The family of a host name, and the contents of addr6. *)
Definition host_family (hostname : bytes) : option (Z * bytes) :=
  if bool_decide (is_Some (inet_pton4 hostname)) then Some (AF_INET, junk6)
  else match inet_pton6 hostname with
       | Some a => Some (AF_INET6, a)
       | None =>
           match gethostbyname hostname with
           | Some a => Some (if (length a =? 4)%nat then AF_INET else AF_INET6, junk6)
           | None => None
           end
       end.

Definition set_ftpPort (p : Z) (ui : iurlinfo) : iurlinfo :=
  mkUi (protocol ui) (address ui) (login ui) (password ui) (prefix ui) (proxy ui) (proxyPort ui) p.

(** The descriptor or an error, the structure, [*size], the buffer of
    ftpCheckResponse; [None] when the process aborts.  For an address of version
    4, ftpGetFileDesc gets an addr6 that was never set. *)
Definition urlinstStartTransfer (fuel : nat) (ui : iurlinfo) (path : bytes) (extraHeaders : option bytes) (size : Z)
    (buf : bytes) (w : W) : outcome (option (Z * iurlinfo * Z * bytes * W)) :=
  a ← checked (address ui);
  '(hostname, portstr) ← splitHostname a;
  hostname ← checked hostname;
  match (match portstr with None => Some (-1) | Some p => strtol_int p end) with
  | None => Ret None
  | Some port =>
      match host_family hostname with
      | None => Ret (Some (-1, ui, size, buf, w))
      | Some (family, addr6) =>
          let finish (fd : Z) (ui : iurlinfo) (size : Z) (buf : bytes) (w : W) :=
            _ ← checked (strrchr path 47); Ret (Some (fd, ui, size, buf, w)) in
          if decide (protocol ui = URL_METHOD_FTP) then
            '(sock, buf, w) ← ftpOpen inet_pton6 gethostbyname junk6 pw_name fuel hostname family
              (Some (default (str "anonymous") (login ui))) (Some (default (str "rhinstall@") (password ui))) port buf w;
            let ui := set_ftpPort sock ui in
            if sock <? 0 then Ret (Some (-2, ui, size, buf, w))
            else
              '(fd, size, buf, w) ← ftpGetFileDesc fuel sock addr6 family path size buf w;
              if fd <? 0 then Ret (Some (-1, ui, size, buf, n_close w sock)) else finish fd ui size buf w
          else
            r ← httpGetFileDesc inet_pton6 gethostbyname junk6 alloca fuel hostname port path extraHeaders size w;
            match r with
            | None => Ret None
            | Some (fd, size, w) => if fd <? 0 then Ret (Some (-1, ui, size, buf, w)) else finish fd ui size buf w
            end
      end
  end.

Definition urlinstFinishTransfer (ui : iurlinfo) (fd : Z) (w : W) : W :=
  let w := if decide (protocol ui = URL_METHOD_FTP) then n_close w (ftpPort ui) else w in
  n_close w fd.

(** inet_ntop is applied to an address that was never set, and succeeds. *)
Definition addrToIp (hostname : bytes) : option bytes := Some (inet_ntop4 junk4).

(** ** The panel *)

(** The form with a URL in its entry: the URL afterwards, or null for Back. *)
Context (u_form : W → bytes → option bytes * W).

Fixpoint panel_loop (fuel : nat) (url : bytes) (ui : iurlinfo) (w : W) : outcome (Z * iurlinfo * W) :=
  match fuel with
  | O => NoFuel
  | S fuel =>
      let '(answer, w) := u_form w url in
      match answer with
      | None => Ret (LOADER_BACK, ui, w)
      | Some url =>
          if bool_decide (url = []) then panel_loop fuel url ui w
          else if negb (bool_decide (is_Some (strstr url (str "http://")))) && negb (bool_decide (is_Some (strstr url (str "ftp://")))) then
            panel_loop fuel url ui w
          else
            '(rc, url, ui) ← convertURLToUI url;
            if rc =? -1 then panel_loop fuel url ui w
            else
              a ← checked (address ui);
              match addrToIp a with
              | None => panel_loop fuel url ui w
              | Some _ =>
                  p ← checked (prefix ui);
                  p ← strip_prefix p;
                  Ret (0, mkUi (protocol ui) (address ui) (login ui) (password ui) (Some p) (proxy ui) (proxyPort ui) (ftpPort ui), w)
              end
      end
  end.
Definition urlMainSetupPanel (fuel : nat) (ui : iurlinfo) (w : W) : outcome (Z * iurlinfo * W) :=
  url ← (match prefix ui with Some _ => convertUIToURL ui | None => Ret [] end);
  panel_loop fuel url ui w.
End transfer.
