(* ===== verification/Methods.v ===== *)
(** * Images and where they come from (method.c, nfsinstall.c, urlinstall.c, hdinstall.c, cdinstall.c)

    The loop mounts and the unpacking of method.c, and the four mountImage
    functions of the table of methods with what they call, down to the transfers
    of [Transfer].  The dialogues, the drives and the drivers are calls of
    [MethodOps].  [fuel] bounds the reads of files and pipes and [turns] the
    turns of the loops that go through dialogues. *)

From S2P Require Import Prelude CLib Loader Posix Sys Cpio CpioInstall Net Urls Ftp Kickstart CmdLine Getparts Steps Host Imount Misc Transfer.

(** What the window of mountHardDrive gives: Back, F2, or a partition and a
    directory. *)
Inductive hd_answer := HD_back | HD_drivers | HD_chosen (selpart dir : bytes).

Class MethodOps (W : Type) := {
  mo_net :: NetOps W;
  (* newtWinEntries for the server and the directory: 2 for Back *)
  u_entries : W → option bytes → option bytes → Z * bytes * bytes * W;
  u_form : W → bytes → option bytes * W;
  (* newtWinChoice: 1 or 2 *)
  u_choice : W → Z * W;
  u_window : W → list bytes → option bytes → bytes → hd_answer * W;
  (* loadDriverFromMedia(type, ...) *)
  u_drivers : W → Z → Z * W;
  (* the contents of /proc/partitions *)
  u_partitions : W → option bytes;
  (* getDevices(DEVICE_CDROM), some without a name *)
  u_cdroms : W → option (list (option bytes));
  (* the drive can be opened; CDROM_DRIVE_STATUS; CDROMCLOSETRAY succeeds *)
  u_drive : W → bytes → bool;
  u_status : W → bytes → Z * W;
  u_closetray : W → bytes → bool * W;
  u_eject : W → bytes → W;
  (* doMediaCheck of mediacheck.c *)
  u_mediacheck : W → bytes → option bytes → W
}.

Section methods.
Context {W G : Type} `{HostOps W G} `{MethodOps W}.
(** Memory that was never set, and the parameters of [Ftp] and of the cpio
    library. *)
Context (junk : nat → bytes) (cpio_junk : Z) (fuel : nat).
Context (inet_pton6 : bytes → option bytes) (gethostbyname : bytes → option bytes) (junk6 : bytes)
  (pw_name : option bytes) (alloca : nat → nat) (junk4 : Z) (version arch name : bytes).

(** ** method.c *)

Definition umountLoopback (mntpoint device : bytes) (w : W) : W := h_loop_clear (h_umount w mntpoint) device.

Definition loop_types : list bytes := [str "iso9660"; str "ext2"; str "squashfs"; str "cramfs"; str "vfat"].
Definition mountLoopback (fsystem mntpoint : bytes) (device : option bytes) (w : W) : outcome (Z * W) :=
  match device with
  | None => Ret (LOADER_ERROR, w)
  | Some device =>
      if negb (h_exists w fsystem =? 0) then Ret (LOADER_ERROR, w)
      else
        '(rc, _, w) ← doMultiMount junk fuel fsystem mntpoint loop_types (Some (str "ro,loop=" ++ device)) (Some None) w;
        Ret (if rc =? 0 then 0 else LOADER_ERROR, w)
  end.

(** installCpioFile is called without a name to put the file under. *)
Definition unpackCpioBall (ballPath rootDir : bytes) (w : W) : outcome (Z * W) :=
  if negb (s_access w ballPath =? 0) then Ret (1, w)
  else
    let w := if s_access w rootDir =? 0 then w else snd (mkdirChain rootDir w) in
    let cwd := h_getcwd w in
    let '(rc, w) := h_chdir w rootDir in
    if negb (rc =? 0) then Ret (1, w)
    else
      match h_gunzip_open w ballPath with
      | None => Ret (1, snd (h_chdir w cwd))
      | Some fd =>
          '(rc, w) ← installCpioFile cpio_junk fuel fd w [] [] None;
          let w := snd (h_chdir w cwd) in
          Ret (if rc =? 0 then 0 else 1, w)
      end.

(** [depth] of [copyDirectory]: directories inside each other. *)
Context (depth : nat).

Definition copyUpdatesImg (path : bytes) (w : W) : outcome W :=
  if negb (s_access w path =? 0) then Ret w
  else
    '(rc, w) ← mountLoopback path (str "/tmp/update-disk") (Some (str "/dev/loop7")) w;
    if rc =? 0 then
      '(_, w) ← copyDirectory depth fuel (str "/tmp/update-disk") (str "/tmp/updates") w;
      Ret (snd (s_unlink (umountLoopback (str "/tmp/update-disk") (str "/dev/loop7") w) (str "/tmp/update-disk")))
    else '(_, w) ← unpackCpioBall path (str "/tmp/updates") w; Ret w.

Definition copyProductImg (path : bytes) (w : W) : outcome W :=
  if negb (s_access w path =? 0) then Ret w
  else
    '(rc, w) ← mountLoopback path (str "/tmp/product-disk") (Some (str "/dev/loop7")) w;
    if rc =? 0 then
      '(_, w) ← copyDirectory depth fuel (str "/tmp/product-disk") (str "/tmp/product") w;
      Ret (snd (s_unlink (umountLoopback (str "/tmp/product-disk") (str "/dev/loop7") w) (str "/tmp/product-disk")))
    else Ret w.

Definition umountStage2 (w : W) : W := umountLoopback (str "/mnt/runtime") (str "/dev/loop0") w.
Definition mountStage2 (stage2path : bytes) (w : W) : outcome (Z * W) :=
  if negb (s_access w stage2path =? 0) then Ret (1, w)
  else
    '(rc, w) ← mountLoopback stage2path (str "/mnt/runtime") (Some (str "/dev/loop0")) w;
    Ret (if rc =? 0 then 0 else 1, w).

Definition copyFileAndLoopbackMount (fd : nat) (dest device mntpoint : bytes) (w : W) : outcome (Z * W) :=
  '(rc, w) ← copyFileFd fuel fd dest w;
  if negb (rc =? 0) then Ret (1, snd (s_unlink w dest))
  else '(rc, w) ← mountLoopback dest mntpoint (Some device) w; Ret (if rc =? 0 then 0 else 1, w).

(** snprintf cuts the name off; the result of copyFile is not looked at. *)
Definition getFileFromBlockDevice (device path dest : bytes) (w : W) : outcome (Z * W) :=
  '(rc, _, w) ← doMultiMount junk fuel device (str "/tmp/mnt") [str "vfat"; str "ext2"; str "iso9660"] (Some (str "ro")) None w;
  if negb (rc =? 0) then Ret (2, w)
  else
    let file := snprintf_ 4096 (str "/tmp/mnt/" ++ path) in
    '(rc, w) ← (if negb (s_access w file =? 0) then Ret (3, w) else '(_, w) ← copyFile fuel file dest w; Ret (0, w));
    Ret (rc, snd (s_unlink (h_umount w (str "/tmp/mnt")) (str "/tmp/mnt"))).

(** *** The stamp of a disc *)

(** Back from the end of a string to its last white space, or to its start. *)
Fixpoint last_space (s : bytes) (p : nat) : nat :=
  match p with
  | O => O
  | Datatypes.S q => if isspace (default 0 (s !! p)) then p else last_space s q
  end.
(** A description with the number of its disc; a number with commas is a DVD. *)
Definition disc_descr (descr number : bytes) : bytes :=
  take (last_space descr (length descr)) descr ++ [32] ++
  (if bool_decide (is_Some (strchr number 44)) then str "DVD" ++ [10] else str "disc " ++ number).
(** The lines of .discinfo: the time stamp, the description, the architecture
    and the disc.  Without a fourth line the third one is taken for it. *)
Definition discinfo_lines (f : bytes) : option bytes * option bytes :=
  match fgets 1024 f with
  | None => (None, None)
  | Some (tstamp, f) =>
      match fgets 1024 f with
      | None => (Some tstamp, None)
      | Some (descr, f) =>
          match fgets 1024 f with
          | None => (Some tstamp, Some descr)
          | Some (arch_, f) =>
              let number := match fgets 1024 f with Some (n, _) => n | None => arch_ end in
              (Some tstamp, Some (disc_descr (until_nul descr) (until_nul number)))
          end
      end
  end.
(** [s[strlen(s)-1] = '\0'] *)
Definition chop (s : bytes) : outcome bytes :=
  match length (until_nul s) with O => Undef | Datatypes.S n => Ret (take n s) end.

(** The result, and the time stamp with the description when it is 0. *)
Definition readStampFileFromIso (file : bytes) (w : W) : outcome (Z * option (bytes * bytes) * W) :=
  st ← (match s_lstat w file with inr st => Ret st | inl _ => Undef end);
  let block := S_IS S_IFBLK (st_mode st) in
  '(rc, w) ←
    (if block then '(rc, _, w) ← doPwMount junk fuel file (str "/tmp/testmnt") (str "iso9660") (Some (str "ro")) None w; Ret (rc, w)
     else if S_IS S_IFREG (st_mode st) then mountLoopback file (str "/tmp/testmnt") (Some (str "/dev/loop6")) w
     else Ret (-1, w));
  if negb (rc =? 0) then Ret (-1, None, w)
  else
    let leave w :=
      let w := h_umount w (str "/tmp/testmnt") in
      if block then w else umountLoopback (str "/tmp/testmnt") (str "/dev/loop6") w in
    match h_readdir w (str "/tmp/testmnt") with
    | None => Ret (-1, None, leave w)
    | Some names =>
        let '(tstamp, descr) :=
          if existsb (starts_with (str ".discinfo")) names then
            match h_contents w (str "/tmp/testmnt/.discinfo") with Some f => discinfo_lines f | None => (None, None) end
          else (None, None) in
        match tstamp, descr with
        | Some tstamp, Some descr => d ← chop descr; t ← chop tstamp; Ret (0, Some (t, d), leave w)
        | _, _ => Ret (1, None, leave w)
        end
    end.

(** ** Fetching images from a URL (urlinstall.c) *)

Definition extra_headers (ui : iurlinfo) : option bytes :=
  if decide (protocol ui = URL_METHOD_HTTP) then
    Some (str "User-Agent: anaconda/" ++ version ++ crlf ++ str "X-Anaconda-Architecture: " ++ arch ++ crlf ++
          str "X-Anaconda-System-Release: " ++ name ++ crlf)
  else None.

(** The result, the structure with its control connection, the buffer of
    ftpCheckResponse; [None] when the process aborts. *)
Definition loadSingleUrlImage (ui : iurlinfo) (path dest mntpoint device : bytes) (buf : bytes) (w : W) :
    outcome (option (Z * iurlinfo * bytes * W)) :=
  r ← urlinstStartTransfer inet_pton6 gethostbyname junk6 pw_name alloca fuel ui path (extra_headers ui) 0 buf w;
  match r with
  | None => Ret None
  | Some (fd, ui, _, buf, w) =>
      if fd <? 0 then Ret (Some (2, ui, buf, w))
      else
        '(rc, w) ← copyFileAndLoopbackMount (Z.to_nat fd) dest device mntpoint w;
        Ret (Some (rc, ui, buf, urlinstFinishTransfer ui fd w))
  end.

Definition unlink_both (a b : bytes) (w : W) : W := snd (s_unlink (snd (s_unlink w a)) b).

(** updates.img, product.img and the image itself, from the same directory. *)
Definition loadUrlImages (ui : iurlinfo) (buf : bytes) (w : W) : outcome (option (Z * iurlinfo * bytes * W)) :=
  pre ← checked (prefix ui);
  match strrchr pre 47 with
  | None => Ret (Some (0, ui, buf, w))
  | Some slash =>
      let path := before pre slash in
      r ← loadSingleUrlImage ui (path ++ str "/updates.img") (str "/tmp/updates-disk.img") (str "/tmp/update-disk")
            (str "/dev/loop7") buf w;
      match r with
      | None => Ret None
      | Some (rc, ui, buf, w) =>
          w ← (if rc =? 0 then
                 '(_, w) ← copyDirectory depth fuel (str "/tmp/update-disk") (str "/tmp/updates") w;
                 Ret (unlink_both (str "/tmp/updates-disk.img") (str "/tmp/update-disk")
                        (umountLoopback (str "/tmp/update-disk") (str "/dev/loop7") w))
               else if s_access w (str "/tmp/updates-disk.img") =? 0 then
                 '(_, w) ← unpackCpioBall (str "/tmp/updates-disk.img") (str "/tmp/updates") w;
                 Ret (snd (s_unlink w (str "/tmp/updates-disk.img")))
               else Ret w);
          r ← loadSingleUrlImage ui (path ++ str "/product.img") (str "/tmp/product-disk.img") (str "/tmp/product-disk")
                (str "/dev/loop7") buf w;
          match r with
          | None => Ret None
          | Some (rc, ui, buf, w) =>
              w ← (if rc =? 0 then
                     '(_, w) ← copyDirectory depth fuel (str "/tmp/product-disk") (str "/tmp/product") w;
                     Ret (unlink_both (str "/tmp/product-disk.img") (str "/tmp/product-disk")
                            (umountLoopback (str "/tmp/product-disk") (str "/dev/loop7") w))
                   else Ret w);
              r ← loadSingleUrlImage ui pre (str "/tmp/install.img") (str "/mnt/runtime") (str "/dev/loop0") buf w;
              match r with
              | None => Ret None
              | Some (rc, ui, buf, w) => Ret (Some (if rc =? 0 then 0 else 1, ui, buf, w))
              end
          end
      end
  end.
(** ** The methods of the table *)

Context {S : Type}.
Abbreviation meth st := (ld_i (c_ld st) L_method).
Abbreviation on_ld f st := (with_ld f st).
(** [if (loaderData->inferredStage2) loaderData->invalidRepoParam = 1;] *)
Definition repo_invalid (st : cmd_state S) : cmd_state S :=
  if ld_i (c_ld st) L_inferredStage2 =? 0 then st else on_ld (set_ldi L_invalidRepoParam 1) st.
(** [if (loaderData->method >= 0) loaderData->method = -1;] and the above. *)
Definition method_failed (st : cmd_state S) : cmd_state S :=
  repo_invalid (if 0 <=? meth st then on_ld (set_ldi L_method (-1)) st else st).

(** *** URL *)

Inductive url_stage := URL_STAGE_MAIN | URL_STAGE_FETCH.

(** The URL or null; [None] when the process aborts. *)
Fixpoint url_loop (turns : nat) (stage : url_stage) (ui : iurlinfo) (buf : bytes) (st : cmd_state S) (w : W) :
    outcome (option (option bytes * bytes * cmd_state S * W)) :=
  match turns with
  | O => NoFuel
  | Datatypes.S turns =>
      match stage with
      | URL_STAGE_MAIN =>
          match c_stage2 st, meth st =? METHOD_URL with
          | Some d, true =>
              url ← (match d with urlInstallData u => Ret u | _ => Undef end);
              '(_, _, ui) ← convertURLToUI url;
              url_loop turns URL_STAGE_FETCH ui buf st w
          | _, _ =>
              '(rc, ui, w) ← urlMainSetupPanel junk4 u_form fuel ui w;
              if negb (rc =? 0) then Ret (Some (None, buf, st, w))
              else
                pre ← checked (prefix ui);
                let '(ui, st) :=
                  if is_img pre then (ui, st)
                  else (mkUi (protocol ui) (address ui) (login ui) (password ui) (Some (pre ++ str "/images/install.img"))
                          (proxy ui) (proxyPort ui) (ftpPort ui),
                        on_ld (set_lds L_instRepo (Some pre)) st) in
                url_loop turns URL_STAGE_FETCH ui buf (on_ld (set_ldi L_invalidRepoParam 1) st) w
          end
      | URL_STAGE_FETCH =>
          if FL (c_flags st) LOADER_FLAGS_TESTING then
            url ← convertUIToURL ui; Ret (Some (Some url, buf, st, w))
          else
            r ← loadUrlImages ui buf w;
            match r with
            | None => Ret None
            | Some (rc, ui, buf, w) =>
                if negb (rc =? 0) then url_loop turns URL_STAGE_MAIN ui buf (method_failed st) w
                else url ← convertUIToURL ui; Ret (Some (Some url, buf, st, w))
            end
      end
  end.
Definition mountUrlImage_ (turns : nat) (buf : bytes) (st : cmd_state S) (w : W) :
    outcome (option (option bytes * bytes * cmd_state S * W)) :=
  url_loop turns URL_STAGE_MAIN zero_ui buf st w.

(** *** NFS *)

(** [do ... while]: the fields are asked for again while one is empty, for Back
    as well.  The answer is Back or the two fields. *)
Fixpoint nfsGetSetup (turns : nat) (host dir : option bytes) (w : W) : outcome (option (bytes * bytes) * W) :=
  match turns with
  | O => NoFuel
  | Datatypes.S turns =>
      let '(rc, newServer, newDir, w) := u_entries w host dir in
      if bool_decide (newServer = []) || bool_decide (newDir = []) then nfsGetSetup turns (Some newServer) (Some newDir) w
      else Ret (if rc =? 2 then None else Some (newServer, newDir), w)
  end.

Inductive nfs_stage := NFS_STAGE_NFS | NFS_STAGE_MOUNT | NFS_STAGE_UPDATES.
Record nfs_vars := mkNfs { nv_host : option bytes; nv_dir : option bytes; nv_opts : option bytes; nv_full : bytes; nv_url : option bytes }.

(** The part of a path in front of its last slash. *)
Definition up_to_slash (p : bytes) : outcome bytes := s ← checked (strrchr p 47); Ret (before p s).

Fixpoint nfs_loop (turns : nat) (stage : nfs_stage) (v : nfs_vars) (st : cmd_state S) (w : W) :
    outcome (option bytes * cmd_state S * W) :=
  match turns with
  | O => NoFuel
  | Datatypes.S turns =>
      match stage with
      | NFS_STAGE_NFS =>
          match c_stage2 st, meth st =? METHOD_NFS with
          | Some d, true =>
              '(host, directory, mountOpts) ← (match d with nfsInstallData h d o => Ret (h, d, o) | _ => Undef end);
              let opts := Some (match mountOpts with None => str "ro" | Some o => str "ro," ++ o end) in
              match directory with
              | Some directory => nfs_loop turns NFS_STAGE_MOUNT (mkNfs (Some host) (Some directory) opts (nv_full v) (nv_url v)) st w
              | None =>
                  nfs_loop turns NFS_STAGE_NFS (mkNfs (Some host) None opts (nv_full v) (nv_url v))
                    (on_ld (set_ldi L_method (-1)) (repo_invalid st)) w
              end
          | _, _ =>
              '(r, w) ← nfsGetSetup turns (nv_host v) (nv_dir v) w;
              match r with
              | None => Ret (None, st, w)
              | Some (host, directory) =>
                  if is_img directory then
                    nfs_loop turns NFS_STAGE_MOUNT (mkNfs (Some host) (Some directory) (nv_opts v) (nv_full v) (nv_url v))
                      (on_ld (set_ldi L_invalidRepoParam 1) st) w
                  else
                    let st := on_ld (set_lds L_instRepo (Some (str "nfs:" ++ host ++ 58 :: directory))) st in
                    st ← setStage2LocFromCmdline (str "nfs:" ++ host ++ 58 :: directory ++ str "/images/install.img") st;
                    nfs_loop turns NFS_STAGE_NFS (mkNfs (Some host) (Some directory) (nv_opts v) (nv_full v) (nv_url v)) st w
              end
          end
      | NFS_STAGE_MOUNT =>
          host ← checked (nv_host v);
          directory ← checked (nv_dir v);
          top ← up_to_slash directory;
          slash ← checked (strrchr directory 47);
          let fullPath := host ++ 58 :: top in
          let v := mkNfs (Some host) (Some directory) (nv_opts v) fullPath (nv_url v) in
          if FL (c_flags st) LOADER_FLAGS_TESTING then Ret (nv_url v, st, w)
          else
            '(rc, _, w) ← doPwMount junk fuel fullPath (str "/mnt/stage2") (str "nfs") (nv_opts v) None w;
            if rc =? 0 then
              let image := str "/mnt/stage2/" ++ slash in
              if s_access w image =? 0 then
                '(rc, w) ← mountStage2 image w;
                if rc =? 0 then
                  nfs_loop turns NFS_STAGE_UPDATES
                    (mkNfs (Some host) (Some directory) (nv_opts v) fullPath (Some (str "nfs:" ++ host ++ 58 :: directory))) st w
                else nfs_loop turns NFS_STAGE_NFS v st w
              else nfs_loop turns NFS_STAGE_NFS v (method_failed st) (h_umount w (str "/mnt/stage2"))
            else nfs_loop turns NFS_STAGE_NFS v (method_failed st) w
      | NFS_STAGE_UPDATES =>
          top ← up_to_slash (nv_full v);
          '(rc, _, w) ← doPwMount junk fuel (top ++ str "/RHupdates") (str "/tmp/update-disk") (str "nfs") (nv_opts v) None w;
          w ← (if rc =? 0 then
                 '(_, w) ← copyDirectory depth fuel (str "/tmp/update-disk") (str "/tmp/updates") w;
                 Ret (snd (s_unlink (h_umount w (str "/tmp/update-disk")) (str "/tmp/update-disk")))
               else Ret w);
          Ret (nv_url v, st, w)
      end
  end.
Definition mountNfsImage_ (turns : nat) (st : cmd_state S) (w : W) : outcome (option bytes * cmd_state S * W) :=
  nfs_loop turns NFS_STAGE_NFS (mkNfs None None None [] None) st w.
(** *** Hard drive *)

(** [for (type=typetry; *type; type++)]: the types are tried until one mounts;
    that none did is tested on [type] itself and never noticed. *)
Fixpoint try_types (device : bytes) (types : list bytes) (w : W) : outcome W :=
  match types with
  | [] => Ret w
  | t :: types =>
      '(rc, _, w) ← doPwMount junk fuel device (str "/mnt/isodir") t (Some (str "ro")) None w;
      if rc =? 0 then Ret w else try_types device types w
  end.
Definition setupIsoImages (flags : Z) (device dirName : bytes) (w : W) : outcome (option bytes * W) :=
  if FL flags LOADER_FLAGS_TESTING then Ret (None, w)
  else
    w ← try_types device [str "ext3"; str "ext2"; str "vfat"] w;
    top ← up_to_slash dirName;
    let dirspec := str "/mnt/isodir" ++ top in
    '(_, w) ← copyFile fuel (str "/mnt/isodir" ++ dirName) (str "/tmp/install.img") w;
    '(rc, w) ← mountStage2 (str "/tmp/install.img") w;
    if negb (rc =? 0) then
      Ret (None, h_umount (umountLoopback (str "/mnt/runtime") (str "/dev/loop0") w) (str "/mnt/isodir"))
    else
      w ← copyUpdatesImg (dirspec ++ str "/updates.img") w;
      w ← copyProductImg (dirspec ++ str "/product.img") w;
      Ret (Some (str "hd:" ++ device ++ str ":/" ++ dirName), h_umount w (str "/mnt/isodir")).

(** [while (!done)]; [kspart] and [ksdir] fill the window the first time only. *)
Fixpoint hd_loop (turns : nat) (kspart ksdir : option bytes) (dir : bytes) (st : cmd_state S) (w : W) :
    outcome (option bytes * cmd_state S * W) :=
  match turns with
  | O => NoFuel
  | Datatypes.S turns =>
      partition_list ← getPartitionsList None (u_partitions w);
      if (lenPartitionsList partition_list =? 0)%nat then
        let '(rc, w) := u_choice w in
        if rc =? 2 then Ret (None, st, w)
        else
          let '(rc, w) := u_drivers w DEVICE_DISK in
          if rc =? LOADER_BACK then Ret (None, st, w) else hd_loop turns kspart ksdir dir st w
      else
        let '(a, w) := u_window w (default [] partition_list) kspart (default dir ksdir) in
        match a with
        | HD_back => Ret (None, st, w)
        | HD_drivers =>
            let '(rc, w) := u_drivers w DEVICE_DISK in
            if rc =? LOADER_BACK then Ret (None, st, w) else hd_loop turns None None dir st w
        | HD_chosen selpart dir =>
            let dir := if is_img dir then dir else dir ++ str "/images/install.img" in
            let st := on_ld (set_ldi L_invalidRepoParam 1) st in
            '(url, w) ← setupIsoImages (c_flags st) selpart dir w;
            match url with
            | Some url => Ret (Some url, st, w)
            | None => hd_loop turns None None dir st w
            end
        end
  end.
Definition mountHardDrive_ (turns : nat) (st : cmd_state S) (w : W) : outcome (option bytes * cmd_state S * W) :=
  match c_stage2 st, meth st =? METHOD_HD with
  | Some d, true =>
      '(kspartition, ksdirectory) ← (match d with hdInstallData p d => Ret (p, d) | _ => Undef end);
      let failed := repo_invalid (on_ld (set_ldi L_method (-1)) st) in
      match kspartition, ksdirectory with
      | Some p, Some d =>
          let kspart := if starts_with (str "/dev/") p then drop 5 p else p in
          '(url, w) ← setupIsoImages (c_flags st) kspart d w;
          match url with
          | Some url => Ret (Some url, st, w)
          | None => hd_loop turns kspartition ksdirectory [] failed w
          end
      | _, _ => hd_loop turns kspartition ksdirectory [] failed w
      end
  | _, _ => hd_loop turns None None [] st w
  end.

(** *** CD *)

Definition CDS_NO_INFO : Z := 0.
Definition CDS_NO_DISC : Z := 1.
Definition CDS_TRAY_OPEN : Z := 2.
Definition CDS_DRIVE_NOT_READY : Z := 3.

(** [do ... while (rc == CDS_DRIVE_NOT_READY)] *)
Fixpoint waitForCdromTrayClose (turns : nat) (device : bytes) (w : W) : outcome (Z * W) :=
  match turns with
  | O => NoFuel
  | Datatypes.S turns =>
      let '(rc, w) := u_status w device in
      if rc =? CDS_DRIVE_NOT_READY then waitForCdromTrayClose turns device w else Ret (rc, w)
  end.
Definition closeCdromTray (device : bytes) (w : W) : outcome W :=
  if bool_decide (device = []) then Ret w
  else if negb (u_drive w device) then Ret w
  else
    let '(closed, w) := u_closetray w device in
    if closed then '(_, w) ← waitForCdromTrayClose fuel device w; Ret w else Ret w.

(** [do ... while (1)]: one disc after the other. *)
Fixpoint mediaCheckCdrom (turns : nat) (first : bool) (cddriver : bytes) (w : W) : outcome W :=
  match turns with
  | O => NoFuel
  | Datatypes.S turns =>
      w ← closeCdromTray cddriver w;
      let '(rc, w) := if first then u_choice w else (1, w) in
      w ← (if rc =? 2 then Ret w
           else '(_, stamp, w) ← readStampFileFromIso cddriver w; Ret (u_mediacheck w cddriver (snd <$> stamp)));
      let w := u_eject w cddriver in
      let '(rc, w) := u_choice w in
      if rc =? 2 then closeCdromTray cddriver w else mediaCheckCdrom turns false cddriver w
  end.

(** The disc is mounted again until one with an image is in the drive. *)
Fixpoint remount_disc (turns : nat) (dev location : bytes) (w : W) : outcome W :=
  match turns with
  | O => NoFuel
  | Datatypes.S turns =>
      '(rc, _, w) ← doPwMount junk fuel dev location (str "iso9660") (Some (str "ro")) None w;
      if negb (rc =? 0) then remount_disc turns dev location (u_eject w dev)
      else if s_access w (location ++ str "/images/install.img") =? 0 then Ret w
      else remount_disc turns dev location (u_eject (h_umount w location) dev)
  end.
Definition queryCDMediaCheck (turns : nat) (flags : Z) (dev location : bytes) (w : W) : outcome W :=
  if FL flags LOADER_FLAGS_KICKSTART && negb (FL flags LOADER_FLAGS_MEDIACHECK) then Ret w
  else if negb (FL flags LOADER_FLAGS_RESCUE) || FL flags LOADER_FLAGS_MEDIACHECK then
    let '(rc, w) := u_choice w in
    if rc =? 2 then Ret w
    else
      w ← mediaCheckCdrom turns true dev (h_umount w location);
      remount_disc turns dev location w
  else Ret w.

(** One drive of the list: the URL when its disc was mounted. *)
Definition try_drive (turns : nat) (flags : Z) (location : bytes) (mediaCheck : bool) (device : bytes) (w : W) :
    outcome (option bytes * bool * W) :=
  if negb (u_drive w device) then Ret (None, false, w)
  else
    '(rc, w) ← waitForCdromTrayClose fuel device w;
    if rc =? CDS_NO_DISC then Ret (None, false, w)
    else
      '(rc, _, w) ← doPwMount junk fuel device location (str "iso9660") (Some (str "ro")) None w;
      if negb (rc =? 0) then Ret (None, false, w)
      else
        let stage2loc := location ++ str "/images/install.img" in
        if negb (s_access w stage2loc =? 0) then Ret (None, true, h_umount w location)
        else
          w ← (if mediaCheck then queryCDMediaCheck turns flags device location w else Ret w);
          '(ram, w) ← (if FL flags LOADER_FLAGS_RESCUE && negb (FL flags LOADER_FLAGS_TEXT) then
                         '(total, w) ← totalMemory w; Ret (128000 <? total, w)
                       else Ret (false, w));
          w ← (if ram : bool then '(_, w) ← copyFile fuel stage2loc (str "/tmp/install.img") w; Ret w else Ret w);
          '(rc, w) ← mountStage2 (if ram then str "/tmp/install.img" else stage2loc) w;
          if negb (rc =? 0) then Ret (None, true, h_umount w location)
          else
            w ← copyUpdatesImg (location ++ str "/images/updates.img") w;
            w ← copyProductImg (location ++ str "/images/product.img") w;
            let w := if FL flags LOADER_FLAGS_RESCUE && ram then h_umount w location else w in
            Ret (Some (str "cdrom://" ++ device ++ 58 :: location), true, w).

(** The drives one after the other, also behind one whose disc was taken: the
    last one of which the disc and its image could be mounted gives the URL, and
    the last one mounted is ejected. *)
Fixpoint try_drives (turns : nat) (flags : Z) (location : bytes) (mediaCheck : bool) (devices : list (option bytes))
    (retbuf cddev : option bytes) (w : W) : outcome (option bytes * option bytes * W) :=
  match devices with
  | [] => Ret (retbuf, cddev, w)
  | None :: devices => try_drives turns flags location mediaCheck devices retbuf cddev w
  | Some d :: devices =>
      let d := if starts_with (str "/dev/") d then d else str "/dev/" ++ d in
      '(url, mounted, w) ← try_drive turns flags location mediaCheck d w;
      try_drives turns flags location mediaCheck devices
        (match url with Some u => Some u | None => retbuf end) (if mounted : bool then Some d else cddev) w
  end.
Fixpoint cd_loop (turns : nat) (flags : Z) (location : bytes) (interactive mediaCheck : bool) (devices : list (option bytes))
    (cddev : option bytes) (w : W) : outcome (option bytes * W) :=
  match turns with
  | O => NoFuel
  | Datatypes.S turns =>
      '(retbuf, cddev, w) ← try_drives turns flags location mediaCheck devices None cddev w;
      match retbuf with
      | Some u => Ret (Some u, w)
      | None =>
          if interactive then
            let w := match cddev with Some d => u_eject w d | None => w end in
            let '(rc, w) := u_choice w in
            if rc =? 2 then Ret (None, w) else cd_loop turns flags location interactive mediaCheck devices cddev w
          else Ret (None, w)
      end
  end.
Definition setupCdrom (turns : nat) (flags : Z) (location : bytes) (interactive mediaCheck : bool) (w : W) : outcome (option bytes * W) :=
  match u_cdroms w with
  | None => Ret (None, w)
  | Some devices => cd_loop turns flags location interactive mediaCheck devices None w
  end.
Definition findAnacondaCD (turns : nat) (flags : Z) (location : bytes) (w : W) : outcome (option bytes * W) :=
  setupCdrom turns flags location false false w.
Definition mountCdromImage_ (turns : nat) (flags : Z) (location : bytes) (w : W) : outcome (option bytes * W) :=
  setupCdrom turns flags location true true w.
End methods.
