(* ===== verification/MethodsFacts.v ===== *)
(** * Properties of the installation methods

    The methods on the host in memory, with any dialogues, drives and network;
    and what they promise to the loader whatever they run on. *)

From S2P Require Import Prelude CLib Loader Posix Sys Cpio CpioInstall Net Urls Ftp Kickstart CmdLine Getparts Steps Host Imount ImountFacts Misc MiscFacts Transfer Methods.

(** ** Images on a host *)

Section on_host.
Context `{M : MethodOps host} (junk : nat → bytes) (Hjunk : ∀ n, (4096 ≤ length (junk n))%nat) (fuel depth : nat).

(** The directories a mount needs. *)
Definition made (h : host) (d : bytes) : Prop := Forall (there h) (tried [] d).
Lemma made_mkdirs h d : made h d → mkdirs d h = (0, h).
Proof. intros Hd. rewrite mkdirs_tried. by apply make_all_there. Qed.

Lemma doPwMount_made dev wher fs options h : made h wher → (length (hs_error h) < fuel)%nat →
  @doPwMount host memgz host_ops junk fuel dev wher fs options None h =
  Ret (if mounts h dev wher options fs then 0 else IMOUNT_ERR_OTHER, None, ran [argv_of dev wher options fs] h).
Proof. intros Hd Hf. by rewrite (doPwMount_host junk Hjunk _ _ _ _ _ _ h h) by (done || by apply made_mkdirs). Qed.

(** The options of a loop mount, and the types of the image that are tried. *)
Definition loop_opts (device : bytes) : option bytes := Some (str "ro,loop=" ++ device).
Definition loop_mounts (h : host) (image mnt device : bytes) : bytes → bool := mounts h image mnt (loop_opts device).
Definition loop_argvs (h : host) (image mnt device : bytes) : list (list bytes) :=
  argv_of image mnt (loop_opts device) <$> up_to (loop_mounts h image mnt device) loop_types.

Lemma mountLoopback_made image mnt device h : made h mnt → (length (hs_error h) < fuel)%nat → is_Some (fs_lookup (hs_fs h) image) →
  mountLoopback junk fuel image mnt (Some device) h =
  Ret (if existsb (loop_mounts h image mnt device) loop_types then 0 else LOADER_ERROR, ran (loop_argvs h image mnt device) h).
Proof.
  intros Hd Hf Hi. unfold mountLoopback. change (h_exists h image) with (s_access (hs_fs h) image).
  apply access_there in Hi as ->. cbn [negb Z.eqb]. unfold doMultiMount.
  rewrite (multi_host junk Hjunk) by tauto. rewrite bool_decide_eq_false_2 by done. cbn [mbind outcome_bind].
  fold (loop_opts device). fold (loop_mounts h image mnt device). fold (loop_argvs h image mnt device).
  destruct (existsb _ loop_types); done.
Qed.

(** *** NFS *)

Context {S : Type}.

Record nfs_given (st : cmd_state S) (h : host) (server dir slash : bytes) (opts : option bytes) (fullPath image : bytes) : Prop := {
  ng_stage2 : c_stage2 st = Some (nfsInstallData server (Some dir) opts);
  ng_method : ld_i (c_ld st) L_method = METHOD_NFS;
  ng_testing : FL (c_flags st) LOADER_FLAGS_TESTING = false;
  ng_slash : strrchr dir 47 = Some slash;
  ng_full : fullPath = server ++ 58 :: before dir slash;
  ng_image : image = str "/mnt/stage2/" ++ slash;
  ng_made : made h (str "/mnt/stage2") ∧ made h (str "/mnt/runtime");
  ng_error : (length (hs_error h) < fuel)%nat;
  ng_there : is_Some (fs_lookup (hs_fs h) image);
  ng_mounts : mounts h fullPath (str "/mnt/stage2") (Some (match opts with None => str "ro" | Some o => str "ro," ++ o end)) (str "nfs") = true }.

Lemma made_ran a h d : made h d → made (ran a h) d.
Proof. apply Forall_impl. intros x. apply there_ran. Qed.

(** The first two turns of the loop. *)
Lemma nfs_turns st h server dir slash opts full image v turns : nfs_given st h server dir slash opts full image →
  let ropts := Some (match opts with None => str "ro" | Some o => str "ro," ++ o end) in
  let h1 := ran [argv_of full (str "/mnt/stage2") ropts (str "nfs")] h in
  let h2 := ran (loop_argvs h1 image (str "/mnt/runtime") (str "/dev/loop0")) h1 in
  nfs_loop junk fuel depth (2 + turns) NFS_STAGE_NFS v st h =
  if existsb (loop_mounts h1 image (str "/mnt/runtime") (str "/dev/loop0")) loop_types then
    nfs_loop junk fuel depth turns NFS_STAGE_UPDATES (mkNfs (Some server) (Some dir) ropts full (Some (str "nfs:" ++ server ++ 58 :: dir))) st h2
  else nfs_loop junk fuel depth turns NFS_STAGE_NFS (mkNfs (Some server) (Some dir) ropts full (nv_url v)) st h2.
Proof.
  intros [E2 Em Et Es -> -> [M1 M2] Hf Hi Hm] ropts h1 h2.
  change (2 + turns)%nat with (Datatypes.S (Datatypes.S turns)). cbn [nfs_loop]. rewrite E2, Em, Z.eqb_refl. cbn [mbind outcome_bind]. fold ropts.
  cbn [nv_host nv_dir nv_opts nv_full nv_url checked mbind outcome_bind]. unfold up_to_slash. rewrite Es. cbn [checked mbind outcome_bind].
  rewrite Et, doPwMount_made by done. fold ropts in Hm. rewrite Hm. cbn [mbind outcome_bind Z.eqb]. fold h1.
  assert (@s_access host (@h_sys host memgz host_ops) h1 (str "/mnt/stage2/" ++ slash) = 0) as Hacc by (apply access_there; unfold h1; by rewrite ran_fs).
  rewrite Hacc. cbn [Z.eqb]. unfold mountStage2. rewrite Hacc. cbn [Z.eqb negb].
  rewrite mountLoopback_made; [| by apply made_ran | unfold h1; by rewrite ran_error | unfold h1; by rewrite ran_fs]. cbn [mbind outcome_bind].
  fold h2. destruct (existsb _ loop_types); done.
Qed.

(** Attempts that all fail leave the mounts as they are. *)
Lemma loop_argvs_refused h image mnt device : existsb (loop_mounts h image mnt device) loop_types = false →
  ran (loop_argvs h image mnt device) h = noted (loop_argvs h image mnt device) h.
Proof.
  intros He. apply ran_refused. unfold loop_argvs. apply Forall_fmap, list.Forall_forall. intros t Ht.
  apply not_true_is_false. intros E. assert (existsb (loop_mounts h image mnt device) loop_types = true) as Hc; [| congruence].
  apply existsb_exists. exists t. split; [| exact E].
  apply list_elem_of_In. revert Ht. clear. induction loop_types as [| x l IH]; [done |]. cbn [up_to].
  destruct (loop_mounts _ _ _ _ x); intros [-> | Ht]%elem_of_cons; [apply list_elem_of_here | by apply elem_of_nil in Ht | apply list_elem_of_here |].
  apply list_elem_of_further. by apply IH.
Qed.

(** C25: mountNfsImage for a directory given with repo=, stage2= or a kickstart
    file that can be mounted and has the image, on a server without RHupdates
    beside the directory.  When a type of [loop_types] mounts the image it gives
    the URL of the image within three turns, having run mount for the directory,
    for the types up to that one and for the updates.  When none does, the
    directory, which is still mounted, is given to mount once more and refused;
    only then the method is given up and the user is asked for another
    directory, and whoever leaves that dialogue gets no URL. *)
Theorem mountNfsImage_given st h server dir slash opts fullPath image top (Hgiven : nfs_given st h server dir slash opts fullPath image)
  (Htop : strrchr fullPath 47 = Some top) (Hup : made h (str "/tmp/update-disk")) :
  let ropts := Some (match opts with None => str "ro" | Some o => str "ro," ++ o end) in
  let directory := argv_of fullPath (str "/mnt/stage2") ropts (str "nfs") in
  let updates := argv_of (before fullPath top ++ str "/RHupdates") (str "/tmp/update-disk") ropts (str "nfs") in
  let h1 := ran [directory] h in
  let images := loop_argvs h1 image (str "/mnt/runtime") (str "/dev/loop0") in
  (hs_mountable h updates = false →
   existsb (loop_mounts h1 image (str "/mnt/runtime") (str "/dev/loop0")) loop_types = true →
   ∀ turns, (3 ≤ turns)%nat → mountNfsImage_ junk fuel depth turns st h =
     Ret (Some (str "nfs:" ++ server ++ 58 :: dir), st, ran (directory :: images ++ [updates]) h)) ∧
  (existsb (loop_mounts h1 image (str "/mnt/runtime") (str "/dev/loop0")) loop_types = false →
   let h3 := ran (directory :: images ++ [directory]) h in
   mounted_on (hs_table h3) (str "/mnt/stage2") = Some fullPath ∧
   ∀ turns newServer newDir w', (6 ≤ turns)%nat → u_entries h3 (Some server) (Some dir) = (2, newServer, newDir, w') →
     newServer ≠ [] → newDir ≠ [] → mountNfsImage_ junk fuel depth turns st h = Ret (None, method_failed st, w')).
Proof.
  intros ropts directory updates h1 images.
  assert (made h1 (str "/tmp/update-disk")) as Hup1 by (by apply made_ran).
  split.
  - intros Hno Hyes turns Hturns. replace turns with (2 + Datatypes.S (turns - 3))%nat by lia. unfold mountNfsImage_.
    rewrite (nfs_turns st h server dir slash opts fullPath image) by exact Hgiven. fold ropts directory h1 images. cbv zeta. rewrite Hyes.
    cbn [nfs_loop nv_full nv_opts nv_url]. unfold up_to_slash. rewrite Htop. cbn [checked mbind outcome_bind].
    rewrite doPwMount_made; [| by apply made_ran | rewrite !ran_error; apply (ng_error _ _ _ _ _ _ _ _ Hgiven)].
    unfold mounts, mount_ok. fold updates. destruct (ran_kept images h1) as (_ & -> & _). unfold h1 at 1. destruct (ran_kept [directory] h) as (_ & -> & _).
    rewrite Hno. cbn [andb mbind outcome_bind]. change (IMOUNT_ERR_OTHER =? 0) with false. cbn iota.
    unfold h1. by rewrite !ran_ran.
  - intros Hno h3. destruct Hgiven as [E2 Em Et Es Hfull Himg [M1 M2] Hf Hi Hm] eqn:Eg. clear Eg.
    fold ropts in Hm. unfold mounts in Hm. fold directory in Hm.
    destruct (argv_words fullPath (str "/mnt/stage2") ropts (str "nfs")) as [Hsrc Hpt]. fold directory in Hsrc, Hpt.
    change (snd (mount_words fullPath (str "nfs") ropts)) with fullPath in Hsrc.
    assert (hs_table h1 = (str "/mnt/stage2", fullPath) :: hs_table h) as Htab.
    { unfold h1. cbn. by rewrite Hm, Hsrc, Hpt. }
    assert (ran images h1 = noted images h1) as Hran by (by apply loop_argvs_refused).
    assert (mounted_on (hs_table h1) (str "/mnt/stage2") = Some fullPath) as Hon by (by rewrite Htab).
    assert (mount_ok (noted images h1) directory = false) as Hbusy.
    { unfold mount_ok, busy. rewrite Hpt, Hsrc. cbn [noted hs_table]. rewrite Hon, bool_decide_eq_true_2 by done. apply andb_false_r. }
    assert (h3 = noted [directory] (noted images h1)) as Eh3.
    { unfold h3. change (directory :: images ++ [directory]) with ([directory] ++ images ++ [directory]). rewrite <- ran_ran. fold h1.
      rewrite <- ran_ran, Hran. apply ran_refused. by constructor. }
    split; [rewrite Eh3; exact Hon |]. intros turns newServer newDir w' Hturns Huser Hs Hd.
    replace turns with (2 + (Datatypes.S (Datatypes.S (Datatypes.S (Datatypes.S (turns - 6))))))%nat by lia. unfold mountNfsImage_.
    rewrite (nfs_turns st h server dir slash opts fullPath image) by (by constructor). fold ropts directory h1 images. cbv zeta. rewrite Hno, Hran.
    cbn [nfs_loop]. rewrite E2, Em, Z.eqb_refl. cbn [mbind outcome_bind]. fold ropts.
    cbn [nv_host nv_dir nv_opts nv_full nv_url checked mbind outcome_bind]. unfold up_to_slash. rewrite Es. cbn [checked mbind outcome_bind].
    rewrite Et. rewrite <- Hfull. rewrite doPwMount_made; [| by apply made_ran | unfold h1; cbn; done].
    unfold mounts. fold directory. rewrite Hbusy. cbn [mbind outcome_bind]. change (IMOUNT_ERR_OTHER =? 0) with false. cbn iota.
    assert (ran [directory] (noted images h1) = h3) as -> by (rewrite Eh3; apply ran_refused; by constructor).
    assert (c_stage2 (method_failed st) = c_stage2 st ∧ ld_i (c_ld (method_failed st)) L_method = -1) as [_ Hmeth].
    { unfold method_failed, repo_invalid. rewrite Em. change (0 <=? METHOD_NFS) with true. cbv iota. by destruct (_ =? 0). }
    rewrite Hmeth. change (-1 =? METHOD_NFS) with false.
    destruct (c_stage2 (method_failed st)); cbn [nfsGetSetup]; rewrite Huser, !bool_decide_eq_false_2 by done; reflexivity.
Qed.
End on_host.

(** ** The URL method *)

Section url.
Context {W G : Type} `{HO : HostOps W G} `{MO : MethodOps W}.
Context (junk : nat → bytes) (cpio_junk : Z) (fuel depth : nat) (inet_pton6 gethostbyname : bytes → option bytes) (junk6 : bytes)
  (pw_name : option bytes) (alloca : nat → nat) (junk4 : Z) (version arch name : bytes).
Context {S : Type}.
Abbreviation load := (loadUrlImages junk cpio_junk fuel inet_pton6 gethostbyname junk6 pw_name alloca version arch name depth).
Abbreviation loop := (url_loop junk cpio_junk fuel inet_pton6 gethostbyname junk6 pw_name alloca junk4 version arch name depth (S := S)).
Abbreviation mountUrl := (mountUrlImage_ junk cpio_junk fuel inet_pton6 gethostbyname junk6 pw_name alloca junk4 version arch name depth (S := S)).
Abbreviation panel := (urlMainSetupPanel junk4 u_form fuel).

(** What the method may change of the state. *)
Record url_change (st st' : cmd_state S) : Prop := {
  uc_stage2 : c_stage2 st' = c_stage2 st;
  uc_flags : c_flags st' = c_flags st;
  uc_inferred : ld_i (c_ld st') L_inferredStage2 = ld_i (c_ld st) L_inferredStage2;
  uc_method : ld_i (c_ld st') L_method = ld_i (c_ld st) L_method ∨ ld_i (c_ld st') L_method = -1;
  uc_invalid : ld_i (c_ld st) L_invalidRepoParam = 1 → ld_i (c_ld st') L_invalidRepoParam = 1;
  uc_failed : ld_i (c_ld st') L_method ≠ ld_i (c_ld st) L_method → ld_i (c_ld st) L_inferredStage2 ≠ 0 →
    ld_i (c_ld st') L_invalidRepoParam = 1 }.
#[local] Instance url_change_preorder : PreOrder url_change.
Proof.
  split; [intros st; constructor; tauto |]. intros a b c [A1 A2 A3 A4 A5 A6] [B1 B2 B3 B4 B5 B6]. constructor; try congruence.
  - destruct A4, B4; intuition congruence.
  - tauto.
  - intros Hm Hi. destruct (decide (ld_i (c_ld b) L_method = ld_i (c_ld a) L_method)); [apply B6; congruence | tauto].
Qed.
Lemma repo_change v st : url_change st (with_ld (set_lds L_instRepo v) st).
Proof. constructor; try done. by left. Qed.
Lemma invalid_change st : url_change st (with_ld (set_ldi L_invalidRepoParam 1) st).
Proof. constructor; try done. by left. Qed.
Lemma failed_change st : url_change st (method_failed st) ∧ (0 ≤ ld_i (c_ld st) L_method → ld_i (c_ld (method_failed st)) L_method = -1).
Proof.
  unfold method_failed, repo_invalid. destruct (Z.leb_spec 0 (ld_i (c_ld st) L_method)); cbn [c_ld with_ld].
  - change (ld_i (set_ldi L_method (-1) (c_ld st)) L_inferredStage2) with (ld_i (c_ld st) L_inferredStage2).
    destruct (Z.eqb_spec (ld_i (c_ld st) L_inferredStage2) 0); (split; [constructor; try done; by right | done]).
  - destruct (ld_i (c_ld st) L_inferredStage2 =? 0); (split; [| lia]); [done | apply invalid_change].
Qed.

(** How a run of the loop ends: with the URL of a structure whose images were
    just loaded, or with Back in the panel. *)
Definition loaded (url : bytes) (buf : bytes) (w : W) : Prop :=
  ∃ ui0 buf0 w0 ui, load ui0 buf0 w0 = Ret (Some (0, ui, buf, w)) ∧ convertUIToURL ui = Ret url.
Definition left_panel (w : W) : Prop := ∃ ui0 w0 rc ui, panel ui0 w0 = Ret (rc, ui, w) ∧ rc ≠ 0.

Lemma url_loop_result turns : ∀ stage ui buf st w u buf' st' w', FL (c_flags st) LOADER_FLAGS_TESTING = false →
  loop turns stage ui buf st w = Ret (Some (u, buf', st', w')) →
  url_change st st' ∧
  match u with
  | Some url => loaded url buf' w'
  | None => left_panel w' ∧ (is_Some (c_stage2 st') → ld_i (c_ld st') L_method ≠ METHOD_URL)
  end.
Proof.
  induction turns as [| turns IH]; intros stage ui buf st w u buf' st' w' Ht; [done |]. cbn [url_loop]. destruct stage.
  - assert (∀ st1 ui1 w1, url_change st st1 → loop turns URL_STAGE_FETCH ui1 buf st1 w1 = Ret (Some (u, buf', st', w')) →
      url_change st st' ∧ match u with Some url => loaded url buf' w'
        | None => left_panel w' ∧ (is_Some (c_stage2 st') → ld_i (c_ld st') L_method ≠ METHOD_URL) end) as Hgo.
    { intros st1 ui1 w1 C E. destruct (IH _ _ _ _ _ _ _ _ _ (eq_trans (f_equal (λ f, FL f _) (uc_flags _ _ C)) Ht) E) as [C' R].
      split; [by etrans | done]. }
    assert (∀ (Hnot : is_Some (c_stage2 st) → ld_i (c_ld st) L_method ≠ METHOD_URL),
      ('(rc, ui, w) ← panel ui w;
       if negb (rc =? 0) then Ret (Some (None, buf, st, w))
       else
         pre ← checked (prefix ui);
         let '(ui, st) :=
           if is_img pre then (ui, st)
           else (mkUi (protocol ui) (address ui) (login ui) (password ui) (Some (pre ++ str "/images/install.img"))
                   (proxy ui) (proxyPort ui) (ftpPort ui), with_ld (set_lds L_instRepo (Some pre)) st) in
         loop turns URL_STAGE_FETCH ui buf (with_ld (set_ldi L_invalidRepoParam 1) st) w) = Ret (Some (u, buf', st', w')) →
      url_change st st' ∧ match u with Some url => loaded url buf' w'
        | None => left_panel w' ∧ (is_Some (c_stage2 st') → ld_i (c_ld st') L_method ≠ METHOD_URL) end) as Hpanel.
    { intros Hnot E. destruct (panel ui w) as [[[rc ui1] w1] | |] eqn:Ep; [| done | done]. cbn [mbind outcome_bind] in E.
      destruct (Z.eqb_spec rc 0) as [-> | Hrc]; cbn [negb] in E.
      - destruct (prefix ui1) as [pre |]; [| done]. cbn [checked mbind outcome_bind] in E.
        destruct (is_img pre); (eapply Hgo; [| exact E]); [apply invalid_change |].
        etrans; [apply repo_change | apply invalid_change].
      - injection E as <- <- <- <-. split; [done |]. split; [by exists ui, w, rc, ui1 | done]. }
    destruct (c_stage2 st) as [d |] eqn:Ed; [destruct (Z.eqb_spec (ld_i (c_ld st) L_method) METHOD_URL) |]; intros E.
    + destruct d as [h d o | p d | url]; cbn [mbind outcome_bind] in E; try by inversion E.
      destruct (convertURLToUI url) as [[[rc u1] ui1] | |]; [| done | done]. cbn [mbind outcome_bind] in E. by eapply Hgo.
    + by eapply Hpanel.
    + eapply Hpanel; [by intros [? ?] | exact E].
  - rewrite Ht. destruct (load ui buf w) as [[[[[rc ui1] buf1] w1] |] | |] eqn:El; cbn [mbind outcome_bind]; [| by intros [=]..].
    destruct (Z.eqb_spec rc 0) as [-> | Hrc]; cbn [negb].
    + intros E. destruct (convertUIToURL ui1) as [url | |] eqn:Eu; cbn [mbind outcome_bind] in E; [| by inversion E..]. injection E as <- <- <- <-. split; [done |].
      by exists ui, buf, w, ui1.
    + destruct (failed_change st) as [C _]. intros E.
      destruct (IH _ _ _ _ _ _ _ _ _ (eq_trans (f_equal (λ f, FL f _) (uc_flags _ _ C)) Ht) E) as [C' R].
      split; [by etrans | done].
Qed.

(** A result of mountUrlImage is the URL of images that loadUrlImages has
    just loaded, or null when the panel was left.  With null for a URL given on
    the command line or by a kickstart file, the method is -1 and the given data
    is kept, which is where the loader never comes to an end; and if it was
    inferred from repo=, that parameter is marked as invalid. *)
Theorem mountUrlImage_result turns buf st w u buf' st' w' (Htest : FL (c_flags st) LOADER_FLAGS_TESTING = false)
  (Hrun : mountUrl turns buf st w = Ret (Some (u, buf', st', w'))) :
  c_stage2 st' = c_stage2 st ∧
  match u with
  | Some url => loaded url buf' w'
  | None => left_panel w' ∧
      (is_Some (c_stage2 st) → ld_i (c_ld st) L_method = METHOD_URL →
       ld_i (c_ld st') L_method = -1 ∧ (ld_i (c_ld st) L_inferredStage2 ≠ 0 → ld_i (c_ld st') L_invalidRepoParam = 1))
  end.
Proof.
  destruct (url_loop_result _ _ _ _ _ _ _ _ _ _ Htest Hrun) as [[C1 C2 C3 C4 C5 C6] R]. split; [done |].
  destruct u as [url |]; [done |]. destruct R as [Hp Hn]. split; [done |]. intros Hs Hm. rewrite C1 in Hn. specialize (Hn Hs).
  destruct C4 as [C4 | C4]; [congruence |]. split; [done |]. apply C6. rewrite C4, Hm. done.
Qed.
End url.

(** ** Discs *)

Section drives.
Context `{M : MethodOps host} (junk : nat → bytes) (Hjunk : ∀ n, (4096 ≤ length (junk n))%nat) (cpio_junk : Z) (fuel depth : nat).
Context (h : host) (location : bytes) (flags : Z) (status : bytes → Z).

Definition dev_name (d : bytes) : bytes := if starts_with (str "/dev/") d then d else str "/dev/" ++ d.
Definition iso_argv (d : bytes) : list bytes := argv_of d location (Some (str "ro")) (str "iso9660").
Abbreviation image := (location ++ str "/images/install.img").
Abbreviation runtime := (str "/mnt/runtime").
Abbreviation loop0 := (str "/dev/loop0").
Definition image_argv (t : bytes) : list bytes := argv_of image runtime (loop_opts loop0) t.
Definition image_source : bytes := mount_source (image_argv (str "iso9660")).
Definition image_mounts : bool := existsb (λ t, hs_mountable h (image_argv t)) loop_types.

(** The drive has a disc that can be mounted. *)
Definition closed (d : bytes) : bool := u_drive h d && negb (status d =? CDS_NO_DISC).
Definition has_disc (d : bytes) : bool := closed d && hs_mountable h (iso_argv d).
Definition disc_url (d : bytes) : bytes := str "cdrom://" ++ d ++ 58 :: location.

(** The host with other mounts: none of the discs, or the disc of [d] and its
    image. *)
Definition host_with (log : list (list bytes)) (taken : option bytes) : host :=
  mkHost (hs_fs h) (hs_mountable h) (hs_error h) (hs_log h ++ log)
    (match taken with Some d => (runtime, image_source) :: (location, d) :: hs_table h | None => hs_table h end)
    (match taken with Some _ => loop0 :: hs_loops h | None => hs_loops h end).

(** The calls of mount for a drive; the image is tried with every type when the
    loop device is in use. *)
Definition image_types (free : bool) : list bytes := if free then up_to (λ t, hs_mountable h (image_argv t)) loop_types else loop_types.
Definition drive_argvs (free : bool) (d : bytes) : list (list bytes) :=
  if closed d then iso_argv d :: (if hs_mountable h (iso_argv d) then image_argv <$> image_types free else []) else [].
Fixpoint drives_argvs (free : bool) (ds : list bytes) : list (list bytes) :=
  match ds with [] => [] | d :: ds => drive_argvs free d ++ drives_argvs (free && negb (has_disc d && image_mounts)) ds end.

(** Drives that answer the same whatever is mounted, directories that are there,
    an image on every disc, without updates, a place, a loop device and a
    directory for the image that are free; no rescue. *)
Record discs_ready : Prop := {
  dr_drive : ∀ w d, u_drive w d = u_drive h d;
  dr_status : ∀ w d, u_status w d = (status d, w);
  dr_ready : ∀ d, status d ≠ CDS_DRIVE_NOT_READY;
  dr_made : made h location ∧ made h runtime;
  dr_fuel : (length (hs_error h) < fuel)%nat;
  dr_rescue : FL flags LOADER_FLAGS_RESCUE = false;
  dr_image : is_Some (fs_lookup (hs_fs h) image);
  dr_updates : fs_lookup (hs_fs h) (location ++ str "/images/updates.img") = None ∧
               fs_lookup (hs_fs h) (location ++ str "/images/product.img") = None;
  dr_free : mounted_on (hs_table h) location = None ∧ mounted_on (hs_table h) runtime = None ∧ loop0 ∉ hs_loops h;
  dr_place : location ≠ runtime }.

Lemma copy_absent path (w : host) : fs_lookup (hs_fs w) path = None →
  copyUpdatesImg junk cpio_junk fuel depth path w = Ret w ∧ copyProductImg junk fuel depth path w = Ret w.
Proof.
  intros Hn. unfold copyUpdatesImg, copyProductImg.
  assert (@s_access host (@h_sys host memgz host_ops) w path = ENOENT) as ->; [| done].
  change (s_access (hs_fs w) path = ENOENT). cbn. by rewrite Hn.
Qed.

(** What the words of the calls say. *)
Lemma iso_words d : head d = Some 47 → mount_source (iso_argv d) = d ∧ mount_point (iso_argv d) = location ∧ mount_loop (iso_argv d) = None.
Proof.
  intros Hd. destruct (argv_words d location (Some (str "ro")) (str "iso9660")) as [Hs Hp]. unfold iso_argv. split_and!.
  - rewrite Hs. unfold mount_words. rewrite Hd. rewrite (bool_decide_eq_true_2 (Some 47 = Some 47)) by done. by rewrite andb_false_r.
  - exact Hp.
  - unfold argv_of, mount_words. rewrite Hd. rewrite (bool_decide_eq_true_2 (Some 47 = Some 47)) by done. rewrite andb_false_r. vm_compute. reflexivity.
Qed.
Lemma image_words : Forall (λ t, mount_source (image_argv t) = image_source ∧ mount_point (image_argv t) = runtime ∧ mount_loop (image_argv t) = Some loop0) loop_types.
Proof.
  assert (∀ t, t ∈ loop_types → mount_words image t (loop_opts loop0) = mount_words image (str "iso9660") (loop_opts loop0) ∧
    fst (mount_words image t (loop_opts loop0)) = loop_opts loop0) as Ht.
  { intros t Ht. unfold loop_types in Ht. rewrite !elem_of_cons, elem_of_nil in Ht. by destruct_or! Ht; subst t. }
  apply list.Forall_forall. intros t Hin. destruct (Ht t Hin) as [E1 E2]. unfold image_source, image_argv.
  destruct (argv_words image runtime (loop_opts loop0) t) as [-> ->]. destruct (argv_words image runtime (loop_opts loop0) (str "iso9660")) as [-> _].
  rewrite E1. split_and!; [done | done |]. unfold argv_of. rewrite E1. rewrite E1 in E2.
  destruct (mount_words image (str "iso9660") (loop_opts loop0)) as [o d]. cbn [fst] in E2. subst o. vm_compute. reflexivity.
Qed.

Lemma made_same w d : hs_fs w = hs_fs h → made h d → made w d.
Proof. intros E. apply Forall_impl. intros x. unfold there. by rewrite E. Qed.
Lemma dev_name_slash d : head (dev_name d) = Some 47.
Proof. unfold dev_name. destruct (starts_with (str "/dev/") d) eqn:E; [| done]. apply starts_with_spec in E as [r ->]. done. Qed.
Lemma streq_refl' x : streq x x = true.
Proof. by apply streq_spec. Qed.
Lemma streq_other x y : x ≠ y → streq x y = false.
Proof. intros Hn. apply not_true_is_false. by rewrite streq_spec. Qed.

(** A disc is mounted over what is on its directory. *)
Definition with_disc (d : bytes) (w : host) : host :=
  mkHost (hs_fs w) (hs_mountable w) (hs_error w) (hs_log w ++ [iso_argv d]) ((location, d) :: hs_table w) (hs_loops w).
Lemma iso_run log taken d : discs_ready → head d = Some 47 → taken ≠ Some d →
  mount_ok (host_with log taken) (iso_argv d) = hs_mountable h (iso_argv d) ∧
  ran [iso_argv d] (host_with log taken) =
    if hs_mountable h (iso_argv d) then with_disc d (host_with log taken) else host_with (log ++ [iso_argv d]) taken.
Proof.
  intros R Hd Ht. destruct (iso_words d Hd) as (Es & Ep & El). destruct (dr_free R) as (Floc & _).
  assert (mount_ok (host_with log taken) (iso_argv d) = hs_mountable h (iso_argv d)) as Hok.
  { unfold mount_ok, busy. rewrite Es, Ep, El, orb_false_r. cbn [host_with hs_mountable hs_table].
    rewrite bool_decide_eq_false_2; [apply andb_true_r |]. destruct taken as [d0 |]; [| by rewrite Floc].
    unfold mounted_on. cbn [List.find fst]. rewrite (streq_other runtime location) by (intros E; by apply (dr_place R)).
    rewrite streq_refl'. cbn [fmap option_fmap option_map snd]. congruence. }
  split; [exact Hok |]. change (ran [iso_argv d] ?w) with (run_mount w (iso_argv d)). unfold run_mount. rewrite Hok, Es, Ep, El.
  destruct (hs_mountable h (iso_argv d)); [done |]. unfold host_with. cbn. by rewrite <- app_assoc.
Qed.

(** The image of a disc, with the loop device free or in use. *)
Lemma image_free log d t : discs_ready → t ∈ loop_types → mount_ok (with_disc d (host_with log None)) (image_argv t) = hs_mountable h (image_argv t).
Proof.
  intros R Ht. destruct (dr_free R) as (_ & Frun & Floop). pose proof image_words as Hw. rewrite list.Forall_forall in Hw.
  destruct (Hw t Ht) as (Es & Ep & El). unfold mount_ok, busy. rewrite Es, Ep, El. cbn [with_disc host_with hs_mountable hs_table hs_loops].
  rewrite (bool_decide_eq_false_2 (loop0 ∈ _)) by done. unfold mounted_on. cbn [List.find fst]. rewrite (streq_other _ _ (dr_place R)).
  fold (mounted_on (hs_table h) runtime). rewrite Frun. rewrite bool_decide_eq_false_2 by done. apply andb_true_r.
Qed.
Lemma image_busy log d0 d t : t ∈ loop_types → mount_ok (with_disc d (host_with log (Some d0))) (image_argv t) = false.
Proof.
  intros Ht. pose proof image_words as Hw. rewrite list.Forall_forall in Hw. destruct (Hw t Ht) as (_ & _ & El).
  unfold mount_ok, busy. rewrite El. cbn [with_disc host_with hs_loops]. rewrite (bool_decide_eq_true_2 (loop0 ∈ _)) by (by left).
  by rewrite orb_true_r, andb_false_r.
Qed.
Lemma existsb_on {A} (f g : A → bool) l : (∀ x, x ∈ l → f x = g x) → existsb f l = existsb g l ∧ up_to f l = up_to g l.
Proof.
  induction l as [| x l IH]; intros Hfg; [done |]. cbn. rewrite (Hfg x) by apply list_elem_of_here.
  destruct IH as [-> ->]; [intros y Hy; apply Hfg; by apply list_elem_of_further | done].
Qed.
Lemma image_run log taken d : discs_ready →
  let w := with_disc d (host_with log taken) in
  let free := bool_decide (taken = None) in
  existsb (loop_mounts w image runtime loop0) loop_types = free && image_mounts ∧
  ran (loop_argvs w image runtime loop0) w =
    if free && image_mounts then host_with (log ++ iso_argv d :: (image_argv <$> image_types true)) (Some d)
    else noted (image_argv <$> image_types free) w.
Proof.
  intros R w free.
  change (loop_argvs w image runtime loop0) with (image_argv <$> up_to (λ t, mount_ok w (image_argv t)) loop_types).
  change (loop_mounts w image runtime loop0) with (λ t, mount_ok w (image_argv t)).
  rewrite (ran_types image_argv loop_types w image_source runtime (Some loop0) image_words). destruct taken as [d0 |].
  - unfold free. rewrite bool_decide_eq_false_2 by done. destruct (existsb_on (λ t, mount_ok w (image_argv t)) (λ _, false) loop_types) as [-> _].
    { intros t Ht. by apply image_busy. } done.
  - unfold free. rewrite bool_decide_eq_true_2 by done. cbn [andb].
    destruct (existsb_on (λ t, mount_ok w (image_argv t)) (λ t, hs_mountable h (image_argv t)) loop_types) as [-> ->].
    { intros t Ht. by apply image_free. } fold image_mounts. fold (image_types true). split; [done |]. destruct image_mounts eqn:Em.
    + unfold w, with_disc, host_with. cbn. by rewrite <- !app_assoc.
    + f_equal. f_equal. unfold image_types, image_mounts in *. clear -Em. induction loop_types as [| t l IH]; [done |]. cbn in *.
      apply orb_false_iff in Em as [-> Em]. f_equal. by apply IH.
Qed.
(** The disc on top is unmounted again. *)
Lemma disc_unmounted argvs d log taken :
  run_umount (noted argvs (with_disc d (host_with log taken))) location = host_with (log ++ iso_argv d :: argvs) taken.
Proof. unfold run_umount, noted, with_disc, host_with. cbn. rewrite streq_refl'. by rewrite <- !app_assoc. Qed.

(** The disc of a drive, and what is mounted afterwards. *)
Definition taken_by (d : bytes) (taken : option bytes) : option bytes :=
  if has_disc d && bool_decide (taken = None) && image_mounts then Some d else taken.
Lemma try_drive_host turns d log taken : discs_ready → head d = Some 47 → taken ≠ Some d →
  let free := bool_decide (taken = None) in
  try_drive junk cpio_junk fuel depth turns flags location false d (host_with log taken) =
  Ret (if has_disc d && free && image_mounts then Some (disc_url d) else None, has_disc d,
       host_with (log ++ drive_argvs free d) (taken_by d taken)).
Proof.
  intros R Hd Ht free. unfold try_drive, has_disc, taken_by, drive_argvs, has_disc, closed. rewrite (dr_drive R).
  destruct (u_drive h d); cbn [negb andb]; [| by rewrite app_nil_r].
  pose proof (dr_fuel R) as Hf. assert (∃ f, fuel = Datatypes.S f) as [f Ef] by (destruct fuel as [| f]; [lia | by exists f]).
  assert (waitForCdromTrayClose fuel d (host_with log taken) = Ret (status d, host_with log taken)) as ->.
  { rewrite Ef. cbn [waitForCdromTrayClose]. rewrite (dr_status R). by destruct (Z.eqb_spec (status d) CDS_DRIVE_NOT_READY); [destruct (dr_ready R d) |]. }
  cbn [mbind outcome_bind]. destruct (Z.eqb_spec (status d) CDS_NO_DISC); cbn [negb andb]; [by rewrite app_nil_r |].
  destruct (dr_made R) as [M1 M2]. destruct (iso_run log taken d R Hd Ht) as [Hok Hrun].
  rewrite (doPwMount_made junk Hjunk) by (done || by apply (made_same (host_with log taken))).
  cbn [mbind outcome_bind]. unfold mounts. fold (iso_argv d). rewrite Hok, Hrun. clear Hok Hrun.
  destruct (hs_mountable h (iso_argv d)); [change (0 =? 0) with true; cbn [negb andb] | done].
  destruct (image_run log taken d R) as [Hyes Hran]. set (w := with_disc d (host_with log taken)) in *.
  assert (@s_access host (@h_sys host memgz host_ops) w image = 0) as Hacc by (apply (access_there (hs_fs w)), (dr_image R)).
  rewrite Hacc. cbn [Z.eqb negb mbind outcome_bind]. rewrite (dr_rescue R). cbn [andb mbind outcome_bind]. unfold mountStage2. rewrite Hacc. cbn [Z.eqb negb].
  rewrite (mountLoopback_made junk Hjunk); [| by apply (made_same w) | exact Hf | apply (dr_image R)]. cbn [mbind outcome_bind].
  rewrite Hyes, Hran. fold free. destruct (free && image_mounts) eqn:Em; cbn [negb Z.eqb mbind outcome_bind].
  - apply andb_true_iff in Em as [Efree Em]. rewrite Efree. set (w2 := host_with _ (Some d)). destruct (dr_updates R) as [U1 U2].
    destruct (copy_absent _ w2 U1) as [-> _]. cbn [mbind outcome_bind]. destruct (copy_absent _ w2 U2) as [_ ->]. cbn [mbind outcome_bind].
    done.
  - change (h_umount ?x location) with (run_umount x location). unfold w. by rewrite disc_unmounted.
Qed.

Definition names (devices : list (option bytes)) : list bytes := dev_name <$> omap id devices.
Definition discs (ds : list bytes) : list bytes := filter (λ d, has_disc d = true) ds.

Lemma discs_cons d ds : discs (d :: ds) = if has_disc d then d :: discs ds else discs ds.
Proof. unfold discs. rewrite filter_cons. by destruct (has_disc d). Qed.

Lemma try_drives_taken turns devices d0 : ∀ ret cd log, discs_ready → d0 ∉ names devices →
  ∃ cd', try_drives junk cpio_junk fuel depth turns flags location false devices ret cd (host_with log (Some d0)) =
  Ret (ret, cd', host_with (log ++ drives_argvs false (names devices)) (Some d0)).
Proof.
  induction devices as [| [d |] devices IH]; intros ret cd log R Hn; cbn [try_drives]; [exists cd; by rewrite app_nil_r | | by apply IH].
  fold (dev_name d). change (names (Some d :: devices)) with (dev_name d :: names devices) in Hn |- *.
  apply not_elem_of_cons in Hn as [Hne Hn]. rewrite try_drive_host by (done || apply dev_name_slash || congruence).
  unfold taken_by. rewrite (bool_decide_eq_false_2 (Some d0 = None)) by done. rewrite andb_false_r. cbn [andb mbind outcome_bind].
  destruct (IH ret (if has_disc (dev_name d) then Some (dev_name d) else cd) (log ++ drive_argvs false (dev_name d)) R Hn) as [cd' ->].
  exists cd'. cbn [drives_argvs andb]. by rewrite app_assoc.
Qed.
Lemma try_drives_host turns devices : ∀ cd log, discs_ready → NoDup (names devices) →
  ∃ cd', try_drives junk cpio_junk fuel depth turns flags location false devices None cd (host_with log None) =
  Ret (if image_mounts then disc_url <$> head (discs (names devices)) else None,
       cd', host_with (log ++ drives_argvs true (names devices)) (if image_mounts then head (discs (names devices)) else None)).
Proof.
  induction devices as [| [d |] devices IH]; intros cd log R Hn; cbn [try_drives];
    [exists cd; rewrite app_nil_r; by destruct image_mounts | | by apply IH].
  fold (dev_name d). change (names (Some d :: devices)) with (dev_name d :: names devices) in Hn |- *.
  apply list.NoDup_cons in Hn as [Hne Hn]. rewrite try_drive_host by (done || apply dev_name_slash).
  unfold taken_by. rewrite (bool_decide_eq_true_2 (None = None)) by done. rewrite andb_true_r, discs_cons. cbn [mbind outcome_bind drives_argvs andb].
  destruct (has_disc (dev_name d) && image_mounts) eqn:E; cbn [negb].
  - apply andb_true_iff in E as [-> ->]. cbn [head fmap option_fmap option_map].
    destruct (try_drives_taken turns devices (dev_name d) (Some (disc_url (dev_name d))) (Some (dev_name d))
      (log ++ drive_argvs true (dev_name d)) R Hne) as [cd' ->]. exists cd'. by rewrite app_assoc.
  - destruct (IH (if has_disc (dev_name d) then Some (dev_name d) else cd) (log ++ drive_argvs true (dev_name d)) R Hn) as [cd' ->].
    exists cd'. rewrite app_assoc. destruct image_mounts; [| done]. rewrite andb_true_r in E. by rewrite E.
Qed.

(** C26: findAnacondaCD looks at every drive, also behind one with the right
    disc.  On drives of different names, with the image on every disc and its
    directories and the loop device free, the URL is that of the first drive
    whose disc can be mounted, provided the image can.  The disc of each drive
    behind it is mounted over the first one, its image is refused with every type
    since the loop device is in use, and the disc is unmounted again: the first
    disc and its image are what is mounted at the end. *)
Theorem findAnacondaCD_first turns devices (R : discs_ready) (Hdev : u_cdroms h = Some devices) (Hnames : NoDup (names devices))
  (Hturns : (0 < turns)%nat) :
  let first := if image_mounts then head (discs (names devices)) else None in
  findAnacondaCD junk cpio_junk fuel depth turns flags location h =
  Ret (disc_url <$> first, host_with (drives_argvs true (names devices)) first).
Proof.
  intros first. unfold findAnacondaCD, setupCdrom. rewrite Hdev. destruct turns as [| turns]; [lia |]. cbn [cd_loop].
  assert (h = host_with [] None) as Eh by (unfold host_with; rewrite app_nil_r; by destruct h).
  destruct (try_drives_host turns devices None [] R Hnames) as [cd E]. rewrite <- Eh in E. rewrite E. cbn [mbind outcome_bind app].
  unfold first. destruct image_mounts; [| done]. by destruct (head _).
Qed.
End drives.

(** ** Hard drives *)

Section hard_drive.
Context `{M : MethodOps host} (junk : nat → bytes) (Hjunk : ∀ n, (4096 ≤ length (junk n))%nat) (cpio_junk : Z) (fuel depth : nat).

Lemma try_types_host device types : ∀ h, made h (str "/mnt/isodir") → (length (hs_error h) < fuel)%nat →
  try_types junk fuel device types h =
  Ret (ran (argv_of device (str "/mnt/isodir") (Some (str "ro")) <$> up_to (mounts h device (str "/mnt/isodir") (Some (str "ro"))) types) h).
Proof.
  induction types as [| t types IH]; intros h Hm Hf; [done |]. cbn [try_types up_to].
  rewrite (doPwMount_made junk Hjunk) by done. cbn [mbind outcome_bind].
  destruct (mounts h device _ _ t) eqn:E; [done |]. change (IMOUNT_ERR_OTHER =? 0) with false. cbn iota.
  assert (ran [argv_of device (str "/mnt/isodir") (Some (str "ro")) t] h = noted [argv_of device (str "/mnt/isodir") (Some (str "ro")) t] h) as En
    by (apply ran_refused; by constructor).
  rewrite IH; [| by apply made_ran | rewrite ran_error; exact Hf]. rewrite ran_ran. f_equal. rewrite fmap_cons. rewrite En.
  change (mounts (noted _ h)) with (mounts h). done.
Qed.

(** setupIsoImages does not notice that a partition could not be mounted, nor
    that the image was not copied: what decides whether it gives a URL is only
    whether /tmp/install.img, which may be left from an earlier attempt, can be
    mounted after the attempts on the partition. *)
Theorem setupIsoImages_ignores_mount h flags device dirName slash (Htest : FL flags LOADER_FLAGS_TESTING = false)
  (Hslash : strrchr dirName 47 = Some slash) (Hmade : made h (str "/mnt/isodir") ∧ made h (str "/mnt/runtime"))
  (Hfuel : (length (hs_error h) < fuel)%nat)
  (Hnone : ∀ name, name ∈ [dirName; before dirName slash ++ str "/updates.img"; before dirName slash ++ str "/product.img"] →
     fs_lookup (hs_fs h) (str "/mnt/isodir" ++ name) = None)
  (Hleft : is_Some (fs_lookup (hs_fs h) (str "/tmp/install.img"))) :
  let h1 := ran (argv_of device (str "/mnt/isodir") (Some (str "ro")) <$>
               up_to (mounts h device (str "/mnt/isodir") (Some (str "ro"))) [str "ext3"; str "ext2"; str "vfat"]) h in
  setupIsoImages junk cpio_junk fuel depth flags device dirName h =
  let h2 := ran (loop_argvs h1 (str "/tmp/install.img") (str "/mnt/runtime") (str "/dev/loop0")) h1 in
  Ret (if existsb (loop_mounts h1 (str "/tmp/install.img") (str "/mnt/runtime") (str "/dev/loop0")) loop_types
       then (Some (str "hd:" ++ device ++ str ":/" ++ dirName), run_umount h2 (str "/mnt/isodir"))
       else (None, run_umount (umountLoopback (str "/mnt/runtime") (str "/dev/loop0") h2) (str "/mnt/isodir"))).
Proof.
  intros h1. unfold setupIsoImages. rewrite Htest, try_types_host by tauto. cbn [mbind outcome_bind]. unfold up_to_slash. rewrite Hslash.
  cbn [checked mbind outcome_bind]. fold h1. assert (hs_fs h1 = hs_fs h) as Efs by apply ran_fs.
  rewrite copyFile_missing; [| rewrite Efs; apply (Hnone dirName); by left].
  cbn [mbind outcome_bind]. unfold mountStage2.
  assert (@s_access host (@h_sys host memgz host_ops) h1 (str "/tmp/install.img") = 0) as ->.
  { apply (access_there (hs_fs h1)). by rewrite Efs. }
  change (0 =? 0) with true. cbn [negb]. rewrite (mountLoopback_made junk Hjunk); [| apply made_ran; tauto | unfold h1; rewrite ran_error; exact Hfuel | by rewrite Efs].
  cbn [mbind outcome_bind]. set (a := loop_argvs _ _ _ _).
  destruct (existsb _ loop_types); [| done]. cbn [Z.eqb negb].
  destruct (copy_absent junk cpio_junk fuel depth ((str "/mnt/isodir" ++ before dirName slash) ++ str "/updates.img") (ran a h1)) as [-> _].
  { rewrite ran_fs, Efs, <- app_assoc. apply Hnone. set_solver. }
  cbn [mbind outcome_bind].
  destruct (copy_absent junk cpio_junk fuel depth ((str "/mnt/isodir" ++ before dirName slash) ++ str "/product.img") (ran a h1)) as [_ ->]; [| done].
  rewrite ran_fs, Efs, <- app_assoc. apply Hnone. set_solver.
Qed.

(** unpackCpioBall gives installCpioFile no name for the file, and never
    succeeds. *)
Lemma unpackCpioBall_fails {W G} `{HostOps W G} ball root (w : W) rc w' :
  unpackCpioBall cpio_junk fuel ball root w = Ret (rc, w') → rc = 1.
Proof.
  unfold unpackCpioBall. destruct (negb _); [by intros [= <- _] |].
  set (w1 := if s_access w root =? 0 then _ else _). destruct (h_chdir w1 root) as [r w2].
  destruct (negb _); [by intros [= <- _] |]. destruct (h_gunzip_open w2 ball) as [fd |]; [| by intros [= <- _]].
  unfold installCpioFile. destruct (myCpioInstallArchive _ _ _ _ _ _ _ _) as [[[r2 ?] w3] | |]; [| done..]. cbn.
  rewrite orb_true_r. by intros [= <- _].
Qed.
End hard_drive.

(** ** Samples *)

(** No network, dialogues that are left, and the drives sr0 and sr1. *)
#[local] Instance no_net : NetOps host := {|
  n_socket w f := (-1, w); n_connect w s a := (-1, w); n_nonblock w s := (-1, w); n_close w s := w;
  n_select w s := (-1, w); n_read w s n := (-1, [], w); n_write w s d := (-1, w) |}.
#[local] Instance nobody : MethodOps host := {|
  mo_net := no_net;
  u_entries w a b := (2, str "server", str "/dir", w); u_form w u := (None, w); u_choice w := (2, w);
  u_window w l a b := (HD_back, w); u_drivers w c := (LOADER_BACK, w); u_partitions w := None;
  u_cdroms w := Some [Some (str "sr0"); None; Some (str "/dev/sr1"); Some (str "sr2")];
  u_drive w d := true; u_status w d := (if bool_decide (d = str "/dev/sr2") then CDS_NO_DISC else 4, w); u_closetray w d := (false, w);
  u_eject w d := w; u_mediacheck w d s := w |}.

(** Directories and regular files. *)
Definition tree (dirs files : list bytes) : memfs :=
  let n := length (dirs ++ files) in
  mkFs (list_to_map (imap (λ k p, (p, k)) (dirs ++ files)))
       (list_to_map ((λ k, (k, mkInode (if decide (k < length dirs)%nat then KDir else KReg [1]) 0x1ed 0 0 0)) <$> seq 0 n)) ∅ n 0 false.
Definition mount_points : list bytes :=
  [str "/mnt"; str "/mnt/stage2"; str "/mnt/runtime"; str "/mnt/source"; str "/mnt/isodir"; str "/tmp"; str "/tmp/update-disk"].
Definition file_host (files : list bytes) (mountable : list bytes → bool) : host := mkHost (tree mount_points files) mountable [] [] [] [].
Definition made_b (h : host) (d : bytes) : bool :=
  forallb (λ p, bool_decide (is_Some (fs_lookup (hs_fs h) p)) || only_slashes p) (tried [] d).
Lemma made_b_made h d : made_b h d = true → made h d.
Proof.
  unfold made_b, made. rewrite forallb_forall, list.Forall_forall. intros Hb p Hp%list_elem_of_In.
  specialize (Hb p Hp). apply orb_true_iff in Hb as [Hb%bool_decide_eq_true |]; [by left | by right].
Qed.

Definition mounts_type (ok : bytes → bool) (argv : list bytes) : bool := match argv !! 3%nat with Some t => ok t | None => false end.
Definition nfs_cmd : cmd_state unit := mkCmd (set_ldi L_method METHOD_NFS zero_ld) 0
  (Some (nfsInstallData (str "10.0.0.1") (Some (str "/export/fedora/install.img")) None)) [] (Modules.mkMl None []) tt 0 None 0 0 None.

Definition zero_junk (n : nat) : bytes := replicate 4096 0.
Lemma zero_junk_long n : (4096 ≤ length (zero_junk n))%nat.
Proof. unfold zero_junk. rewrite length_replicate. lia. Qed.

Definition nfs_image : bytes := str "/mnt/stage2//install.img".
(** A server with the image, which can be mounted as squashfs, or not at all. *)
Definition nfs_good : host := file_host [nfs_image]
  (λ argv, mounts_type (λ t, bool_decide (t ∈ [str "nfs"; str "squashfs"])) argv && negb (bool_decide (last argv [] = str "/tmp/update-disk"))).
Definition nfs_bad : host := file_host [nfs_image] (mounts_type (λ t, bool_decide (t = str "nfs"))).

Lemma nfs_sample h : h = nfs_good ∨ h = nfs_bad →
  nfs_given 1 nfs_cmd h (str "10.0.0.1") (str "/export/fedora/install.img") (str "/install.img") None (str "10.0.0.1:/export/fedora") nfs_image ∧
  made h (str "/tmp/update-disk").
Proof.
  intros Hh. split; [constructor; try reflexivity |].
  - split; apply made_b_made; by destruct Hh as [-> | ->]; vm_compute.
  - destruct Hh as [-> | ->]; cbn; lia.
  - destruct Hh as [-> | ->]; by eexists.
  - by destruct Hh as [-> | ->]; vm_compute.
  - apply made_b_made. by destruct Hh as [-> | ->]; vm_compute.
Qed.
Lemma mountNfsImage_given_witness :
  (∀ turns, (3 ≤ turns)%nat → ∃ h', mountNfsImage_ zero_junk 1 1 turns nfs_cmd nfs_good =
     Ret (Some (str "nfs:10.0.0.1:/export/fedora/install.img"), nfs_cmd, h') ∧ length (hs_log h') = 5%nat) ∧
  (∀ turns, (6 ≤ turns)%nat → ∃ h', mountNfsImage_ zero_junk 1 1 turns nfs_cmd nfs_bad = Ret (None, method_failed nfs_cmd, h') ∧
     length (hs_log h') = 7%nat ∧ hs_table h' = [(str "/mnt/stage2", str "10.0.0.1:/export/fedora")]).
Proof.
  split.
  - intros turns Ht. eexists. split; [refine (proj1 (mountNfsImage_given zero_junk zero_junk_long 1 1 nfs_cmd nfs_good (str "10.0.0.1")
      (str "/export/fedora/install.img") (str "/install.img") None (str "10.0.0.1:/export/fedora") nfs_image (str "/fedora")
      (proj1 (nfs_sample _ (or_introl eq_refl))) eq_refl (proj2 (nfs_sample _ (or_introl eq_refl)))) _ _ turns Ht); vm_compute; reflexivity |].
    vm_compute. reflexivity.
  - intros turns Ht. eexists. split; [refine (proj2 (proj2 (mountNfsImage_given zero_junk zero_junk_long 1 1 nfs_cmd nfs_bad (str "10.0.0.1")
      (str "/export/fedora/install.img") (str "/install.img") None (str "10.0.0.1:/export/fedora") nfs_image (str "/fedora")
      (proj1 (nfs_sample _ (or_intror eq_refl))) eq_refl (proj2 (nfs_sample _ (or_intror eq_refl)))) _)
      turns (str "server") (str "/dir") _ Ht eq_refl _ _); [vm_compute; reflexivity | discriminate | discriminate] |].
    vm_compute. split; reflexivity.
Defined.

(** A host name that does not resolve, and a user who leaves the panel. *)
Definition url_cmd : cmd_state unit := mkCmd (set_ldi L_method METHOD_URL (set_ldi L_inferredStage2 1 zero_ld)) 0
  (Some (urlInstallData (str "http://mirror/os/images/install.img"))) [] (Modules.mkMl None []) tt 0 None 0 0 None.
Definition url_run := mountUrlImage_ zero_junk 0 8 (λ _, None) (λ _, None) [] None (λ _, 0%nat) 0 [] [] [] 1 5 [] url_cmd (file_host [] (λ _, false)).
Lemma mountUrlImage_result_witness : ∃ buf st h, url_run = Ret (Some (None, buf, st, h)) ∧
  c_stage2 st = c_stage2 url_cmd ∧ ld_i (c_ld st) L_method = -1 ∧ ld_i (c_ld st) L_invalidRepoParam = 1.
Proof.
  assert (∃ buf st h, url_run = Ret (Some (None, buf, st, h))) as (buf & st & h & E) by (vm_compute; eauto).
  exists buf, st, h. split; [exact E |].
  destruct (mountUrlImage_result zero_junk 0 8 1 (λ _, None) (λ _, None) [] None (λ _, 0%nat) 0 [] [] [] 5 [] url_cmd (file_host [] (λ _, false))
    None buf st h eq_refl E) as [Hs [_ Hm]].
  destruct (Hm ltac:(by eexists) eq_refl) as [H1 H2]. split; [exact Hs |]. split; [exact H1 | apply H2; discriminate].
Defined.

(** Two drives with the disc and one without. *)
Definition cd_image : bytes := str "/mnt/source/images/install.img".
Definition cd_host : host := file_host [cd_image] (mounts_type (λ t, bool_decide (t ∈ [str "iso9660"; str "squashfs"]))).
Definition cd_status (d : bytes) : Z := if bool_decide (d = str "/dev/sr2") then CDS_NO_DISC else 4.
Lemma findAnacondaCD_first_witness : ∃ h', findAnacondaCD zero_junk 0 5 1 1 0 (str "/mnt/source") cd_host =
  Ret (Some (str "cdrom:///dev/sr0:/mnt/source"), h') ∧
  (λ argv : list bytes, list.last argv) <$> hs_log h' = Some <$> [str "/mnt/source"; str "/mnt/runtime"; str "/mnt/source"; str "/mnt/runtime";
    str "/mnt/runtime"; str "/mnt/runtime"; str "/mnt/runtime"; str "/mnt/runtime"] ∧
  hs_table h' = [(str "/mnt/runtime", cd_image); (str "/mnt/source", str "/dev/sr0")] ∧ hs_loops h' = [str "/dev/loop0"].
Proof.
  eexists. split.
  - refine (findAnacondaCD_first zero_junk zero_junk_long 0 5 1 cd_host (str "/mnt/source") 0 cd_status 1
      [Some (str "sr0"); None; Some (str "/dev/sr1"); Some (str "sr2")] _ eq_refl _ _); [| | lia].
    + constructor; try reflexivity.
      * intros d. unfold cd_status. destruct (bool_decide _); discriminate.
      * split; apply made_b_made; by vm_compute.
      * cbn. lia.
      * by eexists.
      * split; by vm_compute.
      * split; [reflexivity | split; [reflexivity |]]. apply not_elem_of_nil.
      * discriminate.
    + apply (bool_decide_unpack _). by vm_compute.
  - vm_compute. split_and!; reflexivity.
Defined.

(** A partition no type mounts, and an image of an earlier attempt. *)
Definition stale_host : host := file_host [str "/tmp/install.img"] (mounts_type (λ t, bool_decide (t = str "squashfs"))).
Lemma setupIsoImages_ignores_mount_witness : ∃ h', setupIsoImages zero_junk 0 5 1 0 (str "sda1") (str "/fedora/install.img") stale_host =
  Ret (Some (str "hd:sda1://fedora/install.img"), h') ∧ length (hs_log h') = 6%nat.
Proof.
  eexists. split.
  - refine (setupIsoImages_ignores_mount zero_junk zero_junk_long 0 5 1 stale_host 0 (str "sda1") (str "/fedora/install.img") (str "/install.img")
      eq_refl eq_refl _ _ _ _).
    + split; apply made_b_made; by vm_compute.
    + cbn. lia.
    + intros name Hn. rewrite !elem_of_cons, elem_of_nil in Hn. destruct Hn as [-> | [-> | [-> | []]]]; by vm_compute.
    + by eexists.
  - vm_compute. reflexivity.
Defined.
