(* ===== verification/Keymap.v ===== *)
(** * Keyboard maps (isys/lang.c, kbd.c)

    loadKeymap and isysLoadKeymap on the archive of the maps, and chooseKeyboard.
    The machine is little-endian; the console and the menu are parameters.  A key
    is set by an ioctl that gives 0 or an errno. *)

From S2P Require Import Prelude CLib Loader Cpio Lang.

Definition KMAP_MAGIC : Z := 0x8B39C07F.
Definition KMAP_NAMELEN : nat := 40.
Definition MAX_NR_KEYMAPS : nat := 256.
Definition NR_KEYS : nat := 128.
Definition KT_SPEC : Z := 2.
Definition KTYP (value : Z) : Z := Z.shiftr value 8.
Definition EIO : Z := 5.
Definition EACCES : Z := 13.
Definition EINVAL : Z := 22.

Record kbentry := mkEntry { kb_table : Z; kb_index : Z; kb_value : Z }.
(** The table of the archive: a size and a name each. *)
Definition sizeof_kmapInfo : nat := 4 + KMAP_NAMELEN.

Section keymap.
Context {G : Type} `{GzOps G}.
(** gunzip_open; whether standard input is a pseudo terminal or a tty of the
    tape kind; whether /dev/tty0 can be opened; KDSKBENT. *)
Context (gunzip_open : bytes → option G) (on_pty console_opens : bool) (set_key : kbentry → Z).

(** [gunzip_read(stream, buf, n) != n]: the bytes when all were read. *)
Definition read_all (n : Z) (f : G) : option bytes * G :=
  let '(rc, d, f) := gz_read f n in (if rc =? n then Some d else None, f).

(** The keys of one map: the error of the first that is refused, and the calls. *)
Fixpoint keys_loop (table index : Z) (keys : list Z) (calls : list kbentry) : Z * list kbentry :=
  match keys with
  | [] => (0, calls)
  | value :: keys =>
      if negb (KTYP value =? KT_SPEC) then
        let e := mkEntry table index value in
        let calls := calls ++ [e] in
        if negb (set_key e =? 0) then (set_key e, calls) else keys_loop table (index + 1) keys calls
      else keys_loop table (index + 1) keys calls
  end.
(** [n] numbers of [w] bytes. *)
Fixpoint words (w n : nat) (d : bytes) : list Z :=
  match n with O => [] | S n => le_val (take w d) :: words w n (drop w d) end.

Fixpoint maps_loop (kmap : Z) (keymaps : list Z) (f : G) (calls : list kbentry) : Z * list kbentry * G :=
  match keymaps with
  | [] => (0, calls, f)
  | present :: keymaps =>
      if present =? 0 then maps_loop (kmap + 1) keymaps f calls
      else
        let '(d, f) := read_all (2 * Z.of_nat NR_KEYS) f in
        match d with
        | None => (- EIO, calls, f)
        | Some d =>
            let '(rc, calls) := keys_loop kmap 0 (words 2 NR_KEYS d) calls in
            if negb (rc =? 0) then (rc, calls, f) else maps_loop (kmap + 1) keymaps f calls
        end
  end.
Definition loadKeymap (f : G) (calls : list kbentry) : Z * list kbentry * G :=
  if on_pty then (0, calls, f)
  else
    let '(magic, f) := read_all 4 f in
    match magic with
    | None => (- EIO, calls, f)
    | Some magic =>
        if negb (le_val magic =? KMAP_MAGIC) then (- EINVAL, calls, f)
        else
          let '(keymaps, f) := read_all (4 * Z.of_nat MAX_NR_KEYMAPS) f in
          match keymaps with
          | None => (- EINVAL, calls, f)
          | Some keymaps =>
              if negb console_opens then (- EACCES, calls, f)
              else maps_loop 0 (words 4 MAX_NR_KEYMAPS keymaps) f calls
          end
    end.

(** The name and the size of an entry of the table; a name that is not
    terminated goes on into what follows. *)
Definition info_name (table : bytes) (i : nat) : outcome bytes :=
  let t := drop (sizeof_kmapInfo * i + 4) table in _ ← checked (strchr t 0); Ret (until_nul t).
Definition info_size (table : bytes) (i : nat) : Z := s32 (le_val (slice (sizeof_kmapInfo * i) 4 table)).

(** The header and the table: the number of entries. *)
Definition read_table (f : G) : outcome (Z + nat * bytes * G) :=
  let '(hdr, f) := read_all 8 f in
  match hdr with
  | None => Ret (inl (- EINVAL))
  | Some hdr =>
      let num := s32 (le_val (drop 4 hdr)) in
      let i := s32 (w64 (num * Z.of_nat sizeof_kmapInfo)) in
      _ ← defined_if (0 <=? i);
      let '(table, f) := read_all i f in
      Ret (match table with None => inl (- EIO) | Some table => inr (Z.to_nat num, table, f) end)
  end.

(** [for (i = 0; i < numEntries; i++) if (!strcmp(...)) { num = i; break; }] *)
Fixpoint find_keymap (keymap table : bytes) (n i : nat) : outcome (option nat) :=
  match n with
  | O => Ret None
  | S n => nm ← info_name table i; if streq nm keymap then Ret (Some i) else find_keymap keymap table n (S i)
  end.
(** The maps in front of the one that is wanted: [buf] has 16384 bytes.  How many
    are left when one cannot be read, with that one. *)
Fixpoint skip_maps (table : bytes) (n i : nat) (f : G) : outcome (nat * G) :=
  match n with
  | O => Ret (O, f)
  | S n =>
      let size := info_size table i in
      _ ← defined_if ((0 <=? size) && (size <=? 16384));
      let '(d, f) := read_all size f in
      match d with None => Ret (S n, f) | Some _ => skip_maps table n (S i) f end
  end.

Definition isysLoadKeymap (keymap : bytes) : outcome (Z * list kbentry) :=
  match gunzip_open (str "/etc/keymaps.gz") with
  | None => Ret (- EACCES, [])
  | Some f =>
      t ← read_table f;
      match t with
      | inl e => Ret (e, [])
      | inr (n, table, f) =>
          num ← find_keymap keymap table n 0;
          match num with
          | None => Ret (-2, [])
          | Some num =>
              '(unread, f) ← skip_maps table num 0 f;
              if (unread =? 0)%nat then let '(rc, calls, _) := loadKeymap f [] in Ret (rc, calls) else Ret (- EIO, [])
          end
      end
  end.

(** ** kbd.c *)

(** newtWinMenu on the names, from the one that is preset on: Back, or the
    choice. *)
Context (u_menu : list bytes → Z → option nat) (qsort : list bytes → list bytes).

(** [if (!strncmp(languages[i].lc_all, lang, 2))] *)
Fixpoint keyboard_of (lng : bytes) (languages : list langInfo) : option bytes :=
  match languages with
  | [] => None
  | l :: languages => if bool_decide (take 2 (lc_all l) = take 2 lng) then Some (keyboard l) else keyboard_of lng languages
  end.
(** The last one with the name. *)
Fixpoint preset (defkbd : bytes) (kbds : list bytes) (i num : Z) : Z :=
  match kbds with [] => num | k :: kbds => preset defkbd kbds (i + 1) (if streq k defkbd then i else num) end.
Fixpoint names_of (table : bytes) (n i : nat) : outcome (list bytes) :=
  match n with O => Ret [] | S n => nm ← info_name table i; l ← names_of table n (S i); Ret (nm :: l) end.

(** A map that cannot be read closes the stream, which is read on all the same.
    [LANG] is the variable of the environment. *)
Definition chooseKeyboard (flags : Z) (LANG : option bytes) (languages : list langInfo) (ld : loaderData_s) :
    outcome (Z * list kbentry * loaderData_s) :=
  if FL flags LOADER_FLAGS_SERIAL || FL flags LOADER_FLAGS_VIRTPCONSOLE then Ret (LOADER_NOOP, [], ld)
  else
    let lng := match LANG with Some l => Some l | None => ld_s ld L_lang end in
    let defkbd := match ld_s ld L_kbd with
                  | Some k => k
                  | None => default (str "us") (match lng with Some l => keyboard_of l languages | None => None end)
                  end in
    match gunzip_open (str "/etc/keymaps.gz") with
    | None => Ret (LOADER_ERROR, [], ld)
    | Some f =>
        t ← read_table f;
        match t with
        | inl _ => Ret (LOADER_ERROR, [], ld)
        | inr (n, table, f) =>
            infos ← names_of table n 0;
            let kbds := qsort infos in
            match u_menu kbds (preset defkbd kbds 0 (-1)) with
            | None => Ret (LOADER_BACK, [], ld)
            | Some choice =>
                name ← checked (kbds !! choice);
                num ← find_keymap name table n 0;
                num ← checked num;
                '(unread, f) ← skip_maps table num 0 f;
                _ ← defined_if (unread <=? 1)%nat;
                let '(rc, calls) := if (unread =? 0)%nat then let '(rc, calls, _) := loadKeymap f [] in (rc, calls) else (LOADER_ERROR, []) in
                Ret (if rc =? 0 then 0 else LOADER_ERROR, calls, set_lds L_kbd (Some name) ld)
            end
        end
    end.
End keymap.
