(* ===== verification/KeymapFacts.v ===== *)
(** * Properties of keyboard maps

    isysLoadKeymap gives the console the keys of the map that was asked for. *)

From S2P Require Import Prelude CLib Loader Cpio Lang Keymap.

(** ** The archive of the maps *)

(** A map: its name and, for each of 256 tables, nothing or 128 values. *)
Record kmap := mkKmap { km_name : bytes; km_tables : list (option (list Z)) }.
Definition table_ok (t : option (list Z)) : Prop :=
  match t with Some ks => length ks = NR_KEYS ∧ Forall (λ v, 0 ≤ v < 2 ^ 16) ks | None => True end.
Definition table_flag (t : option (list Z)) : bytes := le_bytes 4 (match t with Some _ => 1 | None => 0 end).
Definition table_bytes (t : option (list Z)) : bytes := match t with Some ks => mjoin (le_bytes 2 <$> ks) | None => [] end.
Definition section_bytes (km : kmap) : bytes :=
  le_bytes 4 KMAP_MAGIC ++ mjoin (table_flag <$> km_tables km) ++ mjoin (table_bytes <$> km_tables km).
Record kmap_ok (km : kmap) : Prop := {
  ko_name : Forall (λ b, b ≠ 0) (km_name km) ∧ (length (km_name km) < KMAP_NAMELEN)%nat;
  ko_tables : length (km_tables km) = MAX_NR_KEYMAPS ∧ Forall table_ok (km_tables km);
  ko_size : Z.of_nat (length (section_bytes km)) ≤ 16384 }.

Definition info_bytes (km : kmap) : bytes :=
  le_bytes 4 (Z.of_nat (length (section_bytes km))) ++ km_name km ++ replicate (KMAP_NAMELEN - length (km_name km)) 0.
Definition archive (magic : Z) (kms : list kmap) : bytes :=
  le_bytes 4 magic ++ le_bytes 4 (Z.of_nat (length kms)) ++ mjoin (info_bytes <$> kms) ++ mjoin (section_bytes <$> kms).

(** What the console is given: all but the special keys. *)
Definition key_entries (table : Z) (keys : list Z) : list kbentry :=
  omap (λ e : nat * Z, if KTYP (snd e) =? KT_SPEC then None else Some (mkEntry table (Z.of_nat (fst e)) (snd e))) (imap pair keys).
Definition map_entries (km : kmap) : list kbentry :=
  mjoin (imap (λ k t, match t with Some ks => key_entries (Z.of_nat k) ks | None => [] end) (km_tables km)).

Lemma length_info km : kmap_ok km → length (info_bytes km) = sizeof_kmapInfo.
Proof.
  intros [[_ Hn] _ _]. unfold info_bytes. rewrite !length_app, length_le_bytes, length_replicate. unfold sizeof_kmapInfo, KMAP_NAMELEN in *. lia.
Qed.

Lemma read_all_mem n d r o : n = Z.of_nat (length d) → (Z.of_nat (length d) < 2 ^ 31) → read_all n (mkGz (d ++ r) o) = (Some d, mkGz r o).
Proof.
  intros -> Hl. unfold read_all. cbn [gz_read memgz_ops]. unfold mem_read. destruct (Z.leb_spec (2 ^ 31) (Z.of_nat (length d))); [lia |].
  rewrite Nat2Z.id. cbn [gz_in gz_out]. rewrite take_app_length, drop_app_length. by rewrite Z.eqb_refl.
Qed.

Lemma words_values w l : Forall (λ v, 0 ≤ v < 2 ^ (8 * Z.of_nat w)) l → words w (length l) (mjoin (le_bytes w <$> l)) = l.
Proof.
  induction 1 as [| v l Hv _ IH]; [done |]. rewrite fmap_cons. change (mjoin (le_bytes w v :: (le_bytes w <$> l))) with (le_bytes w v ++ mjoin (le_bytes w <$> l)).
  cbn [length words]. rewrite take_app_length', drop_app_length' by (by rewrite length_le_bytes). rewrite le_val_bytes by done. by rewrite IH.
Qed.
Lemma length_values w l : length (mjoin (le_bytes w <$> l)) = (w * length l)%nat.
Proof.
  induction l as [| v l IH]; [cbn; lia |]. rewrite fmap_cons. change (mjoin (le_bytes w v :: (le_bytes w <$> l))) with (le_bytes w v ++ mjoin (le_bytes w <$> l)).
  rewrite length_app, length_le_bytes, IH. cbn [length]. lia.
Qed.

Section load.
Context (set_key : kbentry → Z) (Hset : ∀ e, set_key e = 0).

Lemma keys_loop_all table keys : ∀ k calls, keys_loop set_key table (Z.of_nat k) keys calls =
  (0, calls ++ omap (λ e : nat * Z, if KTYP (snd e) =? KT_SPEC then None else Some (mkEntry table (Z.of_nat (fst e)) (snd e))) (imap (λ j v, ((k + j)%nat, v)) keys)).
Proof.
  induction keys as [| v keys IH]; intros k calls; [cbn; by rewrite app_nil_r |]. cbn [keys_loop]. rewrite imap_cons. cbn [omap list_omap fst snd].
  replace (Z.of_nat k + 1) with (Z.of_nat (S k)) by lia. rewrite Nat.add_0_r.
  assert (imap ((λ j v0, ((k + j)%nat, v0)) ∘ S) keys = imap (λ j v0, ((S k + j)%nat, v0)) keys) as ->.
  { apply imap_ext. intros i x _. unfold compose. f_equal. lia. }
  destruct (KTYP v =? KT_SPEC); cbn [negb]; [by rewrite IH |]. rewrite Hset. cbn [Z.eqb negb]. rewrite IH. by rewrite <- app_assoc.
Qed.
Lemma maps_loop_all tables : ∀ k r o calls, Forall table_ok tables →
  maps_loop set_key (Z.of_nat k) ((λ t : option (list Z), match t with Some _ => 1 | None => 0 end) <$> tables) (mkGz (mjoin (table_bytes <$> tables) ++ r) o) calls =
  (0, calls ++ mjoin (imap (λ j t, match t with Some ks => key_entries (Z.of_nat (k + j)) ks | None => [] end) tables), mkGz r o).
Proof.
  induction tables as [| t tables IH]; intros k r o calls Hok; [cbn; by rewrite app_nil_r |]. apply list.Forall_cons in Hok as [Ht Hok].
  rewrite !fmap_cons, imap_cons. cbn [maps_loop]. replace (Z.of_nat k + 1) with (Z.of_nat (S k)) by lia.
  assert (imap ((λ j (t0 : option (list Z)), match t0 with Some ks => key_entries (Z.of_nat (k + j)) ks | None => [] end) ∘ S) tables =
          imap (λ j (t0 : option (list Z)), match t0 with Some ks => key_entries (Z.of_nat (S k + j)) ks | None => [] end) tables) as ->.
  { apply imap_ext. intros i x _. unfold compose. destruct x; [do 2 f_equal; lia | done]. }
  change (mjoin (table_bytes t :: ?l)) with (table_bytes t ++ mjoin l).
  destruct t as [ks |].
  - change (1 =? 0) with false. cbn iota. destruct Ht as [Hl Hr]. change (table_bytes (Some ks)) with (mjoin (le_bytes 2 <$> ks)).
    change (mjoin (mjoin (le_bytes 2 <$> ks) :: (table_bytes <$> tables))) with (mjoin (le_bytes 2 <$> ks) ++ mjoin (table_bytes <$> tables)).
    rewrite <- app_assoc. rewrite read_all_mem by (rewrite length_values, Hl; unfold NR_KEYS; lia).
    rewrite <- Hl, words_values by done. pose proof (keys_loop_all (Z.of_nat k) ks 0 calls) as Ek. change (Z.of_nat 0) with 0 in Ek.
    rewrite Ek. cbn [Z.eqb negb].
    change (imap (λ j v, ((0 + j)%nat, v)) ks) with (imap pair ks). rewrite IH by done. rewrite Nat.add_0_r. 
    rewrite <- app_assoc. done.
  - cbn [Z.eqb]. apply IH. done.
Qed.
End load.

Lemma flags_values (tables : list (option (list Z))) :
  mjoin (table_flag <$> tables) = mjoin (le_bytes 4 <$> ((λ t : option (list Z), match t with Some _ => 1 | None => 0 end) <$> tables)).
Proof. by rewrite <- list_fmap_compose. Qed.

Lemma loadKeymap_section set_key km r o calls : (∀ e, set_key e = 0) → kmap_ok km →
  loadKeymap false true set_key (mkGz (section_bytes km ++ r) o) calls = (0, calls ++ map_entries km, mkGz r o).
Proof.
  intros Hset [_ [Hl Ht] _]. unfold loadKeymap, section_bytes. rewrite <- !app_assoc, read_all_mem by (rewrite length_le_bytes; lia).
  rewrite le_val_bytes by (unfold KMAP_MAGIC; lia). rewrite Z.eqb_refl. cbn [negb].
  rewrite read_all_mem; [| rewrite flags_values, length_values, length_fmap, Hl; unfold MAX_NR_KEYMAPS; lia ..].
  assert (words 4 MAX_NR_KEYMAPS (mjoin (table_flag <$> km_tables km)) =
          (λ t : option (list Z), match t with Some _ => 1 | None => 0 end) <$> km_tables km) as ->.
  { rewrite flags_values. rewrite <- Hl, <- (length_fmap (λ t : option (list Z), match t with Some _ => 1 | None => 0 end)) at 1.
    apply words_values. apply Forall_fmap, list.Forall_forall. intros t _. unfold compose. destruct t; lia. }
  pose proof (maps_loop_all set_key Hset (km_tables km) 0 r o calls Ht) as E. change (Z.of_nat 0) with 0 in E. exact E.
Qed.

(** *** The table *)

Lemma infos_split kms : Forall kmap_ok kms → ∀ i km, kms !! i = Some km →
  drop (sizeof_kmapInfo * i) (mjoin (info_bytes <$> kms)) = info_bytes km ++ mjoin (info_bytes <$> drop (S i) kms).
Proof.
  induction 1 as [| k kms Hk Hks IH]; intros i km Hi; [done |]. rewrite fmap_cons.
  change (mjoin (info_bytes k :: (info_bytes <$> kms))) with (info_bytes k ++ mjoin (info_bytes <$> kms)). destruct i as [| i].
  - injection Hi as ->. rewrite Nat.mul_0_r. done.
  - rewrite drop_app_ge by (rewrite length_info by done; lia). rewrite length_info by done.
    replace (sizeof_kmapInfo * S i - sizeof_kmapInfo)%nat with (sizeof_kmapInfo * i)%nat by lia. by apply IH.
Qed.
Lemma length_infos kms : Forall kmap_ok kms → length (mjoin (info_bytes <$> kms)) = (sizeof_kmapInfo * length kms)%nat.
Proof.
  induction 1 as [| k kms Hk Hks IH]; [cbn; lia |]. rewrite fmap_cons.
  change (mjoin (info_bytes k :: (info_bytes <$> kms))) with (info_bytes k ++ mjoin (info_bytes <$> kms)).
  rewrite length_app, length_info, IH by done. cbn [length]. lia.
Qed.
Lemma info_name_at kms i km : Forall kmap_ok kms → kms !! i = Some km → info_name (mjoin (info_bytes <$> kms)) i = Ret (km_name km).
Proof.
  intros Hok Hi. assert (kmap_ok km) as [[Hn Hl] _ _] by (rewrite list.Forall_forall in Hok; apply Hok; by eapply list_elem_of_lookup_2).
  unfold info_name. rewrite <- drop_drop, (infos_split _ Hok _ _ Hi). cbv zeta. unfold info_bytes at 1 3. rewrite <- !app_assoc.
  rewrite drop_app_length' by (by rewrite length_le_bytes). destruct (KMAP_NAMELEN - length (km_name km))%nat as [| n] eqn:En; [lia |].
  cbn [replicate app]. rewrite strchr_app by done. cbn [checked mbind outcome_bind]. by rewrite until_nul_app_nul.
Qed.
Lemma info_size_at kms i km : Forall kmap_ok kms → kms !! i = Some km → info_size (mjoin (info_bytes <$> kms)) i = Z.of_nat (length (section_bytes km)).
Proof.
  intros Hok Hi. assert (kmap_ok km) as [_ _ Hs] by (rewrite list.Forall_forall in Hok; apply Hok; by eapply list_elem_of_lookup_2).
  unfold info_size, slice. rewrite (infos_split _ Hok _ _ Hi). unfold info_bytes at 1. rewrite <- !app_assoc.
  rewrite take_app_length' by (by rewrite length_le_bytes). rewrite le_val_bytes by lia. apply swrap_small; lia.
Qed.

Lemma find_keymap_finds kms keymap : Forall kmap_ok kms → ∀ n i, (i + n = length kms)%nat →
  find_keymap keymap (mjoin (info_bytes <$> kms)) n i = Ret ((λ x, (i + fst x)%nat) <$> list_find (λ km, km_name km = keymap) (drop i kms)).
Proof.
  intros Hok. induction n as [| n IH]; intros i Hi; [cbn; by rewrite drop_ge by lia |].
  destruct (lookup_lt_is_Some_2 kms i ltac:(lia)) as [km Hk]. cbn [find_keymap]. rewrite (info_name_at _ _ _ Hok Hk). cbn [mbind outcome_bind].
  rewrite (drop_S _ _ _ Hk). cbn [list_find]. destruct (streq (km_name km) keymap) eqn:E.
  - apply streq_spec in E. rewrite decide_True by done. cbn. by rewrite Nat.add_0_r.
  - rewrite decide_False by (intros Hn%streq_spec; congruence). rewrite IH by lia. f_equal. destruct (list_find _ _) as [[j ?] |]; cbn; [f_equal; lia | done].
Qed.
Lemma skip_maps_skips kms r o : Forall kmap_ok kms → ∀ n i, (i + n <= length kms)%nat →
  skip_maps (mjoin (info_bytes <$> kms)) n i (mkGz (mjoin (section_bytes <$> drop i kms) ++ r) o) =
  Ret (O, mkGz (mjoin (section_bytes <$> drop (i + n) kms) ++ r) o).
Proof.
  intros Hok. induction n as [| n IH]; intros i Hi; [by rewrite Nat.add_0_r |].
  destruct (lookup_lt_is_Some_2 kms i ltac:(lia)) as [km Hk]. cbn [skip_maps]. rewrite (info_size_at _ _ _ Hok Hk).
  assert (kmap_ok km) as [_ _ Hs] by (rewrite list.Forall_forall in Hok; apply Hok; by eapply list_elem_of_lookup_2).
  destruct (Z.leb_spec 0 (Z.of_nat (length (section_bytes km)))), (Z.leb_spec (Z.of_nat (length (section_bytes km))) 16384); [| lia..].
  cbn [andb defined_if mbind outcome_bind]. rewrite (drop_S _ _ _ Hk), fmap_cons.
  change (mjoin (section_bytes km :: ?l)) with (section_bytes km ++ mjoin l).
  change (mjoin (section_bytes km :: (section_bytes <$> drop (S i) kms))) with (section_bytes km ++ mjoin (section_bytes <$> drop (S i) kms)).
  rewrite <- app_assoc, read_all_mem by lia. rewrite IH by lia. by replace (S i + n)%nat with (i + S n)%nat by lia.
Qed.

(** C30: isysLoadKeymap on an archive of maps: the console is given exactly the
    keys of the first map with the name, table by table, each with its value and
    without those of the special type; a name that no map has gives -ENOENT and
    changes no key. *)
Theorem isysLoadKeymap_loads gunzip_open set_key magic kms keymap (Hset : ∀ e, set_key e = 0) (Hmaps : Forall kmap_ok kms)
  (Hmany : Z.of_nat (length kms) * 44 < 2 ^ 31) (Hmagic : 0 ≤ magic < 2 ^ 32)
  (Hopen : gunzip_open (str "/etc/keymaps.gz") = Some (mkGz (archive magic kms) [])) :
  isysLoadKeymap gunzip_open false true set_key keymap =
  Ret (match list_find (λ km, km_name km = keymap) kms with Some (_, km) => (0, map_entries km) | None => (-2, []) end).
Proof.
  unfold isysLoadKeymap. rewrite Hopen. unfold read_table, archive.
  rewrite app_assoc, read_all_mem; [| rewrite length_app, !length_le_bytes; lia ..].
  rewrite drop_app_length' by (by rewrite length_le_bytes). rewrite le_val_bytes by lia. cbv zeta. rewrite (swrap_small 32 (Z.of_nat (length kms))) by lia.
  replace (Z.of_nat sizeof_kmapInfo) with 44 by done. rewrite (wrap_small 64 (Z.of_nat (length kms) * 44)), (swrap_small 32 (Z.of_nat (length kms) * 44)) by lia.
  destruct (Z.leb_spec 0 (Z.of_nat (length kms) * 44)); [| lia]. cbn [defined_if mbind outcome_bind].
  rewrite read_all_mem by (rewrite length_infos by done; unfold sizeof_kmapInfo, KMAP_NAMELEN; lia). rewrite Nat2Z.id. cbn [mbind outcome_bind].
  rewrite (find_keymap_finds kms keymap Hmaps) by lia. cbn [mbind outcome_bind]. rewrite drop_0.
  destruct (list_find (λ km, km_name km = keymap) kms) as [[i km] |] eqn:Ef; cbn [fmap option_fmap option_map fst Nat.add]; [| done].
  apply list_find_Some in Ef as (Hi & _ & _).
  pose proof (skip_maps_skips kms [] [] Hmaps i 0) as Es. rewrite drop_0, !app_nil_r in Es. cbn [Nat.add] in Es.
  rewrite Es by (apply lookup_lt_Some in Hi; lia). cbn [mbind outcome_bind Nat.eqb].
  rewrite (drop_S _ _ _ Hi), fmap_cons.
  change (mjoin (section_bytes km :: (section_bytes <$> drop (S i) kms))) with (section_bytes km ++ mjoin (section_bytes <$> drop (S i) kms)).
  rewrite loadKeymap_section; [done | done |]. rewrite list.Forall_forall in Hmaps. apply Hmaps. by eapply list_elem_of_lookup_2.
Qed.

Definition sample_keys : list Z := 0x200 :: 0xb61 :: replicate 126 0.
Definition sample_map (name : bytes) (k : nat) : kmap := mkKmap name (replicate k None ++ [Some sample_keys] ++ replicate (255 - k) None).
Definition sample_maps : list kmap := [sample_map (str "us") 0; sample_map (str "it") 1].
Lemma isysLoadKeymap_loads_witness : ∃ calls, isysLoadKeymap (λ _, Some (mkGz (archive 0 sample_maps) [])) false true (λ _, 0) (str "it") = Ret (0, calls) ∧
  length calls = 127%nat ∧ head calls = Some (mkEntry 1 1 0xb61).
Proof.
  eexists. split.
  - refine (isysLoadKeymap_loads (λ _, Some (mkGz (archive 0 sample_maps) [])) (λ _, 0) 0 sample_maps (str "it") (λ _, eq_refl) _ eq_refl _ eq_refl).
    + assert (∀ name k, Forall (λ b, b ≠ 0) name → (length name < 40)%nat → (k <= 1)%nat → kmap_ok (sample_map name k)) as Hok.
      { intros name k Hn Hl Hk. constructor; [by split | split |].
        - unfold sample_map. cbn [km_tables]. rewrite !length_app, !length_replicate. cbn [length]. unfold MAX_NR_KEYMAPS. lia.
        - unfold sample_map. cbn [km_tables]. repeat (apply Forall_app; split); try by apply Forall_replicate.
          constructor; [| constructor]. split; [reflexivity |]. constructor; [lia |]. constructor; [lia |]. apply Forall_replicate. lia.
        - unfold section_bytes, sample_map. cbn [km_tables]. destruct k as [| [| k]]; [vm_compute; discriminate.. | lia]. }
      constructor; [| constructor; [| constructor]]; (apply Hok; [repeat constructor; discriminate | cbn; lia | lia]).
    + split; reflexivity || discriminate.
  - split; vm_compute; reflexivity.
Defined.
