(* ===== verification/Devices.v ===== *)
(** * Devices and BIOS disks (isys/devices.c, isys/eddsupport.c)

    getDevices on what sysfs holds, and the table that gives a disk to a number
    of the BIOS by the signature of its boot record.  The directories, the files
    and what a disk answers are parameters, and so is memory that was never
    set. *)

From S2P Require Import Prelude CLib Steps.

Definition MINIMUM_INTERESTING_SIZE : Z := 32 * 1024.
Definition GENHD_FL_REMOVABLE : Z := 1.
Definition GENHD_FL_CD : Z := 8.

Inductive dev_priv := removable (n : Z) | hwaddr (addr : option bytes).
Record device := mkDevice { dv_device : bytes; dv_description : bytes; dv_type : Z; dv_priv : dev_priv }.

(** What becomes of a name: it is passed over, it gives a device, or the whole
    call returns null. *)
Inductive dev_result := Skip | Device (d : device) | Give_up.

Section devices.
(** The names of a directory, what read puts into a buffer of 64 bytes (nothing
    when the file cannot be opened or is empty), and the memory behind it. *)
Context (readdir : bytes → option (list bytes)) (attr : bytes → option bytes) (junk : bytes).

Definition sys_path (dir name file : bytes) : bytes := snprintf_ 64 (dir ++ name ++ file).

(** [strtol(buf, NULL, base)] into an int, with the test of errno: nothing when
    the call is to return null.  A number that fills the buffer is read beyond. *)
Definition attr_number (base : Z) (buf : bytes) : outcome (option Z) :=
  match read_number base buf with
  | Some (neg, v, r) =>
      _ ← defined_if (negb (bool_decide (r = [])));
      let n := s32 (fst (strtol base buf)) in
      let erange := if neg : bool then 2 ^ 63 <? v else 2 ^ 63 <=? v in
      Ret (if erange && (n =? 0) then None else Some n)
  | None => _ ← defined_if (negb (bool_decide (skip_space buf = []))); Ret (Some 0)
  end.
Definition filled_buffer (d old : bytes) : bytes := take 64 (d ++ drop (length d) old).

Definition storage_device (type : Z) (name : bytes) : outcome dev_result :=
  match attr (sys_path (str "/sys/block/") name (str "/capability")) with
  | None => Ret Skip
  | Some d =>
      let buf := filled_buffer d junk in
      caps ← attr_number 16 buf;
      match caps with
      | None => Ret Give_up
      | Some caps =>
          let devtype := if negb (Z.land caps GENHD_FL_CD =? 0) then DEVICE_CDROM else DEVICE_DISK in
          let rm := negb (Z.land caps GENHD_FL_REMOVABLE =? 0) in
          let new := Device (mkDevice name (str "Storage device " ++ name) devtype (removable (if rm then 1 else 0))) in
          if Z.land devtype type =? 0 then Ret Skip
          else if (devtype =? DEVICE_DISK) && negb rm then
            match attr (sys_path (str "/sys/block/") name (str "/size")) with
            | None => Ret Skip
            | Some d =>
                size ← attr_number 10 (filled_buffer d buf);
                Ret (match size with
                     | None => Give_up
                     | Some size => if size <? MINIMUM_INTERESTING_SIZE then Skip else new
                     end)
            end
          else Ret new
      end
  end.

(** [for (i = (strlen(buf)-1); isspace(buf[i]); i--) buf[i] = '\0';] *)
Fixpoint trim_end (n : nat) (buf : bytes) : outcome bytes :=
  match n with
  | O => Undef
  | S i => c ← checked (buf !! i); if isspace c then trim_end i buf else Ret (take n buf)
  end.
(** The address is read over the type, without a terminator. *)
Definition ethernet_device (name : bytes) : outcome dev_result :=
  match attr (sys_path (str "/sys/class/net/") name (str "/type")) with
  | None => Ret Skip
  | Some d =>
      let buf := filled_buffer d junk in
      type ← attr_number 10 buf;
      match type with
      | None => Ret Give_up
      | Some type =>
          if negb (type =? 1) then Ret Skip
          else
            addr ← (match attr (sys_path (str "/sys/class/net/") name (str "/address")) with
                    | None => Ret None
                    | Some d =>
                        let buf := filled_buffer d buf in
                        _ ← checked (strchr buf 0);
                        a ← trim_end (length (until_nul buf)) buf; Ret (Some a)
                    end);
            Ret (Device (mkDevice name
              (str "Ethernet device " ++ name ++ match addr with Some a => str " - " ++ a | None => [] end) 0 (hwaddr addr)))
      end
  end.

(** One directory; null when a number is refused. *)
Fixpoint collect (f : bytes → outcome dev_result) (names : list bytes) (ret : list device) : outcome (option (list device)) :=
  match names with
  | [] => Ret (Some ret)
  | n :: names =>
      r ← f n;
      match r with
      | Skip => collect f names ret
      | Device d => collect f names (ret ++ [d])
      | Give_up => Ret None
      end
  end.
Definition getDevices (type : Z) : outcome (option (list device)) :=
  let storage := if Z.land type (Z.lor DEVICE_DISK DEVICE_CDROM) =? 0 then None else readdir (str "/sys/block") in
  r ← collect (storage_device type) (default [] storage) [];
  match r with
  | None => Ret None
  | Some ret =>
      let net := if Z.land type DEVICE_NETWORK =? 0 then None else readdir (str "/sys/class/net") in
      r ← collect ethernet_device (default [] net) ret;
      Ret (match r with Some [] => None | r => r end)
  end.
End devices.

(** ** The disks of the BIOS *)

Definition HASH_TABLE_SIZE : Z := 17.
Definition ENOMEDIUM : Z := 123.
(** The buckets: a key and the name of a disk. *)
Definition diskMapTable : Type := list (list (Z * bytes)).
Definition initializeHashTable (size : Z) : diskMapTable := replicate (Z.to_nat size) [].
Definition bucket (t : diskMapTable) (key : Z) : nat := Z.to_nat (key mod Z.of_nat (length t)).
Definition insertHashItem (t : diskMapTable) (item : Z * bytes) : diskMapTable :=
  let index := bucket t (fst item) in
  <[index := item :: default [] (t !! index)]> t.
Fixpoint find_key (key : Z) (l : list (Z * bytes)) : option (Z * bytes) :=
  match l with
  | [] => None
  | item :: l => if negb (fst item =? key) then find_key key l else Some item
  end.
Definition lookupHashItem (t : diskMapTable) (key : Z) : option (Z * bytes) := find_key key (default [] (t !! bucket t key)).
Definition addToHashTable (t : diskMapTable) (key : Z) (diskName : bytes) : diskMapTable := insertHashItem t (key, diskName).

(** open fails with an errno, lseek fails, or what read returns and stores. *)
Inductive disk_answer := Disk_open_error (errno : Z) | Disk_seek_error | Disk_read (rc : Z) (data : bytes).

Section bios.
(** The directory of the BIOS disks, the text of a file that can be opened, what
    a disk answers. *)
Context (edd_dir : option (list bytes)) (mbr_file : bytes → option bytes) (disk : bytes → disk_answer).

(** sscanf(s, "%x", ...) *)
Definition scan_x (s : bytes) : option Z :=
  match read_number 16 s with Some (neg, v, _) => Some (w32 (if neg : bool then - v else v)) | None => None end.

Definition readMbrSig (filename : bytes) : option Z := text ← mbr_file filename; scan_x text.

(** The result, and the signature the variable holds.  An int is compared with a
    size_t, so that a failed read counts as a long one. *)
Definition readDiskSig (device : bytes) (sig : Z) : Z * Z :=
  match disk device with
  | Disk_open_error e => (- e, sig)
  | Disk_seek_error => (-1, sig)
  | Disk_read rc data => (if w64 rc <? 4 then -1 else 0, le_val (splice 0 data (le_bytes 4 sig)))
  end.

(** The disks with a signature, up to two: their number, the last one, the
    variable; or the error that ends the search. *)
Fixpoint find_disks (devices : list device) (mbrSig : Z) (i : nat) (found : option bytes) (sig : Z) : option (nat * option bytes) * Z :=
  match devices with
  | [] => (Some (i, found), sig)
  | d :: devices =>
      if (2 <=? i)%nat then (Some (i, found), sig)
      else
        let '(rc, sig) := readDiskSig (dv_device d) sig in
        if rc <? 0 then
          if rc =? - ENOMEDIUM then find_disks devices mbrSig i found sig else (None, sig)
        else if mbrSig =? sig then find_disks devices mbrSig (i + 1) (Some (dv_device d)) sig
        else find_disks devices mbrSig i found sig
  end.

(** The entries of the directory; the name of one is int13_dev and a number.
    [biosNum] and [sig] keep what they held. *)
Fixpoint map_entries (devices : list device) (names : list bytes) (biosNum sig : Z) (t : diskMapTable) : outcome (Z * diskMapTable) :=
  match names with
  | [] => Ret (1, t)
  | name :: names =>
      if bool_decide (head name = Some 46) then map_entries devices names biosNum sig t
      else
        _ ← defined_if (9 <=? length name)%nat;
        let biosNum := default biosNum (scan_x (drop 9 name)) in
        match readMbrSig (str "/sys/firmware/edd/" ++ name ++ str "/mbr_signature") with
        | None => map_entries devices names biosNum sig t
        | Some mbrSig =>
            match find_disks devices mbrSig 0 None sig with
            | (None, _) => Ret (0, t)
            | (Some (i, found), sig) =>
                match i, found with
                | 1%nat, Some d => map_entries devices names biosNum sig (addToHashTable t biosNum d)
                | _, _ => map_entries devices names biosNum sig t
                end
            end
        end
  end.
Definition mapBiosDisks (devices : list device) (junk : Z) (old : option diskMapTable) : outcome (Z * option diskMapTable) :=
  match edd_dir with
  | None => Ret (0, old)
  | Some names =>
      '(r, t) ← map_entries devices names junk junk (initializeHashTable HASH_TABLE_SIZE); Ret (r, Some t)
  end.

Definition probeBiosDisks (devices : option (list device)) (junk : Z) (old : option diskMapTable) : outcome (Z * option diskMapTable) :=
  match devices with
  | None => Ret (-1, old)
  | Some devices => '(r, t) ← mapBiosDisks devices junk old; Ret (if r =? 0 then -1 else 0, t)
  end.

(** diskHashInit and mbrSigToName. *)
Record bios_state := mkBios { diskHashInit : bool; mbrSigToName : option diskMapTable }.
(** [devices] is what getDevices(DEVICE_DISK) gives; without a number biosNum is
    not set. *)
Definition getBiosDisk (devices : option (list device)) (junk : Z) (biosStr : bytes) (st : bios_state) : outcome (option bytes * bios_state) :=
  st ← (if diskHashInit st then Ret st else '(_, t) ← probeBiosDisks devices junk (mbrSigToName st); Ret (mkBios true t));
  match mbrSigToName st with
  | None => Ret (None, st)
  | Some t => biosNum ← checked (scan_x biosStr); Ret (snd <$> lookupHashItem t biosNum, st)
  end.
End bios.
