(* ===== verification/DevicesFacts.v ===== *)
(** * Properties of the devices

    The disks getDevices finds, and the disk of a number of the BIOS. *)

From S2P Require Import Prelude CLib Decimal Steps Devices.

(** ** getDevices *)

(** A byte in hexadecimal and a line end, whatever is behind. *)
Lemma read_number_hex_line (b : Z) x : 0 ≤ b < 256 → read_number 16 (fmt_01x b ++ 10 :: x) = Some (false, b, 10 :: x).
Proof.
  intros Hb. rewrite <- (Z2Nat.id b) by lia. assert (Z.to_nat b < 256)%nat as Hk by lia. generalize dependent (Z.to_nat b). clear Hb b. intros k Hk.
  destruct x as [| c x]; do 256 (destruct k as [| k]; [reflexivity |]); lia.
Qed.

Section disks.
Context (readdir : bytes → option (list bytes)) (attr : bytes → option bytes) (junk : bytes).
Context (Hread : ∀ p d, attr p = Some d → (length d <= 64)%nat).

(** A disk in sysfs: its name, its capabilities, its size in sectors. *)
Record block := mkBlock { bk_name : bytes; bk_caps : Z; bk_sectors : Z }.
Record block_ok (b : block) : Prop := {
  bo_caps : 0 ≤ bk_caps b < 256;
  bo_sectors : 0 ≤ bk_sectors b < 2 ^ 63;
  bo_capability : attr (sys_path (str "/sys/block/") (bk_name b) (str "/capability")) = Some (fmt_01x (bk_caps b) ++ [10]);
  bo_size : attr (sys_path (str "/sys/block/") (bk_name b) (str "/size")) = Some (fmt_d (bk_sectors b) ++ [10]) }.
(** What the program makes of it: the size goes through an int. *)
Definition disk_of (b : block) : option device :=
  let rm := Z.testbit (bk_caps b) 0 in
  if Z.testbit (bk_caps b) 3 then None
  else if negb rm && (s32 (bk_sectors b) <? MINIMUM_INTERESTING_SIZE) then None
  else Some (mkDevice (bk_name b) (str "Storage device " ++ bk_name b) DEVICE_DISK (removable (if rm then 1 else 0))).

Lemma filled_line d old : (length d <= 64)%nat → ∃ x, filled_buffer d old = d ++ x.
Proof.
  intros Hd. unfold filled_buffer. rewrite take_app, (take_ge d) by done. by eexists.
Qed.
Lemma attr_hex d b old : 0 ≤ b < 256 → d = fmt_01x b ++ [10] →
  (length d <= 64)%nat → attr_number 16 (filled_buffer d old) = Ret (Some b).
Proof.
  intros Hb -> Hl. destruct (filled_line _ old Hl) as [x ->]. rewrite <- app_assoc. cbn [app]. unfold attr_number.
  unfold strtol. rewrite read_number_hex_line by done. rewrite bool_decide_eq_false_2 by done. cbn [negb defined_if mbind outcome_bind fst].
  rewrite Z.min_r by lia. destruct (Z.leb_spec (2 ^ 63) b); [lia |]. cbn [andb]. by rewrite swrap_small by lia.
Qed.
Lemma attr_dec d n old : 0 ≤ n < 2 ^ 63 → d = fmt_d n ++ [10] → (length d <= 64)%nat →
  attr_number 10 (filled_buffer d old) = Ret (Some (s32 n)).
Proof.
  intros Hn -> Hl. destruct (filled_line _ old Hl) as [x ->]. rewrite <- app_assoc. cbn [app]. unfold attr_number.
  assert (no_digit (10 :: x)) as Hs by (intros c [= <-]; reflexivity).
  change (fmt_d n ++ 10 :: x) with ([] ++ fmt_d n ++ 10 :: x). unfold strtol. rewrite read_number_fmt_d by (done || lia).
  rewrite bool_decide_eq_false_2 by done. cbn [negb defined_if mbind outcome_bind fst].
  rewrite Z.min_r by lia. destruct (Z.leb_spec (2 ^ 63) n); [lia | done].
Qed.

Lemma land_bit caps n : 0 ≤ n → (Z.land caps (2 ^ n) =? 0) = negb (Z.testbit caps n).
Proof.
  intros Hn. destruct (Z.testbit caps n) eqn:E; cbn [negb].
  - apply Z.eqb_neq. intros H0. assert (Z.testbit (Z.land caps (2 ^ n)) n = false) as H1 by (rewrite H0; apply Z.testbit_0_l).
    rewrite Z.land_spec, E, Z.pow2_bits_true in H1 by done. done.
  - apply Z.eqb_eq. apply Z.bits_inj'. intros i Hi. rewrite Z.land_spec, Z.testbit_0_l, Z.pow2_bits_eqb by done.
    destruct (Z.eqb_spec n i) as [<- |]; [by rewrite E | apply andb_false_r].
Qed.
Lemma storage_device_disk b : block_ok b → storage_device attr junk DEVICE_DISK (bk_name b) =
  Ret (match disk_of b with Some d => Device d | None => Skip end).
Proof.
  intros [Hc Hs Ec Es]. unfold storage_device. rewrite Ec.
  rewrite (attr_hex _ (bk_caps b)) by (done || by eapply Hread). cbn [mbind outcome_bind].
  change GENHD_FL_CD with (2 ^ 3). change GENHD_FL_REMOVABLE with (2 ^ 0). rewrite !land_bit, !negb_involutive by lia. unfold disk_of.
  destruct (Z.testbit (bk_caps b) 3); [done |]. change (Z.land DEVICE_DISK DEVICE_DISK =? 0) with false.
  destruct (Z.testbit (bk_caps b) 0); [done |]. change (DEVICE_DISK =? DEVICE_DISK) with true. cbn [andb negb]. rewrite Es.
  rewrite (attr_dec _ (bk_sectors b)) by (done || by eapply Hread). cbn [mbind outcome_bind].
  by destruct (s32 (bk_sectors b) <? MINIMUM_INTERESTING_SIZE).
Qed.
Lemma collect_disks blocks : ∀ ret, Forall block_ok blocks →
  collect (storage_device attr junk DEVICE_DISK) (bk_name <$> blocks) ret = Ret (Some (ret ++ omap disk_of blocks)).
Proof.
  induction blocks as [| b blocks IH]; intros ret Hb; [cbn; by rewrite app_nil_r |]. apply list.Forall_cons in Hb as [Hb Hbs].
  rewrite fmap_cons. cbn [collect omap list_omap]. rewrite storage_device_disk by done. cbn [mbind outcome_bind].
  destruct (disk_of b); rewrite IH by done; [by rewrite <- app_assoc | done].
Qed.

(** C29: getDevices(DEVICE_DISK) lists, in the order of /sys/block, the disks
    that are no CD and that are removable or have 32768 sectors, and gives null
    when there are none; but the sectors are counted in an int, so that a fixed
    disk between one and two terabytes is not listed. *)
Theorem getDevices_disks blocks (Hdir : readdir (str "/sys/block") = Some (bk_name <$> blocks)) (Hok : Forall block_ok blocks) :
  getDevices readdir attr junk DEVICE_DISK = Ret (match omap disk_of blocks with [] => None | ds => Some ds end) ∧
  ∀ b, b ∈ blocks → Z.testbit (bk_caps b) 0 = false → 2 ^ 31 ≤ bk_sectors b < 2 ^ 32 → disk_of b = None.
Proof.
  split.
  - unfold getDevices. change (Z.land DEVICE_DISK (Z.lor DEVICE_DISK DEVICE_CDROM) =? 0) with false. rewrite Hdir. cbn [from_option id].
    rewrite collect_disks by done. cbn [mbind outcome_bind app]. change (Z.land DEVICE_DISK DEVICE_NETWORK =? 0) with true.
    cbn [from_option id collect mbind outcome_bind]. by destruct (omap disk_of blocks).
  - intros b _ Hrm Hbig. unfold disk_of. destruct (Z.testbit (bk_caps b) 3); [done |]. rewrite Hrm. cbn [negb andb].
    assert (s32 (bk_sectors b) < 0) as Hneg.
    { unfold swrap. replace (bk_sectors b + 2 ^ (32 - 1)) with (bk_sectors b - 2 ^ 31 + 1 * 2 ^ 32) by lia.
      rewrite Z_mod_plus_full, Z.mod_small by lia. lia. }
    unfold MINIMUM_INTERESTING_SIZE. destruct (Z.ltb_spec (s32 (bk_sectors b)) (32 * 1024)); [done | lia].
Qed.
End disks.

(** ** The disks of the BIOS *)

Lemma lookup_initial key : lookupHashItem (initializeHashTable HASH_TABLE_SIZE) key = None.
Proof.
  unfold lookupHashItem. set (l := default [] _).
  assert (l = []) as ->; [| done]. unfold l, initializeHashTable, diskMapTable.
  destruct (decide (bucket (replicate (Z.to_nat HASH_TABLE_SIZE) []) key < Z.to_nat HASH_TABLE_SIZE)%nat).
  - by rewrite lookup_replicate_2.
  - by rewrite lookup_ge_None_2 by (rewrite length_replicate; lia).
Qed.

Section bios.
Context (mbr_file : bytes → option bytes) (disk : bytes → disk_answer).
Notation mbr_signature := (readMbrSig mbr_file).

(** The name of an entry: int13_dev and the number. *)
Definition entry_ok (name : bytes) : Prop := head name ≠ Some 46 ∧ (9 <= length name)%nat ∧ is_Some (scan_x (drop 9 name)).






(** getDevices gives the names of disks without their directory: when open does
    not find them, no number has a disk. *)
Lemma getBiosDisk_unopened d devices names junk biosStr n (Hdisk : ∃ e, disk (dv_device d) = Disk_open_error e ∧ 0 < e ∧ e ≠ ENOMEDIUM)
  (Hnames : Forall entry_ok names) (Hnumber : scan_x biosStr = Some n) :
  ∃ st, getBiosDisk (Some names) mbr_file disk (Some (d :: devices)) junk biosStr (mkBios false None) = Ret (None, st).
Proof.
  assert (∀ biosNum old, ∃ r, map_entries mbr_file disk (d :: devices) names biosNum old (initializeHashTable HASH_TABLE_SIZE) =
    Ret (r, initializeHashTable HASH_TABLE_SIZE)) as Hm.
  { induction Hnames as [| name names (Hn & Hl & _) _ IH]; intros biosNum old; [by eexists |]. cbn [map_entries].
    rewrite bool_decide_eq_false_2 by done. assert ((9 <=? length name)%nat = true) as -> by (by apply Nat.leb_le).
    cbn [defined_if mbind outcome_bind]. destruct (readMbrSig mbr_file _); [| apply IH].
    destruct Hdisk as (e & He & Hpos & Hne). cbn [find_disks]. unfold readDiskSig. rewrite He. cbn [Nat.leb].
    destruct (Z.ltb_spec (- e) 0); [| lia]. destruct (Z.eqb_spec (- e) (- ENOMEDIUM)); [lia |]. by eexists. }
  destruct (Hm junk junk) as [r E]. eexists. unfold getBiosDisk. cbn [diskHashInit mbrSigToName]. unfold probeBiosDisks, mapBiosDisks. rewrite E.
  cbn [mbind outcome_bind mbrSigToName]. rewrite Hnumber. cbn [checked mbind outcome_bind]. by rewrite lookup_initial.
Qed.
End bios.

(** ** Samples *)

Definition sample_attr (p : bytes) : option bytes :=
  if streq p (str "/sys/block/sda/capability") || streq p (str "/sys/block/sdb/capability") then Some (fmt_01x 0x52 ++ [10])
  else if streq p (str "/sys/block/sr0/capability") then Some (fmt_01x 0x19 ++ [10])
  else if streq p (str "/sys/block/sda/size") then Some (fmt_d 976773168 ++ [10])
  else if streq p (str "/sys/block/sdb/size") then Some (fmt_d 2930277168 ++ [10])
  else if streq p (str "/sys/block/sr0/size") then Some (fmt_d 0 ++ [10])
  else None.
Definition sample_blocks : list block := [mkBlock (str "sda") 0x52 976773168; mkBlock (str "sdb") 0x52 2930277168; mkBlock (str "sr0") 0x19 0].
Definition sda : device := mkDevice (str "sda") (str "Storage device sda") DEVICE_DISK (removable 0).
Lemma sample_attr_short p d : sample_attr p = Some d → (length d <= 64)%nat.
Proof.
  unfold sample_attr. repeat match goal with |- context [if ?b then _ else _] => destruct b end; intros [= <-]; vm_compute; lia.
Qed.
Lemma getDevices_disks_witness :
  getDevices (λ _, Some [str "sda"; str "sdb"; str "sr0"]) sample_attr [] DEVICE_DISK = Ret (Some [sda]).
Proof.
  apply (getDevices_disks (λ _, Some [str "sda"; str "sdb"; str "sr0"]) sample_attr [] sample_attr_short sample_blocks eq_refl).
  repeat constructor; vm_compute; done.
Defined.

