(* ===== verification/Shutdown.v ===== *)
(** * Shutting down (undomounts.c, shutdown.c)

    unmountFilesystems with the two functions that call each other, disableSwap
    and shutDown.  What the kernel answers are parameters, and the
    calls made are kept in their order.  [fuel] bounds the depth of the calls. *)

From S2P Require Import Prelude CLib.

Inductive undo_what := FS | LOOP.
#[export] Instance undo_what_eq_dec : EqDecision undo_what.
Proof. solve_decision. Defined.
Record unmountInfo := mkInfo { ui_name : bytes; ui_mounted : bool; ui_loopDevice : Z; ui_what : undo_what }.
Definition not_mounted (f : unmountInfo) : unmountInfo := mkInfo (ui_name f) false (ui_loopDevice f) (ui_what f).

(** umount2(name, MNT_DETACH), and the calls on /tmp/loop: unlink, mknod of a
    loop device, LOOP_CLR_FD. *)
Inductive undo_act := Umount2 (name : bytes) | Unlink_loop | Mknod_loop (n : Z) | Clear_loop.

Section undo.
(** [testing], and whether /tmp/loop can be opened as a loop device. *)
Context (testing : bool) (can_open : Z → bool).

(** [strlen(name) >= len && name[len] == '/' && !strncmp(this, name, len)] *)
Definition is_under (this name : bytes) : bool :=
  (length this <=? length name)%nat && bool_decide (name !! length this = Some 47) && starts_with this name.
Definition on_loop (n : Z) (f : unmountInfo) : bool := bool_decide (ui_what f = FS) && (ui_loopDevice f =? n).

Definition loop_acts (n : Z) : list undo_act :=
  [Unlink_loop; Mknod_loop n] ++ (if can_open n && negb testing then [Clear_loop] else []).

(** [for (i = 0; i < numFs; i++)]: everything under a mount. *)
Definition undo_fn : Type := list unmountInfo → nat → list undo_act → outcome (list unmountInfo * list undo_act).
Fixpoint children (this : bytes) (undoLoop undoMount : undo_fn) (js : list nat) (fs : list unmountInfo) (acts : list undo_act) :
    outcome (list unmountInfo * list undo_act) :=
  match js with
  | [] => Ret (fs, acts)
  | i :: js =>
      g ← checked (fs !! i);
      '(fs, acts) ← (if is_under this (ui_name g) then
                       (if decide (ui_what g = LOOP) then undoLoop fs i acts else undoMount fs i acts)
                     else Ret (fs, acts));
      children this undoLoop undoMount js fs acts
  end.

Fixpoint undoMount (fuel : nat) (fs : list unmountInfo) (this : nat) (acts : list undo_act) :
    outcome (list unmountInfo * list undo_act) :=
  match fuel with
  | O => NoFuel
  | S fuel =>
      f ← checked (fs !! this);
      if negb (ui_mounted f) then Ret (fs, acts)
      else
        '(fs, acts) ← children (ui_name f) (undoLoop fuel) (undoMount fuel) (seq 0 (length fs)) (<[this := not_mounted f]> fs) acts;
        Ret (fs, acts ++ (if testing then [] else [Umount2 (ui_name f)]))
  end
with undoLoop (fuel : nat) (fs : list unmountInfo) (this : nat) (acts : list undo_act) :
    outcome (list unmountInfo * list undo_act) :=
  match fuel with
  | O => NoFuel
  | S fuel =>
      f ← checked (fs !! this);
      if negb (ui_mounted f) then Ret (fs, acts)
      else
        let fs := <[this := not_mounted f]> fs in
        '(fs, acts) ← (match list_find (λ g, on_loop (ui_loopDevice f) g = true) fs with
                       | Some (i, _) => undoMount fuel fs i acts
                       | None => Ret (fs, acts)
                       end);
        Ret (fs, acts ++ loop_acts (ui_loopDevice f))
  end.

(** [for (i = 0; i < numFilesystems; i++)], over the loop devices and over what
    is still mounted. *)
Fixpoint undo_loops (fuel : nat) (js : list nat) (fs : list unmountInfo) (acts : list undo_act) :
    outcome (list unmountInfo * list undo_act) :=
  match js with
  | [] => Ret (fs, acts)
  | i :: js =>
      f ← checked (fs !! i);
      '(fs, acts) ← (if decide (ui_what f = LOOP) then undoLoop fuel fs i acts else Ret (fs, acts));
      undo_loops fuel js fs acts
  end.
Fixpoint undo_mounted (fuel : nat) (js : list nat) (fs : list unmountInfo) (acts : list undo_act) :
    outcome (list unmountInfo * list undo_act) :=
  match js with
  | [] => Ret (fs, acts)
  | i :: js =>
      f ← checked (fs !! i);
      '(fs, acts) ← (if ui_mounted f then undoMount fuel fs i acts else Ret (fs, acts));
      undo_mounted fuel js fs acts
  end.
Definition undo_all (fuel : nat) (fs : list unmountInfo) (acts : list undo_act) : outcome (list unmountInfo * list undo_act) :=
  '(fs, acts) ← undo_loops fuel (seq 0 (length fs)) fs acts;
  undo_mounted fuel (seq 0 (length fs)) fs acts.

(** ** The tables of the kernel *)

(** The st_dev of a path, when stat succeeds, and the file of a loop device. *)
Context (st_dev : bytes → option Z) (lo_name : Z → option bytes).

(** What the loop appends is at most 500 entries. *)
Definition add_info (f : unmountInfo) (l : list unmountInfo) : outcome (list unmountInfo) :=
  _ ← defined_if (length l <? 500)%nat; Ret (l ++ [f]).

(** [dev] is the st_dev of the last successful stat. *)
Fixpoint mounts_loop (fuel : nat) (s : bytes) (dev : Z) (l : list unmountInfo) : outcome (list unmountInfo) :=
  match fuel with
  | O => NoFuel
  | S fuel =>
      if bool_decide (s = []) then Ret l
      else
        t ← checked (strchr s 32);
        let start := tail t in
        t ← checked (strchr start 32);
        let name := before start t in
        rest ← checked (strchr (tail t) 10);
        if streq name (str "/") || streq name (str "/tmp") || streq name (str "/dev") then mounts_loop fuel (tail rest) dev l
        else
          let dev := default dev (st_dev name) in
          l ← add_info (mkInfo name true (if Z.shiftr dev 8 =? 7 then Z.land dev 0xf else -1) FS) l;
          mounts_loop fuel (tail rest) dev l
  end.
Fixpoint loops_loop (js : list Z) (l : list unmountInfo) (acts : list undo_act) : outcome (list unmountInfo * list undo_act) :=
  match js with
  | [] => Ret (l, acts)
  | i :: js =>
      let acts := acts ++ [Unlink_loop; Mknod_loop i] in
      match (if can_open i then lo_name i else None) with
      | Some (c :: n) => l ← add_info (mkInfo (c :: n) true i LOOP) l; loops_loop js l acts
      | _ => loops_loop js l acts
      end
  end.

(** [mounts]: /proc/mounts cannot be opened, or its contents; [dev] is what [sb]
    holds before it is set. *)
Definition unmountFilesystems (fuel : nat) (mounts : option bytes) (dev : Z) : outcome (list undo_act) :=
  match mounts with
  | None => Ret []
  | Some text =>
      let buf := until_nul (take 65534 text) in
      l ← mounts_loop (S (length buf)) buf dev [];
      '(l, acts) ← loops_loop [0; 1; 2; 3; 4; 5; 6] l [];
      '(_, acts) ← undo_all fuel l acts;
      Ret acts
  end.
End undo.

(** ** Swap *)

(** The names given to swapoff: from the second line on, each up to a blank. *)
Fixpoint swaps_loop (fuel : nat) (s : bytes) : list bytes :=
  match fuel with
  | O => []
  | S fuel =>
      match strchr s 10 with
      | None => []
      | Some t =>
          let start := tail t in
          if negb (bool_decide (head start = Some 47)) then []
          else match strchr start 32 with
               | None => []
               | Some t => before start t :: swaps_loop fuel (tail t)
               end
      end
  end.
(** /proc/swaps cannot be opened or read, or its contents. *)
Definition disableSwap (swaps : option bytes) : list bytes :=
  match swaps with
  | None => []
  | Some text => let s := until_nul (take 4095 text) in swaps_loop (S (length s)) s
  end.

(** ** shutDown *)

Inductive shut_act :=
  | Sync | Swapoff (path : bytes) | Undo (a : undo_act) | Kill_all (signal : Z) | Sleep (seconds : Z) | Reboot | Power_off
  | Wait.                                              (* for ever, until an interrupt reboots *)

Definition shutDown (testing : bool) (can_open : Z → bool) (st_dev : bytes → option Z) (lo_name : Z → option bytes)
    (fuel : nat) (mounts swaps : option bytes) (dev : Z) (noKill doReboot doPowerOff : bool) : outcome (list shut_act) :=
  acts ← unmountFilesystems testing can_open st_dev lo_name fuel mounts dev;
  Ret ([Sync; Sync] ++ (Swapoff <$> disableSwap swaps) ++
       (match mounts with Some _ => [] | None => [Sleep 2] end) ++ (Undo <$> acts) ++
       (if negb testing && negb noKill then [Kill_all 15; Sleep 2; Kill_all 9; Sleep 2] else []) ++
       (if doReboot then [Sleep 2; Reboot] else if doPowerOff then [Power_off] else [Wait])).
