(* ===== verification/ShutdownFacts.v ===== *)
(** * Properties of shutting down

    unmountFilesystems ends, unmounts everything once, and nothing before what
    lies in it or on it. *)

From S2P Require Import Prelude CLib Shutdown.

Section order.
Context (testing : bool) (can_open : Z → bool) (fs0 : list unmountInfo).
Context (Hmounted : Forall (λ f, ui_mounted f = true) fs0).

(** [y] has to be undone before [x]: it lies under the mount [x], or it is the
    mount of the loop device [x]. *)
Definition dep (x y : nat) : Prop :=
  ∃ f, fs0 !! x = Some f ∧
    match ui_what f with
    | FS => ∃ g, fs0 !! y = Some g ∧ is_under (ui_name f) (ui_name g) = true
    | LOOP => fst <$> list_find (λ g, on_loop (ui_loopDevice f) g = true) fs0 = Some y
    end.
Definition topological (order : list nat) : Prop := ∀ a x b, order = a ++ x :: b → ∀ y, dep x y → y ∈ a.
(** What is done for an entry. *)
Definition acts_at (x : nat) : list undo_act :=
  match fs0 !! x with
  | Some f => match ui_what f with FS => if testing then [] else [Umount2 (ui_name f)] | LOOP => loop_acts testing can_open (ui_loopDevice f) end
  | None => []
  end.

Lemma topological_app order x : topological order → (∀ y, dep x y → y ∈ order) → topological (order ++ [x]).
Proof.
  intros Ho Hx a z b E y Hd. destruct b as [| b0 b _] using rev_ind.
  - apply app_inj_tail in E as [-> ->]. by apply Hx.
  - rewrite app_comm_cons, app_assoc in E. apply app_inj_tail in E as [-> ->]. by eapply Ho.
Qed.

(** The table with the entries of [D] unmounted. *)
Definition mark (D : gset nat) : list unmountInfo := imap (λ i f, if decide (i ∈ D) then not_mounted f else f) fs0.
Lemma mark_lookup D i : mark D !! i = (λ f, if decide (i ∈ D) then not_mounted f else f) <$> fs0 !! i.
Proof. apply list_lookup_imap. Qed.
Lemma length_mark D : length (mark D) = length fs0.
Proof. apply length_imap. Qed.
Lemma mark_empty : mark ∅ = fs0.
Proof.
  apply list_eq. intros i. rewrite mark_lookup. destruct (fs0 !! i); [cbn; by rewrite decide_False by set_solver | done].
Qed.
Lemma mark_insert D i f : fs0 !! i = Some f → <[i := not_mounted f]> (mark D) = mark ({[i]} ∪ D).
Proof.
  intros Hi. apply list_eq. intros j. destruct (decide (j = i)) as [-> |].
  - rewrite list_lookup_insert_eq; [| rewrite length_mark; by eapply lookup_lt_Some]. rewrite mark_lookup, Hi. cbn.
    by rewrite decide_True by set_solver.
  - rewrite list_lookup_insert_ne by done. rewrite !mark_lookup. destruct (fs0 !! j); [cbn; f_equal | done].
    destruct (decide (j ∈ D)); [by rewrite decide_True by set_solver | by rewrite decide_False by set_solver].
Qed.
(** The flags do not matter for names and loop devices. *)
Lemma mark_static D i g : mark D !! i = Some g → ∃ f, fs0 !! i = Some f ∧ ui_name g = ui_name f ∧ ui_what g = ui_what f ∧
  ui_loopDevice g = ui_loopDevice f ∧ ui_mounted g = negb (bool_decide (i ∈ D)).
Proof.
  rewrite mark_lookup. intros (f & Hf & ->)%fmap_Some. exists f. rewrite list.Forall_forall in Hmounted.
  specialize (Hmounted f ltac:(by eapply list_elem_of_lookup_2)).
  destruct (decide (i ∈ D)) as [Hd | Hd]; [rewrite (bool_decide_true _ Hd) | rewrite (bool_decide_false _ Hd)]; by split_and!.
Qed.
Lemma mark_find D n : fst <$> list_find (λ g, on_loop n g = true) (mark D) = fst <$> list_find (λ g, on_loop n g = true) fs0.
Proof.
  assert (∀ k, fst <$> list_find (λ g, on_loop n g = true) (imap (λ i f, if decide ((k + i)%nat ∈ D) then not_mounted f else f) fs0) =
               fst <$> list_find (λ g, on_loop n g = true) fs0) as H; [| apply (H 0%nat)].
  clear Hmounted. induction fs0 as [| f fs IH]; intros k; [done |]. rewrite imap_cons. cbn [list_find].
  assert (on_loop n (if decide ((k + 0)%nat ∈ D) then not_mounted f else f) = on_loop n f) as -> by by destruct (decide _).
  destruct (decide (on_loop n f = true)); [done |]. specialize (IH (S k)).
  assert (imap ((λ i f0, if decide ((k + i)%nat ∈ D) then not_mounted f0 else f0) ∘ S) fs = imap (λ i f0, if decide ((S k + i)%nat ∈ D) then not_mounted f0 else f0) fs) as ->.
  { apply imap_ext. intros i x _. unfold compose. by replace (k + S i)%nat with (S k + i)%nat by lia. }
  destruct (list_find _ (imap _ fs)) as [[a ?] |], (list_find _ fs) as [[b ?] |]; cbn in *; congruence.
Qed.

(** An order in which nothing depends on itself. *)
Context (rank : nat → nat) (Hrank : ∀ x y, dep x y → (rank y < rank x)%nat).
Abbreviation n := (length fs0).
Definition acts_of (order : list nat) : list undo_act := mjoin (acts_at <$> order).

Record good (D : gset nat) (order : list nat) : Prop := {
  go_dup : NoDup order;
  go_sub : ∀ x, x ∈ order → x ∈ D;
  go_range : ∀ x, x ∈ D → (x < n)%nat;
  go_order : topological order }.
Definition in_progress (D : gset nat) (order : list nat) (p : nat) : Prop := p ∈ D ∧ p ∉ order.
(** What a call leaves: more is unmounted, and nothing is left in progress. *)
Record grows (D : gset nat) (order : list nat) (D' : gset nat) (order' : list nat) : Prop := {
  gr_good : good D' order';
  gr_sub : D ⊆ D';
  gr_order : ∃ k, order' = order ++ k;
  gr_progress : ∀ p, in_progress D' order' p ↔ in_progress D order p }.
Lemma grows_refl D order : good D order → grows D order D order.
Proof. intros. constructor; try done. exists []. by rewrite app_nil_r. Qed.
Lemma grows_trans D1 o1 D2 o2 D3 o3 : grows D1 o1 D2 o2 → grows D2 o2 D3 o3 → grows D1 o1 D3 o3.
Proof.
  intros [A1 A2 [k1 ->] A4] [B1 B2 [k2 ->] B4]. constructor; [done | by etrans | exists (k1 ++ k2); by rewrite app_assoc |].
  intros p. by rewrite B4, A4.
Qed.
Lemma grows_elem D1 o1 D2 o2 x : grows D1 o1 D2 o2 → x ∈ o1 → x ∈ o2.
Proof. intros [_ _ [k ->] _] ?. apply elem_of_app. by left. Qed.

(** A call for an entry: it comes to an end with the entry unmounted. *)
Definition undoes (undo : undo_fn) (acts0 : list undo_act) (x : nat) (fuel : nat) : Prop :=
  ∀ D order, good D order → (n - size D < fuel)%nat → (∀ p, in_progress D order p → (rank x < rank p)%nat) →
  ∃ D' order', undo (mark D) x (acts0 ++ acts_of order) = Ret (mark D', acts0 ++ acts_of order') ∧ grows D order D' order' ∧ x ∈ order'.

Lemma children_undoes (this : bytes) (loop mount : undo_fn) acts0 fuel bound js :
  (∀ j g, j ∈ js → fs0 !! j = Some g → is_under this (ui_name g) = true → (rank j < bound)%nat) →
  (∀ j g, fs0 !! j = Some g → undoes (if decide (ui_what g = LOOP) then loop else mount) acts0 j fuel) →
  ∀ D order, good D order → (n - size D < fuel)%nat → (∀ p, in_progress D order p → (bound ≤ rank p)%nat) → (∀ j, j ∈ js → (j < n)%nat) →
  ∃ D' order', children this loop mount js (mark D) (acts0 ++ acts_of order) = Ret (mark D', acts0 ++ acts_of order') ∧ grows D order D' order' ∧
    ∀ j g, j ∈ js → fs0 !! j = Some g → is_under this (ui_name g) = true → j ∈ order'.
Proof.
  intros Hb Hu. induction js as [| j js IH]; intros D order G Hf Hp Hj.
  - exists D, order. split_and!; [done | by apply grows_refl | set_solver].
  - destruct (lookup_lt_is_Some_2 fs0 j (Hj j ltac:(set_solver))) as [g Hg].
    assert (mark D !! j = Some (if decide (j ∈ D) then not_mounted g else g)) as Em by (by rewrite mark_lookup, Hg).
    cbn [children]. rewrite Em. cbn [checked mbind outcome_bind].
    assert (ui_name (if decide (j ∈ D) then not_mounted g else g) = ui_name g) as -> by by destruct (decide _).
    assert (ui_what (if decide (j ∈ D) then not_mounted g else g) = ui_what g) as -> by by destruct (decide _).
    assert (∃ D1 o1, (if is_under this (ui_name g) then
        (if decide (ui_what g = LOOP) then loop (mark D) j (acts0 ++ acts_of order) else mount (mark D) j (acts0 ++ acts_of order))
        else Ret (mark D, acts0 ++ acts_of order)) = Ret (mark D1, acts0 ++ acts_of o1) ∧ grows D order D1 o1 ∧
        (is_under this (ui_name g) = true → j ∈ o1)) as (D1 & o1 & -> & G1 & J1).
    { destruct (is_under this (ui_name g)) eqn:Eu; [| exists D, order; split_and!; [done | by apply grows_refl | done]].
      destruct (Hu j g Hg D order G Hf) as (D1 & o1 & E1 & G1 & J1).
      - intros p Hip. specialize (Hp p Hip). specialize (Hb j g ltac:(set_solver) Hg Eu). lia.
      - exists D1, o1. split_and!; [| done | done]. by destruct (decide (ui_what g = LOOP)). }
    cbn [mbind outcome_bind].
    destruct (IH ltac:(set_solver) D1 o1) as (D2 & o2 & E2 & G2 & J2).
    + apply (gr_good _ _ _ _ G1).
    + assert (size D ≤ size D1)%nat by (apply subseteq_size, (gr_sub _ _ _ _ G1)). lia.
    + intros p Hip. apply Hp, (gr_progress _ _ _ _ G1), Hip.
    + set_solver.
    + exists D2, o2. split_and!; [done | by eapply grows_trans |]. intros j' g' [-> | ?]%elem_of_cons Hg' Hu'; [| by eapply J2].
      eapply grows_elem; [exact G2 |]. apply J1. congruence.
Qed.

(** The entry that is undone itself, once what depends on it is done. *)
Lemma undo_entry D order D1 o1 x f : fs0 !! x = Some f → good D order → x ∉ D → grows ({[x]} ∪ D) order D1 o1 → (∀ y, dep x y → y ∈ o1) →
  grows D order D1 (o1 ++ [x]).
Proof.
  intros Hx G Hn [[U1 U2 U3 U4] S1 [k ->] P1] Hd.
  assert (x ∈ D1) as HxD by (apply S1, elem_of_union; left; by apply elem_of_singleton).
  assert (x ∉ order ++ k) as Hxo.
  { apply (P1 x). split; [apply elem_of_union; left; by apply elem_of_singleton |]. intros Hin. by apply Hn, (go_sub _ _ G). }
  constructor.
  - constructor.
    + apply list.NoDup_app. split_and!; [done | | apply list.NoDup_singleton]. by intros y Hy ->%list_elem_of_singleton.
    + intros y [Hy | ->%list_elem_of_singleton]%elem_of_app; [by apply U2 | done].
    + done.
    + by apply topological_app.
  - intros y Hy. apply S1, elem_of_union. by right.
  - exists (k ++ [x]). by rewrite app_assoc.
  - intros p. unfold in_progress in *. specialize (P1 p). rewrite elem_of_union, elem_of_singleton in P1.
    rewrite (elem_of_app _ [x]), list_elem_of_singleton. destruct (decide (p = x)) as [-> |]; [tauto |]. tauto.
Qed.

Lemma acts_of_snoc order x : acts_of (order ++ [x]) = acts_of order ++ acts_at x.
Proof. unfold acts_of. rewrite fmap_app, join_app. cbn. by rewrite app_nil_r. Qed.

Definition undo_for (fuel : nat) (f : unmountInfo) : undo_fn :=
  if decide (ui_what f = LOOP) then undoLoop testing can_open fuel else undoMount testing can_open fuel.

(** Entries that are undone already, and the entry as the call begins. *)
Lemma starts D order x f : fs0 !! x = Some f → good D order → x ∉ D → (n - size D < S (n - size ({[x]} ∪ D)) + 1)%nat ∧
  good ({[x]} ∪ D) order ∧ (∀ p, in_progress ({[x]} ∪ D) order p → p = x ∨ in_progress D order p).
Proof.
  intros Hx [U1 U2 U3 U4] Hn. assert (size ({[x]} ∪ D) = S (size D)) as Es.
  { rewrite size_union by (intros y ?%elem_of_singleton ?; congruence). by rewrite size_singleton. }
  split_and!; [rewrite Es; lia | constructor; try done |].
  - intros y ?. apply elem_of_union. right. by apply U2.
  - intros y [-> %elem_of_singleton | ?]%elem_of_union; [by eapply lookup_lt_Some | by apply U3].
  - intros p [[->%elem_of_singleton | ?]%elem_of_union ?]; [by left | right; by split].
Qed.
Lemma size_range D order : good D order → (size D ≤ n)%nat.
Proof.
  intros G. rewrite <- (size_set_seq (C := gset nat) 0 n) at 1. apply subseteq_size. intros y Hy. apply elem_of_set_seq.
  pose proof (go_range _ _ G y Hy). lia.
Qed.

(** One call of each. *)
Lemma undoMount_S fuel fs this acts : undoMount testing can_open (S fuel) fs this acts =
  (f ← checked (fs !! this);
   if negb (ui_mounted f) then Ret (fs, acts)
   else
     '(fs, acts) ← children (ui_name f) (undoLoop testing can_open fuel) (undoMount testing can_open fuel)
                     (seq 0 (length fs)) (<[this := not_mounted f]> fs) acts;
     Ret (fs, acts ++ (if testing then [] else [Umount2 (ui_name f)]))).
Proof. reflexivity. Qed.
Lemma undoLoop_S fuel fs this acts : undoLoop testing can_open (S fuel) fs this acts =
  (f ← checked (fs !! this);
   if negb (ui_mounted f) then Ret (fs, acts)
   else
     '(fs, acts) ← (match list_find (λ g, on_loop (ui_loopDevice f) g = true) (<[this := not_mounted f]> fs) with
                    | Some (i, _) => undoMount testing can_open fuel (<[this := not_mounted f]> fs) i acts
                    | None => Ret (<[this := not_mounted f]> fs, acts)
                    end);
     Ret (fs, acts ++ loop_acts testing can_open (ui_loopDevice f))).
Proof. reflexivity. Qed.

Lemma undo_undoes fuel : ∀ acts0 x f, fs0 !! x = Some f → undoes (undo_for fuel f) acts0 x fuel.
Proof.
  induction fuel as [| fuel IH]; intros acts0 x f Hx D order G Hf Hp; [lia |].
  assert (mark D !! x = Some (if decide (x ∈ D) then not_mounted f else f)) as Em by (by rewrite mark_lookup, Hx).
  assert (ui_mounted f = true) as Hmf by (rewrite list.Forall_forall in Hmounted; apply Hmounted; by eapply list_elem_of_lookup_2).
  destruct (decide (x ∈ D)) as [Hin | Hin].
  { exists D, order. split_and!; [| by apply grows_refl |].
    - unfold undo_for. destruct (decide _); rewrite ?undoLoop_S, ?undoMount_S, Em; reflexivity.
    - destruct (decide (x ∈ order)); [done |]. specialize (Hp x ltac:(by split)). lia. }
  destruct (starts D order x f Hx G Hin) as (_ & G1 & P1).
  assert (size ({[x]} ∪ D) = S (size D)) as Es.
  { rewrite size_union by (intros y ?%elem_of_singleton ?; congruence). by rewrite size_singleton. }
  assert (size ({[x]} ∪ D) ≤ n)%nat as Hle by by eapply size_range.
  assert (n - size ({[x]} ∪ D) < fuel)%nat as Hf1 by lia.
  unfold undo_for. destruct (decide (ui_what f = LOOP)) as [Hw | Hw]; rewrite ?undoLoop_S, ?undoMount_S, Em; cbn [checked mbind outcome_bind];
    rewrite Hmf; cbn [negb]; rewrite (mark_insert D x f Hx).
  - (* a loop device *)
    pose proof (mark_find ({[x]} ∪ D) (ui_loopDevice f)) as Hfind.
    destruct (list_find (λ g, on_loop (ui_loopDevice f) g = true) (mark ({[x]} ∪ D))) as [[y g'] |] eqn:Ef; cbn in Hfind.
    + assert (dep x y) as Hdep by (exists f; split; [done |]; rewrite Hw; by rewrite <- Hfind).
      assert (∃ g, fs0 !! y = Some g ∧ ui_what g ≠ LOOP) as (g & Hg & Hgw).
      { apply list_find_Some in Ef as (Ey & Eo & _). apply mark_static in Ey as (g & Hg & _ & Ew & _). exists g. split; [done |].
        unfold on_loop in Eo. apply andb_true_iff in Eo as [Eo%bool_decide_eq_true _]. congruence. }
      pose proof (IH acts0 y g Hg) as Hu. unfold undo_for in Hu. rewrite decide_False in Hu by done.
      destruct (Hu _ _ G1 Hf1) as (D1 & o1 & -> & Gr & Hy).
      { intros p [-> | Hip]%P1; [by apply Hrank |]. specialize (Hp p Hip). specialize (Hrank _ _ Hdep). lia. }
      cbn [mbind outcome_bind]. exists D1, (o1 ++ [x]). split_and!; [| eapply undo_entry; try done | apply elem_of_app; right; by left].
      * rewrite acts_of_snoc, app_assoc. unfold acts_at. by rewrite Hx, Hw.
      * intros z (f' & Hf' & Hz). assert (f' = f) as -> by congruence. rewrite Hw, <- Hfind in Hz. by injection Hz as <-.
    + cbn [mbind outcome_bind]. exists ({[x]} ∪ D), (order ++ [x]). split_and!; [| eapply undo_entry; try done | apply elem_of_app; right; by left].
      * rewrite acts_of_snoc, app_assoc. unfold acts_at. by rewrite Hx, Hw.
      * by apply grows_refl.
      * intros z (f' & Hf' & Hz). assert (f' = f) as -> by congruence. by rewrite Hw, <- Hfind in Hz.
  - (* a mount *)
    assert (ui_what f = FS) as Hw' by by destruct (ui_what f).
    rewrite length_mark.
    destruct (children_undoes (ui_name f) (undoLoop testing can_open fuel) (undoMount testing can_open fuel) acts0 fuel (rank x) (seq 0 n))
      with (D := {[x]} ∪ D) (order := order) as (D1 & o1 & -> & Gr & Hy); try done.
    + intros j g _ Hg Hu. apply Hrank. exists f. split; [done |]. rewrite Hw'. by exists g.
    + intros j g Hg. pose proof (IH acts0 j g Hg) as Hu. unfold undo_for in Hu. by destruct (decide _).
    + intros p [-> | Hip]%P1; [done |]. specialize (Hp p Hip). lia.
    + intros j Hj%elem_of_seq. lia.
    + cbn [mbind outcome_bind]. exists D1, (o1 ++ [x]). split_and!; [| eapply undo_entry; try done | apply elem_of_app; right; by left].
      * rewrite acts_of_snoc, app_assoc. unfold acts_at. by rewrite Hx, Hw'.
      * intros z (f' & Hf' & Hz). assert (f' = f) as -> by congruence. rewrite Hw' in Hz. destruct Hz as (g & Hg & Hu).
        apply (Hy z g); [| done | done]. apply elem_of_seq. apply lookup_lt_Some in Hg. lia.
Qed.

Definition settled (D : gset nat) (order : list nat) : Prop := ∀ p, p ∈ D → p ∈ order.
Lemma settled_grows D order D' order' : settled D order → grows D order D' order' → settled D' order'.
Proof.
  intros Hs G p Hp. destruct (decide (p ∈ order')); [done |]. destruct (proj1 (gr_progress _ _ _ _ G p) (conj Hp n)) as [H1 H2].
  by specialize (Hs p H1).
Qed.
Lemma settled_call fuel f x acts0 D order : fs0 !! x = Some f → good D order → settled D order → (n < fuel)%nat →
  ∃ D' order', undo_for fuel f (mark D) x (acts0 ++ acts_of order) = Ret (mark D', acts0 ++ acts_of order') ∧ grows D order D' order' ∧ x ∈ order'.
Proof.
  intros Hx G Hs Hf. apply (undo_undoes fuel acts0 x f Hx D order G); [lia |]. intros p [Hp Hn]. by destruct Hn; apply Hs.
Qed.

Lemma undo_loops_all fuel acts0 js : ∀ D order, good D order → settled D order → (n < fuel)%nat → (∀ j, j ∈ js → (j < n)%nat) →
  ∃ D' order', undo_loops testing can_open fuel js (mark D) (acts0 ++ acts_of order) = Ret (mark D', acts0 ++ acts_of order') ∧
    grows D order D' order' ∧ ∀ j f, j ∈ js → fs0 !! j = Some f → ui_what f = LOOP → j ∈ order'.
Proof.
  induction js as [| j js IH]; intros D order G Hs Hf Hj.
  - exists D, order. split_and!; [done | by apply grows_refl | by intros ? ? ?%elem_of_nil].
  - destruct (lookup_lt_is_Some_2 fs0 j (Hj j ltac:(by left))) as [f Hx]. cbn [undo_loops]. rewrite mark_lookup, Hx. cbn [fmap option_fmap option_map checked mbind outcome_bind].
    assert (ui_what (if decide (j ∈ D) then not_mounted f else f) = ui_what f) as -> by by destruct (decide _).
    assert (∃ D1 o1, (if decide (ui_what f = LOOP) then undoLoop testing can_open fuel (mark D) j (acts0 ++ acts_of order)
      else Ret (mark D, acts0 ++ acts_of order)) = Ret (mark D1, acts0 ++ acts_of o1) ∧ grows D order D1 o1 ∧ (ui_what f = LOOP → j ∈ o1))
      as (D1 & o1 & -> & G1 & J1).
    { destruct (settled_call fuel f j acts0 D order Hx G Hs Hf) as (D1 & o1 & E1 & G1 & J1). unfold undo_for in E1.
      destruct (decide (ui_what f = LOOP)); [by exists D1, o1 |]. exists D, order. split_and!; [done | by apply grows_refl | done]. }
    cbn [mbind outcome_bind]. destruct (IH D1 o1) as (D2 & o2 & E2 & G2 & J2); try done.
    + apply (gr_good _ _ _ _ G1).
    + by eapply settled_grows.
    + intros i Hi. apply Hj. by right.
    + exists D2, o2. split_and!; [done | by eapply grows_trans |]. intros i g [-> | Hi]%elem_of_cons Hg Hw; [| by eapply J2].
      eapply grows_elem; [exact G2 | apply J1; congruence].
Qed.
Lemma undo_mounted_all fuel acts0 js : ∀ D order, good D order → settled D order → (n < fuel)%nat → (∀ j, j ∈ js → (j < n)%nat) →
  (∀ j f, fs0 !! j = Some f → ui_what f = LOOP → j ∈ order) →
  ∃ D' order', undo_mounted testing can_open fuel js (mark D) (acts0 ++ acts_of order) = Ret (mark D', acts0 ++ acts_of order') ∧
    grows D order D' order' ∧ ∀ j, j ∈ js → j ∈ order'.
Proof.
  induction js as [| j js IH]; intros D order G Hs Hf Hj Hl.
  - exists D, order. split_and!; [done | by apply grows_refl | by intros ? ?%elem_of_nil].
  - destruct (lookup_lt_is_Some_2 fs0 j (Hj j ltac:(by left))) as [f Hx]. cbn [undo_mounted]. rewrite mark_lookup, Hx. cbn [fmap option_fmap option_map checked mbind outcome_bind].
    assert (∃ D1 o1, (if ui_mounted (if decide (j ∈ D) then not_mounted f else f) then undoMount testing can_open fuel (mark D) j (acts0 ++ acts_of order)
      else Ret (mark D, acts0 ++ acts_of order)) = Ret (mark D1, acts0 ++ acts_of o1) ∧ grows D order D1 o1 ∧ j ∈ o1)
      as (D1 & o1 & -> & G1 & J1).
    { destruct (decide (j ∈ D)) as [Hd | Hd]; [exists D, order; split_and!; [done | by apply grows_refl | by apply Hs] |].
      assert (ui_mounted f = true) as -> by (rewrite list.Forall_forall in Hmounted; apply Hmounted; by eapply list_elem_of_lookup_2).
      destruct (settled_call fuel f j acts0 D order Hx G Hs Hf) as (D1 & o1 & E1 & G1 & J1). unfold undo_for in E1.
      destruct (decide (ui_what f = LOOP)); [by destruct Hd; apply (go_sub _ _ G), (Hl j f) | by exists D1, o1]. }
    cbn [mbind outcome_bind]. destruct (IH D1 o1) as (D2 & o2 & E2 & G2 & J2); try done.
    + apply (gr_good _ _ _ _ G1).
    + by eapply settled_grows.
    + intros i Hi. apply Hj. by right.
    + intros i g Hg Hw. eapply grows_elem; [exact G1 | by eapply Hl].
    + exists D2, o2. split_and!; [done | by eapply grows_trans |]. intros i [-> | Hi]%elem_of_cons; [| by apply J2].
      eapply grows_elem; [exact G2 | done].
Qed.

Lemma undo_all_order fuel acts0 : (n < fuel)%nat → ∃ fs order, undo_all testing can_open fuel fs0 acts0 = Ret (fs, acts0 ++ acts_of order) ∧
  order ≡ₚ seq 0 n ∧ topological order.
Proof.
  intros Hf. assert (good ∅ []) as G0.
  { constructor; [constructor | by intros ? ?%elem_of_nil | by intros ? ?%elem_of_empty | by intros [] ? ? ?]. }
  assert (∀ j, j ∈ seq 0 n → (j < n)%nat) as Hseq by (intros j ?%elem_of_seq; lia).
  destruct (undo_loops_all fuel acts0 (seq 0 n) ∅ [] G0) as (D1 & o1 & E1 & G1 & L1); [by intros ? ?%elem_of_empty | done | done |].
  destruct (undo_mounted_all fuel acts0 (seq 0 n) D1 o1) as (D2 & o2 & E2 & G2 & L2); [by apply (gr_good _ _ _ _ G1) | | done | done | |].
  { eapply settled_grows; [| exact G1]. by intros ? ?%elem_of_empty. }
  { intros j f Hx Hw. apply (L1 j f); [| done | done]. apply elem_of_seq. apply lookup_lt_Some in Hx. lia. }
  exists (mark D2), o2. rewrite mark_empty in E1. change (acts_of []) with (@nil undo_act) in E1. rewrite app_nil_r in E1.
  split_and!; [unfold undo_all; rewrite E1; cbn [mbind outcome_bind]; by rewrite length_mark, E2 | | apply (go_order _ _ (gr_good _ _ _ _ G2))].
  pose proof (gr_good _ _ _ _ G2) as G. apply NoDup_Permutation; [apply (go_dup _ _ G) | apply NoDup_seq |]. intros x. split; [| apply L2].
  intros Hx. apply elem_of_seq. pose proof (go_range _ _ G x (go_sub _ _ G x Hx)). lia.
Qed.
End order.

(** ** The whole of it *)

Section whole.
Context (testing : bool) (can_open : Z → bool) (st_dev : bytes → option Z) (lo_name : Z → option bytes).

(** A line of /proc/mounts: the device, where it is mounted, and the rest. *)
Record mount_line := mkLine { ml_device : bytes; ml_dir : bytes; ml_rest : bytes }.
Definition line_text (l : mount_line) : bytes := ml_device l ++ 32 :: ml_dir l ++ 32 :: ml_rest l ++ [10].
Record line_ok (l : mount_line) : Prop := {
  lo_device : Forall (λ b, b ≠ 32 ∧ b ≠ 0) (ml_device l);
  lo_dir : Forall (λ b, b ≠ 32 ∧ b ≠ 0) (ml_dir l);
  lo_rest : Forall (λ b, b ≠ 10 ∧ b ≠ 0) (ml_rest l);
  lo_stat : is_Some (st_dev (ml_dir l)) }.

Definition kept_mounted (name : bytes) : bool := streq name (str "/") || streq name (str "/tmp") || streq name (str "/dev").
Definition loop_of (dev : Z) : Z := if Z.shiftr dev 8 =? 7 then Z.land dev 0xf else -1.
Definition mount_info (l : mount_line) : option unmountInfo :=
  if kept_mounted (ml_dir l) then None else Some (mkInfo (ml_dir l) true (loop_of (default 0 (st_dev (ml_dir l)))) FS).
Definition loop_info (i : Z) : option unmountInfo :=
  match (if can_open i then lo_name i else None) with Some (c :: n) => Some (mkInfo (c :: n) true i LOOP) | _ => None end.
Definition loop_devices : list Z := [0; 1; 2; 3; 4; 5; 6].
(** The table unmountFilesystems works on. *)
Definition table (lines : list mount_line) : list unmountInfo := omap mount_info lines ++ omap loop_info loop_devices.

Lemma mjoin_cons {A} (x : list A) l : mjoin (x :: l) = x ++ mjoin l.
Proof. reflexivity. Qed.
Lemma strchr_stops s c r P : Forall (λ b, b ≠ c ∧ P b) s → strchr (s ++ c :: r) c = Some (c :: r).
Proof. intros Hs. apply strchr_app. eapply list.Forall_impl; [exact Hs |]. by intros ? []. Qed.

Lemma mounts_loop_reads lines : ∀ fuel dev l, Forall line_ok lines → (length lines < fuel)%nat → (length l + length lines <= 500)%nat →
  mounts_loop st_dev fuel (mjoin (line_text <$> lines)) dev l = Ret (l ++ omap mount_info lines).
Proof.
  induction lines as [| ln lines IH]; intros fuel dev l Hok Hf Hl; (destruct fuel as [| fuel]; [lia |]).
  - cbn. by rewrite app_nil_r.
  - apply list.Forall_cons in Hok as [[H1 H2 H3 [d Hd]] Hok]. cbn [mounts_loop].
    assert (mjoin (line_text <$> ln :: lines) = ml_device ln ++ 32 :: ml_dir ln ++ 32 :: ml_rest ln ++ 10 :: mjoin (line_text <$> lines)) as E.
    { rewrite fmap_cons, mjoin_cons.
      unfold line_text at 1. by rewrite <- !app_assoc; cbn [app]; rewrite <- !app_assoc; cbn [app]; rewrite <- !app_assoc. }
    rewrite E. rewrite bool_decide_eq_false_2 by (by destruct (ml_device ln)).
    rewrite (strchr_stops _ 32 _ _ H1). cbn [checked mbind outcome_bind tail]. rewrite (strchr_stops _ 32 _ _ H2). cbn [checked mbind outcome_bind tail].
    rewrite before_app, (strchr_stops _ 10 _ _ H3). cbn [checked mbind outcome_bind tail]. fold (kept_mounted (ml_dir ln)).
    cbn [length] in Hl, Hf. cbn [omap list_omap]. unfold mount_info at 1. rewrite Hd. cbn [default]. destruct (kept_mounted (ml_dir ln)).
    + apply IH; [done | lia | lia].
    + unfold add_info. assert ((length l <? 500)%nat = true) as -> by (apply Nat.ltb_lt; lia). cbn [defined_if mbind outcome_bind].
      fold (loop_of d). rewrite IH; [by rewrite <- app_assoc | done | lia | rewrite length_app; cbn [length]; lia].
Qed.

Lemma loops_loop_reads js : ∀ l acts, (length l + length js <= 500)%nat →
  loops_loop can_open lo_name js l acts = Ret (l ++ omap loop_info js, acts ++ mjoin ((λ i, [Unlink_loop; Mknod_loop i]) <$> js)).
Proof.
  induction js as [| i js IH]; intros l acts Hl; [cbn; by rewrite !app_nil_r |]. cbn [loops_loop omap list_omap].
  unfold loop_info at 1. cbn [length] in Hl. rewrite fmap_cons, mjoin_cons.
  destruct (if can_open i then lo_name i else None) as [[| c nm] |]; rewrite ?IH by lia; [by rewrite <- app_assoc | | by rewrite <- app_assoc].
  unfold add_info. assert ((length l <? 500)%nat = true) as -> by (apply Nat.ltb_lt; lia). cbn [defined_if mbind outcome_bind].
  rewrite IH by (rewrite length_app; cbn [length]; lia). by rewrite <- !app_assoc.
Qed.

(** C27: unmountFilesystems, for any list of mounts in which nothing lies in
    itself: it ends, and undoes every mount but /, /tmp and /dev and every loop
    device exactly once, a mount only behind all that lies under it (mounts and
    the images of loop devices) and a loop device only behind its mount. *)
Theorem unmountFilesystems_ordered lines fuel dev (rank : nat → nat) (Hlines : Forall line_ok lines)
  (Hsize : (length (mjoin (line_text <$> lines)) <= 65534)%nat) (Hmany : (length lines <= 493)%nat)
  (Hrank : ∀ x y, dep (table lines) x y → (rank y < rank x)%nat) (Hfuel : (length (table lines) < fuel)%nat) :
  ∃ order, order ≡ₚ seq 0 (length (table lines)) ∧ topological (table lines) order ∧
    unmountFilesystems testing can_open st_dev lo_name fuel (Some (mjoin (line_text <$> lines))) dev =
    Ret (mjoin ((λ i, [Unlink_loop; Mknod_loop i]) <$> loop_devices) ++ mjoin (acts_at testing can_open (table lines) <$> order)).
Proof.
  assert (Forall (λ f, ui_mounted f = true) (table lines)) as Hm.
  { apply Forall_app. split; apply list.Forall_forall; intros f (x & _ & Hx)%list_elem_of_omap.
    - unfold mount_info in Hx. destruct (kept_mounted _); [done |]. by injection Hx as <-.
    - unfold loop_info in Hx. destruct (if can_open x then _ else _) as [[|] |]; [done | by injection Hx as <- | done]. }
  destruct (undo_all_order testing can_open (table lines) Hm rank Hrank fuel
    (mjoin ((λ i, [Unlink_loop; Mknod_loop i]) <$> loop_devices)) Hfuel) as (fs & order & E & Hp & Ht).
  exists order. split_and!; [done | done |]. unfold unmountFilesystems. rewrite take_ge by done.
  assert (Forall (λ b, b ≠ 0) (mjoin (line_text <$> lines))) as Hnul.
  { clear -Hlines. induction Hlines as [| l ls [H1 H2 H3 _] _ IH]; [constructor |]. rewrite fmap_cons, mjoin_cons. apply Forall_app. split; [| done].
    assert (∀ P s, Forall (λ b : Z, P b ∧ b ≠ 0) s → Forall (λ b, b ≠ 0) s) as Hw.
    { intros P s Hs. eapply list.Forall_impl; [exact Hs |]. by intros ? []. }
    unfold line_text. apply Forall_app. split; [exact (Hw (λ b, b ≠ 32) _ H1) |]. constructor; [done |].
    apply Forall_app. split; [exact (Hw (λ b, b ≠ 32) _ H2) |].
    constructor; [done |]. apply Forall_app. split; [exact (Hw (λ b, b ≠ 10) _ H3) | by repeat constructor]. }
  rewrite until_nul_no_nul by done. rewrite mounts_loop_reads; [| done | | cbn; lia].
  - cbn [mbind outcome_bind app]. rewrite loops_loop_reads.
    + cbn [mbind outcome_bind]. change [0; 1; 2; 3; 4; 5; 6] with loop_devices. rewrite !app_nil_l. change (omap mount_info lines ++ omap loop_info loop_devices) with (table lines). rewrite E. done.
    + assert (length (omap mount_info lines) ≤ length lines)%nat; [| cbn [length]; lia]. clear.
      induction lines as [| l ls IH]; [done |]. cbn [omap list_omap]. destruct (mount_info l); cbn [length]; lia.
  - assert (length lines ≤ length (mjoin (line_text <$> lines)))%nat; [| lia]. clear.
    induction lines as [| l ls IH]; [done |]. rewrite fmap_cons, mjoin_cons.
    rewrite length_app. unfold line_text at 1. rewrite !length_app. cbn [length]. lia.
Qed.
End whole.

(** A loop device on an image that lies in a mount; /mnt/runtime is its mount. *)
Definition sample_dev (name : bytes) : option Z := Some (if streq name (str "/mnt/runtime") then 0x700 else 0x803).
Definition sample_lo (n : Z) : option bytes := if n =? 0 then Some (str "/mnt/source/images/install.img") else None.
Definition sample_lines : list mount_line :=
  [mkLine (str "rootfs") (str "/") (str "rootfs rw 0 0"); mkLine (str "/dev/sda3") (str "/mnt") (str "ext3 rw 0 0");
   mkLine (str "/dev/sr0") (str "/mnt/source") (str "iso9660 ro 0 0"); mkLine (str "/dev/loop0") (str "/mnt/runtime") (str "squashfs ro 0 0")].
Definition sample_rank (x : nat) : nat := (match x with 0 => 3 | 1 => 2 | 2 => 0 | _ => 1 end)%nat.
Lemma unmountFilesystems_ordered_witness : ∃ order, order ≡ₚ seq 0 4 ∧
  topological (table (λ _, true) sample_dev sample_lo sample_lines) order ∧
  unmountFilesystems false (λ _, true) sample_dev sample_lo 5 (Some (mjoin (line_text <$> sample_lines))) 0 =
  Ret (mjoin ((λ i, [Unlink_loop; Mknod_loop i]) <$> loop_devices) ++
       [Umount2 (str "/mnt/runtime"); Unlink_loop; Mknod_loop 0; Clear_loop; Umount2 (str "/mnt/source"); Umount2 (str "/mnt")]).
Proof.
  destruct (unmountFilesystems_ordered false (λ _, true) sample_dev sample_lo sample_lines 5 0 sample_rank) as (order & Hp & Ht & E).
  - repeat constructor; try discriminate; by eexists.
  - apply Nat.leb_le. vm_compute. reflexivity.
  - apply Nat.leb_le. vm_compute. reflexivity.
  - intros x y (f & Hf & Hd).
    destruct x as [| [| [| [| x]]]]; vm_compute in Hf; try discriminate; injection Hf as <-; cbn [ui_what ui_name ui_loopDevice] in Hd;
      try (destruct Hd as (g & Hg & Hu); destruct y as [| [| [| [| y]]]]; vm_compute in Hg; try discriminate; injection Hg as <-;
           vm_compute in Hu; try discriminate; vm_compute; lia).
    vm_compute in Hd. injection Hd as <-. vm_compute. lia.
  - vm_compute. lia.
  - exists order. split; [exact Hp |]. split; [exact Ht |]. vm_compute. reflexivity.
Defined.
