(* ===== verification/NetUp.v ===== *)
(** * Bringing the network up (stage-1/net.c)

    readNetConfig with the two windows of configureTCPIP and manualNetConfig,
    writeDisabledNetInfo, chooseNetworkInterface, kickstartNetworkUp and
    get_connection, for the build without ENABLE_IPV6.  What the user, the
    network cards, NetworkManager and the file system answer is an instance of
    [NetUpOps].  A function that ends the process with abort gives [None]. *)

From S2P Require Import Prelude CLib IsysStr Loader Net Kickstart CmdLine Steps Devices.

(** What the windows of manualNetConfig hold. *)
Record intfconfig_s := mkConf { cf_ipv4 : option bytes; cf_cidr4 : option bytes; cf_gw : option bytes; cf_ns : option bytes }.
Definition empty_conf : intfconfig_s := mkConf None None None None.

(** A reply to the question for the property State. *)
Inductive nm_reply := No_reply | Not_variant | Not_uint32 | NM_state (state : Z).
Definition NM_STATE_CONNECTED : Z := 3.
Definition IFNAMSIZ : nat := 16.

Class NetUpOps (W : Type) := {
  (* newtRunForm of the first window, with the check box as it is: whether Back
     was chosen, the check box, the number of the radio button that is on *)
  nu_tcpip : W → Z → bool * Z * Z * W;
  (* newtRunForm of the second window, with its fields *)
  nu_manual : W → intfconfig_s → bool * intfconfig_s * W;
  (* newtWinMenu over the cards: its result and the entry *)
  nu_menu : W → list bytes → nat → Z * nat * W;
  (* newtWinEntries for a number of seconds *)
  nu_seconds : W → bytes → Z * bytes * W;
  nu_identify : W → bytes → Z → W;
  nu_link : W → bytes → Z * W;
  nu_sleep : W → W;
  nu_ethtool : W → list ethcall → W;
  (* which actions on files succeed; actions that were done *)
  nu_env : W → action → bool;
  nu_did : W → list action → W;
  (* the bus, a message and its arguments; the message and its reply *)
  nu_bus : W → bool;
  nu_message : W → bool;
  nu_append : W → bool;
  nu_get : W → nm_reply * W
}.

Section netup.
Context `{NetUpOps W}.
(** inet_pton and inet_ntop for IPv6, the hardware address of a card, qsort with
    simpleStringCmp. *)
Context (inet_pton6 : bytes → option bytes) (inet_ntop6 : bytes → bytes) (iface_mac2str : bytes → option bytes)
  (qsort : list bytes → list bytes).

(** ** get_connection *)

(** [while (count < 45)]: [n] turns are left. *)
Fixpoint connection_loop (n : nat) (w : W) : Z * W :=
  match n with
  | O => (9, w)
  | S n =>
      let '(reply, w) := nu_get w in
      match reply with
      | No_reply => (6, w)
      | Not_variant => (7, w)
      | Not_uint32 => (8, w)
      | NM_state state => if state =? NM_STATE_CONNECTED then (0, w) else connection_loop n (nu_sleep w)
      end
  end.
Definition get_connection (w : W) : Z * W :=
  if negb (nu_bus w) then (2, w)
  else if negb (nu_message w) then (4, w)
  else if negb (nu_append w) then (5, w)
  else connection_loop 45 w.

Definition write_config (flags : Z) (i : iface_t) (w : W) : outcome (Z * W) :=
  '(err, acts) ← writeEnabledNetInfo (nu_env w) iface_mac2str flags i; Ret (err, nu_did w acts).
(** The configuration is written and NetworkManager asked for it. *)
Definition bring_up (flags : Z) (i : iface_t) (w : W) : outcome (bool * W) :=
  '(err, w) ← write_config flags i w;
  if negb (err =? 0) then Ret (false, w)
  else let '(rc, w) := get_connection w in Ret (negb (0 <? rc), w).

(** ** configureTCPIP *)

(** [do { ... } while (i != 1)]; the radio button of DHCP is on in a new
    window. *)
Fixpoint tcpip_loop (fuel : nat) (skipForm : bool) (methodNum flags : Z) (i : iface_t) (choice : Z) (w : W) :
    outcome (Z * Z * iface_t * Z * W) :=
  match fuel with
  | O => NoFuel
  | S fuel =>
      let '(back, choice, radio, w) := if skipForm then (false, choice, IPV4_DHCP_METHOD, w) else nu_tcpip w choice in
      if negb skipForm && back then Ret (LOADER_BACK, flags, i, choice, w)
      else if negb skipForm && ((choice =? 32) || ((choice =? 32) && (methodNum =? METHOD_NFS))) then
        tcpip_loop fuel skipForm methodNum flags i choice w
      else
        let '(flags, i) :=
          if choice =? 42 then
            (Z.ldiff flags LOADER_FLAGS_NOIPV4,
             if (IPV4_DHCP_METHOD <=? radio) && (radio <=? IPV4_MANUAL_METHOD) then set_ifi I_ipv4method radio i else i)
          else (flag_or flags LOADER_FLAGS_NOIPV4, i) in
        if negb (FL flags LOADER_FLAGS_NOIPV4) && (if_i i I_ipv4method =? IPV4_DHCP_METHOD) then
          Ret (LOADER_NOOP, flags, i, choice, w)
        else if negb (FL flags LOADER_FLAGS_NOIPV4) && (if_i i I_ipv4method =? IPV4_MANUAL_METHOD) then
          Ret (LOADER_OK, flags, i, choice, w)
        else tcpip_loop fuel skipForm methodNum flags i choice w
  end.
(** The result, the flags, the interface and the check box. *)
Definition configureTCPIP (fuel : nat) (methodNum flags : Z) (i : iface_t) (choice : Z) (w : W) :
    outcome (Z * Z * iface_t * Z * W) :=
  let choice :=
    if choice =? 0 then (if FL flags LOADER_FLAGS_NOIPV4 && negb (FL flags LOADER_FLAGS_IP_PARAM) then 32 else 42)
    else choice in
  let skipForm := FL flags LOADER_FLAGS_IP_PARAM || FL flags LOADER_FLAGS_NOIPV4 || FL flags LOADER_FLAGS_IS_KICKSTART in
  tcpip_loop fuel skipForm methodNum flags i choice w.

(** ** manualNetConfig *)

Definition iface_have_in6_addr (addr6 : bytes) : bool := negb (starts_with (str "::") (inet_ntop6 addr6)).

(** The new entries and what they start with.  [ret] holds the address still
    when there is no netmask. *)
Definition prefilled (stack4 : bool) (i : iface_t) (conf : intfconfig_s) : intfconfig_s :=
  let ret := if iface_have_in_addr (if_i i I_ipaddr) then inet_ntop4 (if_i i I_ipaddr) else [] in
  let ret' := if iface_have_in_addr (if_i i I_netmask) then inet_ntop4 (if_i i I_netmask) else ret in
  let gw :=
    if iface_have_in_addr (if_i i I_gateway) then inet_ntop4 (if_i i I_gateway)
    else if iface_have_in6_addr (if_gateway6 i) then inet_ntop6 (if_gateway6 i)
    else [] in
  mkConf (if stack4 then Some ret else cf_ipv4 conf) (if stack4 then Some ret' else cf_cidr4 conf) (Some gw)
    (Some (default [] (head (if_dns i)))).

(** The address and the netmask with the count of what was given. *)
Definition collect_ip (conf : intfconfig_s) (i : iface_t) (have : Z) : iface_t * Z :=
  match cf_ipv4 conf ≫= inet_pton4 with Some a => (set_ifi I_ipaddr a i, have + 1) | None => (i, have) end.
Definition collect_mask (conf : intfconfig_s) (i : iface_t) (have : Z) : outcome (option (iface_t * Z)) :=
  match cf_cidr4 conf with
  | None => Ret (Some (i, have))
  | Some s =>
      match inet_pton4 s with
      | Some m => Ret (Some (set_ifi I_netmask m i, have + 1))
      | None =>
          match strtol_int s with
          | None => Ret None
          | Some cidr =>
              if (1 <=? cidr) && (cidr <=? 32) then m ← iface_prefix2netmask cidr; Ret (Some (set_ifi I_netmask m i, have + 1))
              else Ret (Some (i, have))
          end
      end
  end.
Definition collect_gw (conf : intfconfig_s) (i : iface_t) : iface_t :=
  match cf_gw conf with
  | None => i
  | Some s =>
      match inet_pton4 s with
      | Some a => set_ifi I_gateway a i
      | None =>
          let i := set_ifi I_gateway 0 i in
          match inet_pton6 s with Some a => set_gateway6 a i | None => set_gateway6 (replicate 16 0) i end
      end
  end.
Definition collect_ns (conf : intfconfig_s) (i : iface_t) : iface_t :=
  match cf_ns conf with
  | None => i
  | Some s => if bool_decide (is_Some (inet_pton4 s)) then set_dns (s :: tail (if_dns i)) i else i
  end.

(** [while ((have[IPV4] != 2) && (have[IPV6] != 2))] *)
Fixpoint manual_loop (fuel : nat) (device : bytes) (stack4 : bool) (i : iface_t) (conf : intfconfig_s) (have4 have6 : Z) (w : W) :
    outcome (option Z * iface_t * intfconfig_s * W) :=
  match fuel with
  | O => NoFuel
  | S fuel =>
      if (have4 =? 2) || (have6 =? 2) then Ret (Some LOADER_OK, i, conf, w)
      else
        let '(back, conf, w) := nu_manual w conf in
        r ← (if stack4 then let '(i, have4) := collect_ip conf i have4 in collect_mask conf i have4 else Ret (Some (i, have4)));
        match r with
        | None => Ret (None, i, conf, w)
        | Some (i, have4) =>
            let i := collect_ns conf (collect_gw conf i) in
            if back then Ret (Some LOADER_BACK, i, conf, w)
            else
              _ ← defined_if (length device <? IFNAMSIZ)%nat;
              manual_loop fuel device stack4 (set_device device i) conf have4 have6 w
        end
  end.

(** [have] and [stack] have two elements, and IPV6 is 2: [outside] is nothing
    when that element cannot be accessed, else what [stack[2]] holds when no
    other object is there. *)
Definition manualNetConfig (outside : option Z) (fuel : nat) (device : bytes) (i : iface_t) (conf : intfconfig_s) (choice : Z) (w : W) :
    outcome (option Z * iface_t * intfconfig_s * W) :=
  let stack4 := (choice =? 42) && (if_i i I_ipv4method =? IPV4_MANUAL_METHOD) in
  let conf := prefilled stack4 i conf in
  stack6 ← checked outside;
  manual_loop fuel device stack4 i conf (if stack4 then 0 else 2) (if stack6 =? 0 then 2 else 0) w.

(** ** readNetConfig *)

(** [while (i == 1)]: with [Some LOADER_BACK] the function returns. *)
Fixpoint config_loop (outside : option Z) (fuel : nat) (device : bytes) (methodNum flags : Z) (i : iface_t) (conf : intfconfig_s)
    (choice : Z) (w : W) : outcome (option Z * Z * iface_t * Z * W) :=
  match fuel with
  | O => NoFuel
  | S fuel =>
      '(ret, flags, i, choice, w) ← configureTCPIP (S fuel) methodNum flags i choice w;
      if ret =? LOADER_NOOP then Ret (Some LOADER_NOOP, flags, i, choice, w)
      else if ret =? LOADER_OK then
        '(ret, i, conf, w) ← manualNetConfig outside (S fuel) device i conf choice w;
        match ret with
        | None => Ret (None, flags, i, choice, w)
        | Some ret =>
            if ret =? LOADER_BACK then config_loop outside fuel device methodNum flags i conf choice w
            else Ret (Some LOADER_OK, flags, i, choice, w)
        end
      else Ret (Some LOADER_BACK, flags, i, choice, w)
  end.

(** The broadcast address of an address and a netmask. *)
Definition with_broadcast (i : iface_t) : iface_t :=
  if if_i i I_broadcast =? 0 then
    set_ifi I_broadcast (Z.lor (Z.land (if_i i I_ipaddr) (if_i i I_netmask)) (w32 (Z.lnot (if_i i I_netmask)))) i
  else i.

Definition readNetConfig (outside : option Z) (fuel : nat) (device : bytes) (i : iface_t) (methodNum flags : Z) (w : W) :
    outcome (option Z * Z * iface_t * W) :=
  if negb (FL flags LOADER_FLAGS_TESTING) && ((0 <? if_i i I_ipv4method) || (0 <? if_i i I_ipv6method)) then
    '(up, w) ← bring_up flags i w;
    Ret (Some (if up : bool then LOADER_NOOP else LOADER_BACK), flags, i, w)
  else
    '(ret, flags, i, choice, w) ← config_loop outside fuel device methodNum flags i empty_conf 0 w;
    match ret with
    | None => Ret (None, flags, i, w)
    | Some ret =>
        if ret =? LOADER_BACK then Ret (Some LOADER_BACK, flags, i, w)
        else
          let i := if choice =? 42 then with_broadcast i else i in
          if FL flags LOADER_FLAGS_TESTING then Ret (Some LOADER_OK, flags, i, w)
          else
            '(up, w) ← bring_up flags i w;
            if up : bool then Ret (Some LOADER_OK, flags, i, w)
            else Ret (Some LOADER_BACK, flags, set_ifi I_ipv6method IPV6_UNUSED_METHOD (set_ifi I_ipv4method IPV4_UNUSED_METHOD i), w)
    end.

(** ** writeDisabledNetInfo *)

(** Actions on files, and unlink. *)
Inductive disable_action := D_unlink (path : bytes) | D_do (a : action).

Section disable.
(** access(path, R_OK|W_OK) succeeds, and which actions succeed. *)
Context (can_access : bytes → bool) (env : action → bool).

Definition disabled_contents (dev mac : bytes) : bytes :=
  line (str "DEVICE=") dev ++ line (str "HWADDR=") mac ++ str "ONBOOT=no" ++ [10] ++ str "NM_CONTROLLED=no" ++ [10].

(** [for (i = 0; devs[i]; i++)]: the result and the actions tried. *)
Fixpoint disable_loop (devs : list device) (acts : list disable_action) : outcome (Z * list disable_action) :=
  match devs with
  | [] => Ret (0, acts)
  | d :: devs =>
      let dev := dv_device d in
      let conf := str "/etc/dhclient-" ++ dev ++ str ".conf" in
      let acts := if can_access conf then acts ++ [D_unlink conf] else acts in
      let ofile := NETWORK_SCRIPTS_PATH ++ str "/.ifcfg-" ++ dev in
      let nfile := NETWORK_SCRIPTS_PATH ++ str "/ifcfg-" ++ dev in
      let acts := acts ++ [D_do (A_fopen ofile)] in
      if negb (env (A_fopen ofile)) then Ret (2, acts)
      else
        mac ← checked (iface_mac2str dev);
        let close := A_fclose ofile (disabled_contents dev mac) in
        let acts := acts ++ [D_do close] in
        if negb (env close) then Ret (3, acts)
        else
          let acts := acts ++ [D_do (A_rename ofile nfile)] in
          if negb (env (A_rename ofile nfile)) then Ret (4, acts) else disable_loop devs acts
  end.
Definition writeDisabledNetInfo (devs : option (list device)) : outcome (Z * list disable_action) :=
  match devs with None => Ret (1, []) | Some devs => disable_loop devs [] end.
End disable.

(** ** chooseNetworkInterface *)

Definition has_string (s : ld_string) (set : ld_int) (ld : loaderData_s) : bool :=
  bool_decide (is_Some (ld_s ld s)) && (ld_i ld set =? 1).

(** The hardware address in the data, in capitals; nothing when no card was
    named. *)
Definition wanted_mac (ld : loaderData_s) : outcome (option bytes) :=
  if has_string L_netDev L_netDev_set ld then
    netDev ← checked (ld_s ld L_netDev);
    from ← (if has_string L_bootIf L_bootIf_set ld && streq (lower netDev) (str "bootif") then checked (ld_s ld L_bootIf) else Ret netDev);
    u ← str2upper (Some (from ++ [0]));
    Ret (match u with Some u => Some (until_nul u) | None => None end)
  else Ret None.

(** ["%s - %.50s"] *)
Definition card_name (d : device) : bytes := dv_device d ++ str " - " ++ take 50 (dv_description d).

(** [for (i = 0; devs[i]; i++)]: whether the card of the data was found, the
    cards in front of where the loop ends. *)
Fixpoint scan_cards (mac : option bytes) (devs : list device) (found : bool) (seen : list device) (ld : loaderData_s) :
    bool * list device * loaderData_s :=
  match devs with
  | [] => (found, seen, ld)
  | d :: devs =>
      let seen := seen ++ [d] in
      if has_string L_netDev L_netDev_set ld then
        if bool_decide (ld_s ld L_netDev = Some (dv_device d)) then scan_cards mac devs true seen ld
        else
          match mac, iface_mac2str (dv_device d) with
          | Some m, Some a =>
              if streq m a then (true, seen, set_lds L_netDev (Some (dv_device d)) ld) else scan_cards mac devs found seen ld
          | _, _ => scan_cards mac devs found seen ld
          end
      else scan_cards mac devs found seen ld
  end.

(** The first card with a link, in five rounds of all. *)
Fixpoint link_cards (devices : list bytes) (w : W) : option bytes * W :=
  match devices with
  | [] => (None, w)
  | d :: devices => let '(status, w) := nu_link w d in if status =? 1 then (Some d, w) else link_cards devices w
  end.
Fixpoint link_rounds (n : nat) (devices : list bytes) (w : W) : option bytes * W :=
  match n with
  | O => (None, w)
  | S n => match link_cards devices w with (Some d, w) => (Some d, w) | (None, w) => link_rounds n devices (nu_sleep w) end
  end.

(** [while (i)]: how long the lights are to flash; [seconds] keeps what was
    entered. *)
Fixpoint seconds_loop (fuel : nat) (dev seconds : bytes) (w : W) : outcome (bytes * W) :=
  match fuel with
  | O => NoFuel
  | S fuel =>
      let '(idrc, seconds, w) := nu_seconds w seconds in
      if (idrc =? 0) || (idrc =? 1) then
        let secs := s32 (fst (strtol 10 seconds)) in
        if strtol_erange seconds then seconds_loop fuel dev seconds w
        else if (secs <=? 0) || (30 <? secs) then seconds_loop fuel dev seconds w
        else Ret (seconds, nu_identify w dev secs)
      else if idrc =? 2 then Ret (seconds, w)
      else seconds_loop fuel dev seconds w
  end.

(** An entry of an array that ends in null. *)
Definition entry_at (l : list bytes) (i : nat) : outcome (option bytes) := checked (((Some <$> l) ++ [None]) !! i).

(** [while (ask)]: Back, or the entry that was chosen. *)
Fixpoint cards_loop (fuel : nat) (deviceNames devices : list bytes) (deviceNum : nat) (seconds : bytes) (w : W) :
    outcome (option (option bytes) * W) :=
  match fuel with
  | O => NoFuel
  | S fuel =>
      let '(rc, deviceNum, w) := nu_menu w deviceNames deviceNum in
      if rc =? 2 then
        d ← entry_at devices deviceNum;
        match d with
        | None => cards_loop fuel deviceNames devices deviceNum seconds w
        | Some d => '(seconds, w) ← seconds_loop (S fuel) d seconds w; cards_loop fuel deviceNames devices deviceNum seconds w
        end
      else if rc =? 3 then Ret (None, w)
      else d ← entry_at devices deviceNum; Ret (Some d, w)
  end.

(** [devs]: what getDevices(DEVICE_NETWORK) gives. *)
Definition chooseNetworkInterface (fuel : nat) (devs : option (list device)) (ld : loaderData_s) (w : W) :
    outcome (Z * loaderData_s * W) :=
  match devs with
  | None => Ret (LOADER_ERROR, ld, w)
  | Some devs =>
      mac ← wanted_mac ld;
      let '(found, seen, ld) := scan_cards mac devs false [] ld in
      if found : bool then Ret (LOADER_NOOP, ld, w)
      else
        let devices := qsort (dv_device <$> seen) in
        let deviceNames := qsort (card_name <$> seen) in
        if (length seen =? 0)%nat then Ret (LOADER_ERROR, ld, w)
        else if (length seen =? 1)%nat then d ← entry_at devices 0; Ret (LOADER_NOOP, set_lds L_netDev d ld, w)
        else
          let '(linked, w) :=
            if has_string L_netDev L_netDev_set ld && bool_decide (ld_s ld L_netDev = Some (str "link"))
            then link_rounds 5 devices w else (None, w) in
          match linked with
          | Some d => Ret (LOADER_NOOP, set_lds L_netDev (Some d) ld, w)
          | None =>
              '(chosen, w) ← cards_loop fuel deviceNames devices 0 (str "10") w;
              match chosen with
              | None => Ret (LOADER_BACK, ld, w)
              | Some d => Ret (LOADER_OK, set_lds L_netDev d ld, w)
              end
          end
  end.

(** ** kickstartNetworkUp *)

(** DHCP when the data do not say how to find an address. *)
Definition default_dhcp (ld : loaderData_s) : loaderData_s :=
  match ld_s ld L_ipv4 with
  | None => set_ldi L_ipinfo_set 1 (set_lds L_ipv4 (Some (str "dhcp")) ld)
  | Some _ => ld
  end.

(** [do { ... } while (1)]: the result, the flags, the interface and the data.
    [err] is what the variable holds before it is set. *)
Fixpoint networkUp_loop (outside : option Z) (err : Z) (fuel : nat) (devs : option (list device)) (ld : loaderData_s) (i : iface_t)
    (flags : Z) (w : W) : outcome (option Z * loaderData_s * iface_t * Z * W) :=
  match fuel with
  | O => NoFuel
  | S fuel =>
      '(rc, ld, w) ← chooseNetworkInterface (S fuel) devs ld w;
      if (rc =? LOADER_ERROR) || (rc =? LOADER_BACK) then Ret (Some (-1), ld, i, flags, w)
      else
        dev ← checked (ld_s ld L_netDev);
        _ ← defined_if (length dev <? IFNAMSIZ)%nat;
        let ld := default_dhcp (set_ldi L_netDev_set 1 ld) in
        '(i, ld, calls) ← setupIfaceStruct (λ s, bool_decide (is_Some (inet_pton6 s))) (S fuel) (set_device dev i) ld;
        '(rc, flags, i, w) ← readNetConfig outside (S fuel) dev i (ld_i ld L_method) flags (nu_ethtool w calls);
        match rc with
        | None => Ret (None, ld, i, flags, w)
        | Some rc =>
            if rc =? LOADER_ERROR then Ret (Some (-1), ld, i, flags, w)
            else if rc =? LOADER_BACK then
              let ld := set_lds L_ipv4 None (set_ldi L_ipinfo_set 0 (set_ldi L_netDev_set 0 ld)) in
              if FL flags LOADER_FLAGS_TESTING then
                if err =? 0 then networkUp_loop outside err fuel devs ld i flags w else Ret (Some (-1), ld, i, flags, w)
              else
                '(err, w) ← write_config flags i w;
                if negb (err =? 0) then Ret (Some (-1), ld, i, flags, w)
                else
                  let '(err, w) := get_connection w in
                  if err =? 0 then networkUp_loop outside err fuel devs ld i flags w else Ret (Some (-1), ld, i, flags, w)
            else Ret (Some 0, ld, i, flags, w)
        end
  end.
Definition kickstartNetworkUp (outside : option Z) (err : Z) (fuel : nat) (devs : option (list device)) (ld : loaderData_s)
    (flags : Z) (w : W) : outcome (option Z * loaderData_s * iface_t * Z * W) :=
  networkUp_loop outside err fuel devs ld iface_init_iface_t flags w.
End netup.
