(* ===== verification/NetUpFacts.v ===== *)
(** * Properties of bringing the network up

    How long NetworkManager is waited for, what the window for a manual
    configuration accepts, which card an entry of the menu stands for, and that
    a static configuration ends in the files and with a connection. *)

From Stdlib Require Import Sorted.
From S2P Require Import Prelude CLib IsysStr Loader Net NetFacts Kickstart CmdLine Steps Misc MiscFacts Devices NetUp.

(** ** Waiting for NetworkManager *)

Section polls.
Context `{NetUpOps W}.

(** The world after [k] replies, each followed by a second of sleep. *)
Fixpoint after_polls (k : nat) (w : W) : W :=
  match k with O => w | S k => after_polls k (nu_sleep (snd (nu_get w))) end.
Definition reply_at (k : nat) (w : W) : nm_reply := fst (nu_get (after_polls k w)).
Definition world_at (k : nat) (w : W) : W := snd (nu_get (after_polls k w)).
(** Not connected yet. *)
Definition connecting (r : nm_reply) : Prop := ∃ s, r = NM_state s ∧ s ≠ NM_STATE_CONNECTED.
Definition reply_code (r : nm_reply) : Z :=
  match r with No_reply => 6 | Not_variant => 7 | Not_uint32 => 8 | NM_state _ => 0 end.
Definition settles_at (k : nat) (w : W) : Prop := (∀ j, (j < k)%nat → connecting (reply_at j w)) ∧ ¬ connecting (reply_at k w).

Lemma connecting_dec r : connecting r ∨ ¬ connecting r.
Proof. destruct r as [| | | s]; [right; by intros (? & ? & _) .. |]. destruct (Z.eq_dec s NM_STATE_CONNECTED) as [-> | Hs]; [right; by intros (t & [= <-] & Ht) | left; by exists s].
Qed.

Lemma connection_step n w : connection_loop (S n) w =
  match reply_at 0 w with
  | NM_state s => if s =? NM_STATE_CONNECTED then (0, world_at 0 w) else connection_loop n (after_polls 1 w)
  | r => (reply_code r, world_at 0 w)
  end.
Proof.
  unfold reply_at, world_at. cbn [connection_loop after_polls]. destruct (nu_get w) as [r w']. by destruct r.
Qed.
Lemma connection_connecting n w : connecting (reply_at 0 w) → connection_loop (S n) w = connection_loop n (after_polls 1 w).
Proof. intros (s & E & Hs). rewrite connection_step, E. destruct (Z.eqb_spec s NM_STATE_CONNECTED); [done | done]. Qed.
Lemma connection_settles n : ∀ k w, (k < n)%nat → settles_at k w → connection_loop n w = (reply_code (reply_at k w), world_at k w).
Proof.
  induction n as [| n IH]; intros k w Hk [Hb Hs]; [lia |]. destruct k as [| k].
  - rewrite connection_step. destruct (reply_at 0 w) as [| | | s] eqn:E; [done .. |].
    destruct (Z.eqb_spec s NM_STATE_CONNECTED); [done |]. exfalso. apply Hs. by exists s.
  - rewrite connection_connecting by (apply Hb; lia). rewrite (IH k) by (lia || (split; [intros j Hj; apply (Hb (S j)); lia | done])). done.
Qed.
Lemma connection_tired n : ∀ w, (∀ j, (j < n)%nat → connecting (reply_at j w)) → connection_loop n w = (9, after_polls n w).
Proof.
  induction n as [| n IH]; intros w Hb; [done |]. rewrite connection_connecting by (apply Hb; lia).
  rewrite IH by (intros j Hj; apply (Hb (S j)); lia). done.
Qed.
Lemma first_settled w n : (∀ j, (j < n)%nat → connecting (reply_at j w)) ∨ ∃ k, (k < n)%nat ∧ settles_at k w.
Proof.
  induction n as [| n [IH | (k & Hk & Hs)]]; [left; lia | | right; exists k; split; [lia | done]].
  destruct (connecting_dec (reply_at n w)) as [Hc | Hc].
  - left. intros j Hj. destruct (decide (j = n)) as [-> |]; [done | apply IH; lia].
  - right. by exists n; split; [lia | split].
Qed.

Definition nm_ready (w : W) : Prop := nu_bus w = true ∧ nu_message w = true ∧ nu_append w = true.
Lemma get_connection_ready w : nm_ready w → get_connection w = connection_loop 45 w.
Proof. intros (Hb & Hm & Ha). unfold get_connection. by rewrite Hb, Hm, Ha. Qed.

(** C34: get_connection asks NetworkManager at most 45 times, a second apart,
    and stops at the first reply that is not a state other than connected; it
    returns 0 exactly when that reply says connected, and 9 when there was none. *)
Theorem get_connection_polls w (Hready : nm_ready w) :
  (∀ k, (k < 45)%nat → settles_at k w → get_connection w = (reply_code (reply_at k w), world_at k w)) ∧
  ((∀ j, (j < 45)%nat → connecting (reply_at j w)) → get_connection w = (9, after_polls 45 w)) ∧
  (fst (get_connection w) = 0 ↔ ∃ k, (k < 45)%nat ∧ settles_at k w ∧ reply_at k w = NM_state NM_STATE_CONNECTED).
Proof.
  rewrite get_connection_ready by done. split; [intros k; apply connection_settles |]. split; [apply connection_tired |]. split.
  - intros H0. destruct (first_settled w 45) as [Hb | (k & Hk & Hs)]; [by rewrite connection_tired in H0 |].
    rewrite (connection_settles 45 k) in H0 by done. exists k. split_and!; [done | done |]. cbn [fst] in H0.
    destruct (reply_at k w) as [| | | s] eqn:E; [discriminate .. |]. destruct (decide (s = NM_STATE_CONNECTED)) as [-> |]; [done |].
    exfalso. destruct Hs as [_ Hs]. apply Hs. rewrite E. by exists s.
  - intros (k & Hk & Hs & E). by rewrite (connection_settles 45 k), E.
Qed.
End polls.

(** ** A loader told not to use IPv4 *)

Lemma FL_flag_or flags b : FL flags b = true → FL (flag_or flags b) b = true.
Proof.
  unfold FL, flag_or. intros Hf. apply negb_true_iff, Z.eqb_neq. apply negb_true_iff, Z.eqb_neq in Hf. intros H0. apply Hf.
  rewrite Z.land_lor_distr_l in H0. by apply Z.lor_eq_0_iff in H0 as [H0 _].
Qed.

Section noipv4.
Context `{NetUpOps W} (pton6 : bytes → option bytes) (ntop6 : bytes → bytes) (mac2str : bytes → option bytes).

Lemma tcpip_loop_noipv4 fuel : ∀ methodNum flags i w, FL flags LOADER_FLAGS_NOIPV4 = true →
  tcpip_loop fuel true methodNum flags i 32 w = NoFuel.
Proof.
  induction fuel as [| fuel IH]; intros methodNum flags i w Hf; [done |]. cbn [tcpip_loop negb andb].
  change (32 =? 42) with false. cbv iota. rewrite FL_flag_or by done. cbn [negb andb]. apply IH. by apply FL_flag_or.
Qed.

(** C35: With noipv4 and no address on the command line, and no method of
    finding one, readNetConfig never returns: the window is skipped, and without
    it the loop of configureTCPIP changes nothing. *)
Theorem readNetConfig_noipv4_hangs outside device i methodNum flags w (Hno : FL flags LOADER_FLAGS_NOIPV4 = true)
  (Hip : FL flags LOADER_FLAGS_IP_PARAM = false) (H4 : if_i i I_ipv4method = IPV4_UNUSED_METHOD) (H6 : if_i i I_ipv6method = IPV6_UNUSED_METHOD) :
  ∀ fuel, readNetConfig pton6 ntop6 mac2str outside fuel device i methodNum flags w = NoFuel.
Proof.
  intros fuel. unfold readNetConfig. rewrite H4, H6. change ((0 <? IPV4_UNUSED_METHOD) || (0 <? IPV6_UNUSED_METHOD)) with false. rewrite andb_false_r.
  destruct fuel as [| fuel]; [done |]. cbn [config_loop]. unfold configureTCPIP. change (0 =? 0) with true. cbv iota.
  rewrite Hno, Hip, orb_true_r. cbn [negb andb orb]. by rewrite tcpip_loop_noipv4.
Qed.
End noipv4.

(** ** The window for a manual configuration *)

Section manual.
Context `{NetUpOps W} (pton6 : bytes → option bytes) (ntop6 : bytes → bytes).

(** The window in [w]: the button, what is in the fields. *)
Definition window (back : bool) (c : intfconfig_s) (w w' : W) : Prop := ∀ conf, nu_manual w conf = (back, c, w').
Definition good_ip (c : intfconfig_s) (a : Z) : Prop := cf_ipv4 c ≫= inet_pton4 = Some a.
(** A netmask or a prefix. *)
Definition good_mask (c : intfconfig_s) (m : Z) : Prop :=
  ∃ s, cf_cidr4 c = Some s ∧
    (inet_pton4 s = Some m ∨ inet_pton4 s = None ∧ ∃ n, strtol_int s = Some n ∧ 1 ≤ n ≤ 32 ∧ iface_prefix2netmask n = Ret m).
Definition bad_mask (c : intfconfig_s) : Prop :=
  ∃ s n, cf_cidr4 c = Some s ∧ inet_pton4 s = None ∧ strtol_int s = Some n ∧ ¬ (1 ≤ n ≤ 32).

Lemma collect_ip_good c a i have : good_ip c a → collect_ip c i have = (set_ifi I_ipaddr a i, have + 1).
Proof. unfold good_ip, collect_ip. by intros ->. Qed.
Lemma collect_mask_good c m i have : good_mask c m → collect_mask c i have = Ret (Some (set_ifi I_netmask m i, have + 1)).
Proof.
  intros (s & E & Hm). unfold collect_mask. rewrite E. destruct Hm as [-> | (-> & n & -> & Hn & Hp)]; [done |].
  destruct (Z.leb_spec 1 n), (Z.leb_spec n 32); [| lia ..]. cbn [andb]. by rewrite Hp.
Qed.
Lemma collect_mask_bad c i have : bad_mask c → collect_mask c i have = Ret (Some (i, have)).
Proof.
  intros (s & n & E & Ep & En & Hn). unfold collect_mask. rewrite E, Ep, En.
  destruct (Z.leb_spec 1 n), (Z.leb_spec n 32); [lia | done ..].
Qed.

(** What a window leaves in the interface besides the address and the netmask. *)
Definition with_common (device : bytes) (c : intfconfig_s) (i : iface_t) : iface_t :=
  set_device device (collect_ns c (collect_gw pton6 c i)).
Lemma with_common_ifi device c i k : k ≠ I_gateway → if_i (with_common device c i) k = if_i i k.
Proof.
  intros Hk. unfold with_common, collect_ns, collect_gw. cbn [set_device if_i].
  assert (∀ v j, if_i (set_ifi I_gateway v j) k = if_i j k) as Hg by (intros; cbn [set_ifi if_i]; by apply upd_ne).
  destruct (cf_ns c) as [n |]; [destruct (bool_decide _); cbn [set_dns if_i] |]; (destruct (cf_gw c) as [g |]; [| done]);
    (destruct (inet_pton4 g); [apply Hg |]); destruct (pton6 g); cbn [set_gateway6 if_i]; apply Hg.
Qed.

Context (device : bytes) (Hdevice : (length device < IFNAMSIZ)%nat).

Lemma manual_loop_done fuel stack4 i conf have6 w : manual_loop pton6 (S fuel) device stack4 i conf 2 have6 w = Ret (Some LOADER_OK, i, conf, w).
Proof. reflexivity. Qed.
Lemma manual_loop_good fuel c a m i conf have w w' : have ≠ 2 → window false c w w' → good_ip c a → good_mask c m →
  manual_loop pton6 (S fuel) device true i conf have 0 w =
  manual_loop pton6 fuel device true (with_common device c (set_ifi I_netmask m (set_ifi I_ipaddr a i))) c (have + 1 + 1) 0 w'.
Proof.
  intros Hh Hw Hip Hm. cbn [manual_loop]. rewrite Hw, (collect_ip_good c a), (collect_mask_good c m) by done.
  destruct (Z.eqb_spec have 2); [done |]. cbn [orb mbind outcome_bind]. change (0 =? 2) with false.
  rewrite (proj2 (Nat.ltb_lt _ _) Hdevice). reflexivity.
Qed.
Lemma manual_loop_half fuel c a i conf have w w' : have ≠ 2 → window false c w w' → good_ip c a → bad_mask c →
  manual_loop pton6 (S fuel) device true i conf have 0 w =
  manual_loop pton6 fuel device true (with_common device c (set_ifi I_ipaddr a i)) c (have + 1) 0 w'.
Proof.
  intros Hh Hw Hip Hm. cbn [manual_loop]. rewrite Hw, (collect_ip_good c a), (collect_mask_bad c) by done.
  destruct (Z.eqb_spec have 2); [done |]. cbn [orb mbind outcome_bind]. change (0 =? 2) with false.
  rewrite (proj2 (Nat.ltb_lt _ _) Hdevice). reflexivity.
Qed.

(** Windows that are all complete, for ever. *)
Definition always_complete (P : W → Prop) : Prop :=
  ∀ w, P w → ∃ c a m w', window false c w w' ∧ good_ip c a ∧ good_mask c m ∧ P w'.
Lemma manual_loop_never P fuel : always_complete P → ∀ i conf have w, 2 < have → P w → manual_loop pton6 fuel device true i conf have 0 w = NoFuel.
Proof.
  intros HP. induction fuel as [| fuel IH]; intros i conf have w Hh Hw; [done |].
  destruct (HP w Hw) as (c & a & m & w' & Hwin & Ha & Hm & Hw'). rewrite (manual_loop_good _ c a m _ _ _ _ w') by (done || lia). apply IH; [lia | done].
Qed.

(** C33: manualNetConfig reads an element its arrays do not have.  Where that
    happens to be 0 the window is not shown and nothing is set.  Otherwise one
    window with an address and a netmask is taken as it is; but what was entered
    is counted over the windows: an address given twice passes without a
    netmask, and after a window with nothing but an address no complete one is
    ever accepted. *)
Theorem manualNetConfig_counts i conf w (Hmethod : if_i i I_ipv4method = IPV4_MANUAL_METHOD) :
  (∀ fuel, manualNetConfig pton6 ntop6 None fuel device i conf 42 w = Undef) ∧
  (∀ fuel, (0 < fuel)%nat → ∃ conf', manualNetConfig pton6 ntop6 (Some 0) fuel device i conf 42 w = Ret (Some LOADER_OK, i, conf', w)) ∧
  ∀ stack6, stack6 ≠ 0 →
    (∀ fuel c a m w', (1 < fuel)%nat → window false c w w' → good_ip c a → good_mask c m →
       manualNetConfig pton6 ntop6 (Some stack6) fuel device i conf 42 w =
       Ret (Some LOADER_OK, with_common device c (set_ifi I_netmask m (set_ifi I_ipaddr a i)), c, w')) ∧
    (∀ fuel c a w' c2 a2 w2, (2 < fuel)%nat → window false c w w' → good_ip c a → bad_mask c →
       window false c2 w' w2 → good_ip c2 a2 → bad_mask c2 →
       ∃ i', manualNetConfig pton6 ntop6 (Some stack6) fuel device i conf 42 w = Ret (Some LOADER_OK, i', c2, w2) ∧
         if_i i' I_ipaddr = a2 ∧ if_i i' I_netmask = if_i i I_netmask) ∧
    (∀ P c a w', window false c w w' → good_ip c a → bad_mask c → always_complete P → P w' →
       ∀ fuel, manualNetConfig pton6 ntop6 (Some stack6) fuel device i conf 42 w = NoFuel).
Proof.
  unfold manualNetConfig. rewrite Hmethod. change (42 =? 42) with true. change (IPV4_MANUAL_METHOD =? IPV4_MANUAL_METHOD) with true.
  cbn [andb]. split_and!; [done | |].
  { intros [| fuel] Hf; [lia |]. by eexists. }
  intros s Hs. destruct (Z.eqb_spec s 0); [done |]. cbn [checked mbind outcome_bind]. destruct (Z.eqb_spec s 0) as [| _]; [done |].
  split_and!.
  - intros [| [| fuel]] c a m w' Hf Hw Ha Hm; [lia .. |]. by rewrite (manual_loop_good _ c a m _ _ _ _ w').
  - intros [| [| [| fuel]]] c a w' c2 a2 w2 Hf Hw Ha Hb Hw2 Ha2 Hb2; [lia .. |].
    rewrite (manual_loop_half _ c a _ _ _ _ w'), (manual_loop_half _ c2 a2 _ _ _ _ w2) by done.
    change (0 + 1 + 1) with 2. rewrite manual_loop_done. eexists. split; [reflexivity |].
    rewrite !with_common_ifi by done. cbn [set_ifi if_i]. rewrite !upd_eq, !upd_ne by done. split; [done |].
    rewrite with_common_ifi by done. cbn [set_ifi if_i]. by rewrite upd_ne.
  - intros P c a w' Hw Ha Hb HP Hp fuel. destruct fuel as [| [| fuel]]; [done | |].
    { by rewrite (manual_loop_half _ c a _ _ _ _ w'). }
    rewrite (manual_loop_half _ c a _ _ _ _ w') by done.
    destruct (HP w' Hp) as (c2 & a2 & m2 & w2 & Hw2 & Ha2 & Hm2 & Hp2). rewrite (manual_loop_good _ c2 a2 m2 _ _ _ _ w2) by done.
    by apply (manual_loop_never P).
Qed.
End manual.

(** ** The menu of the cards *)

(** Cards are named by letters and a number behind them (eth0, em1, wlan10). *)
Definition card_parts (name : bytes) : bytes * bytes := span isalpha name.
Definition lettered (name : bytes) : Prop :=
  let '(letters, number) := card_parts name in letters ≠ [] ∧ number ≠ [] ∧ digits number.
(** What they are told apart by. *)
Definition card_key (name : bytes) : bytes * Z := let '(letters, number) := card_parts name in (letters, dec_val number).
Definition key_cmp (a b : bytes * Z) : comparison :=
  match strcmp a.1 b.1 with Eq => a.2 ?= b.2 | c => c end.

Lemma key_cmp_antisym a b : key_cmp b a = CompOpp (key_cmp a b).
Proof. unfold key_cmp. rewrite (strcmp_antisym a.1 b.1), (Z.compare_antisym a.2 b.2). by destruct (strcmp a.1 b.1). Qed.
Lemma key_cmp_eq a b : key_cmp a b = Eq → a = b.
Proof.
  destruct a as [a x], b as [b y]. unfold key_cmp. cbn. destruct (strcmp a b) eqn:E; try done.
  intros Hxy%Z.compare_eq_iff. apply strcmp_eq in E. by subst.
Qed.
Lemma key_cmp_refl a : key_cmp a a = Eq.
Proof. unfold key_cmp. by rewrite strcmp_refl, Z.compare_refl. Qed.
Lemma key_cmp_trans a b c : key_cmp a b = Lt → key_cmp b c = Lt → key_cmp a c = Lt.
Proof.
  destruct a as [a x], b as [b y], c as [c z]. unfold key_cmp. cbn [fst snd].
  destruct (strcmp a b) eqn:E1; [| | done]; (destruct (strcmp b c) eqn:E2; [| | done]).
  - apply strcmp_eq in E1 as ->. rewrite E2, !Z.compare_lt_iff. lia.
  - apply strcmp_eq in E1 as ->. by rewrite E2.
  - apply strcmp_eq in E2 as <-. by rewrite E1.
  - by rewrite (strcmp_trans _ _ _ E1 E2).
Qed.

(** A name is its letters and its number. *)
Lemma span_split p s : s = (span p s).1 ++ (span p s).2 ∧ Forall (λ c, p c = true) (span p s).1.
Proof.
  induction s as [| c s [IH1 IH2]]; [by split |]. cbn. destruct (p c) eqn:E; [| by split].
  destruct (span p s) as [a t]. cbn in *. split; [by rewrite <- IH1 | by constructor].
Qed.
Lemma lettered_parts name : lettered name → ∃ letters number, name = letters ++ number ∧ card_key name = (letters, dec_val number) ∧
  letters ≠ [] ∧ Forall (λ c, isalpha c = true) letters ∧ number ≠ [] ∧ digits number.
Proof.
  unfold lettered, card_key, card_parts. destruct (span_split isalpha name) as [E Hl].
  destruct (span isalpha name) as [l n]. cbn in *. intros (H1 & H2 & H3). by exists l, n.
Qed.

(** What may stand behind a name: nothing, or something that continues neither
    the letters nor the number. *)
Definition separated (x : bytes) : Prop := stops isalnum x.
Lemma separated_stops x : separated x → stops isalpha x ∧ stops isdigit x.
Proof. intros Hx. split; intros c Hc; specialize (Hx c Hc); unfold isalnum in Hx; by apply orb_false_iff in Hx as []. Qed.

(** A segment that is taken off both strings. *)
Lemma vercmp_step fuel k (p q x y : bytes) : (k = isdigit ∨ k = isalpha) → p ≠ [] → q ≠ [] →
  Forall (λ c, k c = true) p → Forall (λ c, k c = true) q → stops k x → stops k y →
  vercmp_loop (S fuel) (p ++ x) (q ++ y) =
  let rc := segment_cmp (isdigit (default 0 (head p))) p q in if rc =? 0 then vercmp_loop fuel x y else Ret rc.
Proof.
  intros Hk Hp Hq Fp Fq Hx Hy. destruct p as [| c p]; [done |]. destruct q as [| d q]; [done |].
  pose proof Fp as [Hc _]%list.Forall_cons. pose proof Fq as [Hd _]%list.Forall_cons.
  assert (∀ b, k b = true → isalnum b = true) as Hal.
  { intros b Hb. unfold isalnum. destruct Hk as [-> | ->]; rewrite Hb; [apply orb_true_r | done]. }
  assert ((if isdigit c then isdigit else isalpha) = k) as Ek.
  { destruct Hk as [-> | ->]; [by rewrite Hc | by rewrite alpha_not_digit]. }
  assert (∀ (b : Z) l, isalnum b = true → snd (span (negb ∘ isalnum) (b :: l)) = b :: l) as Hskip.
  { intros b l Hb. cbn. by rewrite Hb. }
  cbn [app vercmp_loop]. rewrite !Hskip by auto. cbn [head default from_option id]. rewrite Ek.
  change (c :: p ++ x) with ((c :: p) ++ x). change (d :: q ++ y) with ((d :: q) ++ y). rewrite !span_run by done.
  by rewrite !bool_decide_eq_false_2 by done.
Qed.

(** simpleStringCmp on strings that begin with different names compares the
    names. *)
Lemma sign_of_zero c : sign_of c =? 0 = match c with Eq => true | _ => false end.
Proof. by destruct c. Qed.
Lemma simpleStringCmp_names a b x y : lettered a → lettered b → separated x → separated y → card_key a ≠ card_key b →
  simpleStringCmp (a ++ x) (b ++ y) = Ret (sign_of (key_cmp (card_key a) (card_key b))).
Proof.
  intros (l & n & -> & Ka & Hl & Fl & Hn & Fn)%lettered_parts (m & k & -> & Kb & Hm & Fm & Hk & Fk)%lettered_parts Hx Hy.
  rewrite Ka, Kb. intros Hne. apply separated_stops in Hx as [_ Dx], Hy as [_ Dy].
  assert (∀ s t, s ≠ [] → digits s → stops isalpha (s ++ t)) as Hstop.
  { intros [| c s] t Hs Hd; [done |]. apply list.Forall_cons in Hd as [Hc _]. intros z [= <-]. by apply digit_not_alpha. }
  assert (Hlen : ∃ f, length ((l ++ n) ++ x) = S f).
  { rewrite !length_app. destruct l; [done |]. cbn. by eexists. }
  destruct Hlen as [f Ef]. unfold simpleStringCmp, rpmvercmp. rewrite Ef, <- !app_assoc.
  assert (vercmp_loop (S (S f)) (l ++ n ++ x) (m ++ k ++ y) = Ret (sign_of (key_cmp (l, dec_val n) (m, dec_val k)))) as ->.
  { rewrite (vercmp_step _ isalpha) by (auto; by right). cbn zeta. unfold key_cmp. cbn [fst snd].
    assert (isdigit (default 0 (head l)) = false) as ->.
    { destruct l as [| c l]; [done |]. apply list.Forall_cons in Fl as [Hc _]. by apply alpha_not_digit. }
    change (segment_cmp false l m) with (sign_of (strcmp l m)). rewrite sign_of_zero. destruct (strcmp l m) eqn:El; [| done..].
    apply strcmp_eq in El as ->. rewrite (vercmp_step _ isdigit) by (auto; by left). cbn zeta.
    assert (isdigit (default 0 (head n)) = true) as ->.
    { destruct n as [| c n]; [done |]. by apply list.Forall_cons in Fn as [Hc _]. }
    rewrite segment_cmp_num by done. rewrite sign_of_zero. destruct (dec_val n ?= dec_val k) eqn:En; [| done ..].
    apply Z.compare_eq_iff in En. congruence. }
  destruct (streq _ _) eqn:Es; [| done]. apply streq_spec in Es. exfalso. apply Hne.
  apply (f_equal (span isalpha)) in Es. rewrite !span_run in Es by auto. injection Es as -> Es.
  apply (f_equal (span isdigit)) in Es. rewrite !span_run in Es by auto. by injection Es as -> _.
Qed.

(** What the C standard promises of qsort with simpleStringCmp: the same strings
    in another order, and in the order of the comparison when its answers are
    consistent on them. *)
Definition not_after (a b : bytes) : Prop := ∃ r, simpleStringCmp a b = Ret r ∧ r ≤ 0.
Record consistent (l : list bytes) : Prop := {
  co_answers : ∀ a b, a ∈ l → b ∈ l → ∃ r, simpleStringCmp a b = Ret r ∧ simpleStringCmp b a = Ret (- r);
  co_trans : ∀ a b c, a ∈ l → b ∈ l → c ∈ l → not_after a b → not_after b c → not_after a c }.
Record sorts_strings (qsort : list bytes → list bytes) : Prop := {
  sn_perm : ∀ l, Permutation (qsort l) l;
  sn_sorted : ∀ l, consistent l → StronglySorted not_after (qsort l) }.

(** Cards with names of letters and a number, each another. *)
Definition named_cards (devs : list device) : Prop :=
  Forall (λ d, lettered (dv_device d)) devs ∧ NoDup ((card_key ∘ dv_device) <$> devs).
Lemma named_cards_perm l devs : Permutation l devs → named_cards devs → named_cards l.
Proof. unfold named_cards. intros ->. done. Qed.
Lemma named_same devs d e : named_cards devs → d ∈ devs → e ∈ devs → card_key (dv_device d) = card_key (dv_device e) → d = e.
Proof.
  intros [_ Hn] (i & Hi)%list_elem_of_lookup (j & Hj)%list_elem_of_lookup E.
  assert (i = j) as ->; [| congruence]. eapply (NoDup_lookup _ _ _ (card_key (dv_device d)) Hn).
  - by rewrite list_lookup_fmap, Hi.
  - by rewrite list_lookup_fmap, Hj, E.
Qed.

(** Strings that begin with the name of a card. *)
Definition titled (f : device → bytes) : Prop := ∀ d, ∃ x, f d = dv_device d ++ x ∧ separated x.
Lemma titled_name : titled dv_device.
Proof. intros d. exists []. by rewrite app_nil_r. Qed.
Lemma titled_text : titled card_name.
Proof. intros d. eexists. split; [reflexivity |]. by intros c [= <-]. Qed.

Section titles.
Context (f : device → bytes) (Hf : titled f) (devs : list device) (Hdevs : named_cards devs).
Abbreviation cmp d e := (key_cmp (card_key (dv_device d)) (card_key (dv_device e))).

Lemma titled_cmp d e : d ∈ devs → e ∈ devs → simpleStringCmp (f d) (f e) = Ret (sign_of (cmp d e)).
Proof.
  intros Hd He. destruct (decide (card_key (dv_device d) = card_key (dv_device e))) as [E | Hne].
  - apply (named_same devs) in E as ->; [| done ..]. unfold simpleStringCmp, rpmvercmp. rewrite (proj2 (streq_spec _ _)) by done. by rewrite key_cmp_refl.
  - destruct Hdevs as [Hl _]. rewrite list.Forall_forall in Hl. destruct (Hf d) as (x & -> & Hx), (Hf e) as (y & -> & Hy).
    by apply simpleStringCmp_names; auto.
Qed.
Lemma titled_order d e : d ∈ devs → e ∈ devs → not_after (f d) (f e) ↔ cmp d e ≠ Gt.
Proof.
  intros Hd He. unfold not_after. rewrite titled_cmp by done. split.
  - intros (r & [= <-] & Hr). by destruct (cmp d e).
  - intros Hc. eexists. split; [reflexivity |]. by destruct (cmp d e).
Qed.
Lemma titled_consistent : consistent (f <$> devs).
Proof.
  constructor.
  - intros a b (d & -> & Hd)%list_elem_of_fmap (e & -> & He)%list_elem_of_fmap. rewrite !titled_cmp by done. eexists.
    split; [reflexivity |]. rewrite (key_cmp_antisym (card_key (dv_device d))). by destruct (cmp d e).
  - intros a b c (d & -> & Hd)%list_elem_of_fmap (e & -> & He)%list_elem_of_fmap (g & -> & Hg)%list_elem_of_fmap.
    rewrite !titled_order by done. intros H1 H2. destruct (cmp d e) eqn:E1; [| | done].
    + apply key_cmp_eq in E1. by rewrite E1.
    + destruct (cmp e g) eqn:E2; [| | done]; [apply key_cmp_eq in E2; by rewrite <- E2, E1 | by rewrite (key_cmp_trans _ _ _ E1 E2)].
Qed.
End titles.

(** The names of the cards and the texts of the menu are in the same order. *)
Definition card_before (d e : device) : Prop := key_cmp (card_key (dv_device d)) (card_key (dv_device e)) = Lt.
Lemma titled_sorted f l devs : titled f → named_cards devs → Permutation l devs → StronglySorted not_after (f <$> l) → StronglySorted card_before l.
Proof.
  intros Hf Hdevs Hl. pose proof (named_cards_perm l devs Hl Hdevs) as Hnl. clear Hdevs Hl devs.
  assert (∀ k, (∀ d, d ∈ k → d ∈ l) → NoDup ((card_key ∘ dv_device) <$> k) → StronglySorted not_after (f <$> k) → StronglySorted card_before k) as Hk;
    [| apply Hk; [done | apply Hnl]].
  induction k as [| d k IH]; intros Hin Hnd Hs; [constructor |]. rewrite fmap_cons in *. apply StronglySorted_inv in Hs as [Hs Hd].
  apply list.NoDup_cons in Hnd as [Hnew Hnd]. constructor; [apply IH; [| done | done]; intros e He; apply Hin; by right |].
  apply list.Forall_forall. intros e He. pose proof (proj1 (list.Forall_forall _ _) Hd (f e) (list_elem_of_fmap_2 _ _ _ He)) as Hd'. clear Hd. rename Hd' into Hd.
  apply (titled_order f Hf l) in Hd; [| done | apply Hin; by left | apply Hin; by right]. unfold card_before.
  destruct (key_cmp _ _) eqn:E; [| done | done]. apply key_cmp_eq in E. exfalso. apply Hnew. change ((card_key ∘ dv_device) d ∈ (card_key ∘ dv_device) <$> k). rewrite list_elem_of_fmap. by exists e.
Qed.
Lemma card_before_unique l k : StronglySorted card_before l → StronglySorted card_before k → Permutation l k → l = k.
Proof.
  revert k. induction l as [| d l IH]; intros k Hl Hk Hp; [by apply Permutation_nil_l in Hp |].
  destruct k as [| e k]; [by apply Permutation_nil_r in Hp |]. apply StronglySorted_inv in Hl as [Hl Hd], Hk as [Hk He].
  assert (d = e) as ->.
  { assert (d ∈ e :: k) as Hde by (rewrite <- Hp; by left). assert (e ∈ d :: l) as Hed by (rewrite Hp; by left).
    rewrite list.Forall_forall in Hd, He. apply elem_of_cons in Hde as [| Hde]; [done |]. apply elem_of_cons in Hed as [| Hed]; [done |].
    specialize (Hd e Hed). specialize (He d Hde). unfold card_before in Hd, He.
    rewrite (key_cmp_antisym (card_key (dv_device d))), Hd in He. discriminate. }
  f_equal. apply IH; [done | done |]. by apply (Permutation_cons_inv (a := e)).
Qed.
Lemma cards_sorted qsort devs : sorts_strings qsort → named_cards devs →
  ∃ l, Permutation l devs ∧ qsort (card_name <$> devs) = card_name <$> l ∧ qsort (dv_device <$> devs) = dv_device <$> l.
Proof.
  intros [Hperm Hsort] Hn.
  destruct (Permutation_map_inv card_name _ (Hperm (card_name <$> devs))) as (l & El & Hl).
  destruct (Permutation_map_inv dv_device _ (Hperm (dv_device <$> devs))) as (k & Ek & Hk).
  change (map card_name l) with (card_name <$> l) in El. 
  exists l. split; [by symmetry |]. split; [exact El |]. etransitivity; [exact Ek |]. f_equal.
  apply card_before_unique; [| | by rewrite <- Hk, <- Hl].
  - apply (titled_sorted dv_device k devs titled_name Hn); [by symmetry |]. change (StronglySorted not_after (map dv_device k)).
    rewrite <- Ek. apply Hsort. apply (titled_consistent _ titled_name _ Hn).
  - apply (titled_sorted card_name l devs titled_text Hn); [by symmetry |]. rewrite <- El. apply Hsort. apply (titled_consistent _ titled_text _ Hn).
Qed.

Section cards.
Context `{NetUpOps W} (mac2str : bytes → option bytes) (qsort : list bytes → list bytes).

Lemma has_string_unset s set ld : ld_i ld set = 0 → has_string s set ld = false.
Proof. intros E. unfold has_string. rewrite E. apply andb_false_r. Qed.
Lemma scan_cards_unnamed mac devs ld : ld_i ld L_netDev_set = 0 → ∀ found seen, scan_cards mac2str mac devs found seen ld = (found, seen ++ devs, ld).
Proof.
  intros E. induction devs as [| d devs IH]; intros found seen; cbn [scan_cards]; [by rewrite app_nil_r |].
  rewrite has_string_unset by done. by rewrite IH, <- app_assoc.
Qed.

(** The only card there is. *)
Lemma chooseNetworkInterface_single fuel d ld w : sorts_strings qsort → ld_i ld L_netDev_set = 0 →
  chooseNetworkInterface mac2str qsort fuel (Some [d]) ld w = Ret (LOADER_NOOP, set_lds L_netDev (Some (dv_device d)) ld, w).
Proof.
  intros Hq Hunset. pose proof (sn_perm _ Hq (dv_device <$> [d])) as Hp. apply Permutation_singleton_r in Hp as Edev.
  unfold chooseNetworkInterface, wanted_mac. rewrite has_string_unset by done. cbn [mbind outcome_bind].
  rewrite scan_cards_unnamed by done. cbn [app length Nat.eqb]. rewrite Edev. reflexivity.
Qed.

(** C32: Without a card in the data chooseNetworkInterface takes the only one
    there is, and else the one whose line of the menu was chosen, although the
    lines and the names of the cards are sorted on their own: on cards that are
    named by letters and a number, each by others, simpleStringCmp has lines and
    names in the same order, eth2 in front of eth10. *)
Theorem chooseNetworkInterface_menu fuel devs ld w (Hq : sorts_strings qsort)
  (Hunset : ld_i ld L_netDev_set = 0) (Hfuel : (0 < fuel)%nat) :
  (∀ d, devs = [d] → chooseNetworkInterface mac2str qsort fuel (Some devs) ld w = Ret (LOADER_NOOP, set_lds L_netDev (Some (dv_device d)) ld, w)) ∧
  (named_cards devs → ∀ rc k w' text, (1 < length devs)%nat → nu_menu w (qsort (card_name <$> devs)) 0 = (rc, k, w') → rc ≠ 2 → rc ≠ 3 →
     qsort (card_name <$> devs) !! k = Some text →
     ∃ d, d ∈ devs ∧ text = card_name d ∧
       chooseNetworkInterface mac2str qsort fuel (Some devs) ld w = Ret (LOADER_OK, set_lds L_netDev (Some (dv_device d)) ld, w')).
Proof.
  split; [intros d ->; by apply chooseNetworkInterface_single |]. intros Hnames.
  destruct (cards_sorted qsort devs Hq Hnames) as (l & Hl & Etext & Edev).
  unfold chooseNetworkInterface, wanted_mac. rewrite has_string_unset by done. cbn [mbind outcome_bind].
  rewrite scan_cards_unnamed by done. cbn [app].
  - intros rc k w' text Hlen Hmenu Hid Hback Hk. rewrite Etext, list_lookup_fmap in Hk.
    destruct (l !! k) as [d |] eqn:Ed; cbn [fmap option_fmap option_map] in Hk; [| done]. injection Hk as <-.
    exists d. split_and!; [rewrite <- Hl; by eapply list_elem_of_lookup_2 | done |].
    destruct (Nat.eqb_spec (length devs) 0); [lia |]. destruct (Nat.eqb_spec (length devs) 1); [lia |]. rewrite has_string_unset by done. cbn [andb].
    destruct fuel as [| fuel]; [lia |]. cbn [cards_loop]. rewrite Hmenu. destruct (Z.eqb_spec rc 2); [done |]. destruct (Z.eqb_spec rc 3); [done |].
    unfold entry_at. rewrite Edev, lookup_app_l by (rewrite !length_fmap; by eapply lookup_lt_Some). rewrite !list_lookup_fmap, Ed. reflexivity.
Qed.
End cards.

(** ** A static configuration, from the data to a connection *)


Section static.
Context `{NetUpOps W} (pton6 : bytes → option bytes) (ntop6 : bytes → bytes) (mac2str : bytes → option bytes) (qsort : list bytes → list bytes).
Notation is_ip6 := (λ s, bool_decide (is_Some (pton6 s))).




End static.

(** ** Samples *)

(** A network whose answers are listed; the actions are kept. *)
Record netw := mkNetw {
  nw_manual : list (bool * intfconfig_s); nw_menu : list (Z * nat); nw_replies : list nm_reply; nw_done : list (list action) }.
#[local] Instance netw_ops : NetUpOps netw := {|
  nu_tcpip w choice := (false, choice, IPV4_MANUAL_METHOD, w);
  nu_manual w conf :=
    match nw_manual w with
    | [] => (true, conf, w)
    | (back, c) :: l => (back, c, mkNetw l (nw_menu w) (nw_replies w) (nw_done w))
    end;
  nu_menu w names k :=
    match nw_menu w with
    | [] => (3, k, w)
    | (rc, k) :: l => (rc, k, mkNetw (nw_manual w) l (nw_replies w) (nw_done w))
    end;
  nu_seconds w s := (2, s, w);
  nu_identify w dev secs := w;
  nu_link w dev := (0, w);
  nu_sleep w := w;
  nu_ethtool w calls := w;
  nu_env w a := true;
  nu_did w acts := mkNetw (nw_manual w) (nw_menu w) (nw_replies w) (nw_done w ++ [acts]);
  nu_bus w := true;
  nu_message w := true;
  nu_append w := true;
  nu_get w :=
    match nw_replies w with
    | [] => (No_reply, w)
    | r :: l => (r, mkNetw (nw_manual w) (nw_menu w) l (nw_done w))
    end
|}.
Definition quiet_net : netw := mkNetw [] [] [] [].

(** An insertion sort with simpleStringCmp. *)
Definition goes_first (a b : bytes) : bool := match simpleStringCmp a b with Ret r => r <=? 0 | _ => false end.
Fixpoint insert_name (a : bytes) (l : list bytes) : list bytes :=
  match l with [] => [a] | b :: l => if goes_first a b then a :: b :: l else b :: insert_name a l end.
Definition names_qsort (l : list bytes) : list bytes := foldr insert_name [] l.

Lemma goes_first_spec a b : goes_first a b = true ↔ not_after a b.
Proof.
  unfold goes_first, not_after. destruct (simpleStringCmp a b) as [r | |]; [| by split; [| intros (? & ? & _)] ..].
  rewrite Z.leb_le. split; [by exists r | by intros (? & [= <-] & ?)].
Qed.
Lemma insert_name_perm a l : Permutation (insert_name a l) (a :: l).
Proof. induction l as [| b l IH]; [done |]. cbn. destruct (goes_first a b); [done |]. rewrite IH. apply perm_swap. Qed.
Lemma names_qsort_perm l : Permutation (names_qsort l) l.
Proof. induction l as [| a l IH]; [done |]. cbn. by rewrite insert_name_perm, IH. Qed.
Lemma consistent_total l a b : consistent l → a ∈ l → b ∈ l → goes_first a b = false → not_after b a.
Proof.
  intros Hc Ha Hb. unfold goes_first. destruct (co_answers _ Hc a b Ha Hb) as (r & -> & Eb). intros Hr%Z.leb_gt. exists (- r). split; [done | lia].
Qed.
Lemma insert_name_sorted all a l : consistent all → a ∈ all → (∀ b, b ∈ l → b ∈ all) → StronglySorted not_after l → StronglySorted not_after (insert_name a l).
Proof.
  intros Hc Ha Hin. induction 1 as [| b l Hs IH Hb]; cbn; [by repeat constructor |].
  assert (b ∈ all) as Hball by (apply Hin; by left). assert (∀ c, c ∈ l → c ∈ all) as Hl by (intros c Hc'; apply Hin; by right).
  rewrite list.Forall_forall in Hb. destruct (goes_first a b) eqn:E.
  - apply goes_first_spec in E. constructor; [constructor; [done | by apply list.Forall_forall] |].
    constructor; [done |]. apply list.Forall_forall. intros c Hcl. apply (co_trans _ Hc a b c); auto.
  - constructor; [by apply IH |]. apply list.Forall_forall. intros c. rewrite insert_name_perm.
    intros [-> | Hcl]%elem_of_cons; [by apply (consistent_total all) | by apply Hb].
Qed.
Lemma names_qsort_sorts : sorts_strings names_qsort.
Proof.
  constructor; [apply names_qsort_perm |]. intros all Hc.
  assert (∀ l, (∀ b, b ∈ l → b ∈ all) → StronglySorted not_after (names_qsort l)) as Hl; [| by apply Hl].
  induction l as [| a l IH]; intros Hin; [constructor |]. cbn. apply (insert_name_sorted all); [done | apply Hin; by left | |].
  - intros b Hb. apply Hin. right. by rewrite <- (names_qsort_perm l).
  - apply IH. intros b Hb. apply Hin. by right.
Qed.

Lemma get_connection_polls_witness :
  get_connection (mkNetw [] [] [NM_state 2; NM_state 2; NM_state 3; NM_state 2] []) = (0, mkNetw [] [] [NM_state 2] []).
Proof.
  destruct (get_connection_polls (mkNetw [] [] [NM_state 2; NM_state 2; NM_state 3; NM_state 2] [])) as [Hk _]; [by split_and! |].
  rewrite (Hk 2%nat); [reflexivity | lia |]. split.
  - intros [| [| j]] Hj; [by exists 2 | by exists 2 | lia].
  - intros (s & E & Hs). apply Hs. injection E as <-. reflexivity.
Defined.

Lemma readNetConfig_noipv4_hangs_witness :
  readNetConfig (λ _, None) (λ _, str "::") (λ _, None) (Some 0) 1000 (str "eth0") iface_init_iface_t METHOD_URL LOADER_FLAGS_NOIPV4 quiet_net = NoFuel.
Proof. apply readNetConfig_noipv4_hangs; reflexivity. Defined.

Definition half_window (ip : string) : intfconfig_s := mkConf (Some (str ip)) (Some (str "none")) (Some []) (Some []).
Lemma manualNetConfig_counts_witness :
  ∃ i', manualNetConfig (λ _, None) (λ _, str "::") (Some 1) 3 (str "eth0") (set_ifi I_ipv4method IPV4_MANUAL_METHOD iface_init_iface_t) empty_conf 42
    (mkNetw [(false, half_window "10.0.0.5"); (false, half_window "10.0.0.6")] [] [] []) = Ret (Some LOADER_OK, i', half_window "10.0.0.6", quiet_net) ∧
    if_i i' I_ipaddr = 100663306 ∧ if_i i' I_netmask = 0.
Proof.
  destruct (manualNetConfig_counts (λ _, None) (λ _, str "::") (str "eth0") ltac:(cbn; unfold IFNAMSIZ; lia)
    (set_ifi I_ipv4method IPV4_MANUAL_METHOD iface_init_iface_t) empty_conf
    (mkNetw [(false, half_window "10.0.0.5"); (false, half_window "10.0.0.6")] [] [] []) eq_refl) as (_ & _ & H).
  destruct (H 1 ltac:(discriminate)) as (_ & Htwice & _).
  assert (∀ ip, bad_mask (half_window ip)) as Hbad by (intros ip; exists (str "none"), 0; split_and!; [reflexivity .. | lia]).
  apply (Htwice 3%nat (half_window "10.0.0.5") 83886090 (mkNetw [(false, half_window "10.0.0.6")] [] [] [])); try done; lia.
Defined.

Definition card (name : string) : device := mkDevice (str name) (str "Ethernet device " ++ str name) 0 (hwaddr None).
Lemma chooseNetworkInterface_menu_witness :
  names_qsort (card_name <$> [card "eth10"; card "eth2"; card "em1"]) = card_name <$> [card "em1"; card "eth2"; card "eth10"] ∧
  chooseNetworkInterface (λ _, None) names_qsort 1 (Some [card "eth10"; card "eth2"; card "em1"]) zero_ld (mkNetw [] [(1, 1%nat)] [] []) =
  Ret (LOADER_OK, set_lds L_netDev (Some (str "eth2")) zero_ld, quiet_net).
Proof.
  split; [vm_compute; reflexivity |].
  destruct (chooseNetworkInterface_menu (λ _, None) names_qsort 1 [card "eth10"; card "eth2"; card "em1"] zero_ld (mkNetw [] [(1, 1%nat)] [] []))
    as [_ Hmenu]; [exact names_qsort_sorts | reflexivity | lia |].
  destruct (Hmenu ltac:(split; [repeat constructor; vm_compute; (repeat split); try discriminate; repeat constructor |
      apply (bool_decide_unpack _); vm_compute; exact I]) 1 1%nat quiet_net (card_name (card "eth2")))
    as (d & Hd & Et & ->); [cbn; lia | vm_compute; reflexivity | lia | lia | vm_compute; reflexivity |].
  apply list_elem_of_In in Hd. destruct Hd as [<- | [<- | [<- | []]]]; [exfalso; vm_compute in Et; discriminate | done | exfalso; vm_compute in Et; discriminate].
Defined.

