(* ===== verification/DriverDisk.v ===== *)
(** * Driver disks (driverdisk.c)

    The checks on a driver disk and its loading, and loadDriverFromMedia as the
    state machine it is.  The dialogues and the bus are calls of [DriverOps]; the
    disks are those getDevices finds.  [turns] bounds the turns of the loops that
    go through dialogues. *)

From S2P Require Import Prelude CLib Posix Loader Sys Cpio ModuleInfo Getparts Steps Host Imount Misc Methods Devices.

Class DriverOps (W : Type) := {
  (* newtWinMenu: its result and the entry; the entry it starts on may be -1 *)
  dd_menu : W → list bytes → Z → Z * Z * W;
  dd_choice : W → Z * W;
  dd_ternary : W → Z * W;
  (* newt_select_file in a directory *)
  dd_select : W → bytes → option bytes * W;
  (* umount: 0 or errno *)
  dd_umount : W → bytes → Z * W;
  dd_busProbe : W → W;
  dd_chooseManualDriver : W → Z → Z * W;
  (* stop_fw_loader and start_fw_loader with a search path *)
  dd_restart_fw : W → list bytes → W
}.

Record moduleBallLocation := mkBall { ml_path : bytes; ml_title : bytes; ml_version : Z }.
(** The modules, the places they come from (a pointer is the index), the search
    path for firmware and the static [disknum]. *)
Record dd_state := mkDds { ds_modInfo : moduleInfoSet; ds_balls : list moduleBallLocation; ds_fw_path : list bytes; ds_disknum : nat }.

Definition EINVAL : Z := 22.

Section driverdisk.
Context {W G : Type} `{HostOps W G} `{DriverOps W}.
(** Memory that was never set, the size in a stat that failed, and the bounds of
    [copyDirectory] and of reads. *)
Context (junk : nat → bytes) (junk_size : Z) (depth fuel : nat).

Definition driverDiskFiles : list bytes := [str "modinfo"; str "modules.dep"; str "modules.cgz"; str "modules.alias"].
Definition ddFsTypes : list bytes := [str "vfat"; str "ext2"; str "iso9660"].

(** rhdd, or else rhdd-6.1. *)
Definition dd_ident (mntpt : bytes) (w : W) : bytes :=
  if s_access w (mntpt ++ str "/rhdd") =? 0 then mntpt ++ str "/rhdd" else mntpt ++ str "/rhdd-6.1".
Definition file_size (file : bytes) (w : W) : Z :=
  match h_contents w file with Some text => Z.of_nat (length text) | None => junk_size end.
Definition verifyDriverDisk (mntpt : bytes) (w : W) : Z :=
  if forallb (λ f, s_access w (mntpt ++ [47] ++ f) =? 0) driverDiskFiles then
    if file_size (dd_ident mntpt w) w =? 0 then LOADER_BACK else LOADER_OK
  else LOADER_BACK.

Definition dd_dir (disknum : nat) : bytes := str "/tmp/DD-" ++ fmt_d (Z.of_nat disknum).

(** The title ends in front of a line end; of an empty file a byte in front of
    the buffer is read. *)
Definition dd_title (text : bytes) : outcome bytes :=
  c ← checked (list.last text); Ret (until_nul (if c =? 10 then take (length text - 1) text else text)).

Definition loadDriverDisk (mntpt : bytes) (st : dd_state) (w : W) : outcome (Z * dd_state * W) :=
  if negb (s_access w (mntpt ++ str "/rhdd") =? 0) && negb (s_access w (mntpt ++ str "/rhdd-6.1") =? 0) then Ret (LOADER_BACK, st, w)
  else
    let version := if s_access w (mntpt ++ str "/rhdd") =? 0 then 1 else 0 in
    text ← checked (h_contents w (dd_ident mntpt w));
    title ← dd_title text;
    let dest := dd_dir (ds_disknum st) in
    let '(_, w) := mkdirChain dest w in
    '(_, w) ← copyDirectory depth fuel mntpt dest w;
    let ball := mkBall (dest ++ str "/modules.cgz") title version in
    let fwdir := dest ++ str "/firmware" in
    let '(fw_path, w) :=
      if (s_access w fwdir =? 0) && (h_searchable w fwdir =? 0) then
        (ds_fw_path st ++ [fwdir], dd_restart_fw w (ds_fw_path st ++ [fwdir]))
      else (ds_fw_path st, w) in
    let file := (λ t, (mkFile t 0, Z.of_nat (length t))) <$> h_contents w (mntpt ++ str "/modinfo") in
    '(_, modInfo) ← readModuleInfo file (ds_modInfo st) (Some (length (ds_balls st))) true;
    Ret (0, mkDds modInfo (ds_balls st ++ [ball]) fw_path (ds_disknum st + 1), w).

(** ** The devices *)

(** What read puts into a buffer of 64 bytes. *)
Definition sys_attr (w : W) (path : bytes) : option bytes :=
  match h_contents w path with Some (c :: d) => Some (take 64 (c :: d)) | _ => None end.
Definition devices_of (class : Z) (w : W) : outcome (option (list device)) := getDevices (h_readdir w) (sys_attr w) (junk 64) class.

Definition is_removable (d : device) : bool := match dv_priv d with removable n => negb (n =? 0) | hwaddr a => bool_decide (is_Some a) end.
(** The names of the removable devices; a null list of devices is read.
    [devNames] is reallocated for each, which is undefined when it was freed. *)
Definition getRemovableDevices (freed : bool) (w : W) : outcome (list bytes) :=
  devs ← devices_of (Z.lor DEVICE_DISK DEVICE_CDROM) w;
  devs ← checked devs;
  let names := dv_device <$> List.filter is_removable devs in
  _ ← defined_if (negb freed || bool_decide (names = []));
  Ret names.

(** ** loadDriverFromMedia *)

Inductive dd_stage := DEV_DEVICE | DEV_PART | DEV_CHOOSEFILE | DEV_LOADFILE | DEV_INSERT | DEV_LOAD | DEV_PROBE | DEV_DONE.
(** A pointer to memory that may have been freed. *)
Inductive heap_string := Null | Live (s : bytes) | Dangling.
Record dd_vars := mkDd {
  v_stage : dd_stage; v_dir : Z; v_num : Z; v_found : nat; v_before : nat;
  v_device : option bytes; v_part : heap_string; v_ddfile : option bytes; v_freed : bool }.
Definition to_stage (s : dd_stage) (dir : Z) (v : dd_vars) : dd_vars :=
  mkDd s dir (v_num v) (v_found v) (v_before v) (v_device v) (v_part v) (v_ddfile v) (v_freed v).
Definition set_num (n : Z) (v : dd_vars) : dd_vars :=
  mkDd (v_stage v) (v_dir v) n (v_found v) (v_before v) (v_device v) (v_part v) (v_ddfile v) (v_freed v).
Definition set_counts (found before : nat) (v : dd_vars) : dd_vars :=
  mkDd (v_stage v) (v_dir v) (v_num v) found before (v_device v) (v_part v) (v_ddfile v) (v_freed v).
Definition set_part (p : heap_string) (v : dd_vars) : dd_vars :=
  mkDd (v_stage v) (v_dir v) (v_num v) (v_found v) (v_before v) (v_device v) p (v_ddfile v) (v_freed v).
Definition set_ddfile (f : option bytes) (v : dd_vars) : dd_vars :=
  mkDd (v_stage v) (v_dir v) (v_num v) (v_found v) (v_before v) (v_device v) (v_part v) f (v_freed v).
(** [device = strdup(...); free(devNames);] *)
Definition take_device (d : bytes) (v : dd_vars) : dd_vars :=
  mkDd (v_stage v) (v_dir v) (v_num v) (v_found v) (v_before v) (Some d) (v_part v) (v_ddfile v) true.

(** The next turn, the result, or the end of the process. *)
Inductive dd_next := Next (v : dd_vars) | Result (rc : Z) | Exit.
Definition dd_step : Type := outcome (dd_next * dd_state * W).
Definition tmp_drivers : bytes := str "/tmp/drivers".
Definition tmp_dpart : bytes := str "/tmp/dpart".
Definition loop6 : bytes := str "/dev/loop6".

Definition dev_loadfile (v : dd_vars) (st : dd_state) (w : W) : dd_step :=
  match v_ddfile v with
  | None => Ret (Next (to_stage DEV_CHOOSEFILE (v_dir v) v), st, w)
  | Some ddfile =>
      if v_dir v =? -1 then
        let '(_, w) := s_unlink (umountLoopback tmp_drivers loop6 w) tmp_drivers in
        Ret (Next (to_stage DEV_CHOOSEFILE (v_dir v) (set_ddfile None v)), st, w)
      else
        '(rc, w) ← mountLoopback junk fuel ddfile tmp_drivers (Some loop6) w;
        Ret (Next (to_stage (if negb (rc =? 0) then DEV_CHOOSEFILE else DEV_LOAD) (v_dir v) v), st, w)
  end.

(** [num] of the function becomes the result of umount. *)
Definition dev_choosefile (v : dd_vars) (st : dd_state) (w : W) : dd_step :=
  match v_part v with
  | Null => Ret (Next (to_stage DEV_PART (v_dir v) v), st, w)
  | Dangling => Undef
  | Live part =>
      let '(e, w) := dd_umount w tmp_dpart in
      let v := set_num (if e =? 0 then 0 else -1) v in
      if negb (e =? 0) && negb (e =? EINVAL) && negb (e =? ENOENT) then Ret (Exit, st, w)
      else
        '(rc, _, w) ← doMultiMount junk fuel part tmp_dpart ddFsTypes (Some (str "ro")) None w;
        if negb (rc =? 0) then Ret (Next (to_stage DEV_PART (v_dir v) v), st, w)
        else
          let '(ddfile, w) := dd_select w tmp_dpart in
          let v := set_ddfile ddfile v in
          match ddfile with
          | None => let '(_, w) := dd_umount w tmp_dpart in Ret (Next (to_stage DEV_PART (-1) v), st, w)
          | Some _ => dev_loadfile (to_stage DEV_LOADFILE 1 v) st w
          end
  end.

Definition dev_part (v : dd_vars) (st : dd_state) (w : W) : dd_step :=
  part_list ← getPartitionsList (v_device v) (h_contents w (str "/proc/partitions"));
  part ← (match v_part v with Null => Ret Null | Live _ => Ret Dangling | Dangling => Undef end);
  let v := set_part part v in
  if (lenPartitionsList part_list =? 0)%nat then
    Ret (Next (to_stage (if v_dir v =? -1 then DEV_DEVICE else DEV_INSERT) (v_dir v) v), st, w)
  else
    let '(rc, num, w) := dd_menu w (default [] part_list) 0 in
    if rc =? 2 then Ret (Next (to_stage DEV_DEVICE (-1) v), st, w)
    else
      _ ← defined_if (0 <=? num);
      p ← checked (default [] part_list !! Z.to_nat num);
      dev_choosefile (to_stage DEV_CHOOSEFILE 1 (set_part (Live p) v)) st w.

Definition dev_device (v : dd_vars) (st : dd_state) (w : W) : dd_step :=
  names ← getRemovableDevices (v_freed v) w;
  match names with
  | [] => Ret (Result LOADER_BACK, st, w)
  | [name] =>
      if v_dir v =? -1 then Ret (Result LOADER_BACK, st, w)
      else Ret (Next (to_stage DEV_PART (v_dir v) (take_device name v)), st, w)
  | _ =>
      let '(rc, num, w) := dd_menu w names (v_num v) in
      if rc =? 2 then Ret (Result LOADER_BACK, st, w)
      else
        _ ← defined_if (0 <=? num);
        name ← checked (names !! Z.to_nat num);
        dev_part (to_stage DEV_PART 1 (take_device name (set_num num v))) st w
  end.

Definition dev_insert (v : dd_vars) (st : dd_state) (w : W) : dd_step :=
  let '(rc, w) := dd_choice w in
  if rc =? 2 then Ret (Next (to_stage DEV_DEVICE (-1) v), st, w)
  else
    device ← checked (v_device v);
    '(rc, _, w) ← doMultiMount junk fuel device tmp_drivers ddFsTypes (Some (str "ro")) None w;
    if negb (rc =? 0) then Ret (Next (to_stage DEV_INSERT 1 v), st, w)
    else if verifyDriverDisk tmp_drivers w =? LOADER_BACK then
      let '(_, w) := dd_umount w tmp_drivers in Ret (Next (to_stage DEV_INSERT 1 v), st, w)
    else Ret (Next (to_stage DEV_LOAD 1 v), st, w).

(** [for(; devices[found]; found++)]: the count goes on from what it was. *)
Definition count_from (n : nat) (devs : option (list device)) : outcome nat :=
  match devs with
  | None => Ret n
  | Some l => _ ← defined_if (n <=? length l)%nat; Ret (length l)
  end.

Definition dev_probe (class : Z) (noprobe : bool) (v : dd_vars) (st : dd_state) (w : W) : dd_step :=
  if noprobe then Ret (Next (to_stage DEV_DONE (v_dir v) v), st, w)
  else
    let w := dd_busProbe w in
    devs ← devices_of class w;
    found ← count_from (v_found v) devs;
    let v := set_counts found (v_before v) v in
    if (v_before v <? found)%nat then Ret (Next (to_stage DEV_DONE (v_dir v) v), st, w)
    else
      let '(rc, w) := dd_ternary w in
      if rc =? 2 then Ret (Next (to_stage DEV_DONE (v_dir v) v), st, w)
      else if rc =? 3 then Ret (Next (to_stage DEV_DEVICE (v_dir v) v), st, w)
      else
        let '(rc, w) := dd_chooseManualDriver w class in
        Ret (Next (to_stage (if rc =? LOADER_OK then DEV_DONE else DEV_PROBE) (v_dir v) v), st, w).

Definition dev_load (class : Z) (noprobe : bool) (v : dd_vars) (st : dd_state) (w : W) : dd_step :=
  devs ← devices_of class w;
  before ← count_from 0 devs;
  let v := set_counts 0 before v in
  '(rc, st, w) ← loadDriverDisk tmp_drivers st w;
  let '(_, w) := dd_umount w tmp_drivers in
  if rc =? LOADER_BACK then
    Ret (Next (to_stage (if bool_decide (is_Some (v_ddfile v)) then DEV_CHOOSEFILE else DEV_INSERT) (-1) v), st, w)
  else
    let w :=
      if bool_decide (is_Some (v_ddfile v)) then
        snd (dd_umount (snd (s_unlink (umountLoopback tmp_drivers loop6 w) tmp_drivers)) tmp_dpart)
      else w in
    dev_probe class noprobe (to_stage DEV_PROBE (v_dir v) v) st w.

(** [switch(stage)] *)
Definition dd_turn (class : Z) (noprobe : bool) (v : dd_vars) (st : dd_state) (w : W) : dd_step :=
  match v_stage v with
  | DEV_DEVICE => dev_device v st w
  | DEV_PART => dev_part v st w
  | DEV_CHOOSEFILE => dev_choosefile v st w
  | DEV_LOADFILE => dev_loadfile v st w
  | DEV_INSERT => dev_insert v st w
  | DEV_LOAD => dev_load class noprobe v st w
  | DEV_PROBE => dev_probe class noprobe v st w
  | DEV_DONE => Ret (Result LOADER_OK, st, w)
  end.
(** [while (stage != DEV_DONE)]: the result, or nothing when the process ends. *)
Fixpoint media_loop (turns : nat) (class : Z) (noprobe : bool) (v : dd_vars) (st : dd_state) (w : W) :
    outcome (option Z * dd_state * W) :=
  match turns with
  | O => NoFuel
  | S turns =>
      '(n, st, w) ← dd_turn class noprobe v st w;
      match n with
      | Next v => media_loop turns class noprobe v st w
      | Result rc => Ret (Some rc, st, w)
      | Exit => Ret (None, st, w)
      end
  end.
Definition media_start : dd_vars := mkDd DEV_DEVICE 1 0 0 0 None Null None false.
Definition loadDriverFromMedia (turns : nat) (class : Z) (noprobe : bool) (st : dd_state) (w : W) :
    outcome (option Z * dd_state * W) := media_loop turns class noprobe media_start st w.

(** ** More disks, and disks from elsewhere *)

Fixpoint more_disks (turns : nat) (st : dd_state) (w : W) : outcome (option Z * dd_state * W) :=
  match turns with
  | O => NoFuel
  | S turns =>
      let '(rc, w) := dd_choice w in
      if negb (rc =? 1) then Ret (Some LOADER_OK, st, w)
      else
        '(rc, st, w) ← loadDriverFromMedia (S turns) DEVICE_ANY false st w;
        match rc with None => Ret (None, st, w) | Some _ => more_disks turns st w end
  end.
Definition loadDriverDisks (turns : nat) (st : dd_state) (w : W) : outcome (option Z * dd_state * W) :=
  let '(rc, w) := dd_choice w in
  if negb (rc =? 1) then Ret (Some LOADER_OK, st, w)
  else
    '(rc, st, w) ← loadDriverFromMedia turns DEVICE_ANY false st w;
    match rc with
    | None => Ret (None, st, w)
    | Some rc => if rc =? LOADER_BACK then Ret (Some LOADER_OK, st, w) else more_disks turns st w
    end.

Definition loadFromLocation (dir : bytes) (st : dd_state) (w : W) : outcome (dd_state * W) :=
  if verifyDriverDisk dir w =? LOADER_BACK then Ret (st, w)
  else '(_, st, w) ← loadDriverDisk dir st w; Ret (st, dd_busProbe w).

(** getFileFromNfs and getFileFromUrl. *)
Context (getFileFromNfs getFileFromUrl : bytes → bytes → W → outcome (Z * W)).

Definition image_of_source (path : bytes) (unlinkf : bool) (st : dd_state) (w : W) : outcome (dd_state * W) :=
  '(rc, w) ← mountLoopback junk fuel path tmp_drivers (Some loop6) w;
  if negb (rc =? 0) then Ret (st, w)
  else
    '(st, w) ← loadFromLocation tmp_drivers st w;
    let '(_, w) := s_unlink (umountLoopback tmp_drivers loop6 w) tmp_drivers in
    let w := if unlinkf then snd (s_unlink w path) else w in
    Ret (st, w).
(** [None] when the process ends. *)
Definition getDDFromSource (turns : nat) (src : bytes) (st : dd_state) (w : W) : outcome (option (dd_state * W)) :=
  let img := str "/tmp/dd.img" in
  if starts_with (str "nfs:") src then
    '(rc, w) ← getFileFromNfs (drop 4 src) img w;
    if negb (rc =? 0) then Ret (Some (st, w)) else fmap Some (image_of_source img true st w)
  else if starts_with (str "ftp://") src || starts_with (str "http://") src then
    '(rc, w) ← getFileFromUrl src img w;
    if negb (rc =? 0) then Ret (Some (st, w)) else fmap Some (image_of_source img true st w)
  else if starts_with (str "cdrom") src then
    '(rc, st, w) ← loadDriverDisks turns st w; Ret (match rc with Some _ => Some (st, w) | None => None end)
  else if starts_with (str "path:") src then fmap Some (image_of_source (drop 5 src) false st w)
  else Ret (Some (st, w)).
Definition getDDFromDev (dev : bytes) (fs : option bytes) (st : dd_state) (w : W) : outcome (dd_state * W) :=
  '(rc, w) ← (match fs with
              | Some fs => '(rc, _, w) ← doPwMount junk fuel dev tmp_drivers fs (Some (str "ro")) None w; Ret (rc, w)
              | None => '(rc, _, w) ← doMultiMount junk fuel dev tmp_drivers ddFsTypes (Some (str "ro")) None w; Ret (rc, w)
              end);
  if negb (rc =? 0) then Ret (st, w)
  else
    '(st, w) ← loadFromLocation tmp_drivers st w;
    let '(_, w) := dd_umount w tmp_drivers in
    let '(_, w) := s_unlink w tmp_drivers in Ret (st, w).
End driverdisk.
