(* ===== verification/DriverDiskFacts.v ===== *)
(** * Properties of the driver disks

    The states loadDriverFromMedia goes through, and what loading a disk adds. *)

From S2P Require Import Prelude CLib Posix Loader Sys Cpio ModuleInfo Getparts Steps Host Imount Misc Methods Devices DriverDisk.

Section media.
Context {W G : Type} `{HostOps W G} `{DriverOps W}.
Context (junk : nat → bytes) (junk_size : Z) (depth fuel : nat) (class : Z) (noprobe : bool).
Abbreviation turn := (dd_turn junk junk_size depth fuel class noprobe).

(** The states of the loop. *)
Inductive reached : dd_vars → dd_state → W → Prop :=
  | reached_start st w : reached media_start st w
  | reached_next v st w v' st' w' : reached v st w → turn v st w = Ret (Next v', st', w') → reached v' st' w'.

(** Behind the question for the device there is one, and its list was freed;
    forwards, an image is only chosen from a partition whose name is there, and
    backwards only when one was chosen before. *)
Record media_ok (v : dd_vars) : Prop := {
  mk_dir : v_dir v = 1 ∨ v_dir v = -1;
  mk_device : v = media_start ∨ v_freed v = true ∧ is_Some (v_device v);
  mk_stage : v_stage v ≠ DEV_LOADFILE;
  mk_part : v_stage v = DEV_PART → v_part v ≠ Dangling;
  mk_choose : v_stage v = DEV_CHOOSEFILE → v_dir v = 1 → ∃ p, v_part v = Live p;
  mk_back : v_stage v = DEV_CHOOSEFILE → v_dir v = -1 → is_Some (v_ddfile v);
  mk_load : v_stage v = DEV_LOAD → v_dir v = 1 }.

(** The state a turn leaves. *)
Definition leads_to (P : dd_vars → Prop) (s : outcome (dd_next * dd_state * W)) : Prop := ∀ v st w, s = Ret (Next v, st, w) → P v.
Lemma leads_bind {A} (P : dd_vars → Prop) (m : outcome A) f : (∀ a, m = Ret a → leads_to P (f a)) → leads_to P (m ≫= f).
Proof. intros Hf v st w E. apply outcome_bind_inv in E as (a & Ea & E). by eapply Hf. Qed.
Lemma leads_next (P : dd_vars → Prop) v st w : P v → leads_to P (Ret (Next v, st, w)).
Proof. intros Hv v' st' w' [= <- _ _]. done. Qed.
Lemma leads_result (P : dd_vars → Prop) n st w : (∀ v, n ≠ Next v) → leads_to P (Ret (n, st, w)).
Proof. intros Hn v st' w' [= -> _ _]. by destruct (Hn v). Qed.
Lemma leads_undef (P : dd_vars → Prop) : leads_to P Undef.
Proof. by intros v st w E. Qed.
Ltac state_ok :=
  constructor; cbn [to_stage take_device set_num set_part set_ddfile set_counts v_dir v_stage v_part v_freed v_device v_ddfile];
  try (intros; congruence); try (right; split; [assumption | assumption]); eauto.
(** What the stages behind the first know. *)
Definition known (v : dd_vars) : Prop := v_freed v = true ∧ is_Some (v_device v).

Lemma loadfile_ok v st w : known v → v_dir v = 1 → (∃ p, v_part v = Live p) → leads_to media_ok (dev_loadfile junk fuel v st w).
Proof.
  intros [Hk1 Hk2] Hd Hp. unfold dev_loadfile. rewrite Hd. change (1 =? -1) with false. destruct (v_ddfile v) as [f |].
  - apply leads_bind. intros [rc w'] _. apply leads_next.
    destruct (negb (rc =? 0)); state_ok.
  - apply leads_next. state_ok.
Qed.
Lemma choosefile_ok v st w : known v → v_dir v = 1 ∨ v_dir v = -1 → leads_to media_ok (dev_choosefile junk fuel v st w).
Proof.
  intros [Hk1 Hk2] Hd. unfold dev_choosefile. destruct (v_part v) as [| part |] eqn:Ep; [| | apply leads_undef].
  { apply leads_next. state_ok. }
  destruct (dd_umount w tmp_dpart) as [e w1]. cbv zeta. destruct (_ && _); [by apply leads_result |].
  apply leads_bind. intros [[rc err] w2] _. destruct (negb (rc =? 0)).
  { apply leads_next. state_ok. }
  destruct (dd_select w2 tmp_dpart) as [[f |] w3].
  - apply loadfile_ok; cbn [to_stage set_ddfile set_num v_dir v_stage v_part v_freed v_device]; unfold known; eauto.
  - destruct (dd_umount w3 tmp_dpart) as [e2 w4]. apply leads_next.
    state_ok.
Qed.

Lemma part_ok v st w : known v → v_dir v = 1 ∨ v_dir v = -1 → leads_to media_ok (dev_part junk fuel v st w).
Proof.
  intros [Hk1 Hk2] Hd. unfold dev_part. apply leads_bind. intros pl _. apply leads_bind. intros part Hpart.
  destruct (lenPartitionsList pl =? 0)%nat.
  - apply leads_next. cbn [set_part v_dir]. destruct (v_dir v =? -1); state_ok.
  - destruct (dd_menu w (default [] pl) 0) as [[rc num] w']. destruct (rc =? 2).
    + apply leads_next. state_ok.
    + apply leads_bind. intros _ _. apply leads_bind. intros p _. apply choosefile_ok; cbn [to_stage set_part v_dir v_stage v_part v_freed v_device]; unfold known; eauto.
Qed.
Lemma device_ok v st w : v_dir v = 1 ∨ v_dir v = -1 → v_part v ≠ Dangling ∨ v_freed v = true → (v_freed v = false → v_part v = Null) →
  leads_to media_ok (dev_device junk fuel v st w).
Proof.
  intros Hd Hp Hf. unfold dev_device. apply leads_bind. intros [| name [| name2 names]] Hn; [by apply leads_result | |].
  - destruct (v_dir v =? -1); [by apply leads_result |]. apply leads_next.
    assert (v_freed v = false) as Hnf.
    { unfold getRemovableDevices in Hn. apply outcome_bind_inv in Hn as (d & _ & Hn). apply outcome_bind_inv in Hn as (d2 & _ & Hn).
      apply outcome_bind_inv in Hn as (u & Hdef & Hn). injection Hn as Hn. rewrite Hn in Hdef. by destruct (v_freed v). }
    specialize (Hf Hnf). state_ok.
  - destruct (dd_menu w _ (v_num v)) as [[rc num] w']. destruct (rc =? 2); [by apply leads_result |].
    apply leads_bind. intros _ _. apply leads_bind. intros nm _. apply part_ok; cbn [to_stage take_device set_num v_dir v_stage v_part v_freed v_device]; unfold known; eauto.
Qed.
Lemma insert_ok v st w : known v → leads_to media_ok (dev_insert junk junk_size fuel v st w).
Proof.
  intros [Hk1 Hk2]. unfold dev_insert. destruct (dd_choice w) as [rc w1]. destruct (rc =? 2); [apply leads_next; state_ok |].
  apply leads_bind. intros d _. apply leads_bind. intros [[rc2 err] w2] _. destruct (negb (rc2 =? 0)); [apply leads_next; state_ok |].
  destruct (verifyDriverDisk _ _ _ =? _); [destruct (dd_umount w2 tmp_drivers) as [e w3] |]; apply leads_next; state_ok.
Qed.
Lemma probe_ok v st w : known v → v_dir v = 1 ∨ v_dir v = -1 → leads_to media_ok (dev_probe junk class noprobe v st w).
Proof.
  intros [Hk1 Hk2] Hd. unfold dev_probe. destruct noprobe; [apply leads_next; state_ok |].
  apply leads_bind. intros devs _. apply leads_bind. intros n _. destruct (_ <? _)%nat; [apply leads_next; state_ok |].
  destruct (dd_ternary _) as [rc w2]. destruct (rc =? 2); [apply leads_next; state_ok |]. destruct (rc =? 3); [apply leads_next; state_ok |].
  destruct (dd_chooseManualDriver w2 class) as [rc2 w3]. apply leads_next. destruct (rc2 =? LOADER_OK); state_ok.
Qed.
Lemma load_ok v st w : known v → v_dir v = 1 → leads_to media_ok (dev_load junk depth fuel class noprobe v st w).
Proof.
  intros [Hk1 Hk2] Hd. unfold dev_load. apply leads_bind. intros devs _. apply leads_bind. intros n _.
  apply leads_bind. intros [[rc st2] w2] _. destruct (dd_umount w2 tmp_drivers) as [e w3]. destruct (rc =? LOADER_BACK).
  - apply leads_next. cbn [set_counts v_ddfile]. destruct (bool_decide_reflect (is_Some (v_ddfile v))); state_ok.
  - apply probe_ok; cbn [to_stage set_counts v_dir v_freed v_device]; unfold known; eauto.
Qed.
Lemma media_turn v st w : media_ok v → leads_to media_ok (turn v st w).
Proof.
  intros [Hd Hdev Hs Hp Hc Hb Hl]. unfold dd_turn.
  destruct Hdev as [-> | Hk]; [apply device_ok; cbn; eauto; right; congruence |]. destruct (v_stage v) eqn:E.
  - apply device_ok; [done | right; apply Hk | intros Hf; destruct Hk; congruence].
  - by apply part_ok.
  - by apply choosefile_ok.
  - congruence.
  - by apply insert_ok.
  - apply load_ok; eauto.
  - by apply probe_ok.
  - by apply leads_result.
Qed.

(** C36: In every state loadDriverFromMedia reaches, the direction is forwards
    or backwards, the device is known behind its question, and loading goes
    forwards.  The question for the partition never meets a name that is freed
    already, and forwards the question for the file has a partition.  Backwards
    it need not: the one use of a freed name is there, with an image chosen
    before, and is undefined.  The question for the device cannot be asked twice:
    the list of devices was freed and is allocated again, which is undefined,
    unless no removable device is left, when the result is LOADER_BACK. *)
Theorem media_reached v st w (Hreached : reached v st w) :
  media_ok v ∧
  (v_part v = Dangling → v_stage v = DEV_CHOOSEFILE → v_dir v = -1 ∧ is_Some (v_ddfile v) ∧ turn v st w = Undef) ∧
  (v_stage v = DEV_DEVICE → v = media_start ∨
     ∀ n st' w', turn v st w = Ret (n, st', w') → n = Result LOADER_BACK ∧ getRemovableDevices junk true w = Ret []).
Proof.
  assert (media_ok v) as Hok.
  { induction Hreached as [st w | v st w v' st' w' _ IH E]; [constructor; cbn; eauto; congruence |]. by apply (media_turn v st w IH v' st' w'). }
  split; [done |]. split.
  { intros Ep Es. assert (v_dir v = -1) as Hd.
    { destruct (mk_dir v Hok) as [Hd |]; [| done]. destruct (mk_choose v Hok Es Hd) as [p E]. congruence. }
    split_and!; [done | by apply (mk_back v Hok) |]. unfold dd_turn. rewrite Es. unfold dev_choosefile. by rewrite Ep. }
  intros Es. destruct (mk_device v Hok) as [-> | [Hf _]]; [by left | right].
  intros n st' w' E. unfold dd_turn in E. rewrite Es in E. unfold dev_device in E. apply outcome_bind_inv in E as (names & En & E).
  assert (names = []) as ->.
  { unfold getRemovableDevices in En. apply outcome_bind_inv in En as (d & _ & En). apply outcome_bind_inv in En as (d2 & _ & En).
    apply outcome_bind_inv in En as (u & Hdef & En). injection En as <-. rewrite Hf in Hdef. cbn [negb orb] in Hdef.
    by destruct (bool_decide_reflect (dv_device <$> List.filter is_removable d2 = [])). }
  rewrite Hf in En. by injection E as <- _ _.
Qed.
End media.

(** ** A sample *)

(** A host with a removable disk; the user goes back whenever asked. *)
Definition node (k : kind) : fsnode := mkInode k 0x1ff 0 0 0.
Definition floppy_fs : memfs :=
  mkFs (list_to_map [(str "/sys/block", 1%nat); (str "/sys/block/sda", 2%nat); (str "/sys/block/sda/capability", 3%nat)])
    (list_to_map [(1%nat, node KDir); (2%nat, node KDir); (3%nat, node (KReg (str "1" ++ [10])))]) ∅ 4 0 false.
Definition floppy_host : host := mkHost floppy_fs (λ _, true) [] [] [] [].
#[local] Instance back_ops : DriverOps host := {|
  dd_menu w items k := (2, k, w);
  dd_choice w := (2, w);
  dd_ternary w := (2, w);
  dd_select w dir := (None, w);
  dd_umount w p := (EINVAL, w);
  dd_busProbe w := w;
  dd_chooseManualDriver w class := (LOADER_BACK, w);
  dd_restart_fw w path := w
|}.
Definition no_modules : dd_state := mkDds newModuleInfoSet [] [] 0.
Abbreviation sample_turn := (dd_turn (λ n, replicate n 0) 0 4 100 DEVICE_NETWORK false).

(** A disk with a partition, which is pulled out when its partition is
    unmounted; on the disk that is inserted then the files of a driver disk are
    there, but not its identifier. *)
Definition pulled_fs (files : list (bytes * bytes)) : memfs :=
  mkFs (list_to_map (zip_with (λ p k, (p, k)) (([str "/sys/block"; str "/sys/block/sda"] ++ files.*1)) (seq 1 (2 + length files))))
    (list_to_map ([(1%nat, node KDir); (2%nat, node KDir)] ++ zip_with (λ k d, (k, node (KReg d))) (seq 3 (length files)) files.*2))
    ∅ (3 + length files) 0 false.
Definition disk_files : list (bytes * bytes) :=
  (str "/sys/block/sda/capability", str "1" ++ [10]) ::
  ((λ f, (tmp_drivers ++ [47] ++ f, [1])) <$> driverDiskFiles).
Definition disk_host : host :=
  mkHost (pulled_fs (disk_files ++ [(str "/proc/partitions", str "   8     1    1024 sda1" ++ [10])])) (λ _, true) [] [] [] [].
Definition pulled (h : host) : host :=
  mkHost (pulled_fs disk_files) (λ argv, bool_decide (mount_point argv = tmp_drivers)) (hs_error h) (hs_log h) [] [].
Definition pull_ops : DriverOps host := {|
  dd_menu w items k := (1, 0, w);
  dd_choice w := (1, w);
  dd_ternary w := (2, w);
  dd_select w dir := (Some (str "/tmp/dpart/dd.img"), w);
  dd_umount w p := if bool_decide (is_Some (mounted_on (hs_table w) p)) then (0, pulled w) else (EINVAL, w);
  dd_busProbe w := w;
  dd_chooseManualDriver w class := (LOADER_BACK, w);
  dd_restart_fw w path := w
|}.
Abbreviation pull_turn := (@dd_turn host memgz host_ops pull_ops (λ n, replicate n 0) 1 4 100 DEVICE_NETWORK false).
Abbreviation pull_reached := (@reached host memgz host_ops pull_ops (λ n, replicate n 0) 1 4 100 DEVICE_NETWORK false).

(** The states of a run. *)
Fixpoint pull_run (n : nat) (v : dd_vars) (st : dd_state) (w : host) : option (dd_vars * dd_state * host) :=
  match n with
  | O => Some (v, st, w)
  | S n => match pull_turn v st w with Ret (Next v, st, w) => pull_run n v st w | _ => None end
  end.
Lemma pull_run_reached n : ∀ v st w v' st' w', pull_reached v st w → pull_run n v st w = Some (v', st', w') → pull_reached v' st' w'.
Proof.
  induction n as [| n IH]; intros v st w v' st' w' Hr; cbn [pull_run]; [by intros [= <- <- <-] |].
  destruct (pull_turn v st w) as [[[[v1 | |] st1] w1] | |] eqn:E; [| done ..]. intros Hn. eapply IH; [| exact Hn].
  by eapply reached_next.
Qed.

Lemma pull_run_reaches n (P : dd_vars → Prop) :
  match pull_run n media_start no_modules disk_host with Some (v, _, _) => P v | None => False end →
  ∃ v st w, pull_reached v st w ∧ P v.
Proof.
  destruct (pull_run n _ _ _) as [[[v st] w] |] eqn:E; [| done]. intros Hv. exists v, st, w.
  split; [eapply pull_run_reached; [constructor | exact E] | exact Hv].
Qed.

Lemma media_reached_witness :
  (∃ v, reached (λ n, replicate n 0) 0 4 100 DEVICE_NETWORK false v no_modules floppy_host ∧ media_ok v ∧
    v_stage v = DEV_DEVICE ∧ v_dir v = -1 ∧ sample_turn v no_modules floppy_host = Undef) ∧
  (∃ v st w, pull_reached v st w ∧ v_stage v = DEV_CHOOSEFILE ∧ v_part v = Dangling ∧ pull_turn v st w = Undef).
Proof.
  split.
  - set (v1 := to_stage DEV_PART 1 (take_device (str "sda") media_start)).
    set (v2 := to_stage DEV_INSERT 1 v1). set (v3 := to_stage DEV_DEVICE (-1) v2).
    assert (reached (λ n, replicate n 0) 0 4 100 DEVICE_NETWORK false v3 no_modules floppy_host) as Hr.
    { apply (reached_next _ _ _ _ _ _ v2 no_modules floppy_host); [| vm_compute; reflexivity].
      apply (reached_next _ _ _ _ _ _ v1 no_modules floppy_host); [| vm_compute; reflexivity].
      apply (reached_next _ _ _ _ _ _ media_start no_modules floppy_host); [constructor | vm_compute; reflexivity]. }
    exists v3. split; [exact Hr |]. destruct (media_reached _ _ _ _ _ _ v3 no_modules floppy_host Hr) as [Hok _].
    split_and!; [exact Hok | reflexivity | reflexivity | vm_compute; reflexivity].
  - destruct (pull_run_reaches 6 (λ v, v_stage v = DEV_CHOOSEFILE ∧ v_part v = Dangling)) as (v & st & w & Hr & Es & Ep); [vm_compute; by split |].
    exists v, st, w. split_and!; [exact Hr | exact Es | exact Ep |].
    exact (proj2 (proj2 (proj1 (proj2 (media_reached _ _ _ _ _ _ v st w Hr)) Ep Es))).
Defined.
