(* ===== verification/Firmware.v ===== *)
(** * The firmware loader (fwloader.c)

    The search path, the messages of the kernel, the search for a firmware file
    and its way into sysfs.  An argz vector is a list of strings and an envz
    vector a list of names with their values; the calls are those of [FwOps].
    What is written to sysfs is kept in its order. *)

From S2P Require Import Prelude CLib Sys CmdLine.

Definition EPERM : Z := 1.

(** What waitid says of the loader's process. *)
Inductive wait_answer := No_child | Has_exited | Still_running | Wait_error.

Class FwOps (W : Type) := {
  (* mkstemp succeeds *)
  fw_mkstemp : W → bool * W;
  (* access(path, F_OK): 0 or errno *)
  fw_access : W → bytes → Z;
  (* open and mmap of a file: errno, or its contents *)
  fw_map : W → bytes → Z + bytes;
  (* write to the temporary file: the result, with errno when it is negative *)
  fw_temp_write : W → bytes → Z * Z * W;
  (* mmap of the temporary file: 0 or errno *)
  fw_temp_map : W → Z;
  (* open(path, O_RDWR): 0 or errno *)
  fw_open : W → bytes → Z;
  (* write to a file of sysfs *)
  fw_write : W → bytes → bytes → Z * W;
  fw_udelay : W → W;
  (* recv from the socket: nothing on an error *)
  fw_recv : W → option bytes * W;
  (* poll: its result, and whether SIGTERM came meanwhile *)
  fw_poll : W → Z * bool * W;
  fw_kill : W → Z → Z → W;
  fw_waitid : W → Z → wait_answer * W
}.

(** ** The search path *)

(** The vector and its length: the pointer is null with the length -1 when a
    path was taken away. *)
Inductive argz := Argz (l : list bytes) | No_path.
Section search_path.
Context (argz_create_sep : bytes → Z → list bytes).
Definition set_fw_search_path (path : option bytes) (old : argz) : argz :=
  match path with None => No_path | Some p => Argz (argz_create_sep p 58) end.
End search_path.
(** argz_add goes by the length. *)
Definition add_fw_search_dir (dir : bytes) (p : argz) : outcome argz :=
  match p with Argz l => Ret (Argz (l ++ [dir])) | No_path => Undef end.

(** ** Messages *)

Definition envz : Type := list (bytes * option bytes).
Definition envz_add (e : envz) (name : bytes) (value : option bytes) : envz := List.filter (λ p, negb (streq (fst p) name)) e ++ [(name, value)].
Definition envz_get (e : envz) (name : bytes) : option bytes :=
  match List.find (λ p, streq (fst p) name) e with Some (_, v) => v | None => None end.

Record uevent := mkUevent { ue_msg : bytes; ue_path : bytes; ue_envz : envz }.

(** The string at the start of a buffer. *)
Definition string_at (s : bytes) : outcome bytes := _ ← checked (strchr s 0); Ret (until_nul s).
(** [while (pos[0])]: [s] is the buffer from [pos] on. *)
Fixpoint env_loop (fuel : nat) (s : bytes) (e : envz) : outcome envz :=
  match fuel with
  | O => NoFuel
  | S fuel =>
      c ← checked (head s);
      if c =? 0 then Ret e
      else
        t ← string_at s;
        let '(name, value) := match strchr t 61 with Some v => (before t v, Some (tail v)) | None => (t, None) end in
        let s := drop (length name + 1) s in
        c ← checked (head s);
        s ← (if c =? 0 then Ret s else v ← string_at s; Ret (drop (length v + 1) s));
        env_loop fuel s (envz_add e name value)
  end.

Definition NETLINK_BUFFER : nat := 2560.
(** [old] is what the static buffer held; the event, nothing on an error, and
    the buffer. *)
Definition get_netlink_msg (received : option bytes) (old : bytes) : outcome (option uevent * bytes) :=
  match received with
  | None => Ret (None, old)
  | Some d =>
      let d := take NETLINK_BUFFER d in
      let size := Nat.min (length d) (NETLINK_BUFFER - 1) in
      let buffer := splice size [0] (splice 0 d old) in
      match strchr (until_nul buffer) 64 with
      | None => Ret (None, buffer)
      | Some at_ =>
          let msg := before (until_nul buffer) at_ in
          let len := (length msg + 1)%nat in
          path ← string_at (drop len buffer);
          let pos := drop (len + length path + 1) buffer in
          e ← (if (len <? size + 1)%nat then env_loop (S (length buffer)) pos [] else Ret []);
          Ret (Some (mkUevent msg path e), buffer)
      end
  end.

(** ** Loading *)

Section loading.
Context `{FwOps W}.

(** [while (count < inlen)]: what was written, and errno. *)
Fixpoint temp_loop (fuel : nat) (rest done_ : bytes) (w : W) : outcome (Z * bytes * W) :=
  match fuel with
  | O => NoFuel
  | S fuel =>
      match rest with
      | [] => Ret (0, done_, w)
      | _ =>
          let '(c, errno, w) := fw_temp_write w rest in
          if c <=? 0 then Ret (if c <? 0 then errno else 0, done_, w)
          else temp_loop fuel (drop (Z.to_nat c) rest) (done_ ++ take (Z.to_nat c) rest) w
      end
  end.
(** 0 or errno, and the temporary file, which has the size of the source. *)
Definition fetcher (inpath temp : bytes) (w : W) : outcome (Z * bytes * W) :=
  if negb (fw_access w inpath =? 0) then Ret (fw_access w inpath, temp, w)
  else
    match fw_map w inpath with
    | inl e => Ret (e, temp, w)
    | inr inbuf =>
        '(e, done_, w) ← temp_loop (S (length inbuf)) inbuf [] w;
        Ret (e, done_ ++ replicate (length inbuf - length done_) 0, w)
    end.

(** What is written to sysfs. *)
Inductive fw_act := Set_loading (path text : bytes) | Write_data (path chunk : bytes).
Definition loading_text (value : Z) : bytes :=
  if value =? -1 then str "-1" ++ [0] else if value =? 0 then str "0" ++ [0] else str "1" ++ [0].
Definition set_loading (path : bytes) (value : Z) (acts : list fw_act) (w : W) : list fw_act * W :=
  let '(_, w) := fw_write w path (loading_text value) in (acts ++ [Set_loading path (loading_text value)], w).

(** [while (access(sysdir, F_OK) && timeout)] *)
Fixpoint wait_loop (fuel : nat) (sysdir : bytes) (timeout : Z) (w : W) : outcome (Z * W) :=
  match fuel with
  | O => NoFuel
  | S fuel =>
      if negb (fw_access w sysdir =? 0) && negb (timeout =? 0) then
        _ ← defined_if (- 2 ^ 31 + 100 <=? timeout); wait_loop fuel sysdir (timeout - 100) (fw_udelay w)
      else Ret (timeout, w)
  end.
(** [while (count < fw_len)]: whether all was written. *)
Fixpoint data_loop (fuel : nat) (path rest : bytes) (acts : list fw_act) (w : W) : outcome (bool * list fw_act * W) :=
  match fuel with
  | O => NoFuel
  | S fuel =>
      match rest with
      | [] => Ret (true, acts, w)
      | _ =>
          let '(c, w) := fw_write w path rest in
          if c <=? 0 then Ret (false, acts, w)
          else data_loop fuel path (drop (Z.to_nat c) rest) (acts ++ [Write_data path (take (Z.to_nat c) rest)]) w
      end
  end.
Definition _load_firmware (fuel : nat) (fw : bytes) (sysdir : bytes) (timeout : Z) (w : W) : outcome (Z * list fw_act * W) :=
  _ ← defined_if ((- 2 ^ 31 <=? timeout * 1000000) && (timeout * 1000000 <? 2 ^ 31));
  '(timeout, w) ← wait_loop fuel sysdir (timeout * 1000000) w;
  if timeout =? 0 then Ret (- ENOENT, [], w)
  else
    let lpath := sysdir ++ str "/loading" in
    if negb (fw_open w lpath =? 0) then Ret (-1, [], w)
    else
      let '(acts, w) := set_loading lpath 1 [] w in
      if negb (fw_temp_map w =? 0) then let '(acts, w) := set_loading lpath (-1) acts w in Ret (- fw_temp_map w, acts, w)
      else
        let data := sysdir ++ str "/data" in
        if negb (fw_open w data =? 0) then
          let e := fw_open w data in let '(acts, w) := set_loading lpath (-1) acts w in Ret (- e, acts, w)
        else
          '(all, acts, w) ← data_loop (S (length fw)) data fw acts w;
          let '(acts, w) := set_loading lpath (if all : bool then 0 else -1) acts w in Ret (0, acts, w).

(** The entry where the firmware was found, with the temporary file. *)
Fixpoint find_firmware (path : list bytes) (firmware temp : bytes) (w : W) : outcome (option bytes * bytes * W) :=
  match path with
  | [] => Ret (None, temp, w)
  | entry :: path =>
      let fw_file := entry ++ [47] ++ firmware in
      '(e, temp, w) ← fetcher fw_file temp w;
      if e =? 0 then Ret (Some fw_file, temp, w)
      else if (e =? ENOENT) || (e =? EPERM) then find_firmware path firmware temp w
      else Ret (None, temp, w)
  end.

(** Nothing when the process aborts. *)
Definition load_firmware (fuel : nat) (path : list bytes) (ue : uevent) (w : W) : outcome (option (list fw_act) * W) :=
  let '(ok, w) := fw_mkstemp w in
  if negb ok then Ret (Some [], w)
  else
    match envz_get (ue_envz ue) (str "DEVPATH"), envz_get (ue_envz ue) (str "FIRMWARE") with
    | Some devpath, Some firmware =>
        timeout ← checked (envz_get (ue_envz ue) (str "TIMEOUT"));
        match strtol_int timeout with
        | None => Ret (None, w)
        | Some secs =>
            '(found, temp, w) ← find_firmware path firmware [] w;
            match found with
            | None => Ret (Some [], w)
            | Some _ =>
                '(_, acts, w) ← _load_firmware fuel temp (str "/sys" ++ devpath ++ str "/") secs w;
                Ret (Some acts, w)
            end
        end
    | _, _ => Ret (Some [], w)
    end.

Definition handle_single_uevent (fuel : nat) (path : list bytes) (ue : uevent) (w : W) : outcome (option (list fw_act) * W) :=
  action ← checked (envz_get (ue_envz ue) (str "ACTION"));
  if streq action (str "add") then
    subsystem ← checked (envz_get (ue_envz ue) (str "SUBSYSTEM"));
    if streq subsystem (str "firmware") then load_firmware fuel path ue w else Ret (Some [], w)
  else Ret (Some [], w).

(** [do { ... } while (1)]: the process ends on SIGTERM ([done]) or abort, with
    what was written. *)
Fixpoint handle_events (turns fuel : nat) (path : list bytes) (done_ : bool) (old : bytes) (acts : list fw_act) (w : W) : outcome (list fw_act * W) :=
  match turns with
  | O => NoFuel
  | S turns =>
      if done_ then Ret (acts, w)
      else
        let '(rc, done_, w) := fw_poll w in
        if done_ : bool then Ret (acts, w)
        else if rc <? 1 then handle_events turns fuel path done_ old acts w
        else
          let '(received, w) := fw_recv w in
          '(ue, old) ← get_netlink_msg received old;
          match ue with
          | None => handle_events turns fuel path done_ old acts w
          | Some ue =>
              '(new, w) ← handle_single_uevent fuel path ue w;
              match new with
              | None => Ret (acts, w)
              | Some new => handle_events turns fuel path done_ old (acts ++ new) w
              end
          end
  end.

(** ** Stopping it *)

Definition SIGTERM : Z := 15.
Definition SIGKILL : Z := 9.
(** [while (x <= 100)] *)
Fixpoint stop_loop (fuel : nat) (pid x : Z) (w : W) : outcome W :=
  match fuel with
  | O => NoFuel
  | S fuel =>
      if x <=? 100 then
        let w := if 90 <? x then fw_kill w pid SIGKILL else w in
        let '(a, w) := fw_waitid w pid in
        match a with
        | No_child | Has_exited => Ret w
        | Still_running => stop_loop fuel pid (x + 1) w
        | Wait_error => stop_loop fuel pid x w
        end
      else Ret w
  end.
Definition stop_fw_loader (fuel : nat) (pid : Z) (w : W) : outcome W :=
  stop_loop fuel pid 0 (if 0 <? pid then fw_kill w pid SIGTERM else w).
End loading.
