(* ===== verification/FirmwareFacts.v ===== *)
(** * Properties of the firmware loader

    What is read of a message of the kernel, and what a request for firmware
    writes to sysfs. *)

From S2P Require Import Prelude CLib Sys CmdLine Firmware.

(** ** Messages *)

Definition no_byte (b : Z) (s : bytes) : Prop := Forall (λ c, c ≠ b) s.
Definition var_ok (v : bytes * bytes) : Prop := fst v ≠ [] ∧ no_byte 0 (fst v) ∧ no_byte 61 (fst v) ∧ no_byte 0 (snd v).
Definition var_text (v : bytes * bytes) : bytes := fst v ++ [61] ++ snd v ++ [0].
(** An empty value is the last one that is read. *)
Fixpoint vars_read (vars : list (bytes * bytes)) : envz :=
  match vars with
  | [] => []
  | (n, v) :: vars => (n, Some v) :: (if bool_decide (v = []) then [] else vars_read vars)
  end.
Definition uevent_text (msg path : bytes) (vars : list (bytes * bytes)) : bytes :=
  msg ++ [64] ++ path ++ [0] ++ mjoin (var_text <$> vars).

Lemma until_nul_string s r : no_byte 0 s → until_nul (s ++ 0 :: r) = s.
Proof. intros Hs. by apply until_nul_app_nul. Qed.
Lemma string_at_string s r : no_byte 0 s → string_at (s ++ 0 :: r) = Ret s.
Proof.
  intros Hs. unfold string_at. rewrite (strchr_app s 0 r) by done.
  cbn [checked mbind outcome_bind]. by rewrite until_nul_string.
Qed.
Lemma envz_add_new e n v : n ∉ fst <$> e → envz_add e n v = e ++ [(n, v)].
Proof.
  intros Hn. unfold envz_add. f_equal. induction e as [| [m x] e IH]; [done |]. rewrite fmap_cons, not_elem_of_cons in Hn. destruct Hn as [Hm He].
  cbn [List.filter fst]. assert (streq m n = false) as -> by (destruct (streq m n) eqn:E; [| done]; apply streq_spec in E; naive_solver).
  cbn [negb]. by rewrite IH.
Qed.

Lemma no_byte_app b s t : no_byte b s → no_byte b t → no_byte b (s ++ t).
Proof. intros Hs Ht. by apply Forall_app. Qed.
Lemma no_byte_one b c : c ≠ b → no_byte b [c].
Proof. intros Hc. by repeat constructor. Qed.
#[local] Hint Resolve no_byte_app no_byte_one : fw.

(** One turn of the loop on a name and a value. *)
Lemma env_loop_var fuel v r e : var_ok v →
  env_loop (S fuel) (var_text v ++ r) e =
  env_loop fuel (if bool_decide (snd v = []) then 0 :: r else r) (envz_add e (fst v) (Some (snd v))).
Proof.
  destruct v as [n v]. intros (Hne & Hn0 & Hn61 & Hv0). cbn [fst snd] in *. unfold var_text. cbn [fst snd].
  assert ((n ++ [61] ++ v ++ [0]) ++ r = (n ++ 61 :: v) ++ 0 :: r) as -> by (by rewrite <- !app_assoc).
  assert (no_byte 0 (n ++ 61 :: v)) as Hnv by (apply no_byte_app; [done | by constructor]).
  destruct n as [| c n]; [done |]. cbn [env_loop app head checked mbind outcome_bind].
  assert (c ≠ 0) as Hc by (by inversion Hn0). destruct (Z.eqb_spec c 0); [done |].
  change (c :: (n ++ 61 :: v) ++ 0 :: r) with (((c :: n) ++ 61 :: v) ++ 0 :: r). rewrite string_at_string by done. cbn [mbind outcome_bind].
  rewrite strchr_app, before_app by done. cbn [tail].
  assert (drop (length (c :: n) + 1) (((c :: n) ++ 61 :: v) ++ 0 :: r) = v ++ 0 :: r) as ->.
  { rewrite <- app_assoc, <- drop_drop, drop_app_length. reflexivity. }
  destruct (bool_decide_reflect (v = [])) as [-> | Hv]; [reflexivity |].
  destruct v as [| d v]; [done |]. cbn [app head checked mbind outcome_bind]. assert (d ≠ 0) as Hd by (by inversion Hv0).
  destruct (Z.eqb_spec d 0); [done |]. change (d :: v ++ 0 :: r) with ((d :: v) ++ 0 :: r). rewrite string_at_string by done. cbn [mbind outcome_bind].
  by rewrite <- drop_drop, drop_app_length.
Qed.
Lemma env_loop_vars vars : ∀ fuel r e, Forall var_ok vars → NoDup ((fst <$> e) ++ (fst <$> vars)) → (length vars < fuel)%nat →
  env_loop fuel (mjoin (var_text <$> vars) ++ 0 :: r) e = Ret (e ++ vars_read vars).
Proof.
  induction vars as [| v vars IH]; intros [| fuel] r e Hok Hnd Hf; cbn [length] in Hf; [lia | | lia |].
  - cbn. by rewrite app_nil_r.
  - apply list.Forall_cons in Hok as [Hv Hvs]. rewrite fmap_cons in Hnd |- *.
    change (mjoin (var_text v :: (var_text <$> vars))) with (var_text v ++ mjoin (var_text <$> vars)). rewrite <- app_assoc.
    rewrite env_loop_var by done. apply list.NoDup_app in Hnd as Hnd'. destruct Hnd' as (_ & Hdis & _).
    rewrite envz_add_new by (intros Hin; apply (Hdis _ Hin); apply list_elem_of_here).
    destruct v as [n v]. cbn [fst snd vars_read] in *. case_bool_decide as Ev.
    + destruct fuel as [| fuel]; [lia |]. reflexivity.
    + rewrite IH; [by rewrite <- app_assoc | done | | lia].
      rewrite fmap_app. cbn [fmap list_fmap fst]. by rewrite <- app_assoc.
Qed.

(** C37: A message that fits into the buffer is read back: its action, its path
    and its variables in their order, whatever an older message left in the
    buffer; but the reading ends at the first variable with an empty value. *)
Theorem get_netlink_msg_reads msg path vars old (Hmsg : no_byte 0 msg ∧ no_byte 64 msg) (Hpath : no_byte 0 path)
  (Hvars : Forall var_ok vars) (Hnames : NoDup (fst <$> vars)) (Hold : length old = NETLINK_BUFFER)
  (Hsize : (length (uevent_text msg path vars) < NETLINK_BUFFER)%nat) :
  ∃ buffer, get_netlink_msg (Some (uevent_text msg path vars)) old = Ret (Some (mkUevent msg path (vars_read vars)), buffer) ∧
    length buffer = NETLINK_BUFFER.
Proof.
  destruct Hmsg as [Hm0 Hm64]. set (m := uevent_text msg path vars) in *. unfold get_netlink_msg.
  rewrite take_ge by lia. rewrite Nat.min_l by lia. set (r := drop (S (length m)) old).
  assert (splice (length m) [0] (splice 0 m old) = m ++ 0 :: r) as Hbuf.
  { unfold splice. rewrite take_0. cbn [app length Nat.add]. rewrite take_app_length, drop_app, drop_ge by lia. cbn [app].
    rewrite drop_drop. unfold r. do 3 f_equal. lia. }
  rewrite Hbuf. set (vs := mjoin (var_text <$> vars)).
  assert (m ++ 0 :: r = (msg ++ 64 :: path) ++ 0 :: vs ++ 0 :: r) as Em by (unfold m, uevent_text; fold vs; rewrite <- !app_assoc; reflexivity).
  assert (no_byte 0 (msg ++ 64 :: path)) as Hno by (apply no_byte_app; [done | by constructor]).
  rewrite Em, until_nul_string by done. rewrite strchr_app, before_app by done.
  assert (drop (length msg + 1) ((msg ++ 64 :: path) ++ 0 :: vs ++ 0 :: r) = path ++ 0 :: vs ++ 0 :: r) as Ep.
  { rewrite <- app_assoc, <- drop_drop, drop_app_length. reflexivity. }
  rewrite Ep, string_at_string by done. cbn [mbind outcome_bind].
  assert (drop (length msg + 1 + length path + 1) ((msg ++ 64 :: path) ++ 0 :: vs ++ 0 :: r) = vs ++ 0 :: r) as Ev.
  { rewrite <- Nat.add_assoc, <- drop_drop, Ep, <- drop_drop, drop_app_length. reflexivity. }
  rewrite Ev.
  assert ((length msg + 1 <? length m + 1)%nat = true) as ->.
  { apply Nat.ltb_lt. unfold m, uevent_text. rewrite !length_app. cbn [length]. lia. }
  unfold vs. rewrite env_loop_vars; [| done | done |].
  - cbn [mbind outcome_bind app]. eexists. split; [reflexivity |]. fold vs. rewrite <- Em, length_app. cbn [length]. unfold r. rewrite length_drop. lia.
  - fold vs. assert (length vars <= length vs)%nat; [| rewrite !length_app; cbn [length]; rewrite !length_app; cbn [length]; lia].
    unfold vs. clear. induction vars as [| v vars IH]; [done |]. rewrite fmap_cons.
    change (mjoin (var_text v :: (var_text <$> vars))) with (var_text v ++ mjoin (var_text <$> vars)). rewrite length_app.
    unfold var_text at 1. rewrite !length_app. cbn [length]. lia.
Qed.

Definition one_var (n v : string) : bytes * bytes := (str n, str v).
Definition firmware_vars : list (bytes * bytes) :=
  [one_var "ACTION" "add"; one_var "DEVPATH" "/devices/x"; one_var "SUBSYSTEM" "firmware"; one_var "FIRMWARE" "a.fw"; one_var "TIMEOUT" "1"].
Lemma get_netlink_msg_reads_witness :
  ∃ buffer, get_netlink_msg (Some (uevent_text (str "add") (str "/devices/x") firmware_vars)) (replicate NETLINK_BUFFER 0) =
    Ret (Some (mkUevent (str "add") (str "/devices/x") (vars_read firmware_vars)), buffer) ∧ length buffer = NETLINK_BUFFER.
Proof.
  apply (get_netlink_msg_reads (str "add") (str "/devices/x") firmware_vars (replicate NETLINK_BUFFER 0)).
  - split; apply (bool_decide_unpack (Forall _ _)); vm_compute; exact I.
  - apply (bool_decide_unpack (Forall _ _)); vm_compute; exact I.
  - repeat (apply list.Forall_cons; split); try apply Forall_nil; repeat split; try discriminate; apply (bool_decide_unpack (Forall _ _)); vm_compute; exact I.
  - apply (bool_decide_unpack (NoDup _)). vm_compute. exact I.
  - reflexivity.
  - apply Nat.ltb_lt. reflexivity.
Defined.

(** ** Loading *)

(** What one request may write to [dir]/loading and [dir]/data: nothing; the
    start and a failure; or the start, the bytes of the firmware in their order
    and, when they are all there, the end, else a failure. *)
Inductive delivery (dir fw : bytes) : list fw_act → Prop :=
| not_started : delivery dir fw []
| no_data : delivery dir fw [Set_loading (dir ++ str "/loading") (loading_text 1); Set_loading (dir ++ str "/loading") (loading_text (-1))]
| data_written chunks rest : mjoin chunks ++ rest = fw →
    delivery dir fw ([Set_loading (dir ++ str "/loading") (loading_text 1)] ++ (Write_data (dir ++ str "/data") <$> chunks) ++
      [Set_loading (dir ++ str "/loading") (loading_text (if bool_decide (rest = []) then 0 else -1))]).
Definition delivered (dir fw : bytes) (acts : list fw_act) : Prop :=
  ∃ chunks, mjoin chunks = fw ∧
    acts = [Set_loading (dir ++ str "/loading") (loading_text 1)] ++ (Write_data (dir ++ str "/data") <$> chunks) ++
      [Set_loading (dir ++ str "/loading") (loading_text 0)].

Section loading.
Context `{FwOps W}.

Lemma wait_loop_ends n sysdir : ∀ fuel w, (n < fuel)%nat →
  ∃ t w', wait_loop fuel sysdir (Z.of_nat n * 100) w = Ret (t, w') ∧ 0 <= t ∧ ((∀ w, fw_access w sysdir = 0) → t = Z.of_nat n * 100).
Proof.
  induction n as [| n IH]; intros [| fuel] w Hf; [lia | | lia |]; cbn [wait_loop].
  - cbn. rewrite andb_false_r. exists 0, w. done.
  - destruct (fw_access w sysdir =? 0) eqn:E; cbn [negb andb].
    + eexists _, w. split; [reflexivity |]. split; [lia | done].
    + assert (Z.of_nat (S n) * 100 =? 0 = false) as -> by lia. cbn [negb].
      unfold defined_if. assert (- 2 ^ 31 + 100 <=? Z.of_nat (S n) * 100 = true) as -> by lia. cbn [mbind outcome_bind].
      replace (Z.of_nat (S n) * 100 - 100) with (Z.of_nat n * 100) by lia.
      destruct (IH fuel (fw_udelay w)) as (t & w' & -> & Ht & _); [lia |]. exists t, w'. split; [done |]. split; [done |].
      intros Ha. specialize (Ha w). lia.
Qed.

Lemma data_loop_writes path : ∀ fuel rest acts w, (length rest < fuel)%nat →
  ∃ chunks left w', data_loop fuel path rest acts w = Ret (bool_decide (left = []), acts ++ (Write_data path <$> chunks), w') ∧
    mjoin chunks ++ left = rest ∧ ((∀ w s, s ≠ [] → 0 < fst (fw_write w path s)) → left = []).
Proof.
  induction fuel as [| fuel IH]; intros rest acts w Hf; [lia |]. destruct rest as [| c rest]; cbn [data_loop].
  { exists [], [], w. cbn. by rewrite app_nil_r. }
  destruct (fw_write w path (c :: rest)) as [n w1] eqn:Ew. destruct (Z.leb_spec n 0).
  - exists [], (c :: rest), w1. cbn. rewrite app_nil_r. split; [done |]. split; [done |]. intros Hw. specialize (Hw w (c :: rest)).
    rewrite Ew in Hw. cbn in Hw. assert (0 < n) by (by apply Hw). lia.
  - destruct (IH (drop (Z.to_nat n) (c :: rest)) (acts ++ [Write_data path (take (Z.to_nat n) (c :: rest))]) w1) as (chunks & left & w' & -> & Hj & Hl).
    { rewrite length_drop. cbn [length] in *. lia. }
    exists (take (Z.to_nat n) (c :: rest) :: chunks), left, w'. split; [| split; [| done]].
    + by rewrite fmap_cons, <- app_assoc.
    + change (mjoin (take (Z.to_nat n) (c :: rest) :: chunks)) with (take (Z.to_nat n) (c :: rest) ++ mjoin chunks).
      by rewrite <- app_assoc, Hj, take_drop.
Qed.

(** The kernel's side of a request: its directory is there, its files can be
    opened, the temporary file can be mapped and every write is taken in part. *)
Definition sysfs_works (dir : bytes) : Prop :=
  (∀ w, fw_access w dir = 0 ∧ fw_temp_map w = 0) ∧
  (∀ w p, p ∈ [dir ++ str "/loading"; dir ++ str "/data"] → fw_open w p = 0) ∧
  (∀ w s, s ≠ [] → 0 < fst (fw_write w (dir ++ str "/data") s)).

Lemma _load_firmware_delivers fuel fw dir secs w : 0 <= secs < 2148 → (Z.to_nat (secs * 10000) < fuel)%nat →
  ∃ rc acts w', _load_firmware fuel fw dir secs w = Ret (rc, acts, w') ∧ delivery dir fw acts ∧
    (0 < secs → sysfs_works dir → delivered dir fw acts).
Proof.
  intros Hs Hf. unfold _load_firmware, defined_if.
  assert ((- 2 ^ 31 <=? secs * 1000000) && (secs * 1000000 <? 2 ^ 31) = true) as -> by lia. cbn [mbind outcome_bind].
  assert (secs * 1000000 = Z.of_nat (Z.to_nat (secs * 10000)) * 100) as -> by lia.
  destruct (wait_loop_ends (Z.to_nat (secs * 10000)) dir fuel w Hf) as (t & w1 & -> & _ & Ht1). cbn [mbind outcome_bind].
  destruct (Z.eqb_spec t 0) as [-> | _].
  { eexists _, _, _. split; [reflexivity |]. split; [constructor |]. intros ? [Hw _]. assert (0 = _) by (apply Ht1; apply Hw). lia. }
  destruct (fw_open w1 (dir ++ str "/loading") =? 0) eqn:Eo; cbn [negb].
  2:{ eexists _, _, _. split; [reflexivity |]. split; [constructor |]. intros ? (_ & Ho & _). rewrite Ho in Eo by (apply list_elem_of_here). done. }
  unfold set_loading. destruct (fw_write w1 (dir ++ str "/loading") (loading_text 1)) as [? w2].
  destruct (fw_temp_map w2 =? 0) eqn:Em; cbn [negb].
  2:{ destruct (fw_write w2 _ _) as [? w3]. eexists _, _, _. split; [reflexivity |]. split; [apply no_data |]. intros ? (Hw & _).
      destruct (Hw w2). lia. }
  destruct (fw_open w2 (dir ++ str "/data") =? 0) eqn:Ed; cbn [negb].
  2:{ destruct (fw_write w2 _ _) as [? w3]. eexists _, _, _. split; [reflexivity |]. split; [apply no_data |]. intros ? (_ & Ho & _).
      rewrite Ho in Ed by set_solver. done. }
  destruct (data_loop_writes (dir ++ str "/data") (S (length fw)) fw ([] ++ [Set_loading (dir ++ str "/loading") (loading_text 1)]) w2)
    as (chunks & left & w3 & -> & Hj & Hl); [lia |]. cbn [mbind outcome_bind].
  destruct (fw_write w3 _ _) as [? w4]. eexists _, _, _. split; [reflexivity |]. split.
  - rewrite <- !app_assoc. by apply data_written.
  - intros _ (_ & _ & Hw). specialize (Hl Hw). subst left. rewrite app_nil_r in Hj. exists chunks. split; [done |]. by rewrite <- !app_assoc.
Qed.
End loading.

(** The directories of the search path, [files] saying what firmware each of
    them has: it is there and can be read whole, or there is no such file. *)
Section search.
Context `{FwOps W} (firmware : bytes) (files : bytes → option bytes).
Definition fw_name (dir : bytes) : bytes := dir ++ [47] ++ firmware.
Definition searchable (path : list bytes) : Prop :=
  (∀ w dir, dir ∈ path →
    match files dir with
    | Some s => fw_access w (fw_name dir) = 0 ∧ fw_map w (fw_name dir) = inr s
    | None => fw_access w (fw_name dir) = ENOENT
    end) ∧
  (∀ w s, s ≠ [] → 0 < fst (fst (fw_temp_write w s))).

Lemma temp_loop_writes : ∀ fuel rest done_ w, (∀ w s, s ≠ [] → 0 < fst (fst (fw_temp_write w s))) → (length rest < fuel)%nat →
  ∃ w', temp_loop fuel rest done_ w = Ret (0, done_ ++ rest, w').
Proof.
  induction fuel as [| fuel IH]; intros rest done_ w Hw Hf; [lia |]. destruct rest as [| c rest]; cbn [temp_loop].
  { exists w. by rewrite app_nil_r. }
  specialize (Hw w (c :: rest)) as Hn. destruct (fw_temp_write w (c :: rest)) as [[n e] w1]. cbn in Hn.
  assert (0 < n) by (by apply Hn). destruct (Z.leb_spec n 0); [lia |].
  destruct (IH (drop (Z.to_nat n) (c :: rest)) (done_ ++ take (Z.to_nat n) (c :: rest)) w1 Hw) as [w' ->].
  { rewrite length_drop. cbn [length] in *. lia. }
  exists w'. by rewrite <- app_assoc, take_drop.
Qed.

(** The first directory that has the firmware gives the temporary file. *)
Lemma find_firmware_first path : ∀ temp w, searchable path →
  ∃ found temp' w', find_firmware path firmware temp w = Ret (found, temp', w') ∧
    match head (omap files path) with Some s => is_Some found ∧ temp' = s | None => found = None end.
Proof.
  induction path as [| dir path IH]; intros temp w [Hd Hw]; cbn [find_firmware]; [by exists None, temp, w |].
  assert (searchable path) as Hp by (split; [intros w' d Hin; apply Hd; by apply list_elem_of_further | done]).
  specialize (Hd w dir (list_elem_of_here _ _)). change (dir ++ [47] ++ firmware) with (fw_name dir). unfold fetcher. cbn [omap list_omap].
  destruct (files dir) as [s |] eqn:Ef.
  - destruct Hd as [-> ->]. cbn [Z.eqb negb].
    destruct (temp_loop_writes (S (length s)) s [] w Hw) as [w' ->]; [lia |]. cbn [mbind outcome_bind app Z.eqb].
    rewrite Nat.sub_diag, app_nil_r. by eexists _, s, w'.
  - rewrite Hd. cbn [Z.eqb ENOENT negb mbind outcome_bind orb]. exact (IH temp w Hp).
Qed.
End search.

(** C38: Every request for firmware is answered: when a directory of the search
    path has the file, what is written to the device's directory of sysfs is
    one of the [delivery] sequences for the contents of the first such file,
    and all of it followed by the end when sysfs works; without such a file
    nothing is written. *)
Theorem load_firmware_delivers `{FwOps W} fuel path ue (w : W) devpath firmware timeout secs files
  (Hadd : envz_get (ue_envz ue) (str "ACTION") = Some (str "add") ∧ envz_get (ue_envz ue) (str "SUBSYSTEM") = Some (str "firmware"))
  (Hdev : envz_get (ue_envz ue) (str "DEVPATH") = Some devpath) (Hfw : envz_get (ue_envz ue) (str "FIRMWARE") = Some firmware)
  (Htime : envz_get (ue_envz ue) (str "TIMEOUT") = Some timeout ∧ strtol_int timeout = Some secs) (Hsecs : 0 <= secs < 2148)
  (Hfuel : (Z.to_nat (secs * 10000) < fuel)%nat) (Hfiles : searchable firmware files path) :
  let dir := str "/sys" ++ devpath ++ str "/" in
  ∃ acts w', handle_single_uevent fuel path ue w = Ret (Some acts, w') ∧
    match head (omap files path) with
    | None => acts = []
    | Some s => delivery dir s acts ∧ (0 < secs → (∀ w, fst (fw_mkstemp w) = true) → sysfs_works dir → delivered dir s acts)
    end.
Proof.
  intros dir. destruct Hadd as [Ha Hs], Htime as [Ht Ht']. unfold handle_single_uevent. rewrite Ha. cbn [checked mbind outcome_bind].
  rewrite (proj2 (streq_spec _ _) eq_refl), Hs. cbn [checked mbind outcome_bind]. rewrite (proj2 (streq_spec _ _) eq_refl). unfold load_firmware.
  destruct (fw_mkstemp w) as [ok w1] eqn:Ek. destruct ok; cbn [negb].
  2:{ exists [], w1. split; [done |]. case_match; [| done]. split; [constructor |]. intros _ Hm. specialize (Hm w). by rewrite Ek in Hm. }
  rewrite Hdev, Hfw, Ht. cbn [checked mbind outcome_bind]. rewrite Ht'.
  destruct (find_firmware_first firmware files path [] w1 Hfiles) as (found & temp & w2 & -> & Hfound). cbn [mbind outcome_bind].
  destruct (head (omap files path)) as [s |]; [| subst found; by eexists _, _].
  destruct Hfound as [[f ->] ->]. destruct (_load_firmware_delivers fuel s dir secs w2) as (rc & acts & w3 & Eq & Hdel & Hall); [done | done |].
  unfold dir in Eq. rewrite Eq. cbn [mbind outcome_bind]. eexists acts, w3. split; [done |]. split; [done |]. intros Hp _ Hsys. by apply Hall.
Qed.

(** A machine whose second directory has a firmware of three bytes, and whose
    sysfs takes two bytes at a time. *)
Definition small_files (dir : bytes) : option bytes := if streq dir (str "/b") then Some [7; 8; 9] else None.
#[local] Instance small_fw : FwOps unit := {
  fw_mkstemp _ := (true, tt);
  fw_access _ p := if streq p (str "/a/x") then ENOENT else 0;
  fw_map _ p := inr [7; 8; 9];
  fw_temp_write _ s := (Z.of_nat (length s), 0, tt);
  fw_temp_map _ := 0;
  fw_open _ _ := 0;
  fw_write _ _ s := (Z.min 2 (Z.of_nat (length s)), tt);
  fw_udelay _ := tt;
  fw_recv _ := (None, tt);
  fw_poll _ := (1, true, tt);
  fw_kill _ _ _ := tt;
  fw_waitid _ _ := (No_child, tt)
}.
Definition small_event : uevent :=
  mkUevent (str "add") (str "/d") [(str "ACTION", Some (str "add")); (str "DEVPATH", Some (str "/d"));
    (str "SUBSYSTEM", Some (str "firmware")); (str "FIRMWARE", Some (str "x")); (str "TIMEOUT", Some (str "2"))].
Definition sysfs_d : bytes := str "/sys" ++ str "/d" ++ str "/".
Lemma load_firmware_delivers_witness :
  (∃ acts w', handle_single_uevent 20001 [str "/a"; str "/b"] small_event tt = Ret (Some acts, w') ∧
    delivery sysfs_d [7; 8; 9] acts ∧ (0 < 2 → (∀ w : unit, fst (fw_mkstemp w) = true) → sysfs_works sysfs_d → delivered sysfs_d [7; 8; 9] acts)) ∧
  sysfs_works sysfs_d ∧
  handle_single_uevent 20001 [str "/a"; str "/b"] small_event tt =
    Ret (Some [Set_loading (sysfs_d ++ str "/loading") (str "1" ++ [0]); Write_data (sysfs_d ++ str "/data") [7; 8]; Write_data (sysfs_d ++ str "/data") [9];
      Set_loading (sysfs_d ++ str "/loading") (str "0" ++ [0])], tt).
Proof.
  split; [| split; [| vm_compute; reflexivity]].
  - apply (load_firmware_delivers 20001 [str "/a"; str "/b"] small_event tt (str "/d") (str "x") (str "2") 2 small_files).
    + split; reflexivity.
    + reflexivity.
    + reflexivity.
    + split; reflexivity.
    + lia.
    + apply Nat.ltb_lt. vm_compute. reflexivity.
    + split; [| intros w s Hs; destruct s; [done | cbn; lia]]. intros w dir Hin. rewrite !elem_of_cons in Hin. destruct Hin as [-> | [-> | Hin]].
      * reflexivity.
      * split; reflexivity.
      * by apply elem_of_nil in Hin.
  - split; [intros w; split; reflexivity |]. split; [intros w p _; reflexivity |]. intros w s Hs. destruct s as [| c s]; [done |]. cbn [fw_write small_fw fst]. cbn [length]. lia.
Defined.
