(* ===== verification/Fetch.v ===== *)
(** * Fetching a file (urlinstall.c, nfsinstall.c) and the updates (loader.c)

    getFileFromUrl and getFileFromNfs, which bring the network up, take the
    location apart and copy the file through [Transfer] or a mount; what uses
    them for a kickstart file and for updates; and loadUpdates, which looks for
    updates on a disk.  A pointer that is freed has to be the start of its
    block. *)

From S2P Require Import Prelude CLib Posix Loader Sys Cpio Net Urls Ftp Kickstart CmdLine Getparts Steps Host Imount Misc Transfer Methods Devices NetUp DriverDisk.

Section fetch.
Context {W G : Type} `{HostOps W G} `{NetOps W} `{NetUpOps W}.
(** As in [Methods] and [NetUp]; [devs] is what getDevices(DEVICE_NETWORK)
    gives, [flags] are the flags. *)
Context (junk : nat → bytes) (fuel : nat).
Context (inet_pton6 : bytes → option bytes) (inet_ntop6 : bytes → bytes) (iface_mac2str : bytes → option bytes)
  (qsort : list bytes → list bytes) (gethostbyname : bytes → option bytes) (junk6 : bytes) (pw_name : option bytes)
  (alloca : nat → nat) (version arch name : bytes) (iface_ip2str : W → bytes → option bytes).
Context (outside : option Z) (err : Z) (devs : option (list device)).

(** The network, and what follows it. *)
Definition network_up (ld : loaderData_s) (flags : Z) (w : W) : outcome (option Z * loaderData_s * Z * W) :=
  '(rc, ld, _, flags, w) ← kickstartNetworkUp inet_pton6 inet_ntop6 iface_mac2str qsort outside err fuel devs ld flags w; Ret (rc, ld, flags, w).

(** ** A file from a URL *)

(** A header for every card with an address, counted over all cards. *)
Definition mac_headers (devices : list device) : bytes :=
  mjoin (imap (λ i d, match iface_mac2str (dv_device d) with
                      | Some mac => str "X-RHN-Provisioning-MAC-" ++ fmt_d (Z.of_nat i) ++ str ": " ++ dv_device d ++ str " " ++ mac ++ crlf
                      | None => []
                      end) devices).
Definition request_headers (flags : Z) (ui : iurlinfo) : option bytes :=
  match extra_headers version arch name ui with
  | Some h => Some (if FL flags LOADER_FLAGS_KICKSTART_SEND_MAC then h ++ mac_headers (default [] devs) else h)
  | None => None
  end.

(** The address, the login, the password, the file, and whether the pointers
    to the host and to the password are starts of blocks.  The name of a file
    that ends with a slash is made with the null pointer [ip]. *)
Definition url_parts (url : bytes) : outcome (iurlinfo * bytes * bool) :=
  let proto := if starts_with (str "ftp://") url then URL_METHOD_FTP else URL_METHOD_HTTP in
  let skip := if decide (proto = URL_METHOD_FTP) then 6%nat else 7%nat in
  _ ← defined_if (skip <=? length url)%nat;
  let source := drop skip url in
  c ← checked (list.last (default [] (strchr source 47)));
  _ ← defined_if (negb (c =? 47));
  '(host, file, login, password) ← getHostPathandLogin source [];
  let slash := strchr host 47 in
  let heap := bool_decide (strchr (match strchr source 47 with Some t => before source t | None => source end) 64 = None) && bool_decide (slash = None) in
  let some s := if bool_decide (s = []) then None else Some s in
  Ret (mkUi proto (Some (match slash with Some s => before host s | None => host end)) (some login) (some password)
         (Some (default (str "/") slash)) None None 0, file, heap).

(** [None] when the process ends. *)
Definition getFileFromUrl (url dest : bytes) (ld : loaderData_s) (flags : Z) (buf : bytes) (w : W) :
    outcome (option (Z * loaderData_s * Z * bytes * W)) :=
  '(rc, ld, flags, w) ← network_up ld flags w;
  match rc with
  | None => Ret None
  | Some rc =>
      if negb (rc =? 0) then Ret (Some (1, ld, flags, buf, w))
      else
        '(ui, file, heap) ← url_parts url;
        r ← urlinstStartTransfer inet_pton6 gethostbyname junk6 pw_name alloca fuel ui file (request_headers flags ui) 0 buf w;
        match r with
        | None => Ret None
        | Some (fd, ui, _, buf, w) =>
            '(retval, w) ←
              (if fd <? 0 then Ret (1, w)
               else
                 '(rc, w) ← copyFileFd fuel (Z.to_nat fd) dest w;
                 if negb (rc =? 0) then Ret (1, snd (s_unlink w dest)) else Ret (0, urlinstFinishTransfer ui fd w));
            _ ← defined_if heap;
            Ret (Some (retval, ld, flags, buf, w))
        end
  end.
Definition kickstartFromUrl (url : bytes) := getFileFromUrl url (str "/tmp/ks.cfg").

(** ** A file from an NFS server *)

(** What to mount, the options, the file, and whether the pointer to the host
    is the start of a block. *)
Definition nfs_parts (url ip : bytes) : outcome (bytes * option bytes * bytes * bool) :=
  '(host, path, _, _) ← getHostPathandLogin url ip;
  let inside := bool_decide (is_Some (strchr (match strchr url 47 with Some t => before url t | None => url end) 64)) in
  let '(opts, host, inside) :=
    match strchr host 58 with
    | Some o => if (1 <? length o)%nat then (Some (before host o), tail o, true) else (None, host, inside)
    | None => (None, host, inside)
    end in
  match strrchr path 47 with
  | None => Ret (host, opts, path, negb inside)
  | Some s =>
      let dir := before path s in
      c ← (if bool_decide (host = []) && inside then Ret 0 else checked (list.last host));
      let sep := if (c =? 47) || (default 0 (head dir) =? 47) then [] else [47] in
      Ret (host ++ sep ++ dir, opts, tail s, true)
  end.

Definition getFileFromNfs (url : option bytes) (dest : bytes) (ld : loaderData_s) (flags : Z) (w : W) :
    outcome (option (Z * loaderData_s * Z * W)) :=
  '(rc, ld, flags, w) ← network_up ld flags w;
  match rc with
  | None => Ret None
  | Some rc =>
      if negb (rc =? 0) then Ret (Some (1, ld, flags, w))
      else
        dev ← checked (ld_s ld L_netDev);
        match iface_ip2str w dev with
        | None => Ret (Some (1, ld, flags, w))
        | Some ip =>
            url ← checked url;
            '(host, opts, file, heap) ← nfs_parts url ip;
            '(rc, _, w) ← doPwMount junk fuel host (str "/tmp/mnt") (str "nfs") opts None w;
            '(failed, w) ←
              (if rc =? 0 then '(rc, w) ← copyFile fuel (str "/tmp/mnt/" ++ file) dest w; Ret (if rc =? 0 then 0 else 1, w)
               else Ret (1, w));
            _ ← defined_if heap;
            Ret (Some (failed, ld, flags, snd (s_unlink (h_umount w (str "/tmp/mnt")) (str "/tmp/mnt"))))
        end
  end.
Definition kickstartFromNfs (url : option bytes) := getFileFromNfs url (str "/tmp/ks.cfg").

(** ** Updates from a URL *)

(** newUpdatesLocation with what is in its entry, and the bounds of
    [copyDirectory] and of cpio. *)
Context (newUpdatesLocation : W → bytes → option bytes * W) (depth : nat) (cpio_junk : Z).

(** It calls itself with a new location. *)
Fixpoint loadUpdatesFromRemote (turns : nat) (url : bytes) (ld : loaderData_s) (flags : Z) (buf : bytes) (w : W) :
    outcome (option (Z * loaderData_s * Z * bytes * W)) :=
  match turns with
  | O => NoFuel
  | S turns =>
      r ← getFileFromUrl url (str "/tmp/updates.img") ld flags buf w;
      match r with
      | None => Ret None
      | Some (rc, ld, flags, buf, w) =>
          if negb (rc =? 0) then
            let '(newLocation, w) := newUpdatesLocation w url in
            match newLocation with
            | None => Ret (Some (rc, ld, flags, buf, w))
            | Some url => loadUpdatesFromRemote turns url ld flags buf w
            end
          else
            w ← copyUpdatesImg junk cpio_junk fuel depth (str "/tmp/updates.img") w;
            Ret (Some (0, ld, flags, buf, snd (s_unlink w (str "/tmp/updates.img"))))
      end
  end.
End fetch.

(** ** Updates from a disk *)

Inductive upd_stage := UPD_DEVICE | UPD_PART | UPD_PROMPT | UPD_LOAD | UPD_DONE.
Record upd_vars := mkUpd { up_stage : upd_stage; up_dir : Z; up_num : Z; up_device : option bytes; up_part : option bytes }.

Section updates.
Context {W G : Type} `{HostOps W G} `{DriverOps W}.
Context (junk : nat → bytes) (depth fuel : nat).

(** The variables for the next turn, or nothing when the function returns. *)
Abbreviation upd_step := (outcome (option upd_vars * W)).

Definition upd_prompt (v : upd_vars) (w : W) : upd_step :=
  let '(rc, w) := dd_choice w in
  Ret (Some (if rc =? 2 then mkUpd UPD_PART (-1) (up_num v) (up_device v) (up_part v)
             else mkUpd UPD_LOAD (up_dir v) (up_num v) (up_device v) (up_part v)), w).

(** The choice of a partition goes on to the prompt. *)
Definition upd_part (v : upd_vars) (w : W) : upd_step :=
  part_list ← getPartitionsList (up_device v) (h_contents w (str "/proc/partitions"));
  if (lenPartitionsList part_list =? 0)%nat then
    if up_dir v =? -1 then Ret (Some (mkUpd UPD_DEVICE (up_dir v) (up_num v) (up_device v) None), w)
    else
      device ← checked (up_device v);
      Ret (Some (mkUpd UPD_PROMPT (up_dir v) (up_num v) (up_device v) (Some (str "/dev/" ++ device))), w)
  else
    let '(rc, num, w) := dd_menu w (default [] part_list) 0 in
    if rc =? 2 then Ret (Some (mkUpd UPD_DEVICE (-1) (up_num v) (up_device v) None), w)
    else
      _ ← defined_if (0 <=? num);
      p ← checked (default [] part_list !! Z.to_nat num);
      upd_prompt (mkUpd UPD_LOAD 1 (up_num v) (up_device v) (Some p)) w.

Definition upd_device (v : upd_vars) (w : W) : upd_step :=
  names ← getRemovableDevices junk false w;
  match names with
  | [] => Ret (None, w)
  | [name] =>
      if up_dir v =? -1 then Ret (None, w) else Ret (Some (mkUpd UPD_PART (up_dir v) (up_num v) (Some name) (up_part v)), w)
  | _ =>
      let '(rc, num, w) := dd_menu w names (up_num v) in
      if rc =? 2 then Ret (None, w)
      else
        _ ← defined_if (0 <=? num);
        name ← checked (names !! Z.to_nat num);
        upd_part (mkUpd UPD_PART 1 num (Some name) (up_part v)) w
  end.

(** A copy that fails leaves the stage as it is. *)
Definition upd_load (v : upd_vars) (w : W) : upd_step :=
  part ← checked (up_part v);
  '(rc, _, w) ← doMultiMount junk fuel part (str "/tmp/update-disk") ddFsTypes (Some (str "ro")) None w;
  if negb (rc =? 0) then Ret (Some (mkUpd UPD_PROMPT (up_dir v) (up_num v) (up_device v) (up_part v)), w)
  else
    '(rc, w) ← copyDirectory depth fuel (str "/tmp/update-disk") (str "/tmp/updates") w;
    let w := h_umount w (str "/tmp/update-disk") in
    Ret (Some (if rc =? 0 then mkUpd UPD_DONE 1 (up_num v) (up_device v) (up_part v) else v), w).

(** [while (stage != UPD_DONE)] *)
Fixpoint updates_loop (turns : nat) (v : upd_vars) (w : W) : outcome W :=
  match turns with
  | O => NoFuel
  | S turns =>
      '(n, w) ←
        (match up_stage v with
         | UPD_DEVICE => upd_device v w
         | UPD_PART => upd_part v w
         | UPD_PROMPT => upd_prompt v w
         | UPD_LOAD => upd_load v w
         | UPD_DONE => Ret (None, w)
         end);
      match n with Some v => updates_loop turns v w | None => Ret w end
  end.
Definition upd_start : upd_vars := mkUpd UPD_DEVICE 1 0 None None.
Definition loadUpdates (turns : nat) (w : W) : outcome W := updates_loop turns upd_start w.
End updates.
