(* ===== verification/Telnet.v ===== *)
(** * The telnet layer (stage-1/telnet.c)

    telnet_negotiate, telnet_process_input and telnet_send_output, and the
    protocol automaton they are measured against ([feed], [crlf], [reply]).
    Buffers are lists of bytes walked by index; a character that is read before
    anything was stored in it is a parameter. *)

From S2P Require Import Prelude CLib Posix.

Definition IAC : Z := 0xff.
Definition DONT : Z := 0xfe.
Definition DO_ : Z := 0xfd.
Definition WONT : Z := 0xfc.
Definition WILL : Z := 0xfb.
Definition SB : Z := 0xfa.
Definition SE : Z := 0xf0.
Definition ECHO : Z := 0x01.
Definition SUPPRESS_GO_AHEAD : Z := 0x03.
Definition TERMINAL_TYPE : Z := 0x18.
Definition NAWS : Z := 0x1f.
Definition LINEMODE : Z := 0x22.
Definition NEWENVIRON : Z := 0x27.

Inductive telnet_state := TS_DATA | TS_IAC | TS_SB | TS_SB_IAC.
#[export] Instance telnet_state_eq_dec : EqDecision telnet_state.
Proof. solve_decision. Defined.

(** ** Negotiation *)

Definition request : bytes :=
  [IAC; DONT; ECHO; IAC; WILL; ECHO; IAC; WILL; NAWS; IAC; WILL; SUPPRESS_GO_AHEAD;
   IAC; DO_; SUPPRESS_GO_AHEAD; IAC; DONT; NEWENVIRON; IAC; WONT; NEWENVIRON; IAC; WONT; LINEMODE;
   IAC; DO_; NAWS; IAC; SB; TERMINAL_TYPE; 1; IAC; SE].

Inductive neg_state := ST_NONE | ST_TERMTYPE | ST_WINDOWSIZE.

Section negotiate.
Context {F : Type} `{FileOps F}.

(** [ret = read(socket, &ch, 1);] where the result is not looked at. *)
Definition read_ch (f : F) (ch : Z) : Z * F :=
  let '(_, d, f) := f_read f 1 in (default ch (head d), f).

(** termType and sizeBuf as far as they are filled. *)
Record neg_bufs := mkNeg { nb_term : option bytes; nb_size : bytes }.

Definition neg_store (st : neg_state) (ch : Z) (b : neg_bufs) : neg_bufs :=
  match st with
  | ST_TERMTYPE => mkNeg (Some (default [] (nb_term b) ++ [w8 (tolower (schar ch))])) (nb_size b)
  | ST_WINDOWSIZE => if (length (nb_size b) <? 4)%nat then mkNeg (nb_term b) (nb_size b ++ [ch]) else b
  | ST_NONE => b
  end.

(** [while (ch != '\xff')] *)
Fixpoint suboption (fuel : nat) (st : neg_state) (f : F) (ch : Z) (b : neg_bufs) :
    outcome (F * Z * neg_bufs) :=
  match fuel with
  | O => NoFuel
  | S fuel =>
      if ch =? IAC then Ret (f, ch, b)
      else
        let b := neg_store st ch b in
        let '(ch, f) := read_ch f ch in
        suboption fuel st f ch b
  end.

Inductive neg_result := NegAborted | NegDone (termType : bytes) (width height : Z) (f : F).

(** [do { ... } while (!done)] *)
Fixpoint negotiate_loop (fuel : nat) (f : F) (ch : Z) (b : neg_bufs) : outcome (option (F * neg_bufs)) :=
  match fuel with
  | O => NoFuel
  | S fuel =>
      let '(ch, f) := read_ch f ch in
      if negb (ch =? IAC) then Ret None
      else
        let '(ch, f) := read_ch f ch in
        if negb (ch =? SB) then
          let '(ch, f) := read_ch f ch in
          negotiate_loop fuel f ch b
        else
          let '(ch, f) := read_ch f ch in
          let '(st, done_, ch, f) :=
            if ch =? TERMINAL_TYPE then
              let '(ch, f) := read_ch f ch in (ST_TERMTYPE, true, ch, f)
            else if ch =? NAWS then (ST_WINDOWSIZE, false, ch, f)
            else (ST_NONE, false, ch, f) in
          let '(ch, f) := read_ch f ch in
          '(f, ch, b) ← suboption fuel st f ch b;
          let '(ch, f) := read_ch f ch in
          if done_ : bool then Ret (Some (f, b)) else negotiate_loop fuel f ch b
  end.

(** [termType] of [None] is the null pointer the C writes through. *)
Definition telnet_negotiate (fuel : nat) (socket : F) (ch : Z) : outcome neg_result :=
  let f := snd (f_write socket request) in
  r ← negotiate_loop fuel f ch (mkNeg None []);
  match r with
  | None => Ret NegAborted
  | Some (f, b) =>
      match nb_term b with
      | None => Undef
      | Some t =>
          let c i := schar (nth i (nb_size b) 0) in
          if (length (nb_size b) =? 4)%nat then
            Ret (NegDone t (Z.shiftl (c 0%nat) 8 + c 1%nat) (Z.shiftl (c 2%nat) 8 + c 3%nat) f)
          else Ret (NegDone t (-1) (-1) f)
      end
  end.
End negotiate.
Arguments neg_result : clear implicits.

(** ** Input *)

(** [while (s < data + (len - 1))] of TS_SB *)
Fixpoint skip_sb (fuel : nat) (data : bytes) (len s : nat) : nat :=
  match fuel with
  | O => s
  | S fuel =>
      if (s <? len - 1)%nat then
        if bool_decide (data !! s = Some IAC) then s else skip_sb fuel data len (S s)
      else s
  end.

(** The loop: the state, the buffer, and where [d] ends. *)
Fixpoint process_loop (fuel : nat) (ts : telnet_state) (data : bytes) (len s d : nat) :
    outcome (telnet_state * bytes * nat) :=
  match fuel with
  | O => NoFuel
  | Datatypes.S fuel =>
      if (s <? len)%nat then
        b ← checked (data !! s);
        match ts with
        | TS_DATA =>
            if b =? IAC then process_loop fuel TS_IAC data len (S s) d
            else
              let data := if (d <? s)%nat then <[d := b]> data else data in
              process_loop fuel TS_DATA data len (S s) (S d)
        | TS_IAC =>
            if b =? SB then process_loop fuel TS_SB data len (S s) d
            else process_loop fuel TS_DATA data len (S (S s)) d
        | TS_SB =>
            let s := skip_sb len data len s in
            b ← checked (data !! s);
            process_loop fuel (if b =? IAC then TS_SB_IAC else TS_SB) data len (S s) d
        | TS_SB_IAC => process_loop fuel (if b =? SE then TS_DATA else TS_SB) data len (S s) d
        end
      else Ret (ts, data, d)
  end.

Definition telnet_process_input (ts : telnet_state) (data : bytes) (len : nat) :
    outcome (telnet_state * bytes * nat) :=
  process_loop (S len) ts data len 0 0.

(** ** Output *)

(** The translation loop: [buf] so far ([d] is its length), of [cap] bytes. *)
Fixpoint send_loop (fuel : nat) (data : bytes) (cap len s : nat) (buf : bytes) : outcome bytes :=
  match fuel with
  | O => NoFuel
  | S fuel =>
      if (length buf <? len)%nat then
        b ← checked (data !! s);
        cr ← (if (b =? 10) && negb (s =? 0)%nat then
                p ← checked (data !! (s - 1)%nat); Ret (negb (p =? 13))
              else Ret (b =? 10));
        let buf := if cr : bool then buf ++ [13] else buf in
        let len := if cr : bool then S len else len in
        _ ← defined_if (length buf <? cap)%nat;
        send_loop fuel data cap len (S s) (buf ++ [b])
      else Ret buf
  end.

(** The bytes handed to write(2). *)
Definition telnet_send_output (data : bytes) (len : nat) : outcome bytes :=
  send_loop (S len) data (len * 2 + 1) len 0 [].

(** ** The relay of telnetd.c *)

(** One return of poll with what the reads it leads to return: for a
    descriptor with events the bytes, or [None] for -1. *)
Record pollret := mkPoll { pr_master : option (option bytes); pr_conn : option (option bytes) }.

(** What was written to the pseudo terminal and to the connection. *)
Record relay_state := mkRelay { rl_ts : telnet_state; rl_master : bytes; rl_conn : bytes }.

(** The body of the loop; [false] is break. A count of -1 makes the loop of
    telnet_process_input empty, as 0 does. *)
Definition relay_body (p : pollret) (r : relay_state) : outcome (bool * relay_state) :=
  let from_conn r :=
    match pr_conn p with
    | None => Ret (true, r)
    | Some (Some []) => Ret (false, r)
    | Some b =>
        let buf := default [] b in
        '(ts, buf, i) ← telnet_process_input (rl_ts r) buf (length buf);
        Ret (true, mkRelay ts (rl_master r ++ take i buf) (rl_conn r))
    end in
  match pr_master p with
  | None => from_conn r
  | Some None => Ret (false, r)
  | Some (Some buf) =>
      out ← telnet_send_output buf (length buf);
      from_conn (mkRelay (rl_ts r) (rl_master r) (rl_conn r ++ out))
  end.

(** [while ((i = poll(fds, 2, -1)) > 0)]: the list ends where poll fails. *)
Fixpoint relay_loop (ps : list pollret) (r : relay_state) : outcome relay_state :=
  match ps with
  | [] => Ret r
  | p :: ps => '(more, r) ← relay_body p r; if more : bool then relay_loop ps r else Ret r
  end.

Definition beTelnet_relay (ps : list pollret) : outcome relay_state :=
  relay_loop ps (mkRelay TS_DATA [] []).
