(* ===== verification/TelnetFacts.v ===== *)
(** * The telnet layer against its protocol (stage-1/telnet.c)

    The input side refines the automaton [feed], which looks at one byte at a
    time; the output side is the function [crlf]; the negotiation reads back
    the replies of a client ([reply_bytes]). *)

From S2P Require Import Prelude CLib Posix Telnet.

(** ** The automaton *)

Inductive phase := P_DATA | P_IAC | P_VERB | P_SB | P_SB_IAC.

(** The next phase and the characters a byte delivers. *)
Definition feed (p : phase) (b : Z) : phase * bytes :=
  match p with
  | P_DATA => if b =? IAC then (P_IAC, []) else (P_DATA, [b])
  | P_IAC => (if b =? SB then P_SB else P_VERB, [])
  | P_VERB => (P_DATA, [])
  | P_SB => (if b =? IAC then P_SB_IAC else P_SB, [])
  | P_SB_IAC => (if b =? SE then P_DATA else P_SB, [])
  end.

Fixpoint feeds (p : phase) (l : bytes) : phase * bytes :=
  match l with
  | [] => (p, [])
  | b :: l => let '(p, o) := feed p b in let '(p, os) := feeds p l in (p, o ++ os)
  end.

Definition phase_of (ts : telnet_state) : phase :=
  match ts with TS_DATA => P_DATA | TS_IAC => P_IAC | TS_SB => P_SB | TS_SB_IAC => P_SB_IAC end.
(** The state the code keeps between calls; that it was about to skip an
    option is forgotten. *)
Definition state_of (p : phase) : telnet_state :=
  match p with P_DATA | P_VERB => TS_DATA | P_IAC => TS_IAC | P_SB => TS_SB | P_SB_IAC => TS_SB_IAC end.

Lemma feeds_app p l k : feeds p (l ++ k) =
  let '(p1, o1) := feeds p l in let '(p2, o2) := feeds p1 k in (p2, o1 ++ o2).
Proof.
  revert p. induction l as [| b l IH]; intros p; cbn [app feeds].
  - by destruct (feeds p k).
  - destruct (feed p b) as [p1 o1]. rewrite IH. destruct (feeds p1 l) as [p2 o2].
    destruct (feeds p2 k) as [p3 o3]. by rewrite (assoc_L (++)).
Qed.

Lemma feeds_length p l : (length (snd (feeds p l)) ≤ length l)%nat.
Proof.
  revert p. induction l as [| b l IH]; intros p; cbn [feeds]; [done |].
  destruct (feed p b) as [p1 o1] eqn:E. specialize (IH p1). destruct (feeds p1 l) as [p2 o2]. cbn [snd] in *.
  rewrite length_app. cbn [length].
  assert (length o1 ≤ 1)%nat.
  { destruct p; cbn in E; repeat case_match; injection E as <- <-; cbn; lia. }
  lia.
Qed.

(** ** telnet_process_input *)

Lemma lookup_behind (l k : bytes) b n : n = length l → (l ++ b :: k) !! n = Some b.
Proof. intros ->. by rewrite list_lookup_middle. Qed.

(** Where the scan of a suboption stops. *)
Lemma skip_sb_spec fuel pre inp post b s len : s = length pre →
  len = (length pre + S (length inp))%nat → (length inp ≤ fuel)%nat →
  ∃ k b' rest, skip_sb fuel (pre ++ b :: inp ++ post) len s = (length pre + k)%nat ∧
    b :: inp = take k (b :: inp) ++ b' :: rest ∧ length (take k (b :: inp)) = k ∧
    Forall (λ c, c ≠ IAC) (take k (b :: inp)) ∧ (b' = IAC ∨ rest = []).
Proof.
  revert pre inp b s. induction fuel as [| fuel IH]; intros pre inp b s -> -> Hf; cbn [skip_sb].
  { destruct inp; [| cbn in Hf; lia]. exists 0%nat, b, []. split_and!; first [done | lia | by right]. }
  destruct inp as [| c inp].
  { cbn [length]. destruct (Nat.ltb_spec (length pre) (length pre + 1 - 1)); [lia |].
    exists 0%nat, b, []. split_and!; first [done | lia | by right]. }
  cbn [length] in Hf |- *. destruct (Nat.ltb_spec (length pre) (length pre + S (S (length inp)) - 1)); [| lia].
  cbn [app]. rewrite (lookup_behind pre) by done.
  destruct (bool_decide_reflect (Some b = Some IAC)) as [[= ->] | Hne].
  { exists 0%nat, IAC, (c :: inp). split_and!; first [done | lia | by left]. }
  destruct (IH (pre ++ [b]) inp c (S (length pre))) as (k & b' & rest & Es & Eq & El & Hn & Hl);
    [rewrite length_app; cbn; lia | rewrite length_app; cbn; lia | lia |].
  rewrite <- (assoc_L (++)), length_app in Es. cbn [app length] in Es.
  replace (length pre + 1 + S (length inp))%nat with (length pre + S (S (length inp)))%nat in Es by lia.
  rewrite Es. exists (S k), b', rest. cbn [take]. split_and!; try done.
  - lia.
  - cbn [app]. by rewrite Eq at 1.
  - cbn [length]. by rewrite El.
  - constructor; [congruence | done].
Qed.

Lemma feeds_sb l : Forall (λ c, c ≠ IAC) l → feeds P_SB l = (P_SB, []).
Proof.
  induction 1 as [| b l Hb _ IH]; [done |]. cbn [feeds feed].
  destruct (Z.eqb_spec b IAC); [done |]. by rewrite IH.
Qed.

(** [out] is what was delivered, [mid] the bytes between [d] and [s]. *)
Lemma process_loop_run fuel ts out mid inp post len s d :
  len = (length out + length mid + length inp)%nat → s = (length out + length mid)%nat →
  d = length out → (length inp < fuel)%nat →
  ∃ mid', process_loop fuel ts (out ++ mid ++ inp ++ post) len s d =
    Ret (state_of (fst (feeds (phase_of ts) inp)), out ++ snd (feeds (phase_of ts) inp) ++ mid' ++ post,
         (length out + length (snd (feeds (phase_of ts) inp)))%nat) ∧
    (length mid' + length (snd (feeds (phase_of ts) inp)) = length mid + length inp)%nat.
Proof.
  intros -> -> ->. revert ts out mid inp. induction fuel as [| fuel IH]; intros ts out mid inp Hf; [lia |].
  cbn [process_loop]. destruct inp as [| b inp].
  { cbn [length]. destruct (Nat.ltb_spec (length out + length mid) (length out + length mid + 0)); [lia |].
    exists mid. cbn [feeds fst snd app length]. split; [| lia]. rewrite Nat.add_0_r. by destruct ts. }
  cbn [length] in Hf |- *.
  destruct (Nat.ltb_spec (length out + length mid) (length out + length mid + S (length inp))); [| lia].
  rewrite (assoc_L (++) out mid). cbn [app]. rewrite (lookup_behind (out ++ mid) (inp ++ post) b (length out + length mid))
    by (by rewrite length_app).
  cbn [checked]. rewrite outcome_bind_ret.
  assert (Hone : ∀ ts', (length inp < fuel)%nat →
    ∃ mid', process_loop fuel ts' ((out ++ mid) ++ b :: inp ++ post) (length out + length mid + S (length inp))
      (S (length out + length mid)) (length out) =
    Ret (state_of (fst (feeds (phase_of ts') inp)), out ++ snd (feeds (phase_of ts') inp) ++ mid' ++ post,
         (length out + length (snd (feeds (phase_of ts') inp)))%nat) ∧
    (length mid' + length (snd (feeds (phase_of ts') inp)) = length mid + S (length inp))%nat).
  { intros ts' Hlt. destruct (IH ts' out (mid ++ [b]) inp Hlt) as (mid' & E & Hl).
    rewrite length_app in E, Hl. cbn [length] in E, Hl.
    replace (out ++ (mid ++ [b]) ++ inp ++ post) with ((out ++ mid) ++ b :: inp ++ post) in E
      by (by rewrite <- !(assoc_L (++))).
    replace (length out + (length mid + 1) + length inp)%nat with (length out + length mid + S (length inp))%nat in E by lia.
    replace (length out + (length mid + 1))%nat with (S (length out + length mid)) in E by lia.
    exists mid'. split; [exact E | lia]. }
  destruct ts; cbn [phase_of feeds feed].
  - destruct (Z.eqb_spec b IAC) as [-> | Hb].
    + destruct (Hone TS_IAC ltac:(lia)) as (mid' & E & Hl). exists mid'. cbn [phase_of] in *.
      destruct (feeds P_IAC inp). done.
    + assert (Hdata : (if (length out <? length out + length mid)%nat
          then <[length out := b]> ((out ++ mid) ++ b :: inp ++ post) else (out ++ mid) ++ b :: inp ++ post) =
        (out ++ [b]) ++ (match mid with [] => [] | _ :: m => m ++ [b] end) ++ inp ++ post).
      { destruct mid as [| m mid].
        - cbn [length]. rewrite Nat.add_0_r, Nat.ltb_irrefl, app_nil_r. by rewrite <- (assoc_L (++)).
        - cbn [length]. destruct (Nat.ltb_spec (length out) (length out + S (length mid))); [| lia].
          rewrite <- (assoc_L (++)). cbn [app].
          replace (length out) with (length out + 0)%nat by lia. rewrite insert_app_r. cbn [insert list_insert].
          by rewrite <- !(assoc_L (++)). }
      rewrite Hdata.
      destruct (IH TS_DATA (out ++ [b]) (match mid with [] => [] | _ :: m => m ++ [b] end) inp ltac:(lia))
        as (mid' & E & Hl).
      assert (Hlm : length (match mid with [] => [] | _ :: m => m ++ [b] end) = length mid).
      { destruct mid as [| m mid]; [done |]. rewrite length_app. cbn. lia. }
      rewrite Hlm, length_app in E. rewrite Hlm in Hl. cbn [length phase_of] in E, Hl.
      replace (length out + 1 + length mid + length inp)%nat with (length out + length mid + S (length inp))%nat in E by lia.
      replace (length out + 1 + length mid)%nat with (S (length out + length mid)) in E by lia.
      replace (length out + 1)%nat with (S (length out)) in E by lia.
      exists mid'. rewrite E. destruct (feeds P_DATA inp) as [p o]. cbn [fst snd app length] in *.
      split; [| lia]. rewrite <- !(assoc_L (++)). cbn [app]. do 2 f_equal. lia.
  - destruct (Z.eqb_spec b SB) as [-> | Hb].
    + destruct (Hone TS_SB ltac:(lia)) as (mid' & E & Hl). exists mid'. cbn [phase_of] in *.
      destruct (feeds P_SB inp). done.
    + destruct inp as [| c inp].
      * destruct fuel as [| fuel]; [cbn [length] in Hf; lia |]. cbn [process_loop length].
        destruct (Nat.ltb_spec (S (S (length out + length mid))) (length out + length mid + 1)); [lia |].
        exists (mid ++ [b]). cbn [feeds fst snd state_of app length]. rewrite length_app. cbn [length].
        split; [| lia]. rewrite Nat.add_0_r. by rewrite <- !(assoc_L (++)).
      * cbn [length] in Hf |- *. destruct (IH TS_DATA out (mid ++ [b; c]) inp ltac:(lia)) as (mid' & E & Hl).
        rewrite length_app in E, Hl. cbn [length phase_of] in E, Hl.
        replace (out ++ (mid ++ [b; c]) ++ inp ++ post) with ((out ++ mid) ++ b :: (c :: inp) ++ post) in E
          by (by rewrite <- !(assoc_L (++))).
        replace (length out + (length mid + 2) + length inp)%nat
          with (length out + length mid + S (S (length inp)))%nat in E by lia.
        replace (length out + (length mid + 2))%nat with (S (S (length out + length mid))) in E by lia.
        exists mid'. rewrite E. cbn [feeds feed]. destruct (feeds P_DATA inp) as [p o]. cbn [fst snd app] in *.
        split; [done | lia].
  - destruct (skip_sb_spec (length out + length mid + S (length inp)) (out ++ mid) inp post b
      (length out + length mid) (length out + length mid + S (length inp)))
      as (k & b' & rest & Es & Eq & El & Hn & Hl); [by rewrite length_app | rewrite length_app; lia | lia |].
    rewrite Es, length_app.
    assert (Hb' : ((out ++ mid) ++ b :: inp ++ post) !! (length out + length mid + k)%nat = Some b').
    { rewrite <- length_app, lookup_app_r by lia.
      replace (length (out ++ mid) + k - length (out ++ mid))%nat with k by lia.
      change (b :: inp ++ post) with ((b :: inp) ++ post). rewrite Eq, <- (assoc_L (++)). cbn [app].
      apply lookup_behind. done. }
    rewrite Hb'. cbn [checked]. rewrite outcome_bind_ret.
    set (skipped := take k (b :: inp)) in *.
    assert (Hlen : S (length inp) = (k + S (length rest))%nat).
    { apply (f_equal length) in Eq. rewrite length_app, El in Eq. cbn [length] in Eq. done. }
    destruct (IH (if b' =? IAC then TS_SB_IAC else TS_SB) out (mid ++ skipped ++ [b']) rest ltac:(lia))
      as (mid' & E & Hl').
    rewrite !length_app, El in E, Hl'. cbn [length] in E, Hl'.
    replace (out ++ (mid ++ skipped ++ [b']) ++ rest ++ post) with ((out ++ mid) ++ b :: inp ++ post) in E.
    2:{ change (b :: inp ++ post) with ((b :: inp) ++ post). rewrite Eq. by rewrite <- !(assoc_L (++)). }
    replace (length out + (length mid + (k + 1)) + length rest)%nat
      with (length out + length mid + S (length inp))%nat in E by lia.
    replace (length out + (length mid + (k + 1)))%nat with (S (length out + length mid + k)) in E by lia.
    assert (Hfeed : feeds P_SB (b :: inp) = feeds (phase_of (if b' =? IAC then TS_SB_IAC else TS_SB)) rest).
    { rewrite Eq, feeds_app, feeds_sb by done. cbn [feeds feed].
      destruct (b' =? IAC); cbn [phase_of]; by destruct (feeds _ rest). }
    cbn [feeds feed] in Hfeed. rewrite Hfeed. exists mid'. split; [exact E | lia].
  - destruct (Hone (if b =? SE then TS_DATA else TS_SB) ltac:(lia)) as (mid' & E & Hl). exists mid'.
    destruct (b =? SE); cbn [phase_of] in *; by destruct (feeds _ inp).
Qed.

Lemma process_input_spec ts data len : (len ≤ length data)%nat →
  ∃ data', telnet_process_input ts data len =
    Ret (state_of (fst (feeds (phase_of ts) (take len data))), data',
         length (snd (feeds (phase_of ts) (take len data)))) ∧
    take (length (snd (feeds (phase_of ts) (take len data)))) data' = snd (feeds (phase_of ts) (take len data)) ∧
    drop len data' = drop len data ∧ length data' = length data.
Proof.
  intros Hl. unfold telnet_process_input.
  destruct (process_loop_run (S len) ts [] [] (take len data) (drop len data) len 0 0) as (mid' & E & Hm);
    [cbn; rewrite length_take; lia | done | done | rewrite length_take; lia |].
  cbn [app length Nat.add] in E, Hm. rewrite take_drop in E. rewrite E.
  pose proof (feeds_length (phase_of ts) (take len data)) as Hfl. rewrite length_take in Hfl, Hm.
  set (o := snd (feeds (phase_of ts) (take len data))) in *.
  eexists. split; [reflexivity |]. split_and!.
  - apply take_app_length.
  - rewrite (assoc_L (++)). apply drop_app_length'. rewrite length_app. lia.
  - rewrite !length_app, length_drop. lia.
Qed.

(** ** telnet_send_output *)

(** Every newline not behind a carriage return gets one; [prev] is the
    character before. *)
Fixpoint crlf (prev : Z) (l : bytes) : bytes :=
  match l with
  | [] => []
  | b :: l => (if (b =? 10) && negb (prev =? 13) then [13; 10] else [b]) ++ crlf b l
  end.

Lemma crlf_length p l : (length (crlf p l) ≤ 2 * length l)%nat.
Proof.
  revert p. induction l as [| b l IH]; intros p; cbn [crlf]; [done |]. rewrite length_app. specialize (IH b).
  destruct (_ && _); cbn [length]; lia.
Qed.

Lemma crlf_app p l k : crlf p (l ++ k) = crlf p l ++ crlf (default p (list.last l)) k.
Proof.
  revert p. induction l as [| b l IH]; intros p; [done |]. cbn [crlf app].
  rewrite IH, <- (assoc_L (++)). do 3 f_equal. destruct l as [| c l]; [done |].
  change (list.last (b :: c :: l)) with (list.last (c :: l)). destruct (list.last (c :: l)) eqn:El; [done |].
  by apply last_None in El.
Qed.

Lemma crlf_idempotent p l : crlf p (crlf p l) = crlf p l.
Proof.
  revert p. induction l as [| b l IH]; intros p; [done |]. cbn [crlf].
  destruct ((b =? 10) && negb (p =? 13)) eqn:E.
  - apply andb_true_iff in E as [->%Z.eqb_eq _]. cbn [app crlf].
    change (13 =? 10) with false. change (10 =? 10) with true. change (13 =? 13) with true. cbn [andb negb app].
    by rewrite IH.
  - cbn [app crlf]. rewrite E. cbn [app]. by rewrite IH.
Qed.

Lemma send_loop_run fuel post rest done_ buf : (length rest < fuel)%nat →
  (length buf ≤ 2 * length done_)%nat →
  send_loop fuel (done_ ++ rest ++ post) ((length done_ + length rest) * 2 + 1)
    (length buf + length rest) (length done_) buf =
  Ret (buf ++ crlf (default 0 (list.last done_)) rest).
Proof.
  revert done_ rest buf. induction fuel as [| fuel IH]; intros done_ rest buf Hf Hb; [lia |].
  cbn [send_loop]. destruct rest as [| b rest].
  { cbn [length]. destruct (Nat.ltb_spec (length buf) (length buf + 0)); [lia |].
    cbn [crlf]. by rewrite app_nil_r. }
  cbn [length] in Hf |- *. destruct (Nat.ltb_spec (length buf) (length buf + S (length rest))); [| lia].
  cbn [app]. rewrite (lookup_behind done_ _ b (length done_)) by done. cbn [checked]. rewrite outcome_bind_ret.
  assert (Hcr : (if (b =? 10) && negb (length done_ =? 0)%nat then
      p ← checked ((done_ ++ b :: rest ++ post) !! (length done_ - 1)%nat); Ret (negb (p =? 13))
    else Ret (b =? 10)) = Ret ((b =? 10) && negb (default 0 (list.last done_) =? 13))).
  { destruct (b =? 10); [| done]. cbn [andb].
    destruct done_ as [| c done_ _] using rev_ind; [done |].
    rewrite list.last_snoc, length_app. cbn [length from_option id]. destruct (Nat.eqb_spec (length done_ + 1) 0); [lia |].
    cbn [negb]. replace (length done_ + 1 - 1)%nat with (length done_) by lia.
    rewrite <- (assoc_L (++)). cbn [app]. by rewrite lookup_behind. }
  rewrite Hcr, outcome_bind_ret. cbn [crlf]. set (cr := (b =? 10) && _).
  assert (Hb10 : cr = true → b = 10) by (intros [->%Z.eqb_eq _]%andb_true_iff; reflexivity). clearbody cr.
  assert (Hnext : ∀ buf' n, (length buf' < length done_ * 2 + 2)%nat → n = S (length buf' + length rest) →
    send_loop fuel (done_ ++ b :: rest ++ post) ((length done_ + S (length rest)) * 2 + 1) n
      (S (length done_)) (buf' ++ [b]) = Ret (buf' ++ [b] ++ crlf b rest)).
  { intros buf' n Hlen ->. specialize (IH (done_ ++ [b]) rest (buf' ++ [b])).
    rewrite list.last_snoc, !length_app in IH. cbn [length from_option id] in IH. rewrite <- !(assoc_L (++)) in IH. cbn [app] in IH.
    replace (length done_ + 1 + length rest)%nat with (length done_ + S (length rest))%nat in IH by lia.
    replace (length buf' + 1 + length rest)%nat with (S (length buf' + length rest)) in IH by lia.
    replace (length done_ + 1)%nat with (S (length done_)) in IH by lia. apply IH; lia. }
  destruct cr.
  - rewrite length_app. cbn [length].
    destruct (Nat.ltb_spec (length buf + 1) ((length done_ + S (length rest)) * 2 + 1)); [| lia].
    cbn [defined_if]. rewrite outcome_bind_ret, Hnext by (rewrite length_app; cbn; lia).
    rewrite <- (assoc_L (++)), (Hb10 eq_refl). done.
  - destruct (Nat.ltb_spec (length buf) ((length done_ + S (length rest)) * 2 + 1)); [| lia].
    cbn [defined_if]. rewrite outcome_bind_ret, Hnext by lia. done.
Qed.

Lemma send_output_crlf data len : (len ≤ length data)%nat →
  telnet_send_output data len = Ret (crlf 0 (take len data)).
Proof.
  intros Hl. unfold telnet_send_output.
  pose proof (send_loop_run (S len) (drop len data) (take len data) [] []) as E.
  rewrite length_take_le in E by done. cbn [length app Nat.add last default] in E. rewrite take_drop in E.
  apply E; lia.
Qed.

(** ** telnet_negotiate *)

(** What a client may answer before it names its terminal. *)
Inductive reply := R_Cmd (verb opt : Z) | R_Size (data : bytes) | R_Other (opt : Z) (data : bytes).

Definition reply_bytes (r : reply) : bytes :=
  match r with
  | R_Cmd v o => [IAC; v; o]
  | R_Size d => [IAC; SB; NAWS] ++ d ++ [IAC; SE]
  | R_Other o d => [IAC; SB; o] ++ d ++ [IAC; SE]
  end.
Definition reply_ok (r : reply) : Prop :=
  match r with
  | R_Cmd v _ => v ≠ SB
  | R_Size d => Forall (λ b, b ≠ IAC) d
  | R_Other o d => o ≠ TERMINAL_TYPE ∧ o ≠ NAWS ∧ Forall (λ b, b ≠ IAC) d
  end.
Definition reply_size (r : reply) : bytes := match r with R_Size d => d | _ => [] end.
(** Enough turns for the loop over its data. *)
Definition reply_fuel (r : reply) (fuel : nat) : Prop :=
  match r with R_Cmd _ _ => True | R_Size d | R_Other _ d => (length d < fuel)%nat end.
Definition terminal_bytes (name : bytes) : bytes :=
  [IAC; SB; TERMINAL_TYPE; 0] ++ name ++ [IAC; SE].

Lemma read_ch_cons b inp out ch : read_ch (mkSock (b :: inp) out) ch = (b, mkSock inp out).
Proof. reflexivity. Qed.

Lemma read_ch_nil out ch : read_ch (mkSock [] out) ch = (ch, mkSock [] out).
Proof. reflexivity. Qed.

Lemma suboption_run fuel st out data ch inp r b : (length data < fuel)%nat →
  Forall (λ c, c ≠ IAC) data → ch :: inp = data ++ IAC :: r →
  suboption fuel st (mkSock inp out) ch b =
  Ret (mkSock r out, IAC, foldl (λ b c, neg_store st c b) b data).
Proof.
  intros Hf Hd. revert fuel ch inp b Hf. induction Hd as [| c data Hc _ IH]; intros fuel ch inp b Hf E;
    (destruct fuel as [| fuel]; [cbn in Hf; lia |]); cbn [suboption].
  - injection E as -> ->. done.
  - injection E as -> ->. destruct (Z.eqb_spec c IAC); [done |]. cbn [length] in Hf.
    destruct data as [| c' data]; cbn [app]; rewrite read_ch_cons; apply IH; try done; lia.
Qed.

Lemma suboption_first fuel st out data r ch b : (length data < fuel)%nat → Forall (λ c, c ≠ IAC) data →
  (let '(ch, f) := read_ch (mkSock (data ++ IAC :: r) out) ch in suboption fuel st f ch b) =
  Ret (mkSock r out, IAC, foldl (λ b c, neg_store st c b) b data).
Proof.
  intros Hf Hd. destruct data as [| c data]; cbn [app]; rewrite read_ch_cons;
    by apply suboption_run with (data := [] ++ _) || eapply (suboption_run _ _ _ (_ :: _)).
Qed.

Lemma store_size b data : foldl (λ b c, neg_store ST_WINDOWSIZE c b) b data =
  mkNeg (nb_term b) (nb_size b ++ take (4 - length (nb_size b)) data).
Proof.
  revert b. induction data as [| c data IH]; intros b; cbn [foldl].
  - rewrite take_nil, app_nil_r. by destruct b.
  - rewrite IH. cbn [neg_store]. destruct (Nat.ltb_spec (length (nb_size b)) 4) as [Hlt | Hge]; cbn [nb_term nb_size].
    + rewrite length_app. cbn [length]. rewrite <- (assoc_L (++)). do 2 f_equal.
      replace (4 - length (nb_size b))%nat with (S (4 - (length (nb_size b) + 1))) by lia. done.
    + by replace (4 - length (nb_size b))%nat with 0%nat by lia.
Qed.

Lemma store_none b data : foldl (λ b c, neg_store ST_NONE c b) b data = b.
Proof. induction data; done. Qed.

Lemma store_term t s data : foldl (λ b c, neg_store ST_TERMTYPE c b) (mkNeg t s) data =
  match data with
  | [] => mkNeg t s
  | _ => mkNeg (Some (default [] t ++ ((λ c, w8 (tolower (schar c))) <$> data))) s
  end.
Proof.
  revert t. induction data as [| c data IH]; intros t; [done |]. cbn [foldl neg_store nb_term nb_size].
  rewrite IH. destruct data as [| c' data]; [done |]. rewrite (fmap_cons _ c). cbn [from_option id].
  rewrite <- (assoc_L (++)). reflexivity.
Qed.

(** What the negotiation does with one reply that is not the terminal's name. *)
Lemma negotiate_reply r inp out fuel ch b : reply_ok r → reply_fuel r fuel →
  ∃ ch', negotiate_loop (S fuel) (mkSock (reply_bytes r ++ inp) out) ch b =
    negotiate_loop fuel (mkSock inp out) ch' (mkNeg (nb_term b)
      (nb_size b ++ take (4 - length (nb_size b)) (reply_size r))).
Proof.
  intros Hr Hf. cbn [negotiate_loop].
  destruct r as [v o | d | o d]; cbn [reply_bytes reply_size reply_ok app] in *;
    rewrite read_ch_cons; change (IAC =? IAC) with true; cbn [negb]; rewrite read_ch_cons; cbn [reply_fuel] in Hf.
  - destruct (Z.eqb_spec v SB); [done |]. cbn [negb]. rewrite read_ch_cons. exists o. rewrite take_nil, app_nil_r. by destruct b.
  - change (SB =? SB) with true. cbn [negb]. rewrite read_ch_cons.
    change (NAWS =? TERMINAL_TYPE) with false. change (NAWS =? NAWS) with true. cbn beta iota zeta.
    rewrite <- (assoc_L (++)). cbn [app].
    pose proof (suboption_first fuel ST_WINDOWSIZE out d (SE :: inp) NAWS b Hf Hr) as E.
    destruct (read_ch (mkSock (d ++ IAC :: SE :: inp) out) NAWS) as [c f]. rewrite E, outcome_bind_ret.
    rewrite read_ch_cons, store_size. by exists SE.
  - destruct Hr as (Hot & Hon & Hd). change (SB =? SB) with true. cbn [negb]. rewrite read_ch_cons.
    destruct (Z.eqb_spec o TERMINAL_TYPE); [done |]. destruct (Z.eqb_spec o NAWS); [done |].
    rewrite <- (assoc_L (++)). cbn [app].
    pose proof (suboption_first fuel ST_NONE out d (SE :: inp) o b Hf Hd) as E.
    destruct (read_ch (mkSock (d ++ IAC :: SE :: inp) out) o) as [c f]. rewrite E, outcome_bind_ret.
    rewrite read_ch_cons, store_none. exists SE. rewrite take_nil, app_nil_r. by destruct b.
Qed.

Lemma negotiate_terminal name rest out fuel ch b : (length name < fuel)%nat →
  Forall (λ c, c ≠ IAC) name → name ≠ [] → nb_term b = None →
  negotiate_loop (S fuel) (mkSock (terminal_bytes name ++ rest) out) ch b =
  Ret (Some (mkSock rest out, mkNeg (Some ((λ c, w8 (tolower (schar c))) <$> name)) (nb_size b))).
Proof.
  intros Hf Hname Hne Ht. cbn [negotiate_loop]. unfold terminal_bytes. cbn [app]. rewrite !read_ch_cons.
  change (IAC =? IAC) with true. change (SB =? SB) with true. change (TERMINAL_TYPE =? TERMINAL_TYPE) with true.
  cbn [negb]. cbn beta iota zeta. rewrite <- !(assoc_L (++)). cbn [app].
  pose proof (suboption_first fuel ST_TERMTYPE out name (SE :: rest) 0 b Hf Hname) as E.
  destruct (read_ch (mkSock (name ++ IAC :: SE :: rest) out) 0) as [c f]. rewrite E, outcome_bind_ret.
  rewrite read_ch_cons. destruct b as [t s]. cbn [nb_term nb_size] in *. subst t.
  rewrite store_term. by destruct name.
Qed.

Lemma reply_bytes_cons r rs : mjoin (reply_bytes <$> r :: rs) = reply_bytes r ++ mjoin (reply_bytes <$> rs).
Proof. reflexivity. Qed.
Lemma reply_size_cons r rs : mjoin (reply_size <$> r :: rs) = reply_size r ++ mjoin (reply_size <$> rs).
Proof. reflexivity. Qed.

Lemma negotiate_replies rs name out rest fuel ch b : Forall reply_ok rs →
  Forall (λ c, c ≠ IAC) name → name ≠ [] → (length (mjoin (reply_bytes <$> rs)) + length name + 1 < fuel)%nat →
  nb_term b = None → (length (nb_size b) ≤ 4)%nat →
  negotiate_loop fuel (mkSock (mjoin (reply_bytes <$> rs) ++ terminal_bytes name ++ rest) out) ch b =
  Ret (Some (mkSock rest out,
    mkNeg (Some ((λ c, w8 (tolower (schar c))) <$> name))
      (nb_size b ++ take (4 - length (nb_size b)) (mjoin (reply_size <$> rs))))).
Proof.
  intros Hrs Hname Hne. revert fuel ch b. induction Hrs as [| r rs Hr _ IH]; intros fuel ch b Hf Ht Hs;
    (destruct fuel as [| fuel]; [lia |]).
  - change (mjoin (reply_bytes <$> [])) with (@nil Z) in *. change (mjoin (reply_size <$> [])) with (@nil Z).
    cbn [app length] in Hf |- *. rewrite negotiate_terminal by (done || lia). by rewrite take_nil, app_nil_r.
  - rewrite reply_bytes_cons, reply_size_cons, <- (assoc_L (++)) in *. rewrite length_app in Hf.
    assert (1 ≤ length (reply_bytes r))%nat by (destruct r; cbn; lia).
    assert (reply_fuel r fuel) by (destruct r; cbn in Hf |- *; rewrite ?length_app in Hf; lia || done).
    destruct (negotiate_reply r (mjoin (reply_bytes <$> rs) ++ terminal_bytes name ++ rest) out fuel ch b) as [ch' ->]; [done | done |].
    rewrite IH; [| lia | done | cbn [nb_size]; rewrite length_app, length_take; lia].
    cbn [nb_size]. rewrite length_app, length_take, <- (assoc_L (++)), take_app.
    by replace (4 - (length (nb_size b) + (4 - length (nb_size b)) `min` length (reply_size r)))%nat
      with (4 - length (nb_size b) - length (reply_size r))%nat by lia.
Qed.

(** After the client has closed, the loop over a suboption reads the same
    character for ever. *)
Lemma suboption_hangs fuel st out ch b : ch ≠ IAC → suboption fuel st (mkSock [] out) ch b = NoFuel.
Proof.
  intros Hc. revert b. induction fuel as [| fuel IH]; intros b; [done |]. cbn [suboption].
  destruct (Z.eqb_spec ch IAC); [done |]. rewrite read_ch_nil. apply IH.
Qed.

Lemma suboption_hangs_data fuel st out d ch b : ch ≠ IAC → Forall (λ c, c ≠ IAC) d →
  suboption fuel st (mkSock d out) ch b = NoFuel.
Proof.
  intros Hc Hd. revert fuel ch b Hc. induction Hd as [| c d Hcd _ IH]; intros fuel ch b Hc; [by apply suboption_hangs |].
  destruct fuel as [| fuel]; [done |]. cbn [suboption]. destruct (Z.eqb_spec ch IAC); [done |].
  rewrite read_ch_cons. by apply IH.
Qed.

Lemma suboption_cut fuel st out d ch b : Forall (λ c, c ≠ IAC) d → ch ≠ IAC →
  (let '(ch, f) := read_ch (mkSock d out) ch in suboption fuel st f ch b) = NoFuel.
Proof.
  intros Hd Hc. destruct Hd as [| c d Hcd Hd].
  - by apply suboption_hangs.
  - rewrite read_ch_cons. by apply suboption_hangs_data.
Qed.


Lemma crlf_newlines p l i : p ≠ 13 → crlf p l !! i = Some 10 → ∃ j, i = S j ∧ crlf p l !! j = Some 13.
Proof.
  intros Hp. assert (Hgen : ∀ l p i, crlf p l !! i = Some 10 →
    (∃ j, i = S j ∧ crlf p l !! j = Some 13) ∨ (i = 0%nat ∧ p = 13)).
  { clear. induction l as [| b l IH]; intros p i Hi; [done |]. cbn [crlf] in Hi |- *.
    destruct ((b =? 10) && negb (p =? 13)) eqn:E; cbn [app] in Hi |- *.
    - destruct i as [| [| i]]; cbn in Hi; [done | left; by exists 0%nat |].
      apply andb_true_iff in E as [->%Z.eqb_eq _].
      destruct (IH _ _ Hi) as [(j & -> & Hj) | [-> H13]]; [| done]. left. by exists (S (S j)).
    - destruct i as [| i]; cbn in Hi.
      + injection Hi as ->. cbn in E. right. apply negb_false_iff, Z.eqb_eq in E. done.
      + destruct (IH _ _ Hi) as [(j & -> & Hj) | [-> ->]]; left; [by exists (S j) | by exists 0%nat]. }
  intros Hi. by destruct (Hgen l p i Hi) as [H | [_ ->]].
Qed.

Lemma crlf_filter p l : filter (λ c, c ≠ 13) (crlf p l) = filter (λ c, c ≠ 13) l.
Proof.
  revert p. induction l as [| b l IH]; intros p; [done |]. cbn [crlf]. rewrite list.filter_app, IH, list.filter_cons.
  destruct ((b =? 10) && negb (p =? 13)) eqn:E; [apply andb_true_iff in E as [->%Z.eqb_eq _]; done |].
  rewrite list.filter_cons. by destruct (decide (b ≠ 13)).
Qed.


Lemma suboption_short fuel st out data ch inp r b : (fuel ≤ length data)%nat →
  Forall (λ c, c ≠ IAC) data → ch :: inp = data ++ IAC :: r →
  suboption fuel st (mkSock inp out) ch b = NoFuel.
Proof.
  intros Hf Hd. revert fuel ch inp b Hf. induction Hd as [| c data Hc _ IH]; intros fuel ch inp b Hf E;
    (destruct fuel as [| fuel]; [done |]); cbn [length] in Hf; [lia |]. cbn [suboption].
  injection E as -> ->. destruct (Z.eqb_spec c IAC); [done |].
  destruct data as [| c' data]; cbn [app]; rewrite read_ch_cons; apply IH; done || lia.
Qed.

Lemma suboption_first_short fuel st out data r ch b : (fuel ≤ length data)%nat → Forall (λ c, c ≠ IAC) data →
  (let '(ch, f) := read_ch (mkSock (data ++ IAC :: r) out) ch in suboption fuel st f ch b) = NoFuel.
Proof.
  intros Hf Hd. destruct data as [| c data]; cbn [app]; rewrite read_ch_cons.
  - by eapply suboption_short.
  - by eapply (suboption_short _ _ _ (_ :: _)).
Qed.

Lemma negotiate_reply_any r inp out fuel ch b : reply_ok r → ∃ ch' b',
  negotiate_loop (S fuel) (mkSock (reply_bytes r ++ inp) out) ch b =
    negotiate_loop fuel (mkSock inp out) ch' b' ∨
  negotiate_loop (S fuel) (mkSock (reply_bytes r ++ inp) out) ch b = NoFuel.
Proof.
  intros Hr. assert (Hc : reply_fuel r fuel ∨ ∃ o d, (fuel ≤ length d)%nat ∧ Forall (λ c, c ≠ IAC) d ∧
    o ≠ TERMINAL_TYPE ∧ reply_bytes r = [IAC; SB; o] ++ d ++ [IAC; SE]).
  { destruct r as [v o | d | o d]; cbn [reply_fuel reply_ok] in *; [by left | |].
    - destruct (Nat.lt_ge_cases (length d) fuel); [by left | right]. by exists NAWS, d.
    - destruct (Nat.lt_ge_cases (length d) fuel); [by left | right]. exists o, d. destruct Hr as (Hot & _ & Hd). split_and!; done. }
  destruct Hc as [Hf | (o & d & Hf & Hd & Ho & ->)].
  - destruct (negotiate_reply r inp out fuel ch b Hr Hf) as [ch' ->]. eauto.
  - exists 0, b. right. cbn [negotiate_loop app]. rewrite !read_ch_cons.
    change (IAC =? IAC) with true. change (SB =? SB) with true. cbn [negb].
    destruct (Z.eqb_spec o TERMINAL_TYPE) as [-> | _]; [done |].
    set (f := mkSock ((d ++ [IAC; SE]) ++ inp) out). set (st := if o =? NAWS then ST_WINDOWSIZE else ST_NONE).
    replace (if o =? NAWS then (ST_WINDOWSIZE, false, o, f) else (ST_NONE, false, o, f))
      with (st, false, o, f) by (unfold st; by destruct (o =? NAWS)).
    unfold f. rewrite <- (assoc_L (++)). cbn [app].
    pose proof (suboption_first_short fuel st out d (SE :: inp) o b Hf Hd) as E.
    destruct (read_ch (mkSock (d ++ IAC :: SE :: inp) out) o) as [c' f']. by rewrite E.
Qed.

(** A suboption the connection ends in. *)
Lemma negotiate_cut rs d out fuel ch b : Forall reply_ok rs → Forall (λ c, c ≠ IAC) d → d ≠ [] →
  negotiate_loop fuel (mkSock (mjoin (reply_bytes <$> rs) ++ [IAC; SB] ++ d) out) ch b = NoFuel.
Proof.
  intros Hrs Hd Hne. revert fuel ch b. induction Hrs as [| r rs Hr _ IH]; intros fuel ch b;
    (destruct fuel as [| fuel]; [done |]).
  - cbn [negotiate_loop]. change (mjoin (reply_bytes <$> [])) with (@nil Z). cbn [app]. rewrite !read_ch_cons.
    change (IAC =? IAC) with true. change (SB =? SB) with true. cbn [negb].
    destruct Hd as [| o d Ho Hd]; [done |]. rewrite read_ch_cons.
    destruct (Z.eqb_spec o TERMINAL_TYPE) as [-> | _].
    + destruct Hd as [| c d Hc Hd]; rewrite ?read_ch_nil, ?read_ch_cons.
      * cbn beta iota zeta. by rewrite ?read_ch_nil, suboption_hangs.
      * pose proof (suboption_cut fuel ST_TERMTYPE out d c b Hd Hc) as E.
        destruct (read_ch (mkSock d out) c) as [c' f]. by rewrite E.
    + set (st := if o =? NAWS then ST_WINDOWSIZE else ST_NONE).
      replace (if o =? NAWS then (ST_WINDOWSIZE, false, o, mkSock d out) else (ST_NONE, false, o, mkSock d out))
        with (st, false, o, mkSock d out) by (unfold st; by destruct (o =? NAWS)).
      pose proof (suboption_cut fuel st out d o b Hd Ho) as E.
      destruct (read_ch (mkSock d out) o) as [c' f]. by rewrite E.
  - rewrite reply_bytes_cons, <- (assoc_L (++)).
    destruct (negotiate_reply_any r (mjoin (reply_bytes <$> rs) ++ [IAC; SB] ++ d) out fuel ch b Hr)
      as (ch' & b' & [-> | ->]); [apply IH | done].
Qed.

(** ** The relay *)

(** The buffers the relay gets to see, from the pseudo terminal and from the
    connection. *)
Fixpoint relayed (ps : list pollret) : list bytes * list bytes :=
  match ps with
  | [] => ([], [])
  | mkPoll m c :: ps =>
      let '(ms, cs) := relayed ps in
      match m, c with
      | Some None, _ => ([], [])
      | _, Some (Some []) => (option_list (mjoin m), [])
      | _, _ => (option_list (mjoin m) ++ ms, option_list (mjoin c) ++ cs)
      end
  end.

(** No buffer ends between the verb of a command and its option. *)
Fixpoint unsplit (p : phase) (bufs : list bytes) : Prop :=
  match bufs with
  | [] => True
  | b :: bufs => fst (feeds p b) ≠ P_VERB ∧ unsplit (fst (feeds p b)) bufs
  end.

Lemma phase_of_state_of p : p ≠ P_VERB → phase_of (state_of p) = p.
Proof. by destruct p. Qed.

Lemma process_input_whole ts buf : ∃ buf',
  telnet_process_input ts buf (length buf) =
    Ret (state_of (fst (feeds (phase_of ts) buf)), buf', length (snd (feeds (phase_of ts) buf))) ∧
  take (length (snd (feeds (phase_of ts) buf))) buf' = snd (feeds (phase_of ts) buf).
Proof.
  destruct (process_input_spec ts buf (length buf)) as (buf' & E & Ht & _); [done |].
  rewrite firstn_all in E, Ht. eauto.
Qed.

Lemma send_output_whole buf : telnet_send_output buf (length buf) = Ret (crlf 0 buf).
Proof. rewrite send_output_crlf by done. by rewrite firstn_all. Qed.

(** The state and what goes to the pseudo terminal after the buffers [bufs]. *)
Fixpoint receives (ts : telnet_state) (bufs : list bytes) : telnet_state * bytes :=
  match bufs with
  | [] => (ts, [])
  | b :: bufs =>
      let '(p, o) := feeds (phase_of ts) b in
      let '(ts, os) := receives (state_of p) bufs in (ts, o ++ os)
  end.

Lemma receives_unsplit p bufs : p ≠ P_VERB → unsplit p bufs →
  receives (state_of p) bufs = (state_of (fst (feeds p (concat bufs))), snd (feeds p (concat bufs))).
Proof.
  revert p. induction bufs as [| b bufs IH]; intros p Hp Hu; [done |].
  destruct Hu as [Hv Hu]. cbn [receives concat]. rewrite phase_of_state_of, feeds_app by done.
  destruct (feeds p b) as [p1 o1]. cbn [fst] in Hv, Hu. rewrite IH by done.
  by destruct (feeds p1 (concat bufs)).
Qed.

Lemma relay_loop_spec ps ts m c : relay_loop ps (mkRelay ts m c) =
  Ret (mkRelay (fst (receives ts (snd (relayed ps)))) (m ++ snd (receives ts (snd (relayed ps))))
        (c ++ concat (crlf 0 <$> fst (relayed ps)))).
Proof.
  revert ts m c. induction ps as [| [pm pc] ps IH]; intros ts m c; cbn [relay_loop relayed].
  { cbn. by rewrite !app_nil_r. }
  assert (Hconn : ∀ c', ('(more, r) ← (match pc with
      | None => Ret (true, mkRelay ts m c')
      | Some (Some []) => Ret (false, mkRelay ts m c')
      | Some b => '(ts, buf, i) ← telnet_process_input ts (default [] b) (length (default [] b));
          Ret (true, mkRelay ts (m ++ take i buf) c')
      end); if more : bool then relay_loop ps r else Ret r) =
    Ret (let '(ms, cs) := match pc with Some (Some []) => ([], []) | _ => relayed ps end in
      mkRelay (fst (receives ts (option_list (mjoin pc) ++ cs)))
        (m ++ snd (receives ts (option_list (mjoin pc) ++ cs))) (c' ++ concat (crlf 0 <$> ms)))).
  { intros c'. destruct pc as [[b |] |].
    - destruct b as [| x b].
      + rewrite outcome_bind_ret. cbn. destruct ts; cbn; by rewrite ?app_nil_r.
      + cbn [from_option id]. destruct (process_input_whole ts (x :: b)) as (buf' & E & Ht).
        rewrite E, !outcome_bind_ret, Ht, IH. destruct (relayed ps) as [ms cs]. 
        change (option_list (mjoin (Some (Some (x :: b)))) ++ cs) with ((x :: b) :: cs). cbn [receives].
        destruct (feeds (phase_of ts) (x :: b)) as [p o]. cbn [fst snd].
        destruct (receives (state_of p) cs) as [ts' os]. cbn [fst snd]. by rewrite <- (assoc_L (++)).
    - cbn [from_option id]. destruct (process_input_whole ts []) as (buf' & E & Ht). rewrite E, !outcome_bind_ret, Ht, IH.
      destruct (relayed ps) as [ms cs]. cbn. rewrite app_nil_r. by destruct ts.
    - rewrite outcome_bind_ret, IH. by destruct (relayed ps) as [ms cs]. }
  unfold relay_body. cbn [pr_master pr_conn rl_ts rl_master rl_conn].
  destruct pm as [[buf |] |].
  - rewrite send_output_whole, outcome_bind_ret. etrans; [apply Hconn |].
    destruct (relayed ps) as [ms cs].
    destruct pc as [[[| x b] |] |]; cbn; rewrite ?app_nil_r, <- ?(assoc_L (++)); by destruct ts.
  - rewrite outcome_bind_ret. destruct (relayed ps). cbn. by rewrite !app_nil_r.
  - etrans; [apply Hconn |]. destruct (relayed ps) as [ms cs]. destruct pc as [[[| x b] |] |]; by destruct ts.
Qed.

(** ** Properties *)

(** C9: telnet_process_input refines the protocol automaton: on any buffer it
    ends, leaves exactly the characters the automaton delivers at the front of
    the buffer and returns their number, keeps the automaton's phase (one that
    skips an option is forgotten), and does not touch the buffer beyond [len]. *)
Theorem telnet_process_input_refines ts data len (Hlen : (len ≤ length data)%nat) :
  ∃ data' n, telnet_process_input ts data len = Ret (state_of (fst (feeds (phase_of ts) (take len data))), data', n) ∧
    take n data' = snd (feeds (phase_of ts) (take len data)) ∧ (n ≤ len)%nat ∧
    drop len data' = drop len data ∧ length data' = length data.
Proof.
  destruct (process_input_spec ts data len Hlen) as (data' & E & Ht & Hd & Hl). eexists data', _.
  split; [exact E |]. split_and!; [exact Ht | | exact Hd | exact Hl].
  etrans; [apply feeds_length |]. rewrite length_take. lia.
Qed.

Lemma telnet_process_input_refines_witness :
  ∃ data' n, telnet_process_input TS_SB [1; 0xff; 0xf0; 104; 0xff; 0xfb; 31; 105; 7] 8 = Ret (TS_DATA, data', n) ∧
    take n data' = [104; 105] ∧ (n ≤ 8)%nat ∧ drop 8 data' = [7] ∧ length data' = 9%nat.
Proof. apply (telnet_process_input_refines TS_SB [1; 0xff; 0xf0; 104; 0xff; 0xfb; 31; 105; 7] 8). cbn. lia. Defined.

(** C10: over any sequence of polls the relay never leaves its buffers; the
    state it keeps and the bytes it hands to the pseudo terminal are those of
    the automaton run over everything received, however the network cut it
    into buffers, as long as no cut falls between a verb and its option; what
    it sends is each buffer read with its newlines translated. *)
Theorem beTelnet_relay_refines ps (Hcuts : unsplit P_DATA (snd (relayed ps))) :
  beTelnet_relay ps = Ret (mkRelay
    (state_of (fst (feeds P_DATA (concat (snd (relayed ps)))))) (snd (feeds P_DATA (concat (snd (relayed ps)))))
    (concat (crlf 0 <$> fst (relayed ps)))).
Proof.
  unfold beTelnet_relay. rewrite relay_loop_spec. change TS_DATA with (state_of P_DATA).
  by rewrite (receives_unsplit P_DATA).
Qed.

Definition sample_polls : list pollret :=
  [mkPoll (Some (Some [104; 10])) (Some (Some [97; 0xff])); mkPoll None (Some (Some [0xfa; 31; 0; 0xff]));
   mkPoll (Some (Some [10])) (Some (Some [0xf0; 98]));
   mkPoll None (Some (Some [])); mkPoll None (Some (Some [99]))].

Lemma beTelnet_relay_refines_witness :
  beTelnet_relay sample_polls = Ret (mkRelay TS_DATA [97; 98] [104; 13; 10; 13; 10]).
Proof.
  apply (beTelnet_relay_refines sample_polls). change (snd (relayed sample_polls)) with [[97; 0xff]; [0xfa; 31; 0; 0xff]; [0xf0; 98]].
  cbn. split_and!; discriminate || done.
Defined.

(** the state kept between buffers is too small: whenever a buffer ends
    after a verb, the option that begins the next one is handed on as data,
    which the same bytes in one buffer are not. *)
Theorem split_option_leaks ts pre v o (Hpre : fst (feeds (phase_of ts) pre) = P_DATA)
    (Hv : v ≠ SB) (Ho : o ≠ IAC) :
  (∃ d n, telnet_process_input ts (pre ++ [IAC; v; o]) (length pre + 3) = Ret (TS_DATA, d, n) ∧
    take n d = snd (feeds (phase_of ts) pre)) ∧
  (∃ d n, telnet_process_input ts (pre ++ [IAC; v]) (length pre + 2) = Ret (TS_DATA, d, n) ∧
    take n d = snd (feeds (phase_of ts) pre)) ∧
  telnet_process_input TS_DATA [o] 1 = Ret (TS_DATA, [o], 1%nat).
Proof.
  assert (Hcut : ∀ tl, (fst (feeds P_DATA tl) = P_DATA ∨ fst (feeds P_DATA tl) = P_VERB) → snd (feeds P_DATA tl) = [] →
    ∃ d n, telnet_process_input ts (pre ++ tl) (length pre + length tl) = Ret (TS_DATA, d, n) ∧
    take n d = snd (feeds (phase_of ts) pre)).
  { intros tl Hp Hs. destruct (process_input_whole ts (pre ++ tl)) as (d & E & Ht). rewrite length_app in E.
    rewrite feeds_app in E, Ht. destruct (feeds (phase_of ts) pre) as [p1 o1]. cbn [fst snd] in *. subst p1.
    destruct (feeds P_DATA tl) as [p2 o2]. cbn [fst snd] in *. subst o2. rewrite app_nil_r in E, Ht.
    destruct Hp as [-> | ->]; eauto. }
  assert (Hev : (IAC =? IAC) = true ∧ (v =? SB) = false) by (split; [done | by apply Z.eqb_neq]).
  destruct Hev as [Hi Hv']. split_and!.
  - apply (Hcut [IAC; v; o]); 
      repeat first [progress cbn [feeds feed] | rewrite Hi | rewrite Hv']; [by left | done].
  - apply (Hcut [IAC; v]); 
      repeat first [progress cbn [feeds feed] | rewrite Hi | rewrite Hv']; [by right | done].
  - unfold telnet_process_input. cbn. apply Z.eqb_neq in Ho. by rewrite Ho.
Qed.

Lemma split_option_leaks_witness : 
  (∃ d n, telnet_process_input TS_DATA ([] ++ [0xff; 0xfb; 31]) (length (@nil Z) + 3) = Ret (TS_DATA, d, n) ∧
    take n d = []) ∧
  (∃ d n, telnet_process_input TS_DATA ([] ++ [0xff; 0xfb]) (length (@nil Z) + 2) = Ret (TS_DATA, d, n) ∧
    take n d = []) ∧
  telnet_process_input TS_DATA [31] 1 = Ret (TS_DATA, [31], 1%nat).
Proof. apply (split_option_leaks TS_DATA [] 0xfb 31); [reflexivity | discriminate | discriminate]. Defined.

(** telnet_send_output writes the buffer with a carriage return put in
    front of every newline that has none: it stays inside the 2 * len + 1 bytes
    it allocates, drops and reorders nothing, and translating twice is
    translating once. *)
Theorem telnet_send_output_crlf data len (Hlen : (len ≤ length data)%nat) :
  ∃ out, telnet_send_output data len = Ret out ∧ (length out ≤ 2 * len)%nat ∧
    (∀ i, out !! i = Some 10 → ∃ j, i = S j ∧ out !! j = Some 13) ∧
    filter (λ c, c ≠ 13) out = filter (λ c, c ≠ 13) (take len data) ∧
    telnet_send_output out (length out) = Ret out.
Proof.
  exists (crlf 0 (take len data)). split_and!.
  - by apply send_output_crlf.
  - etrans; [apply crlf_length |]. rewrite length_take. lia.
  - intros i. by apply crlf_newlines.
  - apply crlf_filter.
  - rewrite send_output_whole. by rewrite crlf_idempotent.
Qed.

Lemma telnet_send_output_crlf_witness :
  ∃ out, telnet_send_output [104; 10; 13; 10; 10; 99] 5 = Ret out ∧ (length out ≤ 2 * 5)%nat ∧
    (∀ i, out !! i = Some 10 → ∃ j, i = S j ∧ out !! j = Some 13) ∧
    filter (λ c, c ≠ 13) out = [104; 10; 10; 10] ∧
    telnet_send_output out (length out) = Ret out.
Proof. apply (telnet_send_output_crlf [104; 10; 13; 10; 10; 99] 5). cbn. lia. Defined.

(** against a client that answers with commands, window sizes and other
    suboptions and then names its terminal, telnet_negotiate sends its request,
    consumes exactly those replies and returns the name in lower case; the
    window size is made of the first four bytes sent (as signed characters), or
    is -1 by -1 when there are fewer. *)
Theorem telnet_negotiate_replies rs name rest out ch fuel
    (Hrs : Forall reply_ok rs) (Hname : Forall (λ c, c ≠ IAC) name) (Hne : name ≠ [])
    (Hfuel : (length (mjoin (reply_bytes <$> rs)) + length name + 1 < fuel)%nat) :
  telnet_negotiate fuel (mkSock (mjoin (reply_bytes <$> rs) ++ terminal_bytes name ++ rest) out) ch =
  Ret (NegDone ((λ c, w8 (tolower (schar c))) <$> name)
    (match take 4 (mjoin (reply_size <$> rs)) with [a; b; _; _] => Z.shiftl (schar a) 8 + schar b | _ => -1 end)
    (match take 4 (mjoin (reply_size <$> rs)) with [_; _; c; d] => Z.shiftl (schar c) 8 + schar d | _ => -1 end)
    (mkSock rest (out ++ request))).
Proof.
  unfold telnet_negotiate. cbn [f_write sock_ops sk_write snd sk_in sk_out].
  rewrite (negotiate_replies rs name (out ++ request) rest fuel ch (mkNeg None [])) by (done || cbn; lia).
  rewrite outcome_bind_ret. cbn [nb_size nb_term length app Nat.sub].
  destruct (take 4 (mjoin (reply_size <$> rs))) as [| a [| b [| c [| d [| e l]]]]]; reflexivity.
Qed.

Lemma telnet_negotiate_replies_witness :
  telnet_negotiate 40 (mkSock ([0xff; 0xfd; 1; 0xff; 0xfa; 31; 0; 80; 0; 24; 0xff; 0xf0;
    0xff; 0xfa; 24; 0; 88; 84; 0xff; 0xf0; 113]) []) 0 =
  Ret (NegDone [120; 116] 80 24 (mkSock [113] request)).
Proof.
  apply (telnet_negotiate_replies [R_Cmd 0xfd 1; R_Size [0; 80; 0; 24]] [88; 84] [113] [] 0 40).
  - repeat constructor; discriminate.
  - repeat constructor; discriminate.
  - discriminate.
  - cbn. lia.
Defined.

(** when the connection ends inside a suboption telnet_negotiate does not
    return: the result of read is not looked at and the last character is
    taken again and again. *)
Theorem telnet_negotiate_hangs rs d out ch fuel (Hrs : Forall reply_ok rs) (Hd : Forall (λ c, c ≠ IAC) d) (Hne : d ≠ []) :
  telnet_negotiate fuel (mkSock (mjoin (reply_bytes <$> rs) ++ [IAC; SB] ++ d) out) ch = NoFuel.
Proof.
  unfold telnet_negotiate. cbn [f_write sock_ops sk_write snd sk_in sk_out].
  by rewrite negotiate_cut.
Qed.

Lemma telnet_negotiate_hangs_witness :
  telnet_negotiate 5000 (mkSock [0xff; 0xfd; 1; 0xff; 0xfa; 24; 0; 120] []) 0 = NoFuel.
Proof.
  apply (telnet_negotiate_hangs [R_Cmd 0xfd 1] [24; 0; 120] [] 0 5000).
  - repeat constructor; discriminate.
  - repeat constructor; discriminate.
  - discriminate.
Defined.
